(* ===== verification/_CoqProject ===== *)
-Q . S2P
Prelude.v
FreeStack.v
Ring.v
WorkQueue.v
ConnectionPool.v
Conf.v
Router.v
HttpUtils.v
Json.v
JsonValue.v
JsonBuf.v
CFloat.v
QueryString.v
ResponsePool.v
HttpResponse.v
HttpRequest.v
FileCache.v
Files.v
StaticAnswers.v
Worker.v
Server.v
Session.v
Heartbeat.v
Template.v
Subprocess.v
Packages.v
PackagesRun.v
Man.v
ManRender.v
ManCache.v
ManRun.v
ManHandlers.v
Networking.v
NetworkingHandlers.v
MetricsCollect.v
MetricsJson.v
MetricsProcess.v
Metrics.v
MetricsRun.v
MetricsHandlers.v
Log.v
Storage.v
Sandbox.v
Main.v
Site.v
