(* ===== verification/Prelude.v ===== *)
(** * MiniWeb: a model of the server and its correctness

    MiniWeb is a small HTTP server (C, kqueue).  One dispatcher thread accepts sockets
    and queues the readable ones; worker threads take them from the queue, read a request
    into the connection object, look the path up in the route tables and run a handler,
    which answers through a response object.

    ** Files and the code they model

    - Prelude.v (this file): notation, automation, bytes and C strings, printf of
      integers.
    - FreeStack.v, Ring.v: the two array idioms several components share, a stack of free
      slots and a circular buffer, with the lemmas their clients use.
    - WorkQueue.v: net/work_queue.c.  [BoundedFifo] is what the dispatcher and the workers
      rely on; its instance is the circular buffer.
    - ConnectionPool.v: net/connection_pool.c.  [pool_wf] is the invariant of every pool
      reachable by allocations, frees and the workers' updates.
    - Conf.v: core/conf.c, core/conf_defaults.c, core/conf_validation.c and [parse_args]
      of app_main.c.
    - Router.v: router/url_registry*.c, router/router.c, router/module_attach.c and the
      [*_module_attach_routes] functions.
    - HttpUtils.v: http/utils.c.
    - ResponsePool.v: http/response_pool.c with create and free of http/response_api.c.
    - HttpResponse.v: http/response_io.c, http/response_api.c and the sending helpers of
      http/response_helpers.c.  [delivers] is what every handler's theorem says of its
      answer: a client reads back the body, or the call failed after a proper prefix.
    - HttpRequest.v: request headers and client addresses (http/response_helpers.c).
    - FileCache.v, Files.v: http/response_file_cache.c, http/response_file.c and the static
      handlers of router/route_table.c, over a file system given as a parameter;
      StaticAnswers.v: every answer of the static handlers, listings and redirects included.
    - Worker.v, Server.v: net/worker.c and net/server.c.  [sys_step] interleaves the
      dispatcher's steps with iterations of the workers; the invariants of Server.v hold in
      every reachable state.  The handlers are a parameter with a state of its own
      ([HandlerState]) and a contract ([HandlerLaws], [HandlerAnswers]); Session.v: what a
      client of any such handlers reads on a connection that stays open.
    - Heartbeat.v: core/heartbeat*.c, the scheduler thread as a step relation.
    - Template.v: render/template_render.c, the hot-view cache and view handler.
    - Subprocess.v: http/utils_subprocess.c.  [Runner] is what the modules assume of it.
    - Json.v, JsonValue.v, QueryString.v: readers of JSON arrays of strings and of JSON
      values, the specification of what the modules print, and the query-string parser two
      modules have a copy of.
    - JsonBuf.v, CFloat.v: the buffer that text is printed into piece by piece, and the
      floats of C with their printf.
    - Packages.v, PackagesRun.v: modules/packages/packages_module.c: the commands, the ring
      and the answers; requests that overlap.
    - Man.v, ManRender.v, ManCache.v, ManRun.v, ManHandlers.v: modules/man/man_query.c,
      man_index.c and man_render.c: data and lookups; caches, rendering and handlers, with
      what the handlers may start and write; where a served page comes from; requests that
      overlap; the answers.
    - Networking.v, NetworkingHandlers.v: modules/networking/networking_module.c.  The
      heartbeat callback, requests and the clean-up run in any order ([net_run]).
    - MetricsCollect.v, MetricsJson.v, MetricsProcess.v, Metrics.v, MetricsRun.v,
      MetricsHandlers.v: modules/metrics: the collectors, the sections of the document and
      the values they mean, the process lists, the ring with the snapshot and the whole
      document, the interleavings of its critical sections ([met_step]), the endpoint.
    - Log.v, Storage.v: core/log.c and the storage façade, storage/sqlite_*.c.
    - Sandbox.v: platform/openbsd/security.c, against what the other files prove that
      requests start, write and read.
    - Main.v: app_main.c with conf_dump: the program up to the server loop and after it.
    - Site.v: the handlers of all modules behind the workers; they keep the contract, so
      that the theorems of Server.v and Session.v hold of the program from its start.

    ** Theorems

    Safety of the connections: [Server.server_invariant], [Server.no_connection_stalls] and
    the invariants of the pool and the queue below them.  The whole program:
    [Site.site_answers_read], one response a client can delimit for each request counted.  Answers: writes are complete and
    end ([HttpResponse]), a handler delivers its body or an error page.  Caches (files,
    templates, hot views, package queries, manual pages, network samples, the metrics
    snapshot): what is served was stored for the same key and is recent enough.  JSON: a
    document that was printed piece by piece reads back as the value it means, for names
    that need no escaping where the code does not escape.  Requests that
    overlap: the manual and package modules lock their tables for a lookup or an insertion
    and run a request in phases; [man_schedule] and [pkg_schedule] interleave the phases of
    any requests, [ManRun.man_pages_interleaved] and [PackagesRun.pkg_answers_interleaved]
    say where an answer then comes from.  Confinement: static files, manual pages, the
    programs started for a request, and the sandbox around them.  Parsers: routes, query strings,
    manual page URLs, headers.  Start-up: [Main.main_start_spec].  Time: the heartbeat
    schedules and stops, a program's output is returned by its deadline.

    ** Conventions

    A C string is the list of its bytes without the terminator; a [char] array with a
    bound appears as the bound and [strlcpy].  An [int] or [size_t] is a [Z] or [nat],
    with its wrap-around written out where the code can reach it.  A pointer into a pool
    is an index.  A function that holds its lock throughout is one atomic step, and so is a
    handler in a worker's iteration.  [w_wire] is what was written, to whichever socket, in the
    order of the writes; a session of Session.v is a run of iterations on one connection.  A
    [float] or [double] is a [spec_float] of the Standard Library, rounded to nearest even.
    The clock, the kernel, the file system and the allocator are arguments; a module that asks
    them many questions numbers the questions in its state (the monad [ST]).  Programs run
    by a module are a parameter of it, with what was started recorded in the state.

    ** Fuel

    [conf_parse_lines] has one unit per byte of the file, which is enough since every line
    consumes one ([Conf.parse_lines_total]).  The write loops take any fuel; [None] means
    that they have not returned yet and [HttpResponse.write_all_terminates] gives an
    amount that suffices once signals stop.  The read loop of a worker has one unit more
    than the request buffer has bytes, the loops over a query string one more than its
    length, [write_loop] of ManRender.v the length of its buffer: each turn takes at least
    one byte.  The loop of [read_output] takes any fuel and
    [Subprocess.popen_returns_by_deadline] gives the amount that suffices.

    ** Not modelled

    libc, the external programs (mandoc, apropos, pkg_info) and the shell, the kernel's side
    of pledge and unveil, sysctl, signal handlers, the branches of modules/metrics for systems other than OpenBSD.
    Log.v says what the log writes; the calls of it in the other files are left out.
    The start-up of the metrics and networking modules is one step. *)

From Stdlib Require Export ZArith Lia Ascii.
From stdpp Require Export base tactics option list list_numbers strings pretty gmap.

(** ** Automation shared by every file *)

Declare Scope mw_scope.
Delimit Scope mw_scope with mw.

Create HintDb mw.
Create Rewrite HintDb mwr.

(** Case analysis on the boolean guards a C [if] compiles to: every comparison
    in the goal or the context becomes an arithmetic fact for [lia]. *)
Ltac bool_facts :=
  repeat match goal with
  | H : _ && _ = true |- _ => apply andb_true_iff in H as [? ?]
  | H : _ || _ = false |- _ => apply orb_false_iff in H as [? ?]
  | H : negb _ = true |- _ => apply negb_true_iff in H
  | H : negb _ = false |- _ => apply negb_false_iff in H
  | H : bool_decide _ = true |- _ => apply bool_decide_eq_true in H
  | H : bool_decide _ = false |- _ => apply bool_decide_eq_false in H
  | H : (_ <? _)%Z = true |- _ => apply Z.ltb_lt in H
  | H : (_ <? _)%Z = false |- _ => apply Z.ltb_ge in H
  | H : (_ <=? _)%Z = true |- _ => apply Z.leb_le in H
  | H : (_ <=? _)%Z = false |- _ => apply Z.leb_gt in H
  | H : (_ =? _)%Z = true |- _ => apply Z.eqb_eq in H
  | H : (_ =? _)%Z = false |- _ => apply Z.eqb_neq in H
  | H : (_ <? _)%nat = true |- _ => apply Nat.ltb_lt in H
  | H : (_ <? _)%nat = false |- _ => apply Nat.ltb_ge in H
  | H : (_ <=? _)%nat = true |- _ => apply Nat.leb_le in H
  | H : (_ <=? _)%nat = false |- _ => apply Nat.leb_gt in H
  | H : (_ =? _)%nat = true |- _ => apply Nat.eqb_eq in H
  | H : (_ =? _)%nat = false |- _ => apply Nat.eqb_neq in H
  end.

(** Split on the condition of the first [if]/[match] of the goal, keeping the
    equation, and simplify. *)
Ltac split_if :=
  match goal with
  | |- context [if ?b then _ else _] => destruct b eqn:?
  | |- context [match ?x with _ => _ end] => destruct x eqn:?
  end; bool_facts; simplify_eq/=.

(** A decidable statement about concrete values. *)
Ltac by_computation := apply (bool_decide_unpack _); vm_compute; exact I.

Ltac split_if_in H :=
  match type of H with
  | context [if ?b then _ else _] => destruct b eqn:?
  | context [match ?x with _ => _ end] => destruct x eqn:?
  end; bool_facts; simplify_eq/=.

(** ** Bytes and C strings

    A C string is the list of its bytes, without the terminating NUL; a
    [char] array is a list of bytes that may hold NULs.  [cstr] reads the C
    string an array holds. *)

Abbreviation bytes := (list ascii).

Definition bs (s : string) : bytes := String.list_ascii_of_string s.
Arguments bs : simpl never.

(** A literal in which a single quote stands for a double quote. *)
Definition dq : ascii := "034"%char.
Definition qs (s : string) : bytes :=
  (λ c, if Ascii.eqb c "'" then dq else c) <$> bs s.

Definition nul : ascii := "000"%char.
Definition cr : ascii := "013"%char.
Definition lf : ascii := "010"%char.
Definition tab : ascii := "009"%char.
Definition space : ascii := " "%char.
Definition crlf : bytes := [cr; lf].

Fixpoint cstr (b : bytes) : bytes :=
  match b with
  | [] => []
  | c :: b' => if Ascii.eqb c nul then [] else c :: cstr b'
  end.

Definition byte_val (c : ascii) : Z := Z.of_N (N_of_ascii c).
Definition byte_of (z : Z) : ascii := ascii_of_N (Z.to_N (z mod 256)).

(** [strcmp(a, b) == 0] *)
Definition streq (a b : bytes) : bool := bool_decide (a = b).

(** *** <ctype.h> in the C locale *)

Definition in_range (lo hi : Z) (c : ascii) : bool :=
  ((lo <=? byte_val c) && (byte_val c <=? hi))%Z.
Definition isdigit := in_range 48 57.
Definition isupper := in_range 65 90.
Definition islower := in_range 97 122.
Definition isalnum (c : ascii) : bool := isdigit c || isupper c || islower c.
Definition isxdigit (c : ascii) : bool :=
  isdigit c || in_range 65 70 c || in_range 97 102 c.
Definition isspace (c : ascii) : bool := (byte_val c =? 32)%Z || in_range 9 13 c.
Definition tolower (c : ascii) : ascii :=
  if isupper c then byte_of (byte_val c + 32) else c.

(** [strcasecmp(a, b) == 0] *)
Definition strcaseeq (a b : bytes) : bool := streq (tolower <$> a) (tolower <$> b).

(** *** <string.h> *)

(** [strchr(s, c)] as an offset, [None] for NULL. *)
Fixpoint strchr (s : bytes) (c : ascii) : option nat :=
  match s with
  | [] => None
  | x :: s' => if Ascii.eqb x c then Some 0 else S <$> strchr s' c
  end.

(** [strrchr(s, c)] *)
Fixpoint strrchr (s : bytes) (c : ascii) : option nat :=
  match s with
  | [] => None
  | x :: s' =>
      match strrchr s' c with
      | Some i => Some (S i)
      | None => if Ascii.eqb x c then Some 0 else None
      end
  end.

(** [strncmp(s, p, strlen(p)) == 0] *)
Fixpoint is_prefix (p s : bytes) : bool :=
  match p, s with
  | [], _ => true
  | a :: p', b :: s' => Ascii.eqb a b && is_prefix p' s'
  | _ :: _, [] => false
  end.

(** [strstr(s, n)] *)
Fixpoint strstr (s n : bytes) : option nat :=
  if is_prefix n s then Some 0
  else match s with
       | [] => None
       | _ :: s' => S <$> strstr s' n
       end.

(** [strcasestr(s, n)] *)
Definition strcasestr (s n : bytes) : option nat :=
  strstr (tolower <$> s) (tolower <$> n).

(** [strncasecmp(s, p, strlen(p)) == 0] *)
Definition is_prefix_case (p s : bytes) : bool :=
  is_prefix (tolower <$> p) (tolower <$> s).

(** [strcspn(s, reject)] *)
Fixpoint strcspn (s reject : bytes) : nat :=
  match s with
  | [] => 0
  | c :: s' => if bool_decide (c ∈ reject) then 0 else S (strcspn s' reject)
  end.

(** The string [strlcpy(dst, src, size)] leaves in [dst]. *)
Definition strlcpy (size : nat) (src : bytes) : bytes := take (size - 1) src.

(** Skip the leading bytes that satisfy [f]. *)
Fixpoint skip_while (f : ascii → bool) (s : bytes) : bytes :=
  match s with
  | [] => []
  | c :: s' => if f c then skip_while f s' else s
  end.

(** Overwrite [length d] bytes of the array at offset [off]. *)
Definition buf_write (off : nat) (d : bytes) (buf : bytes) : bytes :=
  take off buf ++ d ++ drop (off + length d) buf.

(** [fgets(buf, n + 1, fp)] on the unread bytes: through the next newline, at most
    [n] bytes. *)
Fixpoint fgets (n : nat) (s : bytes) : bytes * bytes :=
  match n, s with
  | S n', c :: s' =>
      if Ascii.eqb c lf then ([c], s')
      else let '(l, r) := fgets n' s' in (c :: l, r)
  | _, _ => ([], s)
  end.

(** The tokens [strtok_r(s, sep, &save)] finds one after the other. *)
Fixpoint strtok_go (sep : ascii) (acc s : bytes) : list bytes :=
  match s with
  | [] => match acc with [] => [] | _ => [acc] end
  | c :: s' =>
      if Ascii.eqb c sep then
        match acc with [] => strtok_go sep [] s' | _ => acc :: strtok_go sep [] s' end
      else strtok_go sep (acc ++ [c]) s'
  end.

Definition strtok (sep : ascii) (s : bytes) : list bytes := strtok_go sep [] s.

(** [strlcat(dst, src, size)] *)
Definition strlcat (size : Z) (dst src : bytes) : bytes :=
  if (Z.of_nat (length dst + length src) <? size)%Z then dst ++ src
  else dst ++ take (Z.to_nat (size - 1) - length dst) src.

(** *** Machine integers *)

Definition wrap32 (z : Z) : Z := z mod 2 ^ 32.
Definition wrap64 (z : Z) : Z := z mod 2 ^ 64.
(** Conversion to a signed 32-bit [int]. *)
Definition to_int32 (z : Z) : Z := (z + 2 ^ 31) mod 2 ^ 32 - 2 ^ 31.
Definition INT_MAX : Z := 2 ^ 31 - 1.
Definition LONG_MAX : Z := 2 ^ 63 - 1.
Definition LONG_MIN : Z := - 2 ^ 63.

(** [strtol(s, NULL, 10)]: blanks, sign, digits, saturating at the [long]
    limits; [atoi] is its conversion to [int]. *)
Fixpoint digits_val (acc : Z) (s : bytes) : Z :=
  match s with
  | [] => acc
  | c :: s' =>
      if isdigit c then digits_val (acc * 10 + (byte_val c - 48))%Z s' else acc
  end.

Definition strtol10 (s : bytes) : Z :=
  match skip_while isspace s with
  | [] => 0
  | c :: s' =>
      let z := if Ascii.eqb c "-" then (- digits_val 0 s')%Z
               else if Ascii.eqb c "+" then digits_val 0 s'
               else digits_val 0 (c :: s') in
      Z.max LONG_MIN (Z.min LONG_MAX z)
  end.

Definition atoi (s : bytes) : Z := to_int32 (strtol10 s).

(** [%d], [%zu], [%ld], [%u] of [printf] *)
Definition fmt_Z (z : Z) : bytes := bs (pretty z).
Definition fmt_nat (n : nat) : bytes := bs (pretty n).

(** A non-negative number with zeros in front, [%0nd] *)
Definition fmt_pad (n : nat) (z : Z) : bytes :=
  replicate (n - length (fmt_Z z)) "0"%char ++ fmt_Z z.

(** [%.nf] of the decimal fraction [m / 10^n], for [n > 0] *)
Definition fmt_dec (neg : bool) (m : N) (n : nat) : bytes :=
  (if neg then ["-"%char] else []) ++ fmt_Z (Z.of_N m `div` 10 ^ Z.of_nat n) ++ ["."%char] ++
  fmt_pad n (Z.of_N m `mod` 10 ^ Z.of_nat n).

(** ** State

    Components whose functions question the clock or the allocator as they go are written
    in the state monad. *)

Definition ST (S A : Type) : Type := S → A * S.

#[export] Instance ST_ret S : MRet (ST S) := λ A x s, (x, s).
#[export] Instance ST_bind S : MBind (ST S) := λ A B f m s, let '(x, s') := m s in f x s'.

Definition get {S} : ST S S := λ s, (s, s).
Definition modify {S} (f : S → S) : ST S unit := λ s, (tt, f s).

(** Unfolding a step of the monad. *)
Ltac run_st := unfold mbind, ST_bind, mret, ST_ret, get, modify; cbn beta iota.

(** Every run of [m] leads from a state to one related to it by [R]. *)
Definition steps {S A} (R : relation S) (m : ST S A) : Prop := ∀ s, R s (m s).2.

Lemma steps_ret {S A} (R : relation S) `{!Reflexive R} (x : A) : steps R (mret x : ST S A).
Proof. intros s. reflexivity. Qed.

Lemma steps_bind {S A B} (R : relation S) `{!Transitive R} (m : ST S A) (f : A → ST S B) :
  steps R m → (∀ x, steps R (f x)) → steps R (m ≫= f).
Proof.
  intros Hm Hf s. unfold mbind, ST_bind. specialize (Hm s). destruct (m s) as [x s1].
  etrans; [exact Hm|]. apply Hf.
Qed.

Lemma steps_get {S} (R : relation S) `{!Reflexive R} : steps R (get : ST S S).
Proof. intros s. reflexivity. Qed.

(** A process in phases: [n] turns of it, and where it comes to when it is alone with the
    state. *)
Fixpoint turns {S A} (advance : A → ST S A) (n : nat) (x : A) : ST S A :=
  match n with
  | 0 => mret x
  | S n => y ← advance x; turns advance n y
  end.

Definition comes_to {S A} (advance : A → ST S A) (x : A) (s : S) (r : A * S) : Prop :=
  ∃ n, turns advance n x s = r.

Lemma comes_to_here {S A} (advance : A → ST S A) x s : comes_to advance x s (x, s).
Proof. by exists 0. Qed.

Lemma comes_to_turn {S A} (advance : A → ST S A) x s y s' r :
  advance x s = (y, s') → comes_to advance y s' r → comes_to advance x s r.
Proof. intros E [n Hn]. exists (Datatypes.S n). cbn [turns]. run_st. by rewrite E. Qed.

(** ** Lemmas *)

Lemma streq_true a b : streq a b = true ↔ a = b.
Proof. apply bool_decide_eq_true. Qed.

Lemma streq_false a b : streq a b = false ↔ a ≠ b.
Proof. apply bool_decide_eq_false. Qed.

Lemma streq_refl a : streq a a = true.
Proof. by apply streq_true. Qed.

#[export] Hint Rewrite streq_refl : mwr.

Lemma ascii_eqb_refl c : Ascii.eqb c c = true.
Proof. apply Ascii.eqb_refl. Qed.

Lemma ascii_eqb_true a b : Ascii.eqb a b = true ↔ a = b.
Proof. apply Ascii.eqb_eq. Qed.

Lemma ascii_eqb_false a b : Ascii.eqb a b = false ↔ a ≠ b.
Proof. apply Ascii.eqb_neq. Qed.

(** Boolean tests on bytes and strings become equations. *)
Ltac byte_facts :=
  bool_facts;
  repeat match goal with
  | H : Ascii.eqb _ _ = true |- _ => apply ascii_eqb_true in H
  | H : Ascii.eqb _ _ = false |- _ => apply ascii_eqb_false in H
  | H : streq _ _ = true |- _ => apply streq_true in H
  | H : streq _ _ = false |- _ => apply streq_false in H
  end; simplify_eq/=.

Lemma byte_val_range c : (0 ≤ byte_val c < 256)%Z.
Proof. unfold byte_val. pose proof (N_ascii_bounded c). lia. Qed.

Lemma byte_of_val c : byte_of (byte_val c) = c.
Proof.
  unfold byte_of. rewrite Z.mod_small by apply byte_val_range.
  unfold byte_val. rewrite N2Z.id. apply ascii_N_embedding.
Qed.

Lemma byte_val_of z : (0 ≤ z < 256)%Z → byte_val (byte_of z) = z.
Proof.
  intros H. unfold byte_val, byte_of. rewrite Z.mod_small by lia.
  rewrite N_ascii_embedding by lia. lia.
Qed.

(** A property of single bytes is checked on the 256 of them. *)
Definition all_bytes : list ascii := byte_of <$> seqZ 0 256.

Lemma elem_of_all_bytes c : c ∈ all_bytes.
Proof.
  apply list_elem_of_fmap. exists (byte_val c). split; [by rewrite byte_of_val|].
  apply elem_of_seqZ. pose proof (byte_val_range c). lia.
Qed.

Lemma byte_forall (P : ascii → bool) : forallb P all_bytes = true → ∀ c, P c = true.
Proof.
  rewrite forallb_forall. intros H c. apply H, list_elem_of_In, elem_of_all_bytes.
Qed.

Lemma byte_val_inj a b : byte_val a = byte_val b → a = b.
Proof. intros H. by rewrite <- (byte_of_val a), <- (byte_of_val b), H. Qed.

(** *** Prefixes and searches *)

Lemma is_prefix_spec p s : is_prefix p s = true ↔ ∃ post, s = p ++ post.
Proof.
  revert s. induction p as [|a p IH]; intros [|b s]; simpl.
  - split; [by exists [] | done].
  - split; [by exists (b :: s) | done].
  - split; [done | by intros [??]].
  - rewrite andb_true_iff, ascii_eqb_true, IH. split.
    + intros [-> [post ->]]. by exists post.
    + intros [post [= -> ->]]. eauto.
Qed.

Lemma is_prefix_app p s : is_prefix p (p ++ s) = true.
Proof. apply is_prefix_spec. eauto. Qed.

Lemma is_prefix_refl p : is_prefix p p = true.
Proof. apply is_prefix_spec. exists []. by rewrite app_nil_r. Qed.

#[export] Hint Rewrite is_prefix_app is_prefix_refl : mwr.

Lemma strchr_Some s c i :
  strchr s c = Some i ↔ s !! i = Some c ∧ c ∉ take i s.
Proof.
  revert i. induction s as [|x s IH]; intros i; simpl; [split; [done | by intros [? _]]|].
  destruct (Ascii.eqb x c) eqn:E; byte_facts.
  - split; [intros [= <-]; split; [done | apply not_elem_of_nil] |].
    intros [Hi Hn]. destruct i; [done|]. exfalso. apply Hn. simpl. left.
  - destruct i as [|i]; simpl.
    + split; [by destruct (strchr s c) | by intros [[= ->] _]].
    + rewrite fmap_Some. setoid_rewrite IH. split.
      * intros (j & [? Hj] & [= ->]). split; [done|]. apply not_elem_of_cons. auto.
      * intros [? [??]%not_elem_of_cons]. eauto.
Qed.

Lemma strchr_None s c : strchr s c = None ↔ c ∉ s.
Proof.
  induction s as [|x s IH]; simpl; [split; [intros _; apply not_elem_of_nil | done]|].
  rewrite not_elem_of_cons, <- IH. clear IH.
  destruct (Ascii.eqb x c) eqn:E; byte_facts; destruct (strchr s c); naive_solver.
Qed.

Lemma strchr_app_sep a c b : c ∉ a → strchr (a ++ c :: b) c = Some (length a).
Proof.
  intros H. apply strchr_Some. rewrite list_lookup_middle by done.
  rewrite take_app_length. done.
Qed.

Lemma strchr_split s c i :
  strchr s c = Some i → s = take i s ++ c :: drop (S i) s ∧ c ∉ take i s ∧ i < length s.
Proof.
  rewrite strchr_Some. intros [Hi Hn]. split_and!; [|done|by eapply lookup_lt_Some].
  by rewrite take_drop_middle.
Qed.

Lemma strstr_Some s n i :
  strstr s n = Some i ↔
  is_prefix n (drop i s) = true ∧ i ≤ length s ∧
  ∀ j, j < i → is_prefix n (drop j s) = false.
Proof.
  revert i. induction s as [|x s IH]; intros i; simpl strstr.
  - destruct (is_prefix n []) eqn:E.
    + split; [intros [= <-]; simpl; split_and!; [done|lia|lia] |].
      intros (_ & ? & _). f_equal. simpl in *. lia.
    + split; [done|]. intros (H & ? & _). rewrite drop_nil in H. congruence.
  - destruct (is_prefix n (x :: s)) eqn:E.
    + split; [intros [= <-]; split_and!; [done|lia|lia]|].
      intros (_ & _ & Hj). destruct i; [done|].
      specialize (Hj 0 ltac:(lia)). simpl in Hj. congruence.
    + rewrite fmap_Some. split.
      * intros (k & (Hp & Hl & Hj)%IH & ->). split_and!; [done|simpl; lia|].
        intros [|j] ?; [done|]. simpl. apply Hj. lia.
      * intros (Hp & Hl & Hj). destruct i as [|i]; [simpl in Hp; congruence|].
        exists i. split; [|done]. apply IH. split_and!; [done|simpl in Hl; lia|].
        intros j Hlt. apply (Hj (S j)). lia.
Qed.

Lemma strstr_None s n :
  strstr s n = None ↔ ∀ j, j ≤ length s → is_prefix n (drop j s) = false.
Proof.
  split.
  - induction s as [|x s IH]; simpl; intros H j Hj.
    + destruct (is_prefix n []) eqn:E; [done|]. by destruct j.
    + destruct (is_prefix n (x :: s)) eqn:E; [done|].
      destruct j as [|j]; [done|]. simpl. apply IH; [|lia].
      by destruct (strstr s n).
  - intros H. destruct (strstr s n) as [i|] eqn:E; [|done].
    apply strstr_Some in E as (Hp & Hl & _). rewrite H in Hp; done.
Qed.

Lemma strstr_split s n i :
  strstr s n = Some i → s = take i s ++ n ++ drop (i + length n) s.
Proof.
  intros ([post Hp]%is_prefix_spec & _)%strstr_Some.
  rewrite <- (take_drop i s) at 1. f_equal. rewrite Hp. f_equal.
  rewrite <- drop_drop, Hp. by rewrite drop_app_length.
Qed.

Lemma strstr_bound s n i : strstr s n = Some i → i + length n ≤ length s.
Proof.
  intros H. pose proof (strstr_split _ _ _ H) as E.
  apply (f_equal length) in E. apply strstr_Some in H as (_ & ? & _).
  rewrite !length_app, length_take in E. lia.
Qed.

Lemma skip_while_app f w s :
  Forall (λ c, f c = true) w → skip_while f (w ++ s) = skip_while f s.
Proof. induction 1 as [|c w Hc _ IH]; simpl; [done|]. by rewrite Hc. Qed.

Lemma skip_while_stop f c s : f c = false → skip_while f (c :: s) = c :: s.
Proof. intros Hc. simpl. by rewrite Hc. Qed.

(** *** NUL-terminated arrays *)

Lemma cstr_no_nul b : nul ∉ cstr b.
Proof.
  induction b as [|c b IH]; simpl; [apply not_elem_of_nil|].
  destruct (Ascii.eqb c nul) eqn:E; [apply not_elem_of_nil|].
  byte_facts. apply not_elem_of_cons. auto.
Qed.

Lemma cstr_app s b : nul ∉ s → cstr (s ++ nul :: b) = s.
Proof.
  induction s as [|c s IH]; simpl; [done|].
  intros [? ?]%not_elem_of_cons. destruct (Ascii.eqb c nul) eqn:E; byte_facts.
  f_equal. auto.
Qed.

Lemma cstr_id s : nul ∉ s → cstr s = s.
Proof.
  induction s as [|c s IH]; simpl; [done|].
  intros [? ?]%not_elem_of_cons. destruct (Ascii.eqb c nul) eqn:E; byte_facts.
  f_equal. auto.
Qed.

Lemma cstr_length b : length (cstr b) ≤ length b.
Proof. induction b as [|c b IH]; simpl; [done|]. destruct (Ascii.eqb c nul); simpl; lia. Qed.

Lemma length_buf_write off d buf :
  off + length d ≤ length buf → length (buf_write off d buf) = length buf.
Proof.
  intros H. unfold buf_write. rewrite !length_app, length_take, length_drop. lia.
Qed.

Lemma length_strlcpy size src : 0 < size → length (strlcpy size src) < size.
Proof. intros H. unfold strlcpy. rewrite length_take. lia. Qed.

Lemma strlcpy_id size src : length src < size → strlcpy size src = src.
Proof. intros H. apply take_ge. lia. Qed.

(** *** Printed integers *)

Lemma pretty_N_char_digit d :
  (d < 10)%N → byte_val (pretty_N_char d) = (48 + Z.of_N d)%Z.
Proof.
  intros Hd.
  assert (d = 0 ∨ d = 1 ∨ d = 2 ∨ d = 3 ∨ d = 4 ∨ d = 5 ∨ d = 6 ∨ d = 7 ∨ d = 8 ∨ d = 9)%N
    as Hc by lia.
  by repeat destruct Hc as [->|Hc]; [..|subst d].
Qed.

Lemma pretty_N_go_digits x s :
  ∃ ds, bs (pretty_N_go x s) = ds ++ bs s ∧ Forall (λ c, isdigit c = true) ds ∧
    (∀ k, (x < 10 ^ N.of_nat k)%N → length ds ≤ k) ∧
    ∀ acc r, digits_val acc (ds ++ r) = digits_val (acc * 10 ^ Z.of_nat (length ds) + Z.of_N x)%Z r.
Proof.
  revert s. induction (N.lt_wf_0 x) as [x _ IH]; intros s.
  destruct (decide (x = 0)%N) as [->|Hx].
  { exists []. rewrite pretty_N_go_0. split_and!; [done|done|simpl; lia|].
    intros acc r. simpl. f_equal. lia. }
  rewrite pretty_N_go_step by lia.
  destruct (IH (x / 10)%N ltac:(apply N.div_lt; lia)
    (String (pretty_N_char (x mod 10)) s)) as (ds & Heq & Hd & Hlen & Hval).
  pose proof (N.mod_lt x 10 ltac:(done)) as Hm.
  pose proof (N.div_mod x 10 ltac:(done)) as Hdm.
  pose proof (pretty_N_char_digit _ Hm) as Hc.
  assert (isdigit (pretty_N_char (x mod 10)) = true) as Hdig.
  { unfold isdigit, in_range. rewrite Hc. apply andb_true_iff. rewrite !Z.leb_le.
    revert Hm. clear. generalize (x mod 10)%N. lia. }
  exists (ds ++ [pretty_N_char (x mod 10)]). split_and!.
  - rewrite Heq, <- app_assoc. done.
  - apply Forall_app. split; [done|]. by apply Forall_singleton.
  - intros k Hk. rewrite length_app. simpl. destruct k as [|k]; [simpl in Hk; lia|].
    rewrite Nat2N.inj_succ, N.pow_succ_r' in Hk.
    assert (length ds ≤ k); [|lia]. apply Hlen, N.Div0.div_lt_upper_bound. exact Hk.
  - intros acc r. rewrite <- app_assoc, Hval. cbn [app digits_val]. rewrite Hdig, Hc.
    f_equal. rewrite length_app. simpl length.
    rewrite Nat2Z.inj_add, Z.pow_add_r by lia.
    change (10 ^ Z.of_nat 1)%Z with 10%Z.
    revert Hdm. clear. generalize (10 ^ Z.of_nat (length ds))%Z (x / 10)%N (x mod 10)%N.
    intros e q m ->. nia.
Qed.

Lemma fmt_nat_eq n :
  fmt_nat n = if decide (n = 0) then ["0"%char] else bs (pretty_N_go (N.of_nat n) "").
Proof.
  unfold fmt_nat, pretty, pretty_nat, pretty, pretty_N.
  destruct n; [done|]. by rewrite !decide_False by lia.
Qed.

Lemma fmt_nat_digits n : Forall (λ c, isdigit c = true) (fmt_nat n).
Proof.
  rewrite fmt_nat_eq. case_decide; [by repeat constructor|].
  destruct (pretty_N_go_digits (N.of_nat n) "") as (ds & -> & ? & _). by rewrite app_nil_r.
Qed.

Lemma fmt_nat_length n k :
  0 < k → (Z.of_nat n < 10 ^ Z.of_nat k)%Z → length (fmt_nat n) ≤ k.
Proof.
  intros Hk Hn. rewrite fmt_nat_eq. case_decide; [simpl; lia|].
  destruct (pretty_N_go_digits (N.of_nat n) "") as (ds & -> & _ & Hlen & _).
  rewrite app_nil_r. apply Hlen. apply N2Z.inj_lt.
  by rewrite N2Z.inj_pow, !nat_N_Z.
Qed.

Lemma isdigit_bounds c : isdigit c = true ↔ (48 ≤ byte_val c ≤ 57)%Z.
Proof. unfold isdigit, in_range. rewrite andb_true_iff, !Z.leb_le. done. Qed.

Lemma isdigit_not_space c : isdigit c = true → isspace c = false.
Proof.
  rewrite isdigit_bounds. intros H. unfold isspace, in_range.
  apply orb_false_iff. split; [apply Z.eqb_neq; lia|].
  apply andb_false_iff. right. apply Z.leb_gt. lia.
Qed.

(** Reading back a printed number, whatever is in front of it and whatever follows. *)
Lemma digits_val_fmt_nat_acc acc n r :
  digits_val acc (fmt_nat n ++ r)
  = digits_val (acc * 10 ^ Z.of_nat (length (fmt_nat n)) + Z.of_nat n) r.
Proof.
  rewrite fmt_nat_eq. case_decide; [subst; cbn; f_equal; lia|].
  destruct (pretty_N_go_digits (N.of_nat n) "") as (ds & -> & _ & _ & Hval).
  rewrite app_nil_r, Hval. f_equal. lia.
Qed.

Lemma digits_val_fmt_nat n r :
  digits_val 0 (fmt_nat n ++ r) = digits_val (Z.of_nat n) r.
Proof. rewrite digits_val_fmt_nat_acc. f_equal. Qed.

Lemma digits_val_zeros acc k r :
  digits_val acc (replicate k "0"%char ++ r) = digits_val (acc * 10 ^ Z.of_nat k) r.
Proof.
  revert acc. induction k as [|k IH]; intros acc; [cbn; f_equal; lia|].
  cbn [replicate app digits_val]. change (isdigit "0") with true. cbv iota. rewrite IH.
  change (byte_val "0") with 48%Z. f_equal. rewrite Nat2Z.inj_succ, Z.pow_succ_r by lia. lia.
Qed.

Lemma fmt_nat_nonempty n : fmt_nat n ≠ [].
Proof.
  intros H. pose proof (digits_val_fmt_nat n []) as E. rewrite H in E. simpl in E.
  destruct n; [|lia]. done.
Qed.

Lemma fmt_Z_nonneg z : (0 ≤ z)%Z → fmt_Z z = fmt_nat (Z.to_nat z).
Proof.
  intros Hz. destruct z as [|p|p]; [done| |lia].
  unfold fmt_Z, fmt_nat, pretty at 1, pretty_Z, pretty at 1, pretty_positive,
    pretty at 2, pretty_nat. do 2 f_equal. lia.
Qed.

Lemma fmt_Z_neg z : (z < 0)%Z → fmt_Z z = "-"%char :: fmt_nat (Z.to_nat (- z)).
Proof.
  intros Hz. destruct z as [|p|p]; [lia|lia|].
  rewrite <- fmt_Z_nonneg by lia. done.
Qed.

Lemma fmt_pad_nat n z :
  (0 ≤ z)%Z → fmt_pad n z = replicate (n - length (fmt_nat (Z.to_nat z))) "0"%char ++ fmt_nat (Z.to_nat z).
Proof. intros Hz. unfold fmt_pad. by rewrite fmt_Z_nonneg. Qed.

Lemma fmt_pad_digits n z : (0 ≤ z)%Z → Forall (λ c, isdigit c = true) (fmt_pad n z).
Proof.
  intros Hz. rewrite fmt_pad_nat by done. apply Forall_app. split; [|apply fmt_nat_digits].
  by apply Forall_replicate.
Qed.

Lemma fmt_pad_length n z :
  0 < n → (0 ≤ z < 10 ^ Z.of_nat n)%Z → length (fmt_pad n z) = n.
Proof.
  intros Hn Hz. rewrite fmt_pad_nat by lia. rewrite length_app, length_replicate.
  pose proof (fmt_nat_length (Z.to_nat z) n Hn). lia.
Qed.

Lemma digits_val_fmt_pad acc n z r :
  0 < n → (0 ≤ z < 10 ^ Z.of_nat n)%Z →
  digits_val acc (fmt_pad n z ++ r) = digits_val (acc * 10 ^ Z.of_nat n + z) r.
Proof.
  intros Hn Hz. pose proof (fmt_nat_length (Z.to_nat z) n Hn) as Hl.
  rewrite fmt_pad_nat, <- app_assoc, digits_val_zeros, digits_val_fmt_nat_acc by lia.
  rewrite <- Z.mul_assoc, <- Z.pow_add_r, Z2Nat.id by lia.
  by replace (Z.of_nat (n - length (fmt_nat (Z.to_nat z))) + Z.of_nat (length (fmt_nat (Z.to_nat z))))%Z
    with (Z.of_nat n) by lia.
Qed.

Lemma fgets_line n l r : lf ∉ l → length l < n → fgets n (l ++ lf :: r) = (l ++ [lf], r).
Proof.
  revert l. induction n as [|n IH]; intros l Hl Hn; [lia|]. destruct l as [|c l]; [done|].
  apply not_elem_of_cons in Hl as [Hc Hl]. cbn [app fgets].
  rewrite (proj2 (ascii_eqb_false c lf)) by congruence. rewrite IH by (done || (simpl in Hn; lia)).
  done.
Qed.

Lemma fgets_rest n s : s ≠ [] → length (fgets (S n) s).2 < length s.
Proof.
  revert s. induction n as [|n IH]; intros [|c s] Hs; try done.
  - simpl. destruct (Ascii.eqb c lf); simpl; lia.
  - change (fgets (S (S n)) (c :: s)) with
      (if Ascii.eqb c lf then ([c], s) else let '(l, r) := fgets (S n) s in (c :: l, r)).
    destruct (Ascii.eqb c lf); [simpl; lia|]. destruct s as [|d s]; [simpl; lia|].
    specialize (IH (d :: s) ltac:(done)). destruct (fgets (S n) (d :: s)). simpl in *. lia.
Qed.

Lemma strtok_go_spec sep acc s :
  sep ∉ acc → Forall (λ l, l ≠ [] ∧ sep ∉ l) (strtok_go sep acc s).
Proof.
  revert acc. induction s as [|c s IH]; intros acc Hacc; simpl.
  - destruct acc; [constructor|]. by repeat constructor.
  - destruct (Ascii.eqb c sep) eqn:E; byte_facts.
    + destruct acc; [|constructor; [done|]]; apply IH, not_elem_of_nil.
    + apply IH. rewrite elem_of_app, list_elem_of_singleton. intros [?|?]; auto.
Qed.

(** Every token is non-empty and free of the separator. *)
Lemma strtok_spec sep s : Forall (λ l, l ≠ [] ∧ sep ∉ l) (strtok sep s).
Proof. apply strtok_go_spec, not_elem_of_nil. Qed.

Lemma strtok_go_token sep acc l s :
  sep ∉ l → acc ++ l ≠ [] → strtok_go sep acc (l ++ sep :: s) = (acc ++ l) :: strtok_go sep [] s.
Proof.
  revert acc. induction l as [|c l IH]; intros acc; simpl.
  - rewrite app_nil_r, ascii_eqb_refl. by destruct acc.
  - intros [Hc Hl]%not_elem_of_cons Hne.
    rewrite (proj2 (ascii_eqb_false c sep)) by congruence.
    rewrite IH; [by rewrite <- app_assoc|done|by destruct acc].
Qed.

Lemma strtok_go_last sep acc l :
  sep ∉ l → acc ++ l ≠ [] → strtok_go sep acc l = [acc ++ l].
Proof.
  revert acc. induction l as [|c l IH]; intros acc; simpl.
  - rewrite app_nil_r. by destruct acc.
  - intros [Hc Hl]%not_elem_of_cons Hne.
    rewrite (proj2 (ascii_eqb_false c sep)) by congruence.
    rewrite IH; [by rewrite <- app_assoc|done|by destruct acc].
Qed.

(** A text of non-empty lines, each ended by a newline, splits into these lines. *)
Lemma strtok_lines sep ls :
  Forall (λ l, l ≠ [] ∧ sep ∉ l) ls → strtok sep (concat ((λ l, l ++ [sep]) <$> ls)) = ls.
Proof.
  induction 1 as [|l ls [Hne Hl] _ IH]; [done|]. rewrite fmap_cons. simpl.
  rewrite <- app_assoc. unfold strtok in *. simpl.
  rewrite (strtok_go_token sep []) by done. simpl. by f_equal.
Qed.

(** *** Lists *)

(** Lengths as integers, for bounds beyond what [nat] computes with. *)
Definition zlen {A} (l : list A) : Z := Z.of_nat (length l).

Lemma zlen_app {A} (a b : list A) : zlen (a ++ b) = (zlen a + zlen b)%Z.
Proof. unfold zlen. rewrite length_app. lia. Qed.

Lemma zlen_cons {A} (x : A) l : zlen (x :: l) = (1 + zlen l)%Z.
Proof. unfold zlen. simpl length. lia. Qed.

Lemma zlen_nil {A} : zlen ([] : list A) = 0%Z.
Proof. done. Qed.

Lemma zlen_nonneg {A} (l : list A) : (0 ≤ zlen l)%Z.
Proof. unfold zlen. lia. Qed.

Lemma strlcpy_zlen n s : (zlen (strlcpy n s) ≤ Z.of_nat (n - 1))%Z.
Proof. unfold zlen, strlcpy. rewrite length_take. lia. Qed.

Lemma fmt_Z_length z : (- 2 ^ 63 ≤ z < 2 ^ 64 → zlen (fmt_Z z) ≤ 20)%Z.
Proof.
  intros Hz. unfold zlen. destruct (decide (0 ≤ z)%Z).
  - rewrite fmt_Z_nonneg by done. pose proof (fmt_nat_length (Z.to_nat z) 20 ltac:(lia)). lia.
  - rewrite fmt_Z_neg by lia. pose proof (fmt_nat_length (Z.to_nat (- z)) 19 ltac:(lia)).
    cbn [length]. lia.
Qed.

Lemma elem_of_drop_take {A} (x : A) n l : x ∈ take n l ∨ x ∈ drop n l ↔ x ∈ l.
Proof. by rewrite <- elem_of_app, take_drop. Qed.

Lemma not_elem_of_take {A} (x : A) n l : x ∉ l → x ∉ take n l.
Proof. intros H ?. apply H, (elem_of_drop_take x n). by left. Qed.

Lemma not_elem_of_drop {A} (x : A) n l : x ∉ l → x ∉ drop n l.
Proof. intros H ?. apply H, (elem_of_drop_take x n). by right. Qed.

Lemma take_length_take {A} n (l : list A) : take (length (take n l)) l = take n l.
Proof.
  rewrite length_take. destruct (Nat.min_spec n (length l)) as [[? ->]|[? ->]]; [done|].
  by rewrite !take_ge by lia.
Qed.

Lemma list_insert_same {A} (l : list A) i x : l !! i = Some x → <[i:=x]> l = l.
Proof. apply list_insert_id. Qed.

#[export] Hint Resolve cstr_no_nul not_elem_of_take not_elem_of_drop : mw.
