(* ===== verification/FreeStack.v ===== *)
(** * Free stacks

    Both fixed-size object pools of the server, the connection pool of
    src/net/connection_pool.c and the response pools of
    src/http/response_pool.c, keep their free slots in an array used as a stack
    ([free_stack], [free_top]).  This file models that pair of fields and the
    three inline operations on it, and proves what both pools rely on: the free
    slots are distinct indices of the pool, popping hands out one of them and
    pushing gives it back on top. *)

From S2P Require Import Prelude.

Record free_stack := FreeStack { fs_slots : list nat; fs_top : nat }.

(** The initial loop: all [cap] slots are free, slot 0 on top. *)
Definition fs_init (cap : nat) : free_stack :=
  {| fs_slots := (λ i, cap - 1 - i) <$> seq 0 cap; fs_top := cap |}.

(** [idx = free_stack[--free_top]], under the guard [free_top > 0]. *)
Definition fs_pop (fs : free_stack) : option (nat * free_stack) :=
  match fs_top fs with
  | 0 => None
  | S t =>
      match fs_slots fs !! t with
      | Some i => Some (i, {| fs_slots := fs_slots fs; fs_top := t |})
      | None => None
      end
  end.

(** [if (free_top < cap) free_stack[free_top++] = idx] *)
Definition fs_push (cap idx : nat) (fs : free_stack) : free_stack :=
  if fs_top fs <? cap
  then {| fs_slots := <[fs_top fs := idx]> (fs_slots fs); fs_top := S (fs_top fs) |}
  else fs.

(** The free slots, bottom first. *)
Definition fs_free (fs : free_stack) : list nat := take (fs_top fs) (fs_slots fs).

Record fs_wf (cap : nat) (fs : free_stack) : Prop := {
  fs_wf_length : length (fs_slots fs) = cap;
  fs_wf_top : fs_top fs ≤ cap;
  fs_wf_nodup : NoDup (fs_free fs);
  fs_wf_bound : ∀ s, s ∈ fs_free fs → s < cap;
}.

Section lemmas.
Context (cap : nat).
Implicit Types fs : free_stack.

Lemma length_fs_free fs : fs_wf cap fs → length (fs_free fs) = fs_top fs.
Proof. intros []. unfold fs_free. rewrite length_take. lia. Qed.

Lemma fs_init_free : fs_free (fs_init cap) = (λ i, cap - 1 - i) <$> seq 0 cap.
Proof. unfold fs_free, fs_init; simpl. apply take_ge. by rewrite length_fmap, length_seq. Qed.

Lemma elem_of_fs_init s : s ∈ fs_free (fs_init cap) ↔ s < cap.
Proof.
  rewrite fs_init_free, list_elem_of_fmap. setoid_rewrite elem_of_seq. split.
  - intros (i & -> & ?). lia.
  - intros ?. exists (cap - 1 - s). lia.
Qed.

Lemma fs_init_wf : fs_wf cap (fs_init cap).
Proof.
  split.
  - unfold fs_init; simpl. by rewrite length_fmap, length_seq.
  - done.
  - rewrite fs_init_free. apply NoDup_fmap_2_strong; [|apply NoDup_seq].
    intros x y ?%elem_of_seq ?%elem_of_seq ?. lia.
  - intros s. apply elem_of_fs_init.
Qed.

Lemma fs_pop_None fs : fs_wf cap fs → fs_pop fs = None ↔ fs_top fs = 0.
Proof.
  intros Hwf. unfold fs_pop. destruct (fs_top fs) as [|t] eqn:E; [done|].
  destruct (fs_slots fs !! t) eqn:E'; [done|].
  apply lookup_ge_None in E'. destruct Hwf. lia.
Qed.

Lemma fs_pop_Some fs i fs' :
  fs_pop fs = Some (i, fs') →
  fs_free fs = fs_free fs' ++ [i] ∧ fs_top fs = S (fs_top fs') ∧
  fs_slots fs' = fs_slots fs.
Proof.
  unfold fs_pop, fs_free. destruct (fs_top fs) as [|t] eqn:E; [done|].
  destruct (fs_slots fs !! t) eqn:E'; [|done]. intros [= -> <-]. simpl.
  by rewrite (take_S_r _ _ _ E').
Qed.

Lemma fs_pop_wf fs i fs' :
  fs_wf cap fs → fs_pop fs = Some (i, fs') →
  fs_wf cap fs' ∧ i < cap ∧ i ∉ fs_free fs' ∧ fs_free fs = fs_free fs' ++ [i].
Proof.
  intros [Hl Ht Hnd Hb] (Hf & Htop & Hs)%fs_pop_Some.
  rewrite Hf in Hnd, Hb. apply NoDup_app in Hnd as (? & Hdis & _).
  split_and!; [split|..]; rewrite ?Hs; try done.
  - lia.
  - intros s ?. apply Hb, elem_of_app. by left.
  - apply Hb, elem_of_app. right. by apply list_elem_of_singleton.
  - intros ?. apply (Hdis i); [done|]. by apply list_elem_of_singleton.
Qed.

Lemma fs_push_free fs i :
  fs_wf cap fs → fs_top fs < cap → fs_free (fs_push cap i fs) = fs_free fs ++ [i].
Proof.
  intros [Hl _ _ _] Ht. unfold fs_push, fs_free.
  destruct (Nat.ltb_spec (fs_top fs) cap); [|lia]. simpl.
  erewrite take_S_r by (apply list_lookup_insert_eq; lia).
  by rewrite take_insert_ge by lia.
Qed.

(** A slot outside the free stack leaves room on it. *)
Lemma fs_top_lt fs i : fs_wf cap fs → i < cap → i ∉ fs_free fs → fs_top fs < cap.
Proof.
  intros Hwf Hi Hni. rewrite <- (length_fs_free fs Hwf).
  assert (length (fs_free fs ++ [i]) ≤ length (seq 0 cap)) as Hle.
  { apply submseteq_length, NoDup_submseteq.
    - apply NoDup_app. split_and!; [apply Hwf| |apply NoDup_singleton].
      by intros x ? ->%list_elem_of_singleton.
    - intros x [Hx|Hx]%elem_of_app; apply elem_of_seq.
      + pose proof (fs_wf_bound _ _ Hwf x Hx). lia.
      + apply list_elem_of_singleton in Hx. lia. }
  rewrite length_app, length_seq in Hle. simpl in Hle. lia.
Qed.

Lemma fs_push_wf fs i :
  fs_wf cap fs → i < cap → i ∉ fs_free fs →
  fs_wf cap (fs_push cap i fs) ∧ fs_free (fs_push cap i fs) = fs_free fs ++ [i].
Proof.
  intros Hwf Hi Hni. pose proof (fs_top_lt _ _ Hwf Hi Hni) as Ht.
  pose proof (fs_push_free _ i Hwf Ht) as Hf. split; [|done].
  destruct Hwf as [Hl _ Hnd Hb]. split; rewrite ?Hf.
  - unfold fs_push. destruct (Nat.ltb_spec (fs_top fs) cap); simpl; [|lia].
    by rewrite length_insert.
  - unfold fs_push. destruct (Nat.ltb_spec (fs_top fs) cap); simpl; lia.
  - apply NoDup_app. split_and!; [done| |apply NoDup_singleton].
    by intros x ? ->%list_elem_of_singleton.
  - intros x [Hx|Hx]%elem_of_app; [auto|]. apply list_elem_of_singleton in Hx. lia.
Qed.

(** Last in, first out. *)
Lemma fs_pop_push fs i :
  fs_wf cap fs → i < cap → i ∉ fs_free fs →
  ∃ fs', fs_pop (fs_push cap i fs) = Some (i, fs') ∧ fs_free fs' = fs_free fs
       ∧ fs_top fs' = fs_top fs.
Proof.
  intros Hwf Hi Hni. pose proof (fs_top_lt _ _ Hwf Hi Hni) as Ht.
  unfold fs_pop, fs_push. destruct (Nat.ltb_spec (fs_top fs) cap); simpl; [|lia].
  rewrite list_lookup_insert_eq by (destruct Hwf; lia).
  eexists; split_and!; [done| |done]. unfold fs_free; simpl.
  by rewrite take_insert_ge by lia.
Qed.
End lemmas.

#[export] Hint Resolve fs_init_wf : mw.
