(* ===== verification/Ring.v ===== *)
(** * Ring arithmetic

    Four components keep a circular array indexed modulo its capacity: the work
    queue (src/net/work_queue.c) and the metrics, networking and package rings
    (src/modules).  [ring_view] is the list of elements such an array holds in a
    window; the lemmas say how the window changes when one element is written
    after it and when its first element is dropped. *)

From S2P Require Import Prelude.

(** The [n] elements found from index [start], wrapping at [cap]. *)
Definition ring_view {A} `{Inhabited A} (cap start n : nat) (buf : list A) : list A :=
  (λ i, buf !!! ((start + i) mod cap)) <$> seq 0 n.

(** The last [n] elements of a log. *)
Definition lastn {A} (n : nat) (l : list A) : list A := drop (length l - n) l.

Section ring.
Context {A : Type} `{Inhabited A} (cap : nat) (cap_pos : 0 < cap).
Implicit Types buf : list A.

Lemma length_ring_view start n buf : length (ring_view cap start n buf) = n.
Proof. unfold ring_view. by rewrite length_fmap, length_seq. Qed.

Lemma mod_lt i : i mod cap < cap.
Proof. apply Nat.mod_upper_bound. lia. Qed.

(** Indices of a window of at most [cap] elements are distinct. *)
Lemma mod_window_inj s i j :
  i < cap → j < cap → (s + i) mod cap = (s + j) mod cap → i = j.
Proof.
  intros Hi Hj E.
  pose proof (Nat.div_mod_eq (s + i) cap) as Ei.
  pose proof (Nat.div_mod_eq (s + j) cap) as Ej.
  rewrite E in Ei. set (a := (s + i) / cap) in *. set (b := (s + j) / cap) in *.
  assert (a = b); [|subst; lia]. nia.
Qed.

Lemma ring_view_insert_outside start n k x buf :
  n ≤ k → k < cap → ring_view cap start n (<[(start + k) mod cap := x]> buf)
                    = ring_view cap start n buf.
Proof.
  intros Hn Hk. apply list_fmap_ext. intros ? i Hi%lookup_seq.
  apply list_lookup_total_insert_ne. intros E%mod_window_inj; lia.
Qed.

Lemma ring_view_S_r start n buf :
  ring_view cap start (S n) buf
  = ring_view cap start n buf ++ [buf !!! ((start + n) mod cap)].
Proof. unfold ring_view. rewrite seq_S, fmap_app. done. Qed.

Lemma ring_view_snoc start n x buf :
  length buf = cap → n < cap →
  ring_view cap start (S n) (<[(start + n) mod cap := x]> buf)
  = ring_view cap start n buf ++ [x].
Proof.
  intros Hl Hn. rewrite ring_view_S_r, ring_view_insert_outside by lia.
  rewrite list_lookup_total_insert_eq; [done|]. rewrite Hl. apply mod_lt.
Qed.

Lemma ring_view_cons start n buf :
  ring_view cap start (S n) buf
  = buf !!! (start mod cap) :: ring_view cap ((start + 1) mod cap) n buf.
Proof.
  unfold ring_view. simpl. rewrite Nat.add_0_r. f_equal.
  rewrite <- fmap_S_seq, <- list_fmap_compose. apply list_fmap_ext. intros ? i _. simpl.
  f_equal. rewrite Nat.Div0.add_mod_idemp_l. f_equal. lia.
Qed.

Lemma ring_view_start_mod start n buf :
  ring_view cap (start mod cap) n buf = ring_view cap start n buf.
Proof.
  apply list_fmap_ext. intros ? i _. f_equal. by rewrite Nat.Div0.add_mod_idemp_l.
Qed.

Lemma drop_ring_view start n k buf :
  k ≤ n → drop k (ring_view cap start n buf) = ring_view cap (start + k) (n - k) buf.
Proof.
  intros Hk. unfold ring_view. rewrite <- fmap_drop, drop_seq. simpl.
  rewrite <- (Nat.add_0_r k) at 1. rewrite <- fmap_add_seq, <- list_fmap_compose.
  apply list_fmap_ext. intros ? i _. simpl. f_equal. f_equal. lia.
Qed.
End ring.

Section lastn.
Context {A : Type}.

Lemma lastn_all (l : list A) n : length l ≤ n → lastn n l = l.
Proof. intros ?. unfold lastn. by replace (length l - n) with 0 by lia. Qed.

Lemma length_lastn (l : list A) n : length (lastn n l) = Nat.min n (length l).
Proof. unfold lastn. rewrite length_drop. lia. Qed.

Lemma lastn_snoc (l : list A) n x : 0 < n → lastn n (l ++ [x]) = lastn (n - 1) l ++ [x].
Proof.
  intros Hn. unfold lastn. rewrite length_app. simpl. destruct (decide (n ≤ S (length l))).
  - rewrite drop_app_le by lia. f_equal. f_equal. lia.
  - replace (length l + 1 - n) with 0 by lia. by replace (length l - (n - 1)) with 0 by lia.
Qed.

Lemma lastn_lastn (l : list A) n m : n ≤ m → lastn n (lastn m l) = lastn n l.
Proof.
  intros ?. unfold lastn. rewrite drop_drop, length_drop. f_equal. lia.
Qed.
End lastn.

(** ** Pushing

    The window of a ring that is pushed to at [head], and forgets its oldest element when it
    is full, is the end of the log of all that was pushed. *)
Section push.
Context {A : Type} `{Inhabited A} (cap : nat) (cap_pos : 0 < cap).

Lemma ring_push_window (buf : list A) head c x :
  length buf = cap → head < cap → c < cap →
  ring_view cap ((head + 1) mod cap + cap - S c) (S c) (<[head := x]> buf)
  = ring_view cap (head + cap - c) c buf ++ [x].
Proof.
  intros Hlen Hhead Hc.
  rewrite <- (ring_view_start_mod cap ((head + 1) mod cap + cap - S c)).
  replace (((head + 1) mod cap + cap - S c) mod cap) with ((head + cap - c) mod cap).
  2: { rewrite <- (Nat.add_sub_assoc ((head + 1) mod cap)), Nat.Div0.add_mod_idemp_l by lia.
       f_equal. lia. }
  rewrite ring_view_start_mod.
  assert (head = (head + cap - c + c) mod cap) as Hh.
  { replace (head + cap - c + c) with (head + 1 * cap) by lia.
    by rewrite Nat.Div0.mod_add, Nat.mod_small. }
  replace (<[head := x]> buf) with (<[(head + cap - c + c) mod cap := x]> buf)
    by (by rewrite <- Hh).
  by apply ring_view_snoc.
Qed.

Lemma ring_push_view (buf log : list A) head count x :
  length buf = cap → head < cap → count = Nat.min cap (length log) →
  ring_view cap (head + cap - count) count buf = lastn cap log →
  let count' := if count <? cap then S count else count in
  let head' := (head + 1) mod cap in
  count' = Nat.min cap (S (length log)) ∧
  ring_view cap (head' + cap - count') count' (<[head := x]> buf) = lastn cap (log ++ [x]).
Proof.
  intros Hlen Hhead Hcount Hview count' head'. subst count' head'.
  destruct (count <? cap) eqn:Hlt; bool_facts.
  - split; [lia|]. rewrite ring_push_window by lia.
    rewrite Hview, !lastn_all; [done|rewrite ?length_app; simpl; lia..].
  - split; [lia|]. replace count with (S (count - 1)) by lia. rewrite ring_push_window by lia.
    rewrite lastn_snoc by done. f_equal.
    rewrite <- (lastn_lastn log (cap - 1) cap) by lia. rewrite <- Hview.
    assert (count = cap) as -> by lia. unfold lastn. rewrite length_ring_view.
    rewrite drop_ring_view by lia.
    replace (cap - (cap - 1)) with 1 by lia. f_equal. lia.
Qed.

(** The last [n] elements of such a window. *)
Lemma ring_view_last (buf log : list A) head count n :
  head < cap → count = Nat.min cap (length log) → ring_view cap (head + cap - count) count buf = lastn cap log →
  ring_view cap ((head + cap - Nat.min n count) mod cap) (Nat.min n count) buf = lastn (Nat.min n cap) log.
Proof.
  intros Hhead Hcount Hview. rewrite ring_view_start_mod. set (k := Nat.min n count).
  rewrite <- (lastn_lastn log (Nat.min n cap) cap), <- Hview by lia. unfold lastn. rewrite length_ring_view.
  rewrite drop_ring_view by lia. f_equal; unfold k; lia.
Qed.
End push.
