(* ===== verification/WorkQueue.v ===== *)
(** * The work queue (src/net/work_queue.c, include/miniweb/net/work_queue.h)

    The dispatcher hands ready connections to the worker threads through a
    circular buffer of [void *] protected by a mutex.  Every function holds the
    mutex from its first to its last access, so one call is one atomic step;
    [pthread_cond_wait] is the outcome [PopWait], after which the caller runs the
    same test again.  [BoundedFifo] is the contract the dispatcher and the
    workers rely on: a FIFO list that refuses a push at capacity. *)

From S2P Require Import Prelude Ring.

Definition MINIWEB_QUEUE_CAPACITY : nat := N.to_nat 4096.

Lemma MINIWEB_QUEUE_CAPACITY_pos : 0 < MINIWEB_QUEUE_CAPACITY.
Proof. unfold MINIWEB_QUEUE_CAPACITY. lia. Qed.

#[global] Opaque MINIWEB_QUEUE_CAPACITY.

(** ** The contract *)

Inductive queue_op (A : Type) :=
| OpPush (item : A)
| OpPop (running : bool).
Arguments OpPush {A} _.
Arguments OpPop {A} _.

(** What the caller of an operation sees: the return code of a push; for a pop
    either that it has to wait, or the pointer it returns (NULL is [None]). *)
Inductive queue_obs (A : Type) :=
| ObsPush (rc : Z)
| ObsWait
| ObsPop (item : option A).
Arguments ObsPush {A} _.
Arguments ObsWait {A}.
Arguments ObsPop {A} _.

(** The abstract queue: a list of at most [cap] items. *)
Definition fifo_step {A} (cap : nat) (l : list A) (op : queue_op A) : queue_obs A * list A :=
  match op, l with
  | OpPush x, _ => if length l <? cap then (ObsPush 0, l ++ [x]) else (ObsPush (-1), l)
  | OpPop running, [] => if running then (ObsWait, []) else (ObsPop None, [])
  | OpPop _, x :: l' => (ObsPop (Some x), l')
  end.

(** Run a sequence of operations, collecting the observations. *)
Fixpoint run_ops {A S} (step : S → queue_op A → queue_obs A * S) (s : S)
    (ops : list (queue_op A)) : list (queue_obs A) * S :=
  match ops with
  | [] => ([], s)
  | op :: ops' =>
      let '(o, s1) := step s op in
      let '(os, s2) := run_ops step s1 ops' in
      (o :: os, s2)
  end.

(** An implementation [Q] of the queue of [A]: it simulates the abstract one. *)
Class BoundedFifo (A Q : Type) (cap : nat) := {
  bf_init : Q;
  bf_step : Q → queue_op A → queue_obs A * Q;
  bf_rel : Q → list A → Prop;
  bf_init_rel : bf_rel bf_init [];
  bf_step_rel q l op :
    bf_rel q l →
    (bf_step q op).1 = (fifo_step cap l op).1 ∧
    bf_rel (bf_step q op).2 (fifo_step cap l op).2;
}.

Section fifo_facts.
Context {A Q : Type} {cap : nat} `{BoundedFifo A Q cap}.

Lemma fifo_run_rel q l ops :
  bf_rel q l →
  (run_ops bf_step q ops).1 = (run_ops (fifo_step cap) l ops).1 ∧
  bf_rel (run_ops bf_step q ops).2 (run_ops (fifo_step cap) l ops).2.
Proof.
  revert q l. induction ops as [|op ops IH]; intros q l Hrel; simpl; [done|].
  destruct (bf_step_rel q l op Hrel) as [Ho Hr].
  destruct (bf_step q op) as [o q1], (fifo_step cap l op) as [o' l1]. simpl in *.
  destruct (IH _ _ Hr) as [Hos Hr2].
  destruct (run_ops bf_step q1 ops), (run_ops (fifo_step cap) l1 ops). simpl in *.
  by subst.
Qed.

Lemma fifo_step_length (l : list A) op : length l ≤ cap → length (fifo_step cap l op).2 ≤ cap.
Proof.
  intros Hl. destruct op as [x|r], l as [|y l]; simpl in *; repeat split_if;
    rewrite ?length_app; simpl in *; lia.
Qed.
End fifo_facts.

(** ** The implementation *)

Section work_queue.
Context {A : Type}.

Record work_queue := WorkQueue {
  wq_items : list (option A);
  wq_head : nat;
  wq_tail : nat;
  wq_count : nat;
}.

(** [memset(q, 0, sizeof *q)] *)
Definition miniweb_work_queue_init : work_queue :=
  {| wq_items := replicate MINIWEB_QUEUE_CAPACITY None;
     wq_head := 0; wq_tail := 0; wq_count := 0 |}.

Definition miniweb_work_queue_push (q : work_queue) (item : option A) : Z * work_queue :=
  if MINIWEB_QUEUE_CAPACITY <=? wq_count q then ((-1)%Z, q)
  else (0%Z, {| wq_items := <[wq_tail q := item]> (wq_items q);
                wq_head := wq_head q;
                wq_tail := (wq_tail q + 1) mod MINIWEB_QUEUE_CAPACITY;
                wq_count := wq_count q + 1 |}).

Inductive pop_result :=
| PopWait
| PopRet (item : option A) (q : work_queue).

Definition miniweb_work_queue_pop (q : work_queue) (running : bool) : pop_result :=
  if (wq_count q =? 0) && running then PopWait
  else if wq_count q =? 0 then PopRet None q
  else PopRet (wq_items q !!! wq_head q)
              {| wq_items := wq_items q;
                 wq_head := (wq_head q + 1) mod MINIWEB_QUEUE_CAPACITY;
                 wq_tail := wq_tail q;
                 wq_count := wq_count q - 1 |}.

(** The queued pointers, oldest first. *)
Definition wq_view (q : work_queue) : list (option A) :=
  ring_view MINIWEB_QUEUE_CAPACITY (wq_head q) (wq_count q) (wq_items q).

Record wq_wf (q : work_queue) : Prop := {
  wq_wf_items : length (wq_items q) = MINIWEB_QUEUE_CAPACITY;
  wq_wf_count : wq_count q ≤ MINIWEB_QUEUE_CAPACITY;
  wq_wf_head : wq_head q < MINIWEB_QUEUE_CAPACITY;
  wq_wf_tail : wq_tail q = (wq_head q + wq_count q) mod MINIWEB_QUEUE_CAPACITY;
}.

Lemma length_wq_view q : length (wq_view q) = wq_count q.
Proof. apply length_ring_view. Qed.

Lemma init_wf : wq_wf miniweb_work_queue_init.
Proof.
  pose proof MINIWEB_QUEUE_CAPACITY_pos. split; simpl; [by rewrite length_replicate|lia|lia|].
  by rewrite Nat.Div0.mod_0_l.
Qed.

Lemma push_spec q item :
  wq_wf q →
  if decide (length (wq_view q) < MINIWEB_QUEUE_CAPACITY)
  then ∃ q', miniweb_work_queue_push q item = (0%Z, q') ∧ wq_wf q'
             ∧ wq_view q' = wq_view q ++ [item]
  else miniweb_work_queue_push q item = ((-1)%Z, q).
Proof.
  pose proof MINIWEB_QUEUE_CAPACITY_pos as Hpos. intros [Hi Hc Hh Ht].
  rewrite length_wq_view. unfold miniweb_work_queue_push.
  case_decide; destruct (Nat.leb_spec MINIWEB_QUEUE_CAPACITY (wq_count q)); [lia| |done|lia].
  eexists. split; [done|]. split.
  - split; simpl; [by rewrite length_insert|lia|lia|].
    rewrite Ht, Nat.Div0.add_mod_idemp_l. f_equal. lia.
  - unfold wq_view; simpl. rewrite Ht, Nat.add_1_r. apply ring_view_snoc; [lia|done|lia].
Qed.

Lemma pop_spec q running :
  wq_wf q →
  match wq_view q with
  | [] => miniweb_work_queue_pop q running
          = if running then PopWait else PopRet None q
  | x :: l => ∃ q', miniweb_work_queue_pop q running = PopRet x q' ∧ wq_wf q'
                    ∧ wq_view q' = l
  end.
Proof.
  pose proof MINIWEB_QUEUE_CAPACITY_pos as Hpos. intros [Hi Hc Hh Ht].
  destruct (wq_view q) as [|x l] eqn:E.
  - apply (f_equal length) in E. rewrite length_wq_view in E. simpl in E.
    unfold miniweb_work_queue_pop. rewrite E. by destruct running.
  - pose proof (f_equal length E) as Hlen. rewrite length_wq_view in Hlen. simpl in Hlen.
    unfold wq_view in E. rewrite Hlen, ring_view_cons in E by done.
    rewrite Nat.mod_small in E by done. simplify_eq.
    unfold miniweb_work_queue_pop. rewrite Hlen. simpl.
    eexists. split; [done|]. split.
    + split; simpl; [done|lia|by apply mod_lt|].
      rewrite Ht, Hlen, Nat.Div0.add_mod_idemp_l. f_equal. lia.
    + unfold wq_view; simpl. by rewrite Nat.sub_0_r.
Qed.
End work_queue.
Arguments work_queue : clear implicits.
Arguments pop_result : clear implicits.

(** ** The implementation meets the contract

    Clients only queue connections, never NULL, so the items are [Some]. *)

Definition wq_step {A} (q : work_queue A) (op : queue_op A) : queue_obs A * work_queue A :=
  match op with
  | OpPush x => let '(rc, q') := miniweb_work_queue_push q (Some x) in (ObsPush rc, q')
  | OpPop running =>
      match miniweb_work_queue_pop q running with
      | PopWait => (ObsWait, q)
      | PopRet item q' => (ObsPop item, q')
      end
  end.

Lemma wq_step_rel {A} (q : work_queue A) (l : list A) op :
  wq_wf q ∧ wq_view q = Some <$> l →
  (wq_step q op).1 = (fifo_step MINIWEB_QUEUE_CAPACITY l op).1 ∧
  (wq_wf (wq_step q op).2 ∧
   wq_view (wq_step q op).2 = Some <$> (fifo_step MINIWEB_QUEUE_CAPACITY l op).2).
Proof.
  intros [Hwf Hv]. destruct op as [x|running]; simpl.
  - pose proof (push_spec q (Some x) Hwf) as Hp. rewrite Hv, length_fmap in Hp.
    case_decide as Hc; destruct (Nat.ltb_spec (length l) MINIWEB_QUEUE_CAPACITY); try lia.
    + destruct Hp as (q' & -> & Hwf' & Hv'). simpl. rewrite Hv', fmap_app. done.
    + rewrite Hp. done.
  - pose proof (pop_spec q running Hwf) as Hp. rewrite Hv in Hp.
    destruct l as [|x l]; simpl in *.
    + rewrite Hp. by destruct running.
    + destruct Hp as (q' & -> & Hwf' & Hv'). done.
Qed.

#[export] Instance work_queue_fifo A :
  BoundedFifo A (work_queue A) MINIWEB_QUEUE_CAPACITY := {
  bf_init := miniweb_work_queue_init;
  bf_step := wq_step;
  bf_rel q l := wq_wf q ∧ wq_view q = Some <$> l;
  bf_init_rel := conj init_wf eq_refl;
  bf_step_rel q l op H := wq_step_rel q l op H;
}.

(** ** Properties *)

(** C7. Whatever sequence of pushes and pops the dispatcher and the workers
    perform on the circular buffer, starting from [miniweb_work_queue_init], every
    return value is the one of a FIFO list of capacity 4096: items come out in the
    order they were pushed, each once, a push fails only at capacity, and a pop
    waits exactly when the queue is empty and the server still runs. *)
Theorem work_queue_refines_fifo (A : Type) (ops : list (queue_op A)) :
  (run_ops wq_step miniweb_work_queue_init ops).1
  = (run_ops (fifo_step MINIWEB_QUEUE_CAPACITY) [] ops).1.
Proof.
  exact (proj1 (fifo_run_rel (H := work_queue_fifo A) _ _ ops bf_init_rel)).
Qed.
