(* ===== verification/ConnectionPool.v ===== *)
(** * The connection pool (src/net/connection_pool.c)

    [pool] is the array of connection objects, [connections] maps a descriptor to
    the object that serves it (a pointer into [pool], here the slot number),
    [conn_gen] counts how often each descriptor was released and the free stack
    holds the unused slots.  Every function runs under the pool mutex, so a call is
    one atomic step.  [pool_wf] is the invariant of all reachable pools. *)

From S2P Require Import Prelude FreeStack.

Definition MINIWEB_MAX_CONNECTIONS : nat := N.to_nat 4096.
Definition MINIWEB_REQUEST_BUFFER_SIZE : nat := N.to_nat 16384.

Lemma MINIWEB_MAX_CONNECTIONS_pos : 0 < MINIWEB_MAX_CONNECTIONS.
Proof. unfold MINIWEB_MAX_CONNECTIONS. lia. Qed.

Lemma MINIWEB_MAX_CONNECTIONS_val : Z.of_nat MINIWEB_MAX_CONNECTIONS = 4096%Z.
Proof. unfold MINIWEB_MAX_CONNECTIONS. lia. Qed.

Lemma MINIWEB_REQUEST_BUFFER_SIZE_val : Z.of_nat MINIWEB_REQUEST_BUFFER_SIZE = 16384%Z.
Proof. unfold MINIWEB_REQUEST_BUFFER_SIZE. lia. Qed.

#[global] Opaque MINIWEB_MAX_CONNECTIONS MINIWEB_REQUEST_BUFFER_SIZE.

(** ** Data *)

Record sockaddr_in := { sin_addr : Z; sin_port : Z }.

Definition zero_sockaddr : sockaddr_in := {| sin_addr := 0; sin_port := 0 |}.

Record connection := Connection {
  conn_fd : Z;
  conn_addr : sockaddr_in;
  conn_buffer : bytes;
  conn_bytes_read : nat;
  conn_created : Z;
  conn_last_activity : Z;
  conn_requests_served : Z;
  conn_gen_of : Z;
}.

(** [memset(conn, 0, sizeof *conn)] *)
Definition zero_connection : connection :=
  {| conn_fd := 0; conn_addr := zero_sockaddr;
     conn_buffer := replicate MINIWEB_REQUEST_BUFFER_SIZE nul;
     conn_bytes_read := 0; conn_created := 0; conn_last_activity := 0;
     conn_requests_served := 0; conn_gen_of := 0 |}.

#[export] Instance connection_inhabited : Inhabited connection := populate zero_connection.

Record connection_pool := ConnectionPool {
  cp_connections : list (option nat);
  cp_conn_gen : list Z;
  cp_active : Z;
  cp_pool : list connection;
  cp_free : free_stack;
}.

Definition miniweb_connection_pool_init : connection_pool :=
  {| cp_connections := replicate MINIWEB_MAX_CONNECTIONS None;
     cp_conn_gen := replicate MINIWEB_MAX_CONNECTIONS 0%Z;
     cp_active := 0;
     cp_pool := replicate MINIWEB_MAX_CONNECTIONS zero_connection;
     cp_free := fs_init MINIWEB_MAX_CONNECTIONS |}.

(** [fd < 0 || fd >= MINIWEB_MAX_CONNECTIONS] is refused. *)
Definition fd_ok (fd : Z) : bool :=
  ((0 <=? fd) && (fd <? Z.of_nat MINIWEB_MAX_CONNECTIONS))%Z.

(** [pool->connections[fd]] and [pool->conn_gen[fd]] for a descriptor in range. *)
Definition cp_conn (p : connection_pool) (fd : Z) : option nat :=
  cp_connections p !!! Z.to_nat fd.
Definition cp_gen (p : connection_pool) (fd : Z) : Z := cp_conn_gen p !!! Z.to_nat fd.

Definition new_connection (fd now gen : Z) (addr : option sockaddr_in) : connection :=
  {| conn_fd := fd;
     conn_addr := default zero_sockaddr addr;
     conn_buffer := replicate MINIWEB_REQUEST_BUFFER_SIZE nul;
     conn_bytes_read := 0;
     conn_created := now; conn_last_activity := now;
     conn_requests_served := 0; conn_gen_of := gen |}.

Definition miniweb_connection_alloc (p : connection_pool) (fd : Z)
    (addr : option sockaddr_in) (max_conns now : Z) : option nat * connection_pool :=
  if negb (fd_ok fd) then (None, p)
  else if (max_conns <=? cp_active p)%Z then (None, p)
  else match cp_conn p fd with
  | Some _ => (None, p)
  | None =>
      match fs_pop (cp_free p) with
      | None => (None, p)
      | Some (slot, free') =>
          (Some slot,
           {| cp_connections := <[Z.to_nat fd := Some slot]> (cp_connections p);
              cp_conn_gen := cp_conn_gen p;
              cp_active := cp_active p + 1;
              cp_pool := <[slot := new_connection fd now (cp_gen p fd) addr]> (cp_pool p);
              cp_free := free' |})
      end
  end.

Definition miniweb_connection_free (p : connection_pool) (fd : Z) : connection_pool :=
  if negb (fd_ok fd) then p
  else match cp_conn p fd with
  | None => p
  | Some slot =>
      let in_pool := slot <? MINIWEB_MAX_CONNECTIONS in
      {| cp_connections := <[Z.to_nat fd := None]> (cp_connections p);
         cp_conn_gen := <[Z.to_nat fd := wrap32 (cp_gen p fd + 1)]> (cp_conn_gen p);
         cp_active := if (0 <? cp_active p)%Z then cp_active p - 1 else cp_active p;
         cp_pool := if in_pool then <[slot := zero_connection]> (cp_pool p) else cp_pool p;
         cp_free := if in_pool then fs_push MINIWEB_MAX_CONNECTIONS slot (cp_free p)
                    else cp_free p |}
  end.

(** [conn] is a pointer into [pool] or NULL. *)
Definition miniweb_connection_is_stale (p : connection_pool) (fd : Z)
    (conn : option nat) : bool :=
  match conn with
  | None => true
  | Some slot =>
      negb (bool_decide (cp_conn p fd = Some slot)) ||
      negb (conn_gen_of (cp_pool p !!! slot) =? cp_gen p fd)%Z
  end.

(** What the workers do to a connection object: everything but its identity. *)
Definition cp_update (p : connection_pool) (slot : nat) (f : connection → connection)
    : connection_pool :=
  {| cp_connections := cp_connections p; cp_conn_gen := cp_conn_gen p;
     cp_active := cp_active p; cp_pool := alter f slot (cp_pool p); cp_free := cp_free p |}.

(** ** Invariant *)

Definition serves (p : connection_pool) (fd : Z) (slot : nat) : Prop :=
  fd_ok fd = true ∧ cp_conn p fd = Some slot.

Record pool_wf (p : connection_pool) : Prop := {
  wf_connections : length (cp_connections p) = MINIWEB_MAX_CONNECTIONS;
  wf_gens : length (cp_conn_gen p) = MINIWEB_MAX_CONNECTIONS;
  wf_pool : length (cp_pool p) = MINIWEB_MAX_CONNECTIONS;
  wf_free : fs_wf MINIWEB_MAX_CONNECTIONS (cp_free p);
  wf_active : (cp_active p + Z.of_nat (fs_top (cp_free p)) = Z.of_nat MINIWEB_MAX_CONNECTIONS)%Z;
  wf_serves fd slot : serves p fd slot →
    slot < MINIWEB_MAX_CONNECTIONS ∧ slot ∉ fs_free (cp_free p) ∧
    conn_fd (cp_pool p !!! slot) = fd ∧ conn_gen_of (cp_pool p !!! slot) = cp_gen p fd;
  wf_no_leak slot : slot < MINIWEB_MAX_CONNECTIONS → slot ∉ fs_free (cp_free p) →
    ∃ fd, serves p fd slot;
}.

Lemma fd_ok_spec fd :
  fd_ok fd = true ↔ (0 ≤ fd)%Z ∧ Z.to_nat fd < MINIWEB_MAX_CONNECTIONS.
Proof.
  unfold fd_ok. rewrite andb_true_iff, Z.leb_le, Z.ltb_lt.
  pose proof MINIWEB_MAX_CONNECTIONS_val. lia.
Qed.

Lemma fd_ok_inj fd fd' :
  fd_ok fd = true → fd_ok fd' = true → Z.to_nat fd = Z.to_nat fd' → fd = fd'.
Proof. rewrite !fd_ok_spec. lia. Qed.

Lemma cp_conn_insert p fd fd' o l g a pl fr :
  cp_connections p = l → length l = MINIWEB_MAX_CONNECTIONS →
  fd_ok fd = true → fd_ok fd' = true →
  cp_conn {| cp_connections := <[Z.to_nat fd := o]> l; cp_conn_gen := g; cp_active := a;
             cp_pool := pl; cp_free := fr |} fd'
  = if bool_decide (fd = fd') then o else cp_conn p fd'.
Proof.
  intros <- Hl Hok Hok'. unfold cp_conn; simpl. case_bool_decide as E.
  - subst. apply list_lookup_total_insert_eq. rewrite Hl. by apply fd_ok_spec.
  - apply list_lookup_total_insert_ne. intros H. apply E. by apply fd_ok_inj.
Qed.

Lemma init_pool_wf : pool_wf miniweb_connection_pool_init.
Proof.
  split; simpl; rewrite ?length_replicate; auto with mw.
  - intros fd slot [Hok Hc]. unfold cp_conn in Hc; simpl in Hc.
    rewrite list_lookup_total_alt, lookup_replicate_2 in Hc; [done|by apply fd_ok_spec].
  - intros slot Hs Hn. exfalso. by apply Hn, elem_of_fs_init.
Qed.

Lemma alloc_inv p fd addr mc now r p' :
  miniweb_connection_alloc p fd addr mc now = (r, p') →
  match r with
  | None => p' = p
  | Some slot =>
      fd_ok fd = true ∧ (cp_active p < mc)%Z ∧ cp_conn p fd = None ∧
      ∃ free', fs_pop (cp_free p) = Some (slot, free') ∧
      p' = {| cp_connections := <[Z.to_nat fd := Some slot]> (cp_connections p);
              cp_conn_gen := cp_conn_gen p;
              cp_active := cp_active p + 1;
              cp_pool := <[slot := new_connection fd now (cp_gen p fd) addr]> (cp_pool p);
              cp_free := free' |}
  end.
Proof.
  unfold miniweb_connection_alloc. intros H.
  destruct (fd_ok fd) eqn:?; simpl in H; [|by simplify_eq].
  destruct (Z.leb_spec mc (cp_active p)); [by simplify_eq|].
  destruct (cp_conn p fd) eqn:?; [by simplify_eq|].
  destruct (fs_pop (cp_free p)) as [[slot free']|] eqn:?; simplify_eq; eauto 10.
Qed.

Lemma alloc_wf p fd addr mc now r p' :
  pool_wf p → miniweb_connection_alloc p fd addr mc now = (r, p') → pool_wf p'.
Proof.
  intros Hwf Ha%alloc_inv. destruct r as [slot|]; [|by subst].
  destruct Ha as (Hok & Hact & Hc & free' & Hpop & ->).
  pose proof (fs_pop_Some _ _ _ Hpop) as (_ & Htop & _).
  destruct Hwf as [Hlc Hlg Hlp Hfw Hac Hsv Hnl].
  destruct (fs_pop_wf _ _ _ _ Hfw Hpop) as (Hfw' & Hs & Hns & Hfree).
  split; simpl; rewrite ?length_insert; auto; [lia| |].
  - intros fd' slot' [Hok' Hc']. erewrite cp_conn_insert in Hc' by eauto.
    case_bool_decide as E; simplify_eq.
    + rewrite list_lookup_total_insert_eq by lia. auto.
    + destruct (Hsv fd' slot') as (? & Hni & ? & ?); [done|].
      rewrite Hfree in Hni. apply not_elem_of_app in Hni as [? Hni].
      rewrite list_elem_of_singleton in Hni.
      rewrite list_lookup_total_insert_ne by done. auto.
  - intros s Hs' Hns'. destruct (decide (s = slot)) as [->|Hne].
    + exists fd. split; [done|]. erewrite cp_conn_insert by eauto. by rewrite bool_decide_true.
    + destruct (Hnl s Hs') as (fd' & Hok' & Hc').
      { rewrite Hfree, not_elem_of_app, list_elem_of_singleton. done. }
      exists fd'. split; [done|]. erewrite cp_conn_insert by eauto.
      rewrite bool_decide_false; [done|]. intros ->. congruence.
Qed.

Lemma free_inv p fd :
  pool_wf p →
  (cp_conn p fd = None ∨ fd_ok fd = false → miniweb_connection_free p fd = p) ∧
  ∀ slot, serves p fd slot →
    miniweb_connection_free p fd =
    {| cp_connections := <[Z.to_nat fd := None]> (cp_connections p);
       cp_conn_gen := <[Z.to_nat fd := wrap32 (cp_gen p fd + 1)]> (cp_conn_gen p);
       cp_active := cp_active p - 1;
       cp_pool := <[slot := zero_connection]> (cp_pool p);
       cp_free := fs_push MINIWEB_MAX_CONNECTIONS slot (cp_free p) |}.
Proof.
  intros Hwf. unfold miniweb_connection_free. split.
  - destruct (fd_ok fd); simpl; [|done]. intros [->|?]; done.
  - intros slot [Hok Hc]. rewrite Hok, Hc; simpl.
    destruct (wf_serves _ Hwf fd slot) as (Hs & Hn & _); [done|].
    pose proof (fs_top_lt _ _ _ (wf_free _ Hwf) Hs Hn). pose proof (wf_active _ Hwf).
    destruct (Nat.ltb_spec slot MINIWEB_MAX_CONNECTIONS); [|lia].
    destruct (Z.ltb_spec 0 (cp_active p)); [done|lia].
Qed.

Lemma serves_inj p fd fd' slot :
  pool_wf p → serves p fd slot → serves p fd' slot → fd = fd'.
Proof.
  intros Hwf (_ & _ & ? & _)%(wf_serves _ Hwf) (_ & _ & ? & _)%(wf_serves _ Hwf). congruence.
Qed.

Lemma free_wf p fd : pool_wf p → pool_wf (miniweb_connection_free p fd).
Proof.
  intros Hwf. destruct (free_inv p fd Hwf) as [Hno Hyes].
  destruct (fd_ok fd) eqn:Hok; [|rewrite Hno; auto].
  destruct (cp_conn p fd) as [slot|] eqn:Hc; [|rewrite Hno; auto].
  rewrite (Hyes slot) by done. clear Hno Hyes.
  destruct (wf_serves _ Hwf fd slot) as (Hs & Hn & _); [done|].
  pose proof (fs_push_wf _ _ _ (wf_free _ Hwf) Hs Hn) as [Hfw Hfree].
  pose proof (length_fs_free _ _ Hfw) as Hlen.
  rewrite Hfree, length_app, (length_fs_free _ _ (wf_free _ Hwf)) in Hlen. simpl in Hlen.
  pose proof (serves_inj p) as Hinj.
  destruct Hwf as [Hlc Hlg Hlp Hfw0 Hac Hsv Hnl].
  split; simpl; rewrite ?length_insert; auto; [lia| |].
  - intros fd' slot' [Hok' Hc']. erewrite cp_conn_insert in Hc' by eauto.
    case_bool_decide as E; [done|].
    destruct (Hsv fd' slot') as (? & ? & ? & Hg); [done|].
    assert (slot ≠ slot') as Hne.
    { intros <-. apply E. apply (Hinj fd fd' slot); [split; auto|done|done]. }
    rewrite Hfree, not_elem_of_app, list_elem_of_singleton,
      list_lookup_total_insert_ne by done.
    split_and!; auto. rewrite Hg. unfold cp_gen; simpl.
    rewrite list_lookup_total_insert_ne; [done|]. intros ?. by apply E, fd_ok_inj.
  - intros s Hs'. rewrite Hfree, not_elem_of_app, list_elem_of_singleton. intros [Hns Hne].
    destruct (Hnl s Hs' Hns) as (fd' & Hok' & Hc'). exists fd'. split; [done|].
    erewrite cp_conn_insert by eauto. rewrite bool_decide_false; [done|].
    intros ->. congruence.
Qed.

(** An update of one object that keeps its descriptor and generation. *)
Lemma update_at_wf p slot f :
  conn_fd (f (cp_pool p !!! slot)) = conn_fd (cp_pool p !!! slot) →
  conn_gen_of (f (cp_pool p !!! slot)) = conn_gen_of (cp_pool p !!! slot) →
  pool_wf p → pool_wf (cp_update p slot f).
Proof.
  intros Hf Hg [Hlc Hlg Hlp Hfw Hac Hsv Hnl].
  assert (∀ s, s < MINIWEB_MAX_CONNECTIONS →
    conn_fd (cp_pool (cp_update p slot f) !!! s) = conn_fd (cp_pool p !!! s) ∧
    conn_gen_of (cp_pool (cp_update p slot f) !!! s) = conn_gen_of (cp_pool p !!! s)) as Hsame.
  { intros s Hs. simpl. rewrite !list_lookup_total_alt in *.
    destruct (decide (s = slot)) as [->|Hne].
    - rewrite list_lookup_alter_eq. destruct (cp_pool p !! slot); simpl in *; auto.
    - by rewrite list_lookup_alter_ne by done. }
  split; simpl; rewrite ?length_alter; auto.
  intros fd s Hsrv. destruct (Hsv fd s Hsrv) as (? & ? & ? & ?).
  destruct (Hsame s) as [Hf' Hg']; [done|]. simpl in Hf', Hg'. rewrite Hf', Hg'. auto.
Qed.

Lemma update_wf p slot f :
  (∀ c, conn_fd (f c) = conn_fd c ∧ conn_gen_of (f c) = conn_gen_of c) →
  pool_wf p → pool_wf (cp_update p slot f).
Proof. intros Hf. apply update_at_wf; apply Hf. Qed.

#[export] Hint Resolve init_pool_wf alloc_wf free_wf update_wf : mw.

(** The pools the server can reach: the dispatcher allocates with the configured
    limit and frees, workers update the objects they serve. *)
Inductive pool_reachable (max_conns : Z) : connection_pool → Prop :=
| reach_init : pool_reachable max_conns miniweb_connection_pool_init
| reach_alloc p fd addr now :
    pool_reachable max_conns p →
    pool_reachable max_conns (miniweb_connection_alloc p fd addr max_conns now).2
| reach_free p fd :
    pool_reachable max_conns p → pool_reachable max_conns (miniweb_connection_free p fd)
| reach_update p slot f :
    (∀ c, conn_fd (f c) = conn_fd c ∧ conn_gen_of (f c) = conn_gen_of c) →
    pool_reachable max_conns p → pool_reachable max_conns (cp_update p slot f).

Lemma reachable_wf mc p : pool_reachable mc p → pool_wf p.
Proof.
  induction 1 as [|p fd addr now _ IH|p fd _ IH|p slot f Hf _ IH]; eauto with mw.
  destruct (miniweb_connection_alloc p fd addr mc now) eqn:E. simpl. eauto with mw.
Qed.

Lemma reachable_active mc p : pool_reachable mc p → (0 ≤ cp_active p ≤ Z.max 0 mc)%Z.
Proof.
  induction 1 as [|p fd addr now Hr IH|p fd Hr IH|p slot f Hf _ IH]; simpl; [lia| | |done].
  - destruct (miniweb_connection_alloc p fd addr mc now) as [[s|] p'] eqn:E;
      apply alloc_inv in E; [|by subst]. destruct E as (_ & ? & _ & ? & _ & ->). simpl. lia.
  - apply reachable_wf in Hr. destruct (free_inv p fd Hr) as [Hno Hyes].
    destruct (fd_ok fd) eqn:Hok; [|rewrite Hno; auto].
    destruct (cp_conn p fd) as [slot|] eqn:Hc; [|rewrite Hno; auto].
    rewrite (Hyes slot) by done. simpl.
    destruct (wf_serves _ Hr fd slot) as (Hs & Hn & _); [done|].
    pose proof (fs_top_lt _ _ _ (wf_free _ Hr) Hs Hn). pose proof (wf_active _ Hr). lia.
Qed.

(** The conditions under which [miniweb_connection_alloc] succeeds. *)
Lemma alloc_succeeds p fd addr mc now :
  pool_wf p → (mc ≤ Z.of_nat MINIWEB_MAX_CONNECTIONS)%Z →
  fd_ok fd = true → (cp_active p < mc)%Z → cp_conn p fd = None →
  ∃ slot free', fs_pop (cp_free p) = Some (slot, free') ∧
    (miniweb_connection_alloc p fd addr mc now).1 = Some slot.
Proof.
  intros Hwf Hmc Hok Hact Hc.
  destruct (fs_pop (cp_free p)) as [[slot free']|] eqn:Hpop.
  - exists slot, free'. unfold miniweb_connection_alloc.
    destruct (Z.leb_spec mc (cp_active p)); [lia|]. by rewrite Hok, Hc, Hpop.
  - apply (fs_pop_None MINIWEB_MAX_CONNECTIONS) in Hpop; [|apply Hwf].
    pose proof (wf_active _ Hwf). lia.
Qed.

Lemma stale_spec p fd slot :
  pool_wf p → fd_ok fd = true →
  miniweb_connection_is_stale p fd (Some slot) = false ↔ cp_conn p fd = Some slot.
Proof.
  intros Hwf Hok. simpl. rewrite orb_false_iff, !negb_false_iff, bool_decide_eq_true, Z.eqb_eq.
  split; [tauto|]. intros Hc. split; [done|].
  by destruct (wf_serves _ Hwf fd slot) as (_ & _ & _ & ?).
Qed.

(** ** Properties *)

(** C4. In every pool the server can reach the free stack and the served
    descriptors partition the connection objects ([pool_wf]): a descriptor in use
    has its own object, recording that descriptor and its generation, no object is
    both free and in use, none is lost, and the number of active connections is
    the number of objects in use and never exceeds the configured limit. *)
Theorem pool_invariant (max_conns : Z) (p : connection_pool) :
  pool_reachable max_conns p →
  pool_wf p ∧ (0 ≤ cp_active p ≤ Z.max 0 max_conns)%Z ∧
  (∀ fd fd' slot, serves p fd slot → serves p fd' slot → fd = fd').
Proof.
  intros Hr. pose proof (reachable_wf _ _ Hr) as Hwf.
  split_and!; [done|apply (reachable_active _ _ Hr)..|]. eauto using serves_inj.
Qed.

(** [miniweb_connection_alloc] hands out an object exactly when the descriptor
    is in range and not in use and the pool is below the limit; the object was
    unused, is cleared and stamped with the descriptor, the time and the
    generation, and no other descriptor is affected.  Otherwise it returns NULL and
    changes nothing. *)
Theorem connection_alloc_spec (max_conns : Z) (p : connection_pool) (fd : Z)
    (addr : option sockaddr_in) (now : Z) :
  pool_reachable max_conns p → (max_conns ≤ Z.of_nat MINIWEB_MAX_CONNECTIONS)%Z →
  match miniweb_connection_alloc p fd addr max_conns now with
  | (Some slot, p') =>
      fd_ok fd = true ∧ cp_conn p fd = None ∧ (cp_active p < max_conns)%Z ∧
      (∀ fd', ¬ serves p fd' slot) ∧ serves p' fd slot ∧
      cp_pool p' !!! slot = new_connection fd now (cp_gen p fd) addr ∧
      cp_active p' = (cp_active p + 1)%Z ∧
      ∀ fd', fd' ≠ fd → fd_ok fd' = true → cp_conn p' fd' = cp_conn p fd'
  | (None, p') =>
      p' = p ∧ (fd_ok fd = false ∨ (max_conns ≤ cp_active p)%Z ∨ cp_conn p fd ≠ None)
  end.
Proof.
  intros Hr Hmc. pose proof (reachable_wf _ _ Hr) as Hwf.
  destruct (miniweb_connection_alloc p fd addr max_conns now) as [[slot|] p'] eqn:E;
    pose proof (alloc_inv _ _ _ _ _ _ _ E) as Ha.
  - destruct Ha as (Hok & Hact & Hc & free' & Hpop & ->).
    destruct (fs_pop_wf _ _ _ _ (wf_free _ Hwf) Hpop) as (_ & Hs & Hns & Hfree).
    pose proof (wf_connections _ Hwf). split_and!; auto.
    + intros fd' (_ & Hn & _)%(wf_serves _ Hwf). apply Hn. rewrite Hfree.
      apply elem_of_app. right. by apply list_elem_of_singleton.
    + split; [done|]. erewrite cp_conn_insert by eauto. by rewrite bool_decide_true.
    + simpl. apply list_lookup_total_insert_eq. pose proof (wf_pool _ Hwf). lia.
    + intros fd' Hne Hok'. erewrite cp_conn_insert by eauto. by rewrite bool_decide_false.
  - split; [done|]. destruct (fd_ok fd) eqn:Hok; [right|by left].
    destruct (Z.le_gt_cases max_conns (cp_active p)) as [?|Hact]; [by left|right]. intros Hc.
    destruct (alloc_succeeds p fd addr max_conns now Hwf Hmc Hok) as (? & ? & _ & Hsome); auto.
    by rewrite E in Hsome.
Qed.

(** The staleness test recognises no more than a freed object: a pointer kept
    across [miniweb_connection_free] is accepted again as soon as the slot is
    reallocated, for whatever descriptor the next accept returns, because the free
    stack hands the same slot out first and the generation compared against is read
    from the reallocated object itself. *)
Theorem recycled_pointer_not_stale (max_conns : Z) (p : connection_pool)
    (fd fd' : Z) (slot : nat) (addr : option sockaddr_in) (now : Z) :
  pool_reachable max_conns p → serves p fd slot →
  fd_ok fd' = true → fd' = fd ∨ cp_conn p fd' = None →
  let p1 := miniweb_connection_free p fd in
  let '(r, p2) := miniweb_connection_alloc p1 fd' addr max_conns now in
  miniweb_connection_is_stale p1 fd (Some slot) = true ∧
  r = Some slot ∧ conn_fd (cp_pool p2 !!! slot) = fd' ∧
  miniweb_connection_is_stale p2 fd' (Some slot) = false.
Proof.
  intros Hr Hsrv Hok' Hfree. pose proof (reachable_wf _ _ Hr) as Hwf.
  pose proof (reachable_active _ _ Hr) as Hact. pose proof (wf_active _ Hwf) as Hac.
  pose proof (wf_connections _ Hwf) as Hlc. pose proof Hsrv as [Hok Hc].
  destruct (wf_serves _ Hwf fd slot Hsrv) as (Hs & Hn & _).
  pose proof (fs_top_lt _ _ _ (wf_free _ Hwf) Hs Hn) as Htop. intros p1.
  pose proof (proj2 (free_inv p fd Hwf) slot Hsrv : p1 = _) as Hp1.
  assert (pool_wf p1) as Hwf1 by (unfold p1; auto with mw).
  assert (∀ f, fd_ok f = true → cp_conn p1 f = if bool_decide (fd = f) then None else cp_conn p f)
    as Hconn1 by (intros f ?; rewrite Hp1; by apply cp_conn_insert).
  destruct (fs_pop_push _ _ _ (wf_free _ Hwf) Hs Hn) as (fr & Hpop & _).
  assert (∃ p2, miniweb_connection_alloc p1 fd' addr max_conns now = (Some slot, p2))
    as [p2 Ha].
  { unfold miniweb_connection_alloc. rewrite Hok', Hconn1 by done. simpl.
    destruct (Z.leb_spec max_conns (cp_active p1)) as [Hle|_].
    { rewrite Hp1 in Hle. simpl in Hle. lia. }
    assert (fs_pop (cp_free p1) = Some (slot, fr)) as -> by by rewrite Hp1.
    case_bool_decide; [eauto|]. destruct Hfree as [->| ->]; eauto. done. }
  rewrite Ha. pose proof (alloc_wf _ _ _ _ _ _ _ Hwf1 Ha) as Hwf2.
  apply alloc_inv in Ha as (_ & _ & _ & ? & _ & ->).
  assert (serves {| cp_connections := <[Z.to_nat fd' := Some slot]> (cp_connections p1);
              cp_conn_gen := cp_conn_gen p1; cp_active := cp_active p1 + 1;
              cp_pool := <[slot := new_connection fd' now (cp_gen p1 fd') addr]> (cp_pool p1);
              cp_free := x |} fd' slot) as Hsrv2.
  { split; [done|]. erewrite cp_conn_insert by (eauto; apply Hwf1). by rewrite bool_decide_true. }
  destruct (wf_serves _ Hwf2 _ _ Hsrv2) as (_ & _ & Hfd & _).
  split; [|split; [done|split; [done|by apply stale_spec, Hsrv2]]].
  simpl. rewrite Hconn1, (bool_decide_true (fd = fd)) by done. done.
Qed.

(** ** Witnesses *)

Definition example_pool : connection_pool :=
  (miniweb_connection_alloc miniweb_connection_pool_init 5 None 10 100).2.

Lemma example_pool_reachable : pool_reachable 10 example_pool.
Proof. apply (reach_alloc 10 _ 5 None 100), reach_init. Defined.

Lemma example_pool_serves : serves example_pool 5 0.
Proof. split; vm_compute; reflexivity. Defined.

Lemma pool_invariant_witness : pool_wf example_pool ∧ (0 ≤ cp_active example_pool ≤ Z.max 0 10)%Z.
Proof.
  destruct (pool_invariant 10 example_pool example_pool_reachable) as (? & ? & _). auto.
Defined.

Lemma connection_alloc_spec_witness :
  (miniweb_connection_alloc example_pool 7 None 10 101).1 = Some 1 ∧
  cp_active (miniweb_connection_alloc example_pool 7 None 10 101).2 = 2%Z.
Proof.
  split; [vm_compute; reflexivity|].
  pose proof (connection_alloc_spec 10 example_pool 7 None 101 example_pool_reachable
    ltac:(rewrite MINIWEB_MAX_CONNECTIONS_val; lia)) as H.
  assert ((miniweb_connection_alloc example_pool 7 None 10 101).1 = Some 1) as E
    by (vm_compute; reflexivity).
  destruct (miniweb_connection_alloc example_pool 7 None 10 101) as [[s|] p'];
    simpl in *; [|discriminate E].
  destruct H as (_ & _ & _ & _ & _ & _ & -> & _). vm_compute. reflexivity.
Defined.

(** Descriptor 5 is closed and the next accept returns descriptor 6: the pointer
    queued for 5 passes the test of src/net/worker.c and now serves 6. *)
Lemma recycled_pointer_not_stale_witness :
  let p2 := (miniweb_connection_alloc (miniweb_connection_free example_pool 5) 6 None 10 101).2 in
  conn_fd (cp_pool p2 !!! 0) = 6%Z ∧ miniweb_connection_is_stale p2 6 (Some 0) = false.
Proof.
  pose proof (recycled_pointer_not_stale 10 example_pool 5 6 0 None 101
    example_pool_reachable example_pool_serves eq_refl (or_intror eq_refl)) as H.
  simpl in H |- *.
  destruct (miniweb_connection_alloc (miniweb_connection_free example_pool 5) 6 None 10 101).
  destruct H as (_ & _ & ? & ?). auto.
Defined.
