(* ===== verification/Conf.v ===== *)
(** * Configuration (src/core/conf.c, conf_defaults.c, conf_validation.c,
      and the option handling of src/app_main.c)

    [miniweb_conf] is the C structure, its [char] arrays being the C strings they
    hold.  Files are read through [files], the contents of the file system ([None]
    when fopen fails); the number of online cores and $HOME are arguments.
    Diagnostics on stderr are not modelled. *)

From S2P Require Import Prelude.
From S2P Require Import ConnectionPool.

Definition CONF_STR_MAX : nat := 256.
Definition MINIWEB_THREAD_POOL_SIZE : Z := 32.

Record miniweb_conf := MiniwebConf {
  port : Z;
  bind_addr : bytes;
  threads : Z;
  max_conns : Z;
  conn_timeout : Z;
  max_req_size : Z;
  mandoc_timeout : Z;
  static_dir : bytes;
  templates_dir : bytes;
  autoindex : Z;
  mandoc_path : bytes;
  trusted_proxy : bytes;
  verbose : Z;
  log_file : bytes;
  enable_views : Z;
  enable_metrics : Z;
  enable_networking : Z;
  enable_man : Z;
  enable_packages : Z;
}.

(** Assignments [conf->field = v]. *)
Definition set_port (v : Z) (c : miniweb_conf) : miniweb_conf :=
  MiniwebConf v (bind_addr c) (threads c) (max_conns c) (conn_timeout c) (max_req_size c)
    (mandoc_timeout c) (static_dir c) (templates_dir c) (autoindex c)
    (mandoc_path c) (trusted_proxy c) (verbose c) (log_file c) (enable_views c)
    (enable_metrics c) (enable_networking c) (enable_man c) (enable_packages c).
Definition set_bind_addr (v : bytes) (c : miniweb_conf) : miniweb_conf :=
  MiniwebConf (port c) v (threads c) (max_conns c) (conn_timeout c) (max_req_size c)
    (mandoc_timeout c) (static_dir c) (templates_dir c) (autoindex c)
    (mandoc_path c) (trusted_proxy c) (verbose c) (log_file c) (enable_views c)
    (enable_metrics c) (enable_networking c) (enable_man c) (enable_packages c).
Definition set_threads (v : Z) (c : miniweb_conf) : miniweb_conf :=
  MiniwebConf (port c) (bind_addr c) v (max_conns c) (conn_timeout c) (max_req_size c)
    (mandoc_timeout c) (static_dir c) (templates_dir c) (autoindex c)
    (mandoc_path c) (trusted_proxy c) (verbose c) (log_file c) (enable_views c)
    (enable_metrics c) (enable_networking c) (enable_man c) (enable_packages c).
Definition set_max_conns (v : Z) (c : miniweb_conf) : miniweb_conf :=
  MiniwebConf (port c) (bind_addr c) (threads c) v (conn_timeout c) (max_req_size c)
    (mandoc_timeout c) (static_dir c) (templates_dir c) (autoindex c)
    (mandoc_path c) (trusted_proxy c) (verbose c) (log_file c) (enable_views c)
    (enable_metrics c) (enable_networking c) (enable_man c) (enable_packages c).
Definition set_conn_timeout (v : Z) (c : miniweb_conf) : miniweb_conf :=
  MiniwebConf (port c) (bind_addr c) (threads c) (max_conns c) v (max_req_size c)
    (mandoc_timeout c) (static_dir c) (templates_dir c) (autoindex c)
    (mandoc_path c) (trusted_proxy c) (verbose c) (log_file c) (enable_views c)
    (enable_metrics c) (enable_networking c) (enable_man c) (enable_packages c).
Definition set_max_req_size (v : Z) (c : miniweb_conf) : miniweb_conf :=
  MiniwebConf (port c) (bind_addr c) (threads c) (max_conns c) (conn_timeout c) v
    (mandoc_timeout c) (static_dir c) (templates_dir c) (autoindex c)
    (mandoc_path c) (trusted_proxy c) (verbose c) (log_file c) (enable_views c)
    (enable_metrics c) (enable_networking c) (enable_man c) (enable_packages c).
Definition set_mandoc_timeout (v : Z) (c : miniweb_conf) : miniweb_conf :=
  MiniwebConf (port c) (bind_addr c) (threads c) (max_conns c) (conn_timeout c)
    (max_req_size c) v (static_dir c) (templates_dir c) (autoindex c)
    (mandoc_path c) (trusted_proxy c) (verbose c) (log_file c) (enable_views c)
    (enable_metrics c) (enable_networking c) (enable_man c) (enable_packages c).
Definition set_static_dir (v : bytes) (c : miniweb_conf) : miniweb_conf :=
  MiniwebConf (port c) (bind_addr c) (threads c) (max_conns c) (conn_timeout c)
    (max_req_size c) (mandoc_timeout c) v (templates_dir c) (autoindex c)
    (mandoc_path c) (trusted_proxy c) (verbose c) (log_file c) (enable_views c)
    (enable_metrics c) (enable_networking c) (enable_man c) (enable_packages c).
Definition set_templates_dir (v : bytes) (c : miniweb_conf) : miniweb_conf :=
  MiniwebConf (port c) (bind_addr c) (threads c) (max_conns c) (conn_timeout c)
    (max_req_size c) (mandoc_timeout c) (static_dir c) v (autoindex c)
    (mandoc_path c) (trusted_proxy c) (verbose c) (log_file c) (enable_views c)
    (enable_metrics c) (enable_networking c) (enable_man c) (enable_packages c).
Definition set_autoindex (v : Z) (c : miniweb_conf) : miniweb_conf :=
  MiniwebConf (port c) (bind_addr c) (threads c) (max_conns c) (conn_timeout c)
    (max_req_size c) (mandoc_timeout c) (static_dir c) (templates_dir c) v
    (mandoc_path c) (trusted_proxy c) (verbose c) (log_file c) (enable_views c)
    (enable_metrics c) (enable_networking c) (enable_man c) (enable_packages c).
Definition set_mandoc_path (v : bytes) (c : miniweb_conf) : miniweb_conf :=
  MiniwebConf (port c) (bind_addr c) (threads c) (max_conns c) (conn_timeout c)
    (max_req_size c) (mandoc_timeout c) (static_dir c) (templates_dir c)
    (autoindex c) v (trusted_proxy c) (verbose c) (log_file c) (enable_views c)
    (enable_metrics c) (enable_networking c) (enable_man c) (enable_packages c).
Definition set_trusted_proxy (v : bytes) (c : miniweb_conf) : miniweb_conf :=
  MiniwebConf (port c) (bind_addr c) (threads c) (max_conns c) (conn_timeout c)
    (max_req_size c) (mandoc_timeout c) (static_dir c) (templates_dir c)
    (autoindex c) (mandoc_path c) v (verbose c) (log_file c) (enable_views c)
    (enable_metrics c) (enable_networking c) (enable_man c) (enable_packages c).
Definition set_verbose (v : Z) (c : miniweb_conf) : miniweb_conf :=
  MiniwebConf (port c) (bind_addr c) (threads c) (max_conns c) (conn_timeout c)
    (max_req_size c) (mandoc_timeout c) (static_dir c) (templates_dir c)
    (autoindex c) (mandoc_path c) (trusted_proxy c) v (log_file c)
    (enable_views c) (enable_metrics c) (enable_networking c) (enable_man c)
    (enable_packages c).
Definition set_log_file (v : bytes) (c : miniweb_conf) : miniweb_conf :=
  MiniwebConf (port c) (bind_addr c) (threads c) (max_conns c) (conn_timeout c)
    (max_req_size c) (mandoc_timeout c) (static_dir c) (templates_dir c)
    (autoindex c) (mandoc_path c) (trusted_proxy c) (verbose c) v
    (enable_views c) (enable_metrics c) (enable_networking c) (enable_man c)
    (enable_packages c).
Definition set_enable_views (v : Z) (c : miniweb_conf) : miniweb_conf :=
  MiniwebConf (port c) (bind_addr c) (threads c) (max_conns c) (conn_timeout c)
    (max_req_size c) (mandoc_timeout c) (static_dir c) (templates_dir c)
    (autoindex c) (mandoc_path c) (trusted_proxy c) (verbose c) (log_file c) v
    (enable_metrics c) (enable_networking c) (enable_man c) (enable_packages c).
Definition set_enable_metrics (v : Z) (c : miniweb_conf) : miniweb_conf :=
  MiniwebConf (port c) (bind_addr c) (threads c) (max_conns c) (conn_timeout c)
    (max_req_size c) (mandoc_timeout c) (static_dir c) (templates_dir c)
    (autoindex c) (mandoc_path c) (trusted_proxy c) (verbose c) (log_file c)
    (enable_views c) v (enable_networking c) (enable_man c) (enable_packages c).
Definition set_enable_networking (v : Z) (c : miniweb_conf) : miniweb_conf :=
  MiniwebConf (port c) (bind_addr c) (threads c) (max_conns c) (conn_timeout c)
    (max_req_size c) (mandoc_timeout c) (static_dir c) (templates_dir c)
    (autoindex c) (mandoc_path c) (trusted_proxy c) (verbose c) (log_file c)
    (enable_views c) (enable_metrics c) v (enable_man c) (enable_packages c).
Definition set_enable_man (v : Z) (c : miniweb_conf) : miniweb_conf :=
  MiniwebConf (port c) (bind_addr c) (threads c) (max_conns c) (conn_timeout c)
    (max_req_size c) (mandoc_timeout c) (static_dir c) (templates_dir c)
    (autoindex c) (mandoc_path c) (trusted_proxy c) (verbose c) (log_file c)
    (enable_views c) (enable_metrics c) (enable_networking c) v
    (enable_packages c).
Definition set_enable_packages (v : Z) (c : miniweb_conf) : miniweb_conf :=
  MiniwebConf (port c) (bind_addr c) (threads c) (max_conns c) (conn_timeout c)
    (max_req_size c) (mandoc_timeout c) (static_dir c) (templates_dir c)
    (autoindex c) (mandoc_path c) (trusted_proxy c) (verbose c) (log_file c)
    (enable_views c) (enable_metrics c) (enable_networking c) (enable_man c) v.


(** ** Defaults *)

Definition conf_default_threads (cores : Z) : Z :=
  if (cores <? 1)%Z then 4
  else if (MINIWEB_THREAD_POOL_SIZE <? cores)%Z then MINIWEB_THREAD_POOL_SIZE
  else to_int32 cores.

Definition conf_defaults (cores : Z) : miniweb_conf :=
  {| port := 9001;
     bind_addr := strlcpy CONF_STR_MAX (bs "127.0.0.1");
     threads := conf_default_threads cores;
     max_conns := 1280;
     conn_timeout := 30;
     max_req_size := 16384;
     mandoc_timeout := 10;
     static_dir := strlcpy CONF_STR_MAX (bs "static");
     templates_dir := strlcpy CONF_STR_MAX (bs "templates");
     autoindex := 0;
     mandoc_path := strlcpy CONF_STR_MAX (bs "/usr/bin/mandoc");
     trusted_proxy := strlcpy CONF_STR_MAX (bs "127.0.0.1");
     verbose := 0;
     log_file := [];
     enable_views := 1;
     enable_metrics := 1;
     enable_networking := 1;
     enable_man := 1;
     enable_packages := 1 |}.

(** ** One line of the file *)

Definition ltrim (s : bytes) : bytes := skip_while isspace s.

Definition rtrim (s : bytes) : bytes := reverse (skip_while isspace (reverse s)).

Definition parse_bool (val : bytes) : Z :=
  if strcaseeq val (bs "yes") || strcaseeq val (bs "true") then 1
  else if strcaseeq val (bs "no") || strcaseeq val (bs "false") then 0
  else if (atoi val =? 0)%Z then 0 else 1.

Definition conf_apply_kv (conf : miniweb_conf) (key val : bytes) : Z * miniweb_conf :=
  let is_key := λ name, strcaseeq key (bs name) in
  let str := strlcpy CONF_STR_MAX val in
  if is_key "port" then (0, set_port (atoi val) conf)%Z
  else if is_key "bind_addr" || is_key "bind" then (0, set_bind_addr str conf)%Z
  else if is_key "threads" then (0, set_threads (atoi val) conf)%Z
  else if is_key "max_conns" then (0, set_max_conns (atoi val) conf)%Z
  else if is_key "conn_timeout" then (0, set_conn_timeout (atoi val) conf)%Z
  else if is_key "max_req_size" then (0, set_max_req_size (atoi val) conf)%Z
  else if is_key "mandoc_timeout" then (0, set_mandoc_timeout (atoi val) conf)%Z
  else if is_key "static_dir" then (0, set_static_dir str conf)%Z
  else if is_key "templates_dir" then (0, set_templates_dir str conf)%Z
  else if is_key "autoindex" then (0, set_autoindex (parse_bool val) conf)%Z
  else if is_key "mandoc_path" then (0, set_mandoc_path str conf)%Z
  else if is_key "trusted_proxy" then (0, set_trusted_proxy str conf)%Z
  else if is_key "verbose" then (0, set_verbose (parse_bool val) conf)%Z
  else if is_key "log_file" then (0, set_log_file str conf)%Z
  else if is_key "enable_views" then (0, set_enable_views (parse_bool val) conf)%Z
  else if is_key "enable_metrics" then (0, set_enable_metrics (parse_bool val) conf)%Z
  else if is_key "enable_networking" then (0, set_enable_networking (parse_bool val) conf)%Z
  else if is_key "enable_man" then (0, set_enable_man (parse_bool val) conf)%Z
  else if is_key "enable_packages" then (0, set_enable_packages (parse_bool val) conf)%Z
  else (-1, conf)%Z.

(** The key ends at the first blank: [(key, Some rest)], or [(key, None)] when the
    line ends first. *)
Fixpoint split_key (p : bytes) : bytes * option bytes :=
  match p with
  | [] => ([], None)
  | c :: p' =>
      if isspace c then ([], Some p')
      else let '(k, r) := split_key p' in (c :: k, r)
  end.

Definition conf_parse_line (conf : miniweb_conf) (line : bytes) : Z * miniweb_conf :=
  match rtrim (ltrim line) with
  | [] => (0%Z, conf)
  | c :: p' =>
      if Ascii.eqb c "#" then (0%Z, conf)
      else match split_key (c :: p') with
      | (_, None) => ((-1)%Z, conf)
      | (key, Some rest) =>
          let '(rc, conf') := conf_apply_kv conf key (ltrim rest) in
          if (rc =? 0)%Z then (0%Z, conf') else ((-1)%Z, conf')
      end
  end.

Definition conf_validate (conf : miniweb_conf) : Z :=
  if ((port conf <=? 0) || (65535 <? port conf))%Z then -1
  else if (threads conf <=? 0)%Z then -1
  else if (max_conns conf <=? 0)%Z then -1
  else if (conn_timeout conf <=? 0)%Z then -1
  else if (max_req_size conf <=? 0)%Z then -1
  else if (mandoc_timeout conf <=? 0)%Z then -1
  else 0.

(** ** The file *)

(** [char line[512]] *)
Definition CONF_LINE_SIZE : nat := 512.

(** The [while (fgets(...))] loop; [fuel] bounds the number of lines. *)
Fixpoint conf_parse_lines (fuel : nat) (conf : miniweb_conf) (s : bytes)
    : option (Z * miniweb_conf) :=
  match s with
  | [] => Some (0%Z, conf)
  | _ :: _ =>
      match fuel with
      | 0 => None
      | S fuel' =>
          let '(line, rest) := fgets (CONF_LINE_SIZE - 1) s in
          let '(rc, conf') := conf_parse_line conf (cstr line) in
          if (rc =? 0)%Z then conf_parse_lines fuel' conf' rest else Some ((-1)%Z, conf')
      end
  end.

Section files.
Context (files : bytes → option bytes).

(** 1: not found, -1: error, 0: loaded. *)
Definition conf_parse_file (path : bytes) (conf : miniweb_conf) : option (Z * miniweb_conf) :=
  match files path with
  | None => Some (1%Z, conf)
  | Some content =>
      match conf_parse_lines (length content) conf content with
      | None => None
      | Some (rc, conf') =>
          if (rc =? 0)%Z
          then if (conf_validate conf' =? 0)%Z then Some (0%Z, conf') else Some ((-1)%Z, conf')
          else Some ((-1)%Z, conf')
      end
  end.

(** [snprintf(home_path, CONF_STR_MAX, "%s/.miniweb.conf", home)] *)
Definition home_conf_path (home : bytes) : bytes :=
  strlcpy CONF_STR_MAX (home ++ bs "/.miniweb.conf").

Definition conf_candidates (home : option bytes) : list (option bytes) :=
  [Some (bs "./miniweb.conf"); home_conf_path <$> home; Some (bs "/etc/miniweb.conf")].

Fixpoint try_candidates (cs : list (option bytes)) (conf : miniweb_conf)
    : option (Z * miniweb_conf) :=
  match cs with
  | [] => Some (0%Z, conf)
  | None :: cs' => try_candidates cs' conf
  | Some path :: cs' =>
      match conf_parse_file path conf with
      | None => None
      | Some (rc, conf') =>
          if (rc =? 0)%Z then Some (0%Z, conf')
          else if (rc =? -1)%Z then Some ((-1)%Z, conf')
          else try_candidates cs' conf'
      end
  end.

Definition conf_load (path : option bytes) (home : option bytes) (conf : miniweb_conf)
    : option (Z * miniweb_conf) :=
  match path with
  | Some path =>
      match conf_parse_file path conf with
      | None => None
      | Some (rc, conf') =>
          if (rc =? 1)%Z then Some ((-1)%Z, conf')
          else Some (if (rc =? 0)%Z then 0%Z else (-1)%Z, conf')
      end
  | None => try_candidates (conf_candidates home) conf
  end.
End files.

(** ** The command line *)

Definition conf_apply_cli (conf : miniweb_conf) (cli_port : Z) (cli_bind : option bytes)
    (cli_threads cli_max_conns : Z) (cli_log_file : option bytes) (cli_verbose : Z)
    : miniweb_conf :=
  let c1 := if (0 <? cli_port)%Z then set_port cli_port conf else conf in
  let c2 := match cli_bind with
            | Some b => set_bind_addr (strlcpy CONF_STR_MAX b) c1 | None => c1 end in
  let c3 := if (0 <? cli_threads)%Z then set_threads cli_threads c2 else c2 in
  let c4 := if (0 <? cli_max_conns)%Z then set_max_conns cli_max_conns c3 else c3 in
  let c5 := match cli_log_file with
            | Some l => set_log_file (strlcpy CONF_STR_MAX l) c4 | None => c4 end in
  if (cli_verbose =? 0)%Z then c5 else set_verbose cli_verbose c5.

(** What getopt returns for one option of "f:p:b:t:c:l:vh". *)
Inductive cli_opt :=
| Opt_f (arg : bytes) | Opt_p (arg : bytes) | Opt_b (arg : bytes) | Opt_t (arg : bytes)
| Opt_c (arg : bytes) | Opt_l (arg : bytes) | Opt_v | Opt_h | Opt_bad.

Record cli_vars := CliVars {
  cv_conf_file : option bytes; cv_port : Z; cv_bind : option bytes; cv_threads : Z;
  cv_conns : Z; cv_log_file : option bytes; cv_verbose : Z }.

Definition cli_vars_init : cli_vars :=
  {| cv_conf_file := None; cv_port := -1; cv_bind := None; cv_threads := -1;
     cv_conns := -1; cv_log_file := None; cv_verbose := 0 |}.

Inductive outcome (T : Type) :=
| Exit (code : Z)
| Ok (v : T).
Arguments Exit {T} _.
Arguments Ok {T} _.

(** The getopt loop: [-h] and unknown options exit. *)
Fixpoint cli_loop (opts : list cli_opt) (v : cli_vars) : outcome cli_vars :=
  match opts with
  | [] => Ok v
  | o :: opts' =>
      let '(CliVars f p b t c l vb) := v in
      match o with
      | Opt_f a => cli_loop opts' (CliVars (Some a) p b t c l vb)
      | Opt_p a => cli_loop opts' (CliVars f (atoi a) b t c l vb)
      | Opt_b a => cli_loop opts' (CliVars f p (Some a) t c l vb)
      | Opt_t a => cli_loop opts' (CliVars f p b (atoi a) c l vb)
      | Opt_c a => cli_loop opts' (CliVars f p b t (atoi a) l vb)
      | Opt_l a => cli_loop opts' (CliVars f p b t c (Some a) vb)
      | Opt_v => cli_loop opts' (CliVars f p b t c l 1)
      | Opt_h => Exit 0
      | Opt_bad => Exit 1
      end
  end.

(** The four clamps after [conf_apply_cli]. *)
Definition clamp_limits (c : miniweb_conf) : miniweb_conf :=
  let c1 := if (threads c <? 1)%Z then set_threads 1 c else c in
  let c2 := if (MINIWEB_THREAD_POOL_SIZE <? threads c1)%Z
            then set_threads MINIWEB_THREAD_POOL_SIZE c1 else c1 in
  let c3 := if (Z.of_nat MINIWEB_MAX_CONNECTIONS <? max_conns c2)%Z
            then set_max_conns (Z.of_nat MINIWEB_MAX_CONNECTIONS) c2 else c2 in
  if (Z.of_nat MINIWEB_REQUEST_BUFFER_SIZE <? max_req_size c3)%Z
  then set_max_req_size (Z.of_nat MINIWEB_REQUEST_BUFFER_SIZE) c3 else c3.

Definition parse_args (files : bytes → option bytes) (home : option bytes) (cores : Z)
    (opts : list cli_opt) : option (outcome miniweb_conf) :=
  match cli_loop opts cli_vars_init with
  | Exit code => Some (Exit code)
  | Ok v =>
      match conf_load files (cv_conf_file v) home (conf_defaults cores) with
      | None => None
      | Some (rc, conf) =>
          if negb (rc =? 0)%Z then Some (Exit 1)
          else Some (Ok (clamp_limits (conf_apply_cli conf (cv_port v) (cv_bind v)
                 (cv_threads v) (cv_conns v) (cv_log_file v) (cv_verbose v))))
      end
  end.

(** ** Lemmas *)

(** The values [conf_validate] accepts. *)
Definition conf_valid (c : miniweb_conf) : Prop :=
  (0 < port c ≤ 65535 ∧ 0 < threads c ∧ 0 < max_conns c ∧ 0 < conn_timeout c ∧
   0 < max_req_size c ∧ 0 < mandoc_timeout c)%Z.

(** Every string field fits its array with its NUL. *)
Definition conf_fits (c : miniweb_conf) : Prop :=
  Forall (λ s, length s < CONF_STR_MAX)
    [bind_addr c; static_dir c; templates_dir c; mandoc_path c; trusted_proxy c; log_file c].

Lemma conf_validate_valid c : conf_validate c = 0%Z ↔ conf_valid c.
Proof.
  unfold conf_validate, conf_valid. repeat case_match; bool_facts; try lia.
  all: rewrite ?orb_true_iff, ?orb_false_iff, ?Z.leb_le, ?Z.ltb_lt, ?Z.leb_gt, ?Z.ltb_ge in *; lia.
Qed.

Lemma length_str_max s : length (strlcpy CONF_STR_MAX s) < CONF_STR_MAX.
Proof. apply length_strlcpy. unfold CONF_STR_MAX. lia. Qed.

#[local] Hint Resolve length_str_max : mw.

Ltac conf_fields :=
  unfold conf_fits in *; rewrite ?Forall_cons, ?Forall_nil in *; simpl in *;
  destruct_and?; split_and!; auto with mw; try (unfold CONF_STR_MAX; lia).

Lemma defaults_fit cores : conf_fits (conf_defaults cores).
Proof. unfold conf_defaults. conf_fields. Qed.

Lemma defaults_valid cores : (cores < 2 ^ 31)%Z → conf_valid (conf_defaults cores).
Proof.
  intros Hc. unfold conf_valid, conf_defaults, conf_default_threads; simpl.
  split_and!; try lia. destruct (Z.ltb_spec cores 1); [lia|].
  unfold MINIWEB_THREAD_POOL_SIZE, to_int32. destruct (Z.ltb_spec 32 cores); [lia|].
  rewrite Z.mod_small; lia.
Qed.

Lemma apply_kv_fits c k v rc c' : conf_apply_kv c k v = (rc, c') → conf_fits c → conf_fits c'.
Proof.
  intros H Hf. unfold conf_apply_kv in H.
  repeat match type of H with (if ?b then _ else _) = _ => destruct b end;
    injection H as <- <-; conf_fields.
Qed.

Lemma parse_line_fits c l rc c' : conf_parse_line c l = (rc, c') → conf_fits c → conf_fits c'.
Proof.
  unfold conf_parse_line. intros H Hf. repeat case_match; simplify_eq; auto;
    eauto using apply_kv_fits.
Qed.

(** One unit of fuel per byte is enough for the read loop. *)
Lemma conf_line_rest s : s ≠ [] → length (fgets (CONF_LINE_SIZE - 1) s).2 < length s.
Proof. apply (fgets_rest 510). Qed.

#[local] Opaque CONF_LINE_SIZE.

Lemma parse_lines_total fuel c s : length s ≤ fuel → is_Some (conf_parse_lines fuel c s).
Proof.
  revert c s. induction fuel as [|fuel IH]; intros c [|x s] Hl; simpl in Hl; try lia;
    cbn [conf_parse_lines]; eauto.
  pose proof (conf_line_rest (x :: s) ltac:(done)) as Hr.
  destruct (fgets (CONF_LINE_SIZE - 1) (x :: s)) as [line rest]. simpl in Hr.
  destruct (conf_parse_line c (cstr line)) as [rc c'].
  destruct (rc =? 0)%Z; [apply IH; lia|eauto].
Qed.

Lemma parse_lines_fits fuel c s rc c' :
  conf_parse_lines fuel c s = Some (rc, c') → conf_fits c → conf_fits c'.
Proof.
  revert c s. induction fuel as [|fuel IH]; intros c [|x s] H Hf;
    cbn [conf_parse_lines] in H; simplify_eq; auto.
  destruct (fgets (CONF_LINE_SIZE - 1) (x :: s)) as [line rest].
  destruct (conf_parse_line c (cstr line)) as [rc1 c1] eqn:E.
  destruct (rc1 =? 0)%Z; simplify_eq; eauto using parse_line_fits.
Qed.

Lemma parse_file_result files path c :
  ∃ rc c', conf_parse_file files path c = Some (rc, c') ∧ (conf_fits c → conf_fits c') ∧
    ((rc = 1%Z ∧ files path = None ∧ c' = c) ∨
     (is_Some (files path) ∧ (rc = (-1)%Z ∨ rc = 0%Z ∧ conf_valid c'))).
Proof.
  unfold conf_parse_file. destruct (files path) as [content|]; [|eauto 10].
  destruct (parse_lines_total (length content) c content) as [[rc c'] E]; [lia|].
  pose proof (parse_lines_fits _ _ _ _ _ E). rewrite E.
  destruct (rc =? 0)%Z; [|eauto 10].
  destruct (Z.eqb_spec (conf_validate c') 0) as [Hv|]; [|eauto 10].
  apply conf_validate_valid in Hv. eauto 10.
Qed.

Lemma try_candidates_result files cs c :
  ∃ rc c', try_candidates files cs c = Some (rc, c') ∧ (conf_fits c → conf_fits c') ∧
    (rc = (-1)%Z ∨ rc = 0%Z ∧ (conf_valid c' ∨ c' = c)).
Proof.
  induction cs as [|[path|] cs IH]; simpl; [eauto 10| |done].
  destruct (parse_file_result files path c) as (rc & c' & -> & Hf & [(-> & _ & ->)|(_ & Hrc)]);
    [done|].
  destruct Hrc as [->|[-> ?]]; simpl; eauto 10.
Qed.

Lemma conf_load_result files path home c :
  ∃ rc c', conf_load files path home c = Some (rc, c') ∧ (conf_fits c → conf_fits c') ∧
    (rc = (-1)%Z ∨ rc = 0%Z ∧ (conf_valid c' ∨ c' = c)).
Proof.
  unfold conf_load. destruct path as [path|]; [|apply try_candidates_result].
  destruct (parse_file_result files path c) as (rc & c' & -> & Hf & [(-> & _ & ->)|(_ & Hrc)]);
    [simpl; eauto 10|].
  destruct Hrc as [->|[-> ?]]; simpl; eauto 10.
Qed.

(** *** Blanks around keys and values *)

Lemma skip_while_all f s : Forall (λ c, f c = true) s → skip_while f s = [].
Proof. induction 1 as [|c s Hc _ IH]; simpl; [done|]. by rewrite Hc. Qed.

Lemma rtrim_app s w :
  Forall (λ c, isspace c = true) w →
  (s = [] ∨ ∃ s' c, s = s' ++ [c] ∧ isspace c = false) → rtrim (s ++ w) = s.
Proof.
  intros Hw Hs. unfold rtrim. rewrite reverse_app.
  rewrite skip_while_app by by apply Forall_reverse.
  destruct Hs as [->|(s' & c & -> & Hc)]; [done|].
  rewrite reverse_app. simpl. rewrite Hc.
  by rewrite <- (reverse_involutive (s' ++ [c])), reverse_app.
Qed.

Lemma split_key_spec key w rest :
  Forall (λ c, isspace c = false) key → isspace w = true →
  split_key (key ++ w :: rest) = (key, Some rest).
Proof.
  intros Hk Hw. induction Hk as [|c key Hc _ IH]; simpl; [by rewrite Hw|].
  by rewrite Hc, IH.
Qed.

Lemma apply_kv_rc c k v :
  conf_apply_kv c k v
  = (if ((conf_apply_kv c k v).1 =? 0)%Z then 0%Z else (-1)%Z, (conf_apply_kv c k v).2).
Proof.
  unfold conf_apply_kv.
  repeat match goal with |- context [if ?b then _ else _] =>
    match b with (Z.eqb _ _) => fail 1 | _ => destruct b end end; done.
Qed.

Lemma clamp_limits_spec c :
  threads (clamp_limits c) = Z.min MINIWEB_THREAD_POOL_SIZE (Z.max 1 (threads c)) ∧
  max_conns (clamp_limits c) = Z.min (Z.of_nat MINIWEB_MAX_CONNECTIONS) (max_conns c) ∧
  max_req_size (clamp_limits c) = Z.min (Z.of_nat MINIWEB_REQUEST_BUFFER_SIZE) (max_req_size c) ∧
  port (clamp_limits c) = port c ∧ conn_timeout (clamp_limits c) = conn_timeout c ∧
  mandoc_timeout (clamp_limits c) = mandoc_timeout c ∧ verbose (clamp_limits c) = verbose c ∧
  bind_addr (clamp_limits c) = bind_addr c ∧ static_dir (clamp_limits c) = static_dir c ∧
  templates_dir (clamp_limits c) = templates_dir c ∧
  mandoc_path (clamp_limits c) = mandoc_path c ∧
  trusted_proxy (clamp_limits c) = trusted_proxy c ∧ log_file (clamp_limits c) = log_file c.
Proof.
  unfold clamp_limits, MINIWEB_THREAD_POOL_SIZE.
  repeat (case_match; bool_facts; simpl in * ); split_and!; try done; lia.
Qed.

Lemma conf_apply_cli_spec c p b t m l v :
  let c' := conf_apply_cli c p b t m l v in
  port c' = (if (0 <? p)%Z then p else port c) ∧
  bind_addr c' = (if b is Some b then strlcpy CONF_STR_MAX b else bind_addr c) ∧
  log_file c' = (if l is Some l then strlcpy CONF_STR_MAX l else log_file c) ∧
  threads c' = (if (0 <? t)%Z then t else threads c) ∧
  max_conns c' = (if (0 <? m)%Z then m else max_conns c) ∧
  verbose c' = (if (v =? 0)%Z then verbose c else v) ∧
  max_req_size c' = max_req_size c ∧ conn_timeout c' = conn_timeout c ∧
  mandoc_timeout c' = mandoc_timeout c ∧ static_dir c' = static_dir c ∧
  templates_dir c' = templates_dir c ∧ mandoc_path c' = mandoc_path c ∧
  trusted_proxy c' = trusted_proxy c.
Proof.
  unfold conf_apply_cli. destruct (0 <? p)%Z, b, (0 <? t)%Z, (0 <? m)%Z, l, (v =? 0)%Z; done.
Qed.

(** ** Properties *)

(** Whatever the configuration files, the environment and the options, start-up
    either exits or yields a configuration on which the server can rely: the worker
    count fits the thread array, the connection limit fits the pool, the request
    limit fits the receive buffer, the timeouts are positive and every string is
    NUL-terminated inside its array.  Reading the files always terminates. *)
Theorem parse_args_limits (files : bytes → option bytes) (home : option bytes) (cores : Z)
    (opts : list cli_opt) :
  (cores < 2 ^ 31)%Z →
  match parse_args files home cores opts with
  | None => False
  | Some (Exit code) => code = 0%Z ∨ code = 1%Z
  | Some (Ok c) =>
      (1 ≤ threads c ≤ MINIWEB_THREAD_POOL_SIZE)%Z ∧
      (0 < max_conns c ≤ Z.of_nat MINIWEB_MAX_CONNECTIONS)%Z ∧
      (0 < max_req_size c ≤ Z.of_nat MINIWEB_REQUEST_BUFFER_SIZE)%Z ∧
      (0 < conn_timeout c)%Z ∧ (0 < mandoc_timeout c)%Z ∧ (0 < port c)%Z ∧ conf_fits c
  end.
Proof.
  intros Hcores. unfold parse_args.
  destruct (cli_loop opts cli_vars_init) as [code|v] eqn:Hcli.
  { clear -Hcli. revert Hcli. generalize cli_vars_init.
    induction opts as [|[] opts IH]; intros [] H; simpl in H; simplify_eq; eauto. }
  destruct (conf_load_result files (cv_conf_file v) home (conf_defaults cores))
    as (rc & c & -> & Hfit & [->|[-> Hv]]); [by right|].
  specialize (Hfit (defaults_fit cores)).
  assert (conf_valid c) as Hval by (destruct Hv as [?| ->]; auto using defaults_valid).
  clear Hv. destruct Hval as (? & ? & ? & ? & ? & ?). simpl.
  set (c1 := conf_apply_cli c _ _ _ _ _ _).
  destruct (conf_apply_cli_spec c (cv_port v) (cv_bind v) (cv_threads v) (cv_conns v)
    (cv_log_file v) (cv_verbose v)) as (Hp & Hb & Hl & Ht & Hm & _ & Hr & Hct & Hmt & Hs & Htd & Hmp & Htp).
  fold c1 in Hp, Hb, Hl, Ht, Hm, Hr, Hct, Hmt, Hs, Htd, Hmp, Htp.
  destruct (clamp_limits_spec c1)
    as (-> & -> & -> & -> & -> & -> & _ & Hb' & Hs' & Htd' & Hmp' & Htp' & Hl').
  assert (conf_fits (clamp_limits c1)) as Hfits.
  { unfold conf_fits. rewrite Hb', Hs', Htd', Hmp', Htp', Hl', Hb, Hs, Htd, Hmp, Htp, Hl.
    destruct (cv_bind v), (cv_log_file v); conf_fields. }
  rewrite Hp, Ht, Hm, Hr, Hct, Hmt. pose proof MINIWEB_MAX_CONNECTIONS_val.
  pose proof MINIWEB_REQUEST_BUFFER_SIZE_val. unfold MINIWEB_THREAD_POOL_SIZE.
  rewrite H5, H6. clear -H H0 H1 H2 H3 H4 Hfits.
  split_and!; try done; repeat match goal with
    |- context [Z.ltb 0 ?z] => destruct (Z.ltb_spec 0 z) end; lia.
Qed.

(** A line [key value], with any blanks around the two words, assigns [value]
    to [key]: leading and trailing blanks are dropped, blanks inside the value are
    kept, and the line fails exactly when the key is unknown. *)
Theorem conf_parse_line_kv (conf : miniweb_conf) (ws1 : bytes) (k0 : ascii) (key : bytes)
    (w : ascii) (ws2 : bytes) (v0 : ascii) (val : bytes) (v1 : ascii) (ws3 : bytes) :
  Forall (λ c, isspace c = true) (w :: ws1 ++ ws2 ++ ws3) →
  Forall (λ c, isspace c = false) (k0 :: key) → k0 ≠ "#"%char →
  isspace v0 = false → isspace v1 = false →
  conf_parse_line conf (ws1 ++ (k0 :: key) ++ [w] ++ ws2 ++ (v0 :: val ++ [v1]) ++ ws3)
  = conf_apply_kv conf (k0 :: key) (v0 :: val ++ [v1]).
Proof.
  intros (Hw & (Hw1 & (Hw2 & Hw3)%Forall_app)%Forall_app)%Forall_cons Hk Hhash Hv0 Hv1.
  pose proof Hk as (Hk0 & _)%Forall_cons. unfold conf_parse_line, ltrim.
  rewrite skip_while_app by done. rewrite <- app_comm_cons, skip_while_stop by done.
  assert (k0 :: key ++ [w] ++ ws2 ++ (v0 :: val ++ [v1]) ++ ws3
          = ((k0 :: key) ++ w :: ws2 ++ (v0 :: val ++ [v1])) ++ ws3) as ->
    by by list_simplifier.
  rewrite rtrim_app; [|done|].
  2:{ right. exists ((k0 :: key) ++ w :: ws2 ++ (v0 :: val)), v1. split; [|done].
      by list_simplifier. }
  rewrite <- app_comm_cons, (proj2 (ascii_eqb_false k0 "#") Hhash), app_comm_cons.
  rewrite split_key_spec by done.
  unfold ltrim. rewrite skip_while_app, skip_while_stop by done.
  pose proof (apply_kv_rc conf (k0 :: key) (v0 :: val ++ [v1])) as Hrc.
  destruct (conf_apply_kv _ _ _) as [rc c']. simpl in Hrc.
  destruct (rc =? 0)%Z; congruence.
Qed.

(** Options given on the command line override the file, with no check beyond
    the clamps: in particular the port is the one of the last [-p], even above
    65535, which [conf_validate] refuses in a file. *)
Theorem cli_overrides (files : bytes → option bytes) (home : option bytes) (cores : Z)
    (opts : list cli_opt) (v : cli_vars) (c0 c : miniweb_conf) :
  cli_loop opts cli_vars_init = Ok v →
  conf_load files (cv_conf_file v) home (conf_defaults cores) = Some (0%Z, c0) →
  parse_args files home cores opts = Some (Ok c) →
  port c = (if (0 <? cv_port v)%Z then cv_port v else port c0) ∧
  bind_addr c = (if cv_bind v is Some b then strlcpy CONF_STR_MAX b else bind_addr c0) ∧
  log_file c = (if cv_log_file v is Some l then strlcpy CONF_STR_MAX l else log_file c0) ∧
  threads c = Z.min MINIWEB_THREAD_POOL_SIZE
                (Z.max 1 (if (0 <? cv_threads v)%Z then cv_threads v else threads c0)) ∧
  max_conns c = Z.min (Z.of_nat MINIWEB_MAX_CONNECTIONS)
                  (if (0 <? cv_conns v)%Z then cv_conns v else max_conns c0) ∧
  verbose c = (if (cv_verbose v =? 0)%Z then verbose c0 else cv_verbose v) ∧
  static_dir c = static_dir c0 ∧ templates_dir c = templates_dir c0 ∧
  conn_timeout c = conn_timeout c0.
Proof.
  unfold parse_args. intros -> -> [= <-].
  set (c1 := conf_apply_cli c0 _ _ _ _ _ _).
  destruct (conf_apply_cli_spec c0 (cv_port v) (cv_bind v) (cv_threads v) (cv_conns v)
    (cv_log_file v) (cv_verbose v)) as (Hp & Hb & Hl & Ht & Hm & Hv & _ & Hct & _ & Hs & Htd & _).
  fold c1 in Hp, Hb, Hl, Ht, Hm, Hv, Hct, Hs, Htd.
  destruct (clamp_limits_spec c1) as (-> & -> & _ & -> & -> & _ & -> & -> & -> & -> & _ & _ & ->).
  rewrite Hp, Hb, Hl, Ht, Hm, Hv, Hct, Hs, Htd. done.
Qed.

(** ** Witnesses *)

Definition example_files : bytes → option bytes := λ p,
  if streq p (bs "./miniweb.conf")
  then Some (bs "# comment" ++ [lf] ++ bs "threads  64" ++ [lf] ++ bs "port 8080" ++ [lf])
  else None.

Lemma parse_args_limits_witness :
  match parse_args example_files None 4 [Opt_v] with
  | Some (Ok c) => threads c = 32%Z ∧ port c = 8080%Z ∧ (0 < max_conns c)%Z
  | _ => False
  end.
Proof.
  pose proof (parse_args_limits example_files None 4 [Opt_v] ltac:(reflexivity)) as H.
  assert (match parse_args example_files None 4 [Opt_v] with
          | Some (Ok c) => (threads c, port c) | _ => (0, 0)%Z end = (32, 8080)%Z) as E
    by (vm_compute; reflexivity).
  destruct (parse_args example_files None 4 [Opt_v]) as [[|c]|]; [discriminate E| |exact H].
  injection E as -> ->. destruct H as (_ & (? & _) & _). auto.
Defined.

Lemma conf_parse_line_kv_witness :
  conf_parse_line (conf_defaults 4) (bs "  Port  80 8 ")
  = conf_apply_kv (conf_defaults 4) (bs "Port") (bs "80 8").
Proof.
  apply (conf_parse_line_kv (conf_defaults 4) (bs "  ") "P"%char (bs "ort") " "%char (bs " ")
           "8"%char (bs "0 ") "8"%char (bs " "));
    repeat constructor; discriminate.
Defined.

(** [miniweb -p 70000] starts with a port that no configuration file may set. *)
Lemma cli_overrides_witness :
  match parse_args example_files None 4 [Opt_p (bs "70000")] with
  | Some (Ok c) => port c = 70000%Z ∧ (conf_validate c = -1)%Z
  | _ => False
  end.
Proof.
  assert (match parse_args example_files None 4 [Opt_p (bs "70000")] with
          | Some (Ok c) => conf_validate c | _ => 0%Z end = (-1)%Z) as E
    by (vm_compute; reflexivity).
  pose (c0 := match conf_load example_files None None (conf_defaults 4) with
              | Some (_, c) => c | None => conf_defaults 4 end).
  assert (conf_load example_files None None (conf_defaults 4) = Some (0%Z, c0)) as E0
    by (vm_compute; reflexivity).
  destruct (parse_args example_files None 4 [Opt_p (bs "70000")]) as [[|c]|] eqn:Ea;
    [discriminate E| |discriminate E].
  destruct (cli_overrides example_files None 4 [Opt_p (bs "70000")] _ c0 c eq_refl E0 Ea)
    as (Hp & _).
  split; [|exact E]. rewrite Hp. vm_compute. reflexivity.
Defined.
