(* ===== verification/Router.v ===== *)
(** * The router (src/router, except the handlers of route_table.c)

    The route tables are fixed arrays filled by [init_routes] at start-up and only
    read afterwards; [registry] holds their used parts ([route_count] and
    [prefix_route_count] are the lengths).  Modules attach their routes through the
    [router] facade of router.c, whose callbacks are those of url_registry_init.c. *)

From S2P Require Import Prelude Conf.

Definition MAX_ROUTES : nat := 32.
Definition MAX_PREFIX_ROUTES : nat := 16.

(** The handler functions the program registers. *)
Inductive route_handler :=
| Hview_template | Hfavicon | Hstatic | Hmetrics | Hnetworking_api
| Hman_render | Hman_api | Hpkg_api.

#[export] Instance route_handler_eq_dec : EqDecision route_handler.
Proof. solve_decision. Defined.

Record route := Route { rt_method : bytes; rt_path : bytes; rt_handler : route_handler }.

Record prefix_route := PrefixRoute {
  pr_method : bytes; pr_prefix : bytes; pr_min_slashes : Z; pr_handler : route_handler }.

Record registry := Registry { routes : list route; prefix_routes : list prefix_route }.

Definition empty_registry : registry := {| routes := []; prefix_routes := [] |}.

(** ** Registration *)

Definition register_route (method path : bytes) (h : route_handler) (reg : registry) : registry :=
  if length (routes reg) <? MAX_ROUTES
  then {| routes := routes reg ++ [Route method path h]; prefix_routes := prefix_routes reg |}
  else reg.

Definition register_prefix_route (method prefix : bytes) (min_slashes : Z) (h : route_handler)
    (reg : registry) : registry :=
  if MAX_PREFIX_ROUTES <=? length (prefix_routes reg) then reg
  else {| routes := routes reg;
          prefix_routes := prefix_routes reg ++ [PrefixRoute method prefix min_slashes h] |}.

(** A registration step: a C function that may change the tables and returns an
    [int]. *)
Abbreviation reg_step := (registry → Z * registry).

Record router := Router {
  register_fn : option (bytes → bytes → route_handler → reg_step);
  register_prefix_fn : option (bytes → bytes → Z → route_handler → reg_step);
}.

Definition url_registry_register (method path : bytes) (h : route_handler) : reg_step :=
  λ reg, (0%Z, register_route method path h reg).

Definition url_registry_register_prefix (method prefix : bytes) (min_slashes : Z)
    (h : route_handler) : reg_step :=
  λ reg, (0%Z, register_prefix_route method prefix min_slashes h reg).

Definition router_register (r : option router) (method path : bytes) (h : route_handler)
    : reg_step := λ reg,
  match r with
  | Some {| register_fn := Some f |} => f method path h reg
  | _ => ((-1)%Z, reg)
  end.

Definition router_register_prefix (r : option router) (method prefix : bytes) (min_slashes : Z)
    (h : route_handler) : reg_step := λ reg,
  match r with
  | Some {| register_prefix_fn := Some f |} => f method prefix min_slashes h reg
  | _ => ((-1)%Z, reg)
  end.

(** [if (step != 0) return -1;] for each step, then [return 0]. *)
Fixpoint all_or_fail (steps : list reg_step) : reg_step := λ reg,
  match steps with
  | [] => (0%Z, reg)
  | s :: steps' =>
      let '(rc, reg') := s reg in
      if (rc =? 0)%Z then all_or_fail steps' reg' else ((-1)%Z, reg')
  end.

(** The same, the last step being returned as it is. *)
Definition then_return (s last : reg_step) : reg_step := λ reg,
  let '(rc, reg') := s reg in if (rc =? 0)%Z then last reg' else ((-1)%Z, reg').

(** ** The modules *)

Record view_route := ViewRoute {
  vr_method : bytes; vr_path : bytes; vr_title : bytes; vr_page : bytes;
  vr_extra_head : bytes; vr_extra_js : bytes }.

Definition view_routes : list view_route :=
  [ ViewRoute (bs "GET") (bs "/") (bs "MiniWeb - Dashboard") (bs "dashboard.html")
      (bs "dashboard_extra_head.html") (bs "dashboard_extra_js.html");
    ViewRoute (bs "GET") (bs "/docs") (bs "MiniWeb - Documentation") (bs "docs.html")
      (bs "docs_extra_head.html") (bs "docs_extra_js.html");
    ViewRoute (bs "GET") (bs "/apiroot") (bs "MiniWeb - API Root") (bs "api.html")
      (bs "api_extra_head.html") (bs "api_extra_js.html");
    ViewRoute (bs "GET") (bs "/networking") (bs "MiniWeb - Networking") (bs "networking.html")
      (bs "networking_extra_head.html") (bs "networking_extra_js.html");
    ViewRoute (bs "GET") (bs "/packages") (bs "MiniWeb - Package Manager") (bs "packages.html")
      (bs "packages_extra_head.html") (bs "packages_extra_js.html") ].

Definition find_view_route (method path : bytes) : option view_route :=
  list_find (λ v, streq (vr_method v) method && streq (vr_path v) path = true) view_routes
    ≫= λ iv, Some iv.2.

Definition views_module_attach_routes (r : option router) : reg_step :=
  all_or_fail
    (((λ v, router_register r (vr_method v) (vr_path v) Hview_template) <$> view_routes) ++
     [ router_register r (bs "GET") (bs "/favicon.ico") Hfavicon;
       router_register_prefix r (bs "GET") (bs "/static/") 0 Hstatic ]).

Definition metrics_module_attach_routes (r : option router) : reg_step :=
  then_return (router_register r (bs "GET") (bs "/api/metrics") Hmetrics)
              (router_register r (bs "GET") (bs "/api/metric") Hmetrics).

Definition networking_module_attach_routes (r : option router) : reg_step :=
  router_register r (bs "GET") (bs "/api/networking") Hnetworking_api.

Definition man_module_attach_routes (r : option router) : reg_step :=
  all_or_fail
    [ router_register_prefix r (bs "GET") (bs "/man/") 2 Hman_render;
      router_register_prefix r (bs "GET") (bs "/api/man") 0 Hman_api;
      router_register r (bs "GET") (bs "/api/man/sections") Hman_api ].

Definition packages_module_attach_routes (r : option router) : reg_step :=
  all_or_fail [ router_register_prefix r (bs "GET") (bs "/api/packages") 0 Hpkg_api ].

Record miniweb_module := Module_ {
  mod_name : bytes;
  mod_init : option reg_step;
  mod_attach_routes : option (option router → reg_step);
  mod_enabled : Z;
}.

Fixpoint miniweb_module_attach_enabled (r : option router) (modules : list miniweb_module)
    : reg_step := λ reg,
  match modules with
  | [] => (0%Z, reg)
  | m :: modules' =>
      if (mod_enabled m =? 0)%Z then miniweb_module_attach_enabled r modules' reg
      else
        let '(rc1, reg1) := match mod_init m with Some f => f reg | None => (0%Z, reg) end in
        if negb (rc1 =? 0)%Z then ((-1)%Z, reg1)
        else
          let '(rc2, reg2) :=
            match mod_attach_routes m with Some f => f r reg1 | None => (0%Z, reg1) end in
          if negb (rc2 =? 0)%Z then ((-1)%Z, reg2)
          else miniweb_module_attach_enabled r modules' reg2
  end.

Definition url_router : router :=
  {| register_fn := Some url_registry_register;
     register_prefix_fn := Some url_registry_register_prefix |}.

Definition init_modules (conf : option miniweb_conf) : list miniweb_module :=
  let flag := λ f, match conf with Some c => f c | None => 1%Z end in
  [ Module_ (bs "views") None (Some views_module_attach_routes) (flag enable_views);
    Module_ (bs "metrics") None (Some metrics_module_attach_routes) (flag enable_metrics);
    Module_ (bs "networking") None (Some networking_module_attach_routes)
      (flag enable_networking);
    Module_ (bs "man") None (Some man_module_attach_routes) (flag enable_man);
    Module_ (bs "packages") None (Some packages_module_attach_routes) (flag enable_packages) ].

(** The tables are emptied first, whatever they held. *)
Definition init_routes (conf : option miniweb_conf) (reg : registry) : registry :=
  (miniweb_module_attach_enabled (Some url_router) (init_modules conf) empty_registry).2.

(** ** Lookup *)

Definition path_slash_count (path : bytes) : Z :=
  Z.of_nat (length (filter (λ c, c = "/"%char) path)).

Definition prefix_route_path_matches (pr : prefix_route) (path : bytes) : bool :=
  if negb (is_prefix (pr_prefix pr) path) then false
  else if (pr_min_slashes pr <=? 0)%Z then true
  else (pr_min_slashes pr <=? path_slash_count (drop (length (pr_prefix pr)) path))%Z.

Definition prefix_route_matches (pr : prefix_route) (method path : bytes) : bool :=
  if negb (streq (pr_method pr) method) then false
  else if negb (is_prefix (pr_prefix pr) path) then false
  else if (pr_min_slashes pr <=? 0)%Z then true
  else (pr_min_slashes pr <=? path_slash_count (drop (length (pr_prefix pr)) path))%Z.

Fixpoint find_route (method path : bytes) (rs : list route) : option route_handler :=
  match rs with
  | [] => None
  | r :: rs' =>
      if streq (rt_method r) method && streq (rt_path r) path then Some (rt_handler r)
      else find_route method path rs'
  end.

Fixpoint find_prefix_route (method path : bytes) (rs : list prefix_route)
    : option route_handler :=
  match rs with
  | [] => None
  | r :: rs' =>
      if prefix_route_matches r method path then Some (pr_handler r)
      else find_prefix_route method path rs'
  end.

Definition route_match (reg : registry) (method path : bytes) : option route_handler :=
  match find_route method path (routes reg) with
  | Some h => Some h
  | None => find_prefix_route method path (prefix_routes reg)
  end.

Definition route_path_known (reg : registry) (path : bytes) : bool :=
  existsb (λ r, streq (rt_path r) path) (routes reg) ||
  existsb (λ pr, prefix_route_path_matches pr path) (prefix_routes reg).

(** ** The Allow header *)

(** Was the method of route [i] already met on an earlier route for [path]? *)
Definition route_method_seen_for_path (reg : registry) (i : nat) (path : bytes) : bool :=
  existsb (λ r, streq (rt_path r) path &&
                match routes reg !! i with
                | Some ri => streq (rt_method r) (rt_method ri)
                | None => false
                end) (take i (routes reg)).

(** The first loop, from route [i] on.  [buf] is the C string built so far, [used]
    its length.  The [inl] result is the early return on truncation (the last
    snprintf has left a truncated tail in the buffer). *)
Fixpoint allow_loop (reg : registry) (path : bytes) (buf_len : nat) (rs : list route)
    (i : nat) (buf : bytes) (count : Z) : (bytes * Z) + (bytes * Z) :=
  match rs with
  | [] => inr (buf, count)
  | r :: rs' =>
      if negb (streq (rt_path r) path) || route_method_seen_for_path reg i path
      then allow_loop reg path buf_len rs' (S i) buf count
      else
        let piece := (if (0 <? count)%Z then bs ", " else []) ++ rt_method r in
        if buf_len - length buf <=? length piece
        then inl (buf ++ strlcpy (buf_len - length buf) piece, count)
        else allow_loop reg path buf_len rs' (S i) (buf ++ piece) (count + 1)
  end.

(** The result is the buffer contents and the returned count. *)
Definition route_allow_methods (reg : registry) (path : bytes) (buf_len : nat) : bytes * Z :=
  if buf_len =? 0 then ([], 0%Z)
  else match allow_loop reg path buf_len (routes reg) 0 [] 0 with
  | inl result => result
  | inr (buf, count) =>
      match list_find (λ pr, is_prefix (pr_prefix pr) path = true) (prefix_routes reg) with
      | Some (_, pr) =>
          (if (count =? 0)%Z && (3 <? buf_len) then strlcpy buf_len (pr_method pr) else buf,
           if (count =? 0)%Z then 1%Z else count)
      | None => (buf, count)
      end
  end.

(** ** What the lookups return *)

Lemma find_route_Some method path rs h :
  find_route method path rs = Some h ↔
  ∃ i r, rs !! i = Some r ∧ rt_method r = method ∧ rt_path r = path ∧ rt_handler r = h ∧
    ∀ j r', j < i → rs !! j = Some r' → ¬ (rt_method r' = method ∧ rt_path r' = path).
Proof.
  induction rs as [|r rs IH]; simpl.
  { split; [done|]. by intros (i & r & H & _). }
  destruct (streq (rt_method r) method && streq (rt_path r) path) eqn:E.
  - byte_facts. split.
    + intros [= <-]. exists 0, r. split_and!; try done. lia.
    + intros ([|i] & r' & Hr & ? & ? & ? & Hmin); simplify_eq/=; [done|].
      destruct (Hmin 0 r ltac:(lia) eq_refl); done.
  - rewrite IH. clear IH. apply andb_false_iff in E. rewrite !streq_false in E. split.
    + intros (i & r' & ? & ? & ? & ? & Hmin). exists (S i), r'. split_and!; try done.
      intros [|j] r'' Hlt Hj; simplify_eq/=; [naive_solver|]. apply (Hmin j); [lia|done].
    + intros ([|i] & r' & Hr & ? & ? & ? & Hmin); simplify_eq/=; [naive_solver|].
      exists i, r'. split_and!; try done. intros j r'' Hlt. apply (Hmin (S j)). lia.
Qed.

Lemma find_route_None method path rs :
  find_route method path rs = None ↔
  ∀ r, r ∈ rs → ¬ (rt_method r = method ∧ rt_path r = path).
Proof.
  induction rs as [|r rs IH]; simpl; [split; [by intros _ r ?%elem_of_nil | done]|].
  destruct (streq (rt_method r) method && streq (rt_path r) path) eqn:E.
  - byte_facts. split; [done|]. intros H. destruct (H r); [left|done].
  - rewrite IH. apply andb_false_iff in E. rewrite !streq_false in E.
    setoid_rewrite elem_of_cons. naive_solver.
Qed.

Lemma prefix_route_path_matches_spec pr path :
  prefix_route_path_matches pr path = true ↔
  ∃ rest, path = pr_prefix pr ++ rest ∧
    (pr_min_slashes pr ≤ Z.max 0 (path_slash_count rest))%Z.
Proof.
  unfold prefix_route_path_matches. destruct (is_prefix (pr_prefix pr) path) eqn:E; simpl.
  - apply is_prefix_spec in E as [rest ->]. rewrite drop_app_length.
    split.
    + intros H. exists rest. split; [done|]. split_if_in H; lia.
    + intros (rest' & Hr & ?). simplify_eq. split_if; [done|]. apply Z.leb_le. lia.
  - split; [done|]. intros (rest & -> & _). by rewrite is_prefix_app in E.
Qed.

Lemma prefix_route_matches_spec pr method path :
  prefix_route_matches pr method path =
  streq (pr_method pr) method && prefix_route_path_matches pr path.
Proof.
  unfold prefix_route_matches, prefix_route_path_matches. by destruct (streq _ _).
Qed.

Lemma find_prefix_route_Some method path rs h :
  find_prefix_route method path rs = Some h ↔
  ∃ i pr, rs !! i = Some pr ∧ prefix_route_matches pr method path = true ∧
    pr_handler pr = h ∧
    ∀ j pr', j < i → rs !! j = Some pr' → prefix_route_matches pr' method path = false.
Proof.
  induction rs as [|r rs IH]; simpl.
  { split; [done|]. by intros (i & r & H & _). }
  destruct (prefix_route_matches r method path) eqn:E.
  - split.
    + intros [= <-]. exists 0, r. split_and!; try done. lia.
    + intros ([|i] & r' & Hr & ? & ? & Hmin); simplify_eq/=; [done|].
      rewrite (Hmin 0 r) in E; [done|lia|done].
  - rewrite IH. clear IH. split.
    + intros (i & r' & ? & ? & ? & Hmin). exists (S i), r'. split_and!; try done.
      intros [|j] r'' Hlt Hj; simplify_eq/=; [done|]. apply (Hmin j); [lia|done].
    + intros ([|i] & r' & Hr & ? & ? & Hmin); simplify_eq/=; [congruence|].
      exists i, r'. split_and!; try done. intros j r'' Hlt. apply (Hmin (S j)). lia.
Qed.

Lemma find_prefix_route_None method path rs :
  find_prefix_route method path rs = None ↔
  ∀ pr, pr ∈ rs → prefix_route_matches pr method path = false.
Proof.
  induction rs as [|r rs IH]; simpl; [split; [by intros _ r ?%elem_of_nil | done]|].
  destruct (prefix_route_matches r method path) eqn:E.
  - split; [done|]. intros H. rewrite H in E; [done|left].
  - rewrite IH. setoid_rewrite elem_of_cons. naive_solver.
Qed.

(** C17. Dispatch priority: [route_match] returns handler [h] exactly when either the
    first exact route with this method and this path has handler [h], or there is no
    exact route for the pair and [h] is the handler of the first prefix route of this
    method whose prefix begins the path and whose remainder has at least
    [min_slashes] slashes. *)
Theorem route_match_spec reg method path h :
  route_match reg method path = Some h ↔
  (∃ i r, routes reg !! i = Some r ∧ rt_method r = method ∧ rt_path r = path ∧
     rt_handler r = h ∧
     ∀ j r', j < i → routes reg !! j = Some r' →
       ¬ (rt_method r' = method ∧ rt_path r' = path)) ∨
  ((∀ r, r ∈ routes reg → ¬ (rt_method r = method ∧ rt_path r = path)) ∧
   ∃ i pr rest, prefix_routes reg !! i = Some pr ∧ pr_handler pr = h ∧
     pr_method pr = method ∧ path = pr_prefix pr ++ rest ∧
     (pr_min_slashes pr ≤ Z.max 0 (path_slash_count rest))%Z ∧
     ∀ j pr', j < i → prefix_routes reg !! j = Some pr' →
       prefix_route_matches pr' method path = false).
Proof.
  rewrite <- find_route_Some, <- find_route_None. unfold route_match.
  destruct (find_route method path (routes reg)) as [h'|]; [naive_solver|].
  rewrite find_prefix_route_Some. setoid_rewrite prefix_route_matches_spec at 1.
  setoid_rewrite andb_true_iff. setoid_rewrite streq_true.
  setoid_rewrite prefix_route_path_matches_spec. naive_solver.
Qed.

Lemma route_path_known_spec reg path :
  route_path_known reg path = true ↔
  (∃ r, r ∈ routes reg ∧ rt_path r = path) ∨
  (∃ pr, pr ∈ prefix_routes reg ∧ prefix_route_path_matches pr path = true).
Proof.
  unfold route_path_known. rewrite orb_true_iff, !existsb_exists.
  setoid_rewrite <- list_elem_of_In. by setoid_rewrite streq_true.
Qed.

(** A request gets 404 only for an unknown path: a path is known exactly when some
    method is routed on it, so the worker's 405 answer (no match, path known) means
    that another method would have been served. *)
Theorem path_known_iff_some_method reg path :
  route_path_known reg path = true ↔ ∃ method h, route_match reg method path = Some h.
Proof.
  rewrite route_path_known_spec. split.
  - assert (∀ m, (∃ r, r ∈ routes reg ∧ rt_method r = m ∧ rt_path r = path) ∨
      (∃ pr, pr ∈ prefix_routes reg ∧ prefix_route_matches pr m path = true) →
      ∃ method h, route_match reg method path = Some h) as Hm.
    { intros m Hin. exists m. destruct (route_match reg m path) as [h|] eqn:E; [eauto|].
      exfalso. unfold route_match in E. destruct (find_route _ _ _) eqn:E'; [done|].
      rewrite find_route_None in E'. rewrite find_prefix_route_None in E.
      destruct Hin as [(r & Hr & ? & ?)|(pr & Hr & Hpr)]; [by eapply E'|].
      by rewrite E in Hpr. }
    intros [(r & ? & ?)|(pr & ? & Hpr)].
    + apply (Hm (rt_method r)). eauto.
    + apply (Hm (pr_method pr)). right. exists pr.
      by rewrite prefix_route_matches_spec, streq_refl, Hpr.
  - intros (method & h & H). apply route_match_spec in H
      as [(i & r & Hr & _ & ? & _)|(_ & i & pr & rest & Hr & _ & _ & -> & ? & _)].
    + left. exists r. split; [by eapply list_elem_of_lookup_2 | done].
    + right. exists pr. split; [by eapply list_elem_of_lookup_2 |].
      apply prefix_route_path_matches_spec. eauto.
Qed.

(** ** The tables at start-up *)

Definition get_route (path : string) (h : route_handler) : route :=
  Route (bs "GET") (bs path) h.

(** The routes each module declares, in the order the modules are attached. *)
Definition module_tables (flag : (miniweb_conf → Z) → Z)
    : list (Z * (list route * list prefix_route)) :=
  [ (flag enable_views,
      ([ get_route "/" Hview_template; get_route "/docs" Hview_template;
         get_route "/apiroot" Hview_template; get_route "/networking" Hview_template;
         get_route "/packages" Hview_template; get_route "/favicon.ico" Hfavicon ],
       [ PrefixRoute (bs "GET") (bs "/static/") 0 Hstatic ]));
    (flag enable_metrics,
      ([ get_route "/api/metrics" Hmetrics; get_route "/api/metric" Hmetrics ], []));
    (flag enable_networking, ([ get_route "/api/networking" Hnetworking_api ], []));
    (flag enable_man,
      ([ get_route "/api/man/sections" Hman_api ],
       [ PrefixRoute (bs "GET") (bs "/man/") 2 Hman_render;
         PrefixRoute (bs "GET") (bs "/api/man") 0 Hman_api ]));
    (flag enable_packages,
      ([], [ PrefixRoute (bs "GET") (bs "/api/packages") 0 Hpkg_api ])) ].

Definition conf_flag (conf : option miniweb_conf) (f : miniweb_conf → Z) : Z :=
  match conf with Some c => f c | None => 1%Z end.

Definition enabled_tables (conf : option miniweb_conf) : list (list route * list prefix_route) :=
  snd <$> filter (λ t, t.1 ≠ 0%Z) (module_tables (conf_flag conf)).

Lemma init_routes_eq conf reg :
  init_routes conf reg =
    {| routes := concat (enabled_tables conf).*1;
       prefix_routes := concat (enabled_tables conf).*2 |}.
Proof.
  unfold init_routes, init_modules, enabled_tables, module_tables, conf_flag.
  destruct conf as [c|]; [|vm_compute; reflexivity].
  generalize (enable_views c) (enable_metrics c) (enable_networking c) (enable_man c)
    (enable_packages c). intros.
  repeat match goal with
  | |- context [Module_ _ _ _ ?z] =>
      is_var z; destruct (decide (z = 0%Z)) as [->|?];
      [|destruct z; [done| |]]
  end; vm_compute; reflexivity.
Qed.

(** Start-up registers every route of every enabled module, in module order, and
    none of a disabled module: the fixed-size tables drop nothing, whatever they held
    before, and stay within their capacity. *)
Theorem init_routes_tables conf reg :
  routes (init_routes conf reg) = concat (enabled_tables conf).*1 ∧
  prefix_routes (init_routes conf reg) = concat (enabled_tables conf).*2 ∧
  length (routes (init_routes conf reg)) ≤ MAX_ROUTES ∧
  length (prefix_routes (init_routes conf reg)) ≤ MAX_PREFIX_ROUTES.
Proof.
  rewrite init_routes_eq. split_and!; [done|done| |];
    unfold enabled_tables, module_tables;
    generalize (conf_flag conf enable_views) (conf_flag conf enable_metrics)
      (conf_flag conf enable_networking) (conf_flag conf enable_man)
      (conf_flag conf enable_packages); intros;
    rewrite !filter_cons; simpl; repeat case_decide; vm_compute; lia.
Qed.

Lemma init_routes_get_only conf reg :
  Forall (λ r, rt_method r = bs "GET") (routes (init_routes conf reg)) ∧
  Forall (λ pr, pr_method pr = bs "GET") (prefix_routes (init_routes conf reg)).
Proof.
  rewrite init_routes_eq. simpl.
  assert (Forall (λ t, Forall (λ r, rt_method r = bs "GET") t.1 ∧
                       Forall (λ pr, pr_method pr = bs "GET") t.2) (enabled_tables conf)) as H.
  { apply Forall_fmap, Forall_forall. intros t [_ Ht]%list_elem_of_filter.
    unfold module_tables in Ht.
    repeat (apply elem_of_cons in Ht as [->|Ht]; [split; repeat constructor|]).
    by apply elem_of_nil in Ht. }
  split; apply Forall_concat, Forall_fmap; eapply Forall_impl; [exact H| |exact H|];
    by intros [??] [??].
Qed.

(** ** The Allow header *)

(** Duplicates removed, first occurrences kept, in order. *)
Definition first_occurrences (l : list bytes) : list bytes := reverse (remove_dups (reverse l)).

(** The elements separated by a comma and a blank. *)
Fixpoint comma_separated (l : list bytes) : bytes :=
  match l with
  | [] => []
  | [m] => m
  | m :: l' => m ++ bs ", " ++ comma_separated l'
  end.

Definition methods_at (path : bytes) (rs : list route) : list bytes :=
  rt_method <$> filter (λ r, rt_path r = path) rs.

Lemma first_occurrences_snoc l m :
  first_occurrences (l ++ [m]) =
  if bool_decide (m ∈ l) then first_occurrences l else first_occurrences l ++ [m].
Proof.
  unfold first_occurrences. rewrite reverse_snoc. simpl.
  case_decide as H; rewrite elem_of_reverse in H.
  - by rewrite bool_decide_true.
  - rewrite bool_decide_false by done. by rewrite reverse_cons.
Qed.

Lemma comma_separated_snoc l m :
  comma_separated (l ++ [m]) =
  comma_separated l ++ (if bool_decide (l = []) then [] else bs ", ") ++ m.
Proof.
  induction l as [|x l IH]; [done|]. destruct l as [|y l]; [done|].
  change (comma_separated ((x :: y :: l) ++ [m]))
    with (x ++ bs ", " ++ comma_separated ((y :: l) ++ [m])).
  change (comma_separated (x :: y :: l)) with (x ++ bs ", " ++ comma_separated (y :: l)).
  rewrite IH, !bool_decide_false by done. by rewrite <- !app_assoc.
Qed.

Lemma methods_at_snoc path rs r :
  methods_at path (rs ++ [r]) =
  methods_at path rs ++ (if bool_decide (rt_path r = path) then [rt_method r] else []).
Proof.
  unfold methods_at. rewrite filter_app, fmap_app. f_equal.
  case_bool_decide as H; [by rewrite filter_cons_True | by rewrite filter_cons_False].
Qed.

Lemma comma_separated_mono path pre r rs :
  length (comma_separated (first_occurrences (methods_at path (pre ++ [r])))) ≤
  length (comma_separated (first_occurrences (methods_at path (pre ++ r :: rs)))).
Proof.
  revert pre r. induction rs as [|r' rs IH] using rev_ind; intros pre r; [done|].
  rewrite (app_comm_cons rs), app_assoc, (methods_at_snoc path (pre ++ r :: rs)).
  etrans; [apply IH|]. case_bool_decide; [|by rewrite app_nil_r].
  rewrite first_occurrences_snoc. case_bool_decide; [done|].
  rewrite comma_separated_snoc, length_app. lia.
Qed.

Lemma method_seen_spec reg pre r rs path :
  routes reg = pre ++ r :: rs →
  route_method_seen_for_path reg (length pre) path =
  bool_decide (rt_method r ∈ methods_at path pre).
Proof.
  intros Hrs. unfold route_method_seen_for_path.
  rewrite Hrs, take_app_length, list_lookup_middle by done.
  apply eq_bool_prop_intro. rewrite bool_decide_spec, Is_true_true, existsb_exists.
  unfold methods_at. rewrite list_elem_of_fmap. setoid_rewrite list_elem_of_filter.
  setoid_rewrite <- list_elem_of_In. setoid_rewrite andb_true_iff.
  setoid_rewrite streq_true. naive_solver.
Qed.

Lemma allow_loop_spec reg path buf_len pre rs :
  routes reg = pre ++ rs →
  length (comma_separated (first_occurrences (methods_at path (routes reg)))) < buf_len →
  let found := first_occurrences (methods_at path pre) in
  let all := first_occurrences (methods_at path (routes reg)) in
  allow_loop reg path buf_len rs (length pre) (comma_separated found)
    (Z.of_nat (length found)) =
  inr (comma_separated all, Z.of_nat (length all)).
Proof.
  revert pre. induction rs as [|r rs IH]; intros pre Hrs Hlen; simpl.
  { rewrite Hrs. by rewrite app_nil_r. }
  assert (routes reg = (pre ++ [r]) ++ rs) as Hrs' by by list_simplifier.
  specialize (IH _ Hrs' Hlen). rewrite Hrs in Hlen.
  pose proof (comma_separated_mono path pre r rs) as Hm.
  rewrite length_app, Nat.add_1_r in IH.
  rewrite (method_seen_spec reg pre r rs path) by done.
  rewrite methods_at_snoc in IH, Hm.
  destruct (streq (rt_path r) path) eqn:Ep; byte_facts; last first.
  { rewrite bool_decide_false, app_nil_r in IH by done. apply IH. }
  rewrite bool_decide_true in IH, Hm by done. rewrite first_occurrences_snoc in IH, Hm.
  case_bool_decide as Hin; [apply IH|]; simpl.
  set (found := first_occurrences (methods_at (rt_path r) pre)) in *.
  rewrite comma_separated_snoc in IH, Hm.
  assert ((if (0 <? Z.of_nat (length found))%Z then bs ", " else []) =
          (if bool_decide (found = []) then [] else bs ", ")) as ->.
  { destruct found; [done|]. by rewrite bool_decide_false. }
  split_if; [rewrite !length_app in *; lia|].
  rewrite length_app in IH. simpl in IH.
  replace (Z.of_nat (length found) + 1)%Z with (Z.of_nat (length found + 1)) by lia.
  apply IH.
Qed.

Lemma route_allow_methods_eq reg path buf_len :
  let methods := first_occurrences (methods_at path (routes reg)) in
  length (comma_separated methods) < buf_len → 3 < buf_len →
  (∀ pr, pr ∈ prefix_routes reg → length (pr_method pr) < buf_len) →
  route_allow_methods reg path buf_len =
    if bool_decide (methods = []) then
      match list_find (λ pr, is_prefix (pr_prefix pr) path = true) (prefix_routes reg) with
      | Some (_, pr) => (pr_method pr, 1%Z)
      | None => ([], 0%Z)
      end
    else (comma_separated methods, Z.of_nat (length methods)).
Proof.
  intros methods Hlen H3 Hpr. unfold route_allow_methods.
  rewrite (proj2 (Nat.eqb_neq buf_len 0)) by lia.
  pose proof (allow_loop_spec reg path buf_len [] (routes reg) eq_refl Hlen) as E.
  change (allow_loop reg path buf_len (routes reg) 0 [] 0 =
    inr (comma_separated methods, Z.of_nat (length methods))) in E.
  rewrite E. clear E. rewrite (proj2 (Nat.ltb_lt 3 buf_len)) by lia.
  destruct (list_find _ _) as [[i pr]|] eqn:Ef.
  - apply list_find_Some in Ef as (Hi%list_elem_of_lookup_2 & _ & _).
    rewrite strlcpy_id by eauto.
    destruct methods as [|m ms] eqn:Em; [done|]. by rewrite bool_decide_false.
  - destruct methods as [|m ms] eqn:Em; [done|]. by rewrite bool_decide_false.
Qed.

(** The Allow header: when the buffer can hold the text, it lists the distinct
    methods of the exact routes of the path, in table order and comma separated, and
    the count is their number. *)
Theorem allow_header_lists_methods reg path buf_len :
  let methods := first_occurrences (methods_at path (routes reg)) in
  methods ≠ [] →
  length (comma_separated methods) < buf_len → 3 < buf_len →
  (∀ pr, pr ∈ prefix_routes reg → length (pr_method pr) < buf_len) →
  route_allow_methods reg path buf_len =
    (comma_separated methods, Z.of_nat (length methods)) ∧
  NoDup methods ∧
  ∀ m, m ∈ methods ↔ ∃ r, r ∈ routes reg ∧ rt_path r = path ∧ rt_method r = m.
Proof.
  intros methods Hne Hlen H3 Hpr. split_and!.
  - rewrite route_allow_methods_eq by done. by rewrite bool_decide_false.
  - unfold methods, first_occurrences. rewrite reverse_Permutation. apply NoDup_remove_dups.
  - intros m. unfold methods, first_occurrences, methods_at.
    rewrite elem_of_reverse, elem_of_remove_dups, elem_of_reverse, list_elem_of_fmap.
    setoid_rewrite list_elem_of_filter. naive_solver.
Qed.

Lemma allow_header_lists_methods_witness :
  let reg := {| routes := [ Route (bs "GET") (bs "/a") Hstatic; Route (bs "PUT") (bs "/b") Hstatic;
                            Route (bs "PUT") (bs "/a") Hstatic; Route (bs "GET") (bs "/a") Hmetrics ];
                prefix_routes := [ PrefixRoute (bs "GET") (bs "/a") 0 Hstatic ] |} in
  route_allow_methods reg (bs "/a") 16 = (bs "GET, PUT", 2%Z).
Proof.
  intros reg.
  refine (proj1 (allow_header_lists_methods reg (bs "/a") 16 _ _ _ _)).
  - intros H. vm_compute in H. discriminate H.
  - vm_compute. lia.
  - lia.
  - intros pr Hpr. repeat (apply elem_of_cons in Hpr as [->|Hpr]; [vm_compute; lia|]).
    by apply elem_of_nil in Hpr.
Defined.

Lemma first_occurrences_const l x :
  Forall (λ y, y = x) l → first_occurrences l = if bool_decide (l = []) then [] else [x].
Proof.
  induction l as [|y l IH] using rev_ind; [done|].
  intros [Hl ->%Forall_singleton]%Forall_app.
  rewrite first_occurrences_snoc, IH by done.
  rewrite (bool_decide_false (l ++ [x] = [])) by (by destruct l).
  destruct l as [|y l]; [done|]. apply Forall_cons in Hl as [-> _].
  rewrite bool_decide_true by left. done.
Qed.

(** The Allow value of any path under the program's own tables. *)
Lemma init_routes_allow conf reg path :
  let tables := init_routes conf reg in
  route_allow_methods tables path 256 = ([], 0%Z) ∨
  route_allow_methods tables path 256 = (bs "GET", 1%Z).
Proof.
  intros tables.
  pose proof (init_routes_get_only conf reg) as [Hr Hp]. fold tables in Hr, Hp.
  rewrite Forall_forall in Hr. rewrite Forall_forall in Hp.
  assert (first_occurrences (methods_at path (routes tables)) =
    if bool_decide (methods_at path (routes tables) = []) then [] else [bs "GET"]) as Hm.
  { apply first_occurrences_const, Forall_forall. unfold methods_at.
    intros m (r & -> & [_ ?]%list_elem_of_filter)%list_elem_of_fmap. auto. }
  rewrite route_allow_methods_eq; rewrite ?Hm.
  - destruct (methods_at path (routes tables)) as [|m ms]; [|by right].
    rewrite !bool_decide_true by done.
    destruct (list_find _ _) as [[i pr]|] eqn:Ef; [|by left].
    apply list_find_Some in Ef as (?%list_elem_of_lookup_2 & _). right. by rewrite Hp.
  - case_bool_decide; vm_compute; lia.
  - lia.
  - intros pr ?. rewrite Hp by done. vm_compute. lia.
Qed.

(** The 405 answer of the running program: for every configuration, a request for
    a known path whose method is not routed gets the Allow header [GET] (the buffer of
    http_send_error has 256 bytes), and the method was not [GET]. *)
Theorem method_not_allowed_answer conf reg method path :
  let tables := init_routes conf reg in
  route_match tables method path = None → route_path_known tables path = true →
  route_allow_methods tables path 256 = (bs "GET", 1%Z) ∧ method ≠ bs "GET".
Proof.
  intros tables Hno Hknown.
  pose proof (init_routes_get_only conf reg) as [Hr Hp]. fold tables in Hr, Hp.
  rewrite Forall_forall in Hr. rewrite Forall_forall in Hp.
  assert (first_occurrences (methods_at path (routes tables)) =
    if bool_decide (methods_at path (routes tables) = []) then [] else [bs "GET"]) as Hm.
  { apply first_occurrences_const, Forall_forall. unfold methods_at.
    intros m (r & -> & [_ ?]%list_elem_of_filter)%list_elem_of_fmap. auto. }
  rewrite route_path_known_spec in Hknown. unfold route_match in Hno.
  destruct (find_route _ _ _) eqn:Hf; [done|].
  rewrite find_route_None in Hf. rewrite find_prefix_route_None in Hno. split.
  - rewrite route_allow_methods_eq; rewrite ?Hm.
    + destruct (methods_at path (routes tables)) as [|m ms] eqn:Em; [|done].
      rewrite !bool_decide_true by done.
      destruct Hknown as [(r & Hin & <-)|(pr & Hin & Hpm)].
      * apply (f_equal length) in Em. unfold methods_at in Em. rewrite length_fmap in Em.
        assert (r ∈ filter (λ r', rt_path r' = rt_path r) (routes tables)) as Hin'
          by by apply list_elem_of_filter.
        apply list_elem_of_lookup in Hin' as [i ?%lookup_lt_Some]. simpl in Em. lia.
      * apply prefix_route_path_matches_spec in Hpm as (rest & -> & _).
        destruct (list_find _ _) as [[i pr']|] eqn:Ef.
        -- apply list_find_Some in Ef as (?%list_elem_of_lookup_2 & _). by rewrite Hp.
        -- rewrite list_find_None, Forall_forall in Ef.
           destruct (Ef pr Hin). apply is_prefix_app.
    + case_bool_decide; vm_compute; lia.
    + lia.
    + intros pr ?. rewrite Hp by done. vm_compute. lia.
  - intros ->. destruct Hknown as [(r & Hin & Hpath)|(pr & Hin & Hpm)].
    + apply (Hf r Hin). auto.
    + specialize (Hno pr Hin). rewrite prefix_route_matches_spec, Hpm, Hp in Hno by done.
      by rewrite streq_refl in Hno.
Qed.

Lemma method_not_allowed_answer_witness :
  let tables := init_routes None empty_registry in
  route_match tables (bs "POST") (bs "/api/man/search") = None ∧
  route_allow_methods tables (bs "/api/man/search") 256 = (bs "GET", 1%Z).
Proof.
  intros tables. split; [vm_compute; reflexivity|].
  refine (proj1 (method_not_allowed_answer None empty_registry (bs "POST") _ _ _));
    vm_compute; reflexivity.
Defined.

(** The route tests of tests/routes_test.c, on the model. *)
Example default_routes :
  let tables := init_routes None empty_registry in
  (length (routes tables), length (prefix_routes tables)) = (10, 4) ∧
  route_match tables (bs "GET") (bs "/man/1/ls") = None ∧
  route_match tables (bs "GET") (bs "/man/OpenBSD/1/ls") = Some Hman_render ∧
  route_match tables (bs "GET") (bs "/api/man/sections") = Some Hman_api ∧
  route_match tables (bs "GET") (bs "/docs?x=1") = None ∧
  route_allow_methods tables (bs "/man/x") 256 = (bs "GET", 1%Z) ∧
  route_path_known tables (bs "/man/x") = false ∧
  route_path_known tables (bs "/missing") = false.
Proof. by vm_compute. Qed.
