(* ===== verification/HttpUtils.v ===== *)
(** * String utilities (src/http/utils.c)

    JSON escaping, sanitising, URL decoding and the MIME table.  A NULL argument is
    [None]. *)

From S2P Require Import Prelude.

(** ** Definitions *)

Definition backslash : ascii := "\"%char.

(** One lower-case hexadecimal digit, as [%x] prints it. *)
Definition hex_digit (v : Z) : ascii :=
  if (v <? 10)%Z then byte_of (48 + v) else byte_of (87 + v).

(** The bytes the [switch] of [json_escape_string] appends for one character.  The
    guard of the loop leaves room for the six bytes of [\u%04x]. *)
Definition json_escape_char (c : ascii) : bytes :=
  if Ascii.eqb c dq then [backslash; dq]
  else if Ascii.eqb c backslash then [backslash; backslash]
  else if Ascii.eqb c "008" then [backslash; "b"%char]
  else if Ascii.eqb c "012" then [backslash; "f"%char]
  else if Ascii.eqb c lf then [backslash; "n"%char]
  else if Ascii.eqb c cr then [backslash; "r"%char]
  else if Ascii.eqb c tab then [backslash; "t"%char]
  else if (byte_val c <? 32)%Z then
    [backslash; "u"%char; "0"%char; "0"%char;
     hex_digit (byte_val c / 16); hex_digit (byte_val c mod 16)]
  else [c].

Fixpoint json_escape_loop (max_out : nat) (src dest : bytes) : bytes :=
  match src with
  | [] => dest
  | c :: src' =>
      if max_out - 1 <=? length dest + 7 then dest
      else json_escape_loop max_out src' (dest ++ json_escape_char c)
  end.

(** [malloc_ok] says whether the allocation succeeds. *)
Definition json_escape_string (malloc_ok : bool) (src : option bytes) : bytes :=
  match src with
  | None => []
  | Some s => if malloc_ok then json_escape_loop (length s * 6 + 1) s [] else []
  end.

Definition safe_name_char (c : ascii) : bool :=
  isalnum c || Ascii.eqb c "." || Ascii.eqb c "-" || Ascii.eqb c "_" || Ascii.eqb c "+".

Definition sanitize_string (s : option bytes) : option bytes :=
  match s with
  | None => None
  | Some b => Some ((λ c, if safe_name_char c then c else "_"%char) <$> b)
  end.

Definition hex_value (c : ascii) : Z :=
  let v := byte_val c in
  if in_range 48 57 c then v - 48
  else if in_range 97 102 c then 10 + (v - 97)
  else if in_range 65 70 c then 10 + (v - 65)
  else -1.

(** The loop, on the rest of the source; [out] is what is already in [dst]. *)
Fixpoint url_decode_loop (src : bytes) (dst_len : nat) (out : bytes) : option bytes :=
  match src with
  | [] => Some out
  | c :: src' =>
      if dst_len <=? length out + 1 then None
      else if Ascii.eqb c "%" then
        match src' with
        | h :: l :: src'' =>
            let hi := hex_value h in
            let lo := hex_value l in
            if ((hi <? 0) || (lo <? 0))%Z then None
            else url_decode_loop src'' dst_len
                   (out ++ [byte_of (Z.lor (Z.shiftl hi 4) lo)])
        | _ => None
        end
      else if Ascii.eqb c "+" then url_decode_loop src' dst_len (out ++ [space])
      else url_decode_loop src' dst_len (out ++ [c])
  end.

(** [None] is the return value -1; the result is the contents of [dst], which holds
    a NUL where the source has [%00]. *)
Definition url_decode (src : option bytes) (dst_len : nat) : option bytes :=
  match src with
  | None => None
  | Some s => if dst_len =? 0 then None else url_decode_loop s dst_len []
  end.

Definition mime_type_for_path (path : option bytes) : bytes :=
  match path with
  | None => bs "application/octet-stream"
  | Some p =>
      match strrchr p "." with
      | None => bs "application/octet-stream"
      | Some i =>
          let ext := drop i p in
          if streq ext (bs ".html") then bs "text/html"
          else if streq ext (bs ".css") then bs "text/css"
          else if streq ext (bs ".js") then bs "application/javascript"
          else if streq ext (bs ".png") then bs "image/png"
          else if streq ext (bs ".svg") then bs "image/svg+xml"
          else if streq ext (bs ".jpg") || streq ext (bs ".jpeg") then bs "image/jpeg"
          else if streq ext (bs ".gif") then bs "image/gif"
          else if streq ext (bs ".ico") then bs "image/x-icon"
          else if streq ext (bs ".pdf") then bs "application/pdf"
          else if streq ext (bs ".ps") then bs "application/postscript"
          else if streq ext (bs ".md") then bs "text/markdown; charset=utf-8"
          else if streq ext (bs ".txt") then bs "text/plain; charset=utf-8"
          else bs "application/octet-stream"
      end
  end.

(** ** JSON escaping against a reader of JSON strings *)

Definition hex_of (c : ascii) : option Z :=
  if (hex_value c <? 0)%Z then None else Some (hex_value c).

(** The contents of a JSON string literal: [None] on a raw quote or control character or
    an unknown escape.  Only the escapes below U+0020 are read. *)
Fixpoint json_read (s : bytes) : option bytes :=
  match s with
  | [] => Some []
  | c :: s1 =>
      if Ascii.eqb c dq then None
      else if (byte_val c <? 32)%Z then None
      else if Ascii.eqb c backslash then
        match s1 with
        | e :: s2 =>
            if Ascii.eqb e dq then cons dq <$> json_read s2
            else if Ascii.eqb e backslash then cons backslash <$> json_read s2
            else if Ascii.eqb e "b" then cons "008"%char <$> json_read s2
            else if Ascii.eqb e "f" then cons "012"%char <$> json_read s2
            else if Ascii.eqb e "n" then cons lf <$> json_read s2
            else if Ascii.eqb e "r" then cons cr <$> json_read s2
            else if Ascii.eqb e "t" then cons tab <$> json_read s2
            else if Ascii.eqb e "u" then
              match s2 with
              | a :: b :: h :: l :: s3 =>
                  if Ascii.eqb a "0" && Ascii.eqb b "0" then
                    match hex_of h, hex_of l with
                    | Some hi, Some lo => cons (byte_of (hi * 16 + lo)) <$> json_read s3
                    | _, _ => None
                    end
                  else None
              | _ => None
              end
            else None
        | [] => None
        end
      else cons c <$> json_read s1
  end.

Definition json_escape (s : bytes) : bytes := s ≫= json_escape_char.

Lemma json_escape_char_length c : 1 ≤ length (json_escape_char c) ≤ 6.
Proof.
  assert ((1 <=? length (json_escape_char c)) && (length (json_escape_char c) <=? 6) = true).
  { revert c. apply byte_forall. vm_compute. reflexivity. }
  bool_facts. lia.
Qed.

Lemma json_read_plain c s :
  c ≠ dq → c ≠ backslash → (32 ≤ byte_val c)%Z → json_read (c :: s) = cons c <$> json_read s.
Proof.
  intros Hq Hb Hv. simpl.
  rewrite (proj2 (ascii_eqb_false c dq)), (proj2 (ascii_eqb_false c backslash)) by done.
  by rewrite (proj2 (Z.ltb_ge _ _)).
Qed.

Lemma hex_digit_of v : (0 ≤ v < 16)%Z → hex_of (hex_digit v) = Some v.
Proof.
  intros Hv.
  assert (v ∈ seqZ 0 16) as H by (apply elem_of_seqZ; lia).
  cbv [seqZ seq fmap list_fmap Z.to_nat Pos.to_nat Pos.iter_op Nat.add] in H. simpl in H.
  repeat (apply elem_of_cons in H as [->|H]; [reflexivity|]). by apply elem_of_nil in H.
Qed.

(** The escape of a control character. *)
Definition control_escape (c : ascii) : bytes :=
  bs "\u00" ++ [hex_digit (byte_val c / 16); hex_digit (byte_val c mod 16)].

Lemma byte_val_digits c : (0 ≤ byte_val c / 16 < 16)%Z ∧ (0 ≤ byte_val c mod 16 < 16)%Z.
Proof.
  pose proof (byte_val_range c). split; [|apply Z.mod_pos_bound; lia].
  split; [apply Z.div_pos | apply Z.div_lt_upper_bound]; lia.
Qed.

Lemma json_read_control c s : json_read (control_escape c ++ s) = cons c <$> json_read s.
Proof.
  destruct (byte_val_digits c).
  trans (match hex_of (hex_digit (byte_val c / 16)), hex_of (hex_digit (byte_val c mod 16)) with
     | Some hi, Some lo => cons (byte_of (hi * 16 + lo)) <$> json_read s
     | _, _ => None
     end); [reflexivity|].
  rewrite !hex_digit_of by done. repeat f_equal.
  rewrite <- (byte_of_val c) at 3. f_equal.
  rewrite (Z.div_mod (byte_val c) 16) at 3 by lia. lia.
Qed.

Lemma json_read_escape_char c s :
  json_read (json_escape_char c ++ s) = cons c <$> json_read s.
Proof.
  unfold json_escape_char.
  repeat (match goal with |- context [if Ascii.eqb c ?x then _ else _] =>
    destruct (Ascii.eqb c x) eqn:?; byte_facts; [reflexivity|] end).
  destruct (byte_val c <? 32)%Z eqn:Hv; byte_facts; [|by apply json_read_plain].
  apply json_read_control.
Qed.

Lemma json_read_escape s : json_read (json_escape s) = Some s.
Proof.
  induction s as [|c s IH]; [done|].
  change (json_escape (c :: s)) with (json_escape_char c ++ json_escape s).
  by rewrite json_read_escape_char, IH.
Qed.

Lemma json_escape_loop_spec m src dest :
  length dest + 2 ≤ m →
  ∃ k, json_escape_loop m src dest = dest ++ json_escape (take k src) ∧
    length (json_escape_loop m src dest) + 1 ≤ m ∧
    (length src ≤ k ∨ m ≤ length (dest ++ json_escape (take k src)) + 8).
Proof.
  revert dest. induction src as [|c src IH]; intros dest Hm; simpl.
  - exists 0. rewrite app_nil_r. split_and!; [done|lia|left; lia].
  - destruct (m - 1 <=? length dest + 7) eqn:E; byte_facts.
    + exists 0. simpl. rewrite app_nil_r. split_and!; [done|lia|right; lia].
    + pose proof (json_escape_char_length c).
      destruct (IH (dest ++ json_escape_char c)) as (k & Heq & ? & Hk).
      { rewrite length_app. lia. }
      exists (S k). rewrite Heq in *. simpl.
      change (json_escape (c :: take k src)) with (json_escape_char c ++ json_escape (take k src)).
      rewrite app_assoc. split_and!; [done|done|]. destruct Hk; [left|right]; lia.
Qed.

Lemma json_escape_length_le s n :
  Forall (λ c, length (json_escape_char c) ≤ n) s → length (json_escape s) ≤ n * length s.
Proof.
  induction 1 as [|c s Hc Hs IH]; [simpl; lia|].
  change (json_escape (c :: s)) with (json_escape_char c ++ json_escape s).
  rewrite length_app. simpl. lia.
Qed.

(** Escaped text is always a well-formed JSON string body that reads back as a
    prefix of the source, and it fits the buffer of [6 * strlen(src) + 1] bytes,
    terminator included. *)
Theorem json_escape_sound malloc_ok s :
  (∃ k, json_read (json_escape_string malloc_ok (Some s)) = Some (take k s)) ∧
  length (json_escape_string malloc_ok (Some s)) + 1 ≤ length s * 6 + 1.
Proof.
  simpl. destruct malloc_ok; [|split; [by exists 0 | simpl; lia]].
  destruct s as [|c s]; [split; [by exists 0 | simpl; lia]|].
  destruct (json_escape_loop_spec (length (c :: s) * 6 + 1) (c :: s) [])
    as (k & Heq & Hlen & _); [simpl; lia|].
  split; [|lia]. exists k. rewrite Heq. simpl. apply json_read_escape.
Qed.

(** A line that [json_escape_string] copies whole: at least two bytes, none of which needs
    a [\u] escape. *)
Definition plain_line (t : bytes) : Prop :=
  1 < length t ∧ Forall (λ c, (32 ≤ byte_val c)%Z ∨ c ∈ ["008"%char; "012"%char; lf; cr; tab]) t.

Lemma escape_plain t : plain_line t → json_escape_string true (Some t) = json_escape t.
Proof.
  intros [Hl Ht].
  assert (Forall (λ c, length (json_escape_char c) ≤ 2) t) as H2.
  { eapply Forall_impl; [exact Ht|]. intros c Hc.
    assert ((32 <=? byte_val c)%Z || bool_decide (c ∈ ["008"%char; "012"%char; lf; cr; tab])
            = true) as Hb.
    { apply orb_true_iff. rewrite Z.leb_le, bool_decide_eq_true. done. }
    apply Nat.leb_le. revert Hb. clear Hc. apply implb_true_iff. revert c.
    apply byte_forall. vm_compute. reflexivity. }
  cbn [json_escape_string].
  destruct (json_escape_loop_spec (length t * 6 + 1) t []) as (k & -> & _ & Hk); [simpl; lia|].
  simpl in *. destruct Hk as [Hk|Hk]; [by rewrite take_ge|].
  destruct (decide (length t ≤ k)); [by rewrite take_ge|]. exfalso.
  assert (length (json_escape (take k t)) ≤ 2 * length (take k t)) as Hk2
    by by apply json_escape_length_le, Forall_take.
  rewrite length_take in Hk2. lia.
Qed.

(** Which strings [json_escape_string] copies whole: every string of at least two
    bytes none of which needs a [\u] escape.  A string of exactly one byte is always
    lost: its guard [d + 7 >= max_out - 1] already fails for the first byte. *)
Theorem json_escape_complete s :
  Forall (λ c, (32 ≤ byte_val c)%Z ∨ c ∈ ["008"%char; "012"%char; lf; cr; tab]) s →
  json_escape_string true (Some s) = if length s =? 1 then [] else json_escape s.
Proof.
  intros Hs. destruct (length s =? 1) eqn:E1; byte_facts; [by destruct s as [|c [|]]|].
  destruct s as [|c [|d s]]; [done|done|]. apply (escape_plain (c :: d :: s)). split; [simpl; lia|done].
Qed.

Lemma json_escape_complete_witness :
  json_escape_string true (Some (qs "a'b")) = json_escape (qs "a'b") ∧
  json_escape_string true (Some (bs "7")) = [].
Proof.
  split; [refine (json_escape_complete (qs "a'b") _) | refine (json_escape_complete (bs "7") _)];
    by_computation.
Defined.

(** ** URL decoding *)

(** [src] is a well-formed encoding of [out]. *)
Inductive url_encodes : bytes → bytes → Prop :=
| ue_nil : url_encodes [] []
| ue_hex h l src out :
    isxdigit h = true → isxdigit l = true → url_encodes src out →
    url_encodes ("%"%char :: h :: l :: src)
      (byte_of (hex_value h * 16 + hex_value l) :: out)
| ue_plus src out : url_encodes src out → url_encodes ("+"%char :: src) (space :: out)
| ue_char c src out :
    c ≠ "%"%char → c ≠ "+"%char → url_encodes src out → url_encodes (c :: src) (c :: out).

Lemma hex_value_isxdigit c : (hex_value c <? 0)%Z = negb (isxdigit c).
Proof.
  assert (Bool.eqb (hex_value c <? 0)%Z (negb (isxdigit c)) = true) as H.
  { revert c. apply byte_forall. vm_compute. reflexivity. }
  by apply eqb_prop.
Qed.

Lemma hex_value_range c : isxdigit c = true → (0 ≤ hex_value c < 16)%Z.
Proof.
  intros H.
  assert (implb (isxdigit c) ((0 <=? hex_value c)%Z && (hex_value c <? 16)%Z) = true) as Hc.
  { revert c H. intros c _. revert c. apply byte_forall. vm_compute. reflexivity. }
  rewrite H in Hc. simpl in Hc. bool_facts. lia.
Qed.

Lemma hex_pair h l :
  isxdigit h = true → isxdigit l = true →
  Z.lor (Z.shiftl (hex_value h) 4) (hex_value l) = (hex_value h * 16 + hex_value l)%Z.
Proof.
  intros Hh%hex_value_range Hl%hex_value_range.
  assert (∀ a b, a ∈ seqZ 0 16 → b ∈ seqZ 0 16 →
    (Z.lor (Z.shiftl a 4) b =? a * 16 + b)%Z = true) as H.
  { assert (forallb (λ a, forallb (λ b, (Z.lor (Z.shiftl a 4) b =? a * 16 + b)%Z) (seqZ 0 16))
      (seqZ 0 16) = true) as Hall by (vm_compute; reflexivity).
    intros a b Ha%list_elem_of_In Hb%list_elem_of_In.
    rewrite forallb_forall in Hall. specialize (Hall a Ha).
    rewrite forallb_forall in Hall. exact (Hall b Hb). }
  apply Z.eqb_eq, H; apply elem_of_seqZ; lia.
Qed.

Lemma url_encodes_length src out : url_encodes src out → length out ≤ length src.
Proof. induction 1; simpl; lia. Qed.

Lemma url_decode_loop_spec src dst_len out res :
  url_decode_loop src dst_len out = Some res ↔
  ∃ o, res = out ++ o ∧ url_encodes src o ∧ (o = [] ∨ length res < dst_len).
Proof.
  remember (length src) as n eqn:Hn. revert src Hn out.
  induction (lt_wf n) as [n _ IH]. intros src -> out.
  destruct src as [|c src]; simpl.
  { split.
    - intros [= <-]. exists []. rewrite app_nil_r. split_and!; [done|constructor|by left].
    - intros (o & -> & He & _). inversion He; subst. by rewrite app_nil_r. }
  destruct (dst_len <=? length out + 1) eqn:Hcap; byte_facts.
  { split; [done|]. intros (o & -> & He & [->|Hlen]); [inversion He|].
    rewrite length_app in Hlen. inversion He; subst; simpl in Hlen; lia. }
  (* one decoded byte [x] followed by the rest [r] of the source *)
  assert (∀ x r, length r < length (c :: src) →
    url_decode_loop r dst_len (out ++ [x]) = Some res ↔
    ∃ o, res = out ++ x :: o ∧ url_encodes r o ∧ length res < dst_len) as Hstep.
  { intros x r Hr. rewrite (IH (length r) Hr r eq_refl). split.
    - intros (o & -> & He & Ho). exists o. rewrite <- app_assoc. split_and!; [done|done|].
      destruct Ho as [->|Ho]; [|by rewrite <- app_assoc in Ho].
      rewrite !length_app. simpl. lia.
    - intros (o & -> & He & Ho). exists o. rewrite <- app_assoc. auto. }
  destruct (Ascii.eqb c "%") eqn:Hp; byte_facts.
  - destruct src as [|h [|l src]].
    + split; [done|]. intros (o & -> & He & _). inversion He; subst; done.
    + split; [done|]. intros (o & -> & He & _). inversion He; subst; done.
    + rewrite !hex_value_isxdigit.
      destruct (isxdigit h) eqn:Hh, (isxdigit l) eqn:Hl; simpl;
        try (split; [done|]; intros (o & -> & He & _); inversion He; subst; congruence).
      rewrite hex_pair by done. rewrite Hstep by (simpl; lia). split.
      * intros (o & -> & He & Ho). eexists. split_and!; [done| |by right]. by constructor.
      * intros (o & -> & He & Ho). inversion He; subst; [|done].
        eexists. split_and!; [done|done|]. by destruct Ho.
  - destruct (Ascii.eqb c "+") eqn:Hplus; byte_facts; rewrite Hstep by (simpl; lia).
    + split.
      * intros (o & -> & He & Ho). eexists. split_and!; [done| |by right]. by constructor.
      * intros (o & -> & He & Ho). inversion He; subst; [|done].
        eexists. split_and!; [done|done|]. by destruct Ho.
    + split.
      * intros (o & -> & He & Ho). eexists. split_and!; [done| |by right]. by constructor.
      * intros (o & -> & He & Ho). inversion He; subst; [done|done|].
        eexists. split_and!; [done|done|]. by destruct Ho.
Qed.

(** [url_decode] returns 0 with [out] in the destination exactly when the source
    is a well-formed encoding of [out] and [out] fits with its terminator (an empty
    source fits any non-empty buffer); every other call returns -1. *)
Theorem url_decode_spec src dst_len out :
  url_decode (Some src) dst_len = Some out ↔ url_encodes src out ∧ length out < dst_len.
Proof.
  unfold url_decode. destruct (dst_len =? 0) eqn:E; byte_facts; [split; [done|lia]|].
  rewrite url_decode_loop_spec. split.
  - intros (o & -> & He & [->|Ho]); split; simpl in *; (done || lia).
  - intros [He Ho]. exists out. auto.
Qed.

(** The percent encoding of every byte. *)
Definition percent_encode (s : bytes) : bytes :=
  s ≫= λ c, ["%"%char; hex_digit (byte_val c / 16); hex_digit (byte_val c mod 16)].

Lemma percent_encode_encodes s : url_encodes (percent_encode s) s.
Proof.
  induction s as [|c s IH]; [constructor|].
  change (percent_encode (c :: s)) with
    ("%"%char :: hex_digit (byte_val c / 16) :: hex_digit (byte_val c mod 16) :: percent_encode s).
  assert (isxdigit (hex_digit (byte_val c / 16)) && isxdigit (hex_digit (byte_val c mod 16)) &&
    Ascii.eqb (byte_of (hex_value (hex_digit (byte_val c / 16)) * 16
                + hex_value (hex_digit (byte_val c mod 16)))) c = true) as H.
  { revert c. apply byte_forall. vm_compute. reflexivity. }
  byte_facts. rewrite <- H0 at 3. by constructor.
Qed.

(** ** Sanitising *)

Lemma safe_name_char_underscore : safe_name_char "_" = true.
Proof. reflexivity. Qed.

Lemma sanitize_string_safe s r :
  sanitize_string (Some s) = Some r →
  length r = length s ∧ Forall (λ c, safe_name_char c = true) r ∧
  (Forall (λ c, safe_name_char c = true) s → r = s).
Proof.
  simpl. intros [= <-]. split_and!.
  - by rewrite length_fmap.
  - apply Forall_fmap, Forall_true. intros c. simpl. by destruct (safe_name_char c) eqn:?.
  - induction 1 as [|c s Hc _ IH]; [done|]. rewrite fmap_cons, Hc. by f_equal.
Qed.
