(* ===== verification/Json.v ===== *)
(** * JSON arrays of strings

    Several modules print arrays of strings by hand; here is the text of one item, the
    array they mean and a reader of such arrays, against which they are proved. *)

From S2P Require Import Prelude HttpUtils.

Definition json_item (first : bool) (escaped : bytes) : bytes :=
  (if first then [] else [","%char]) ++ [dq] ++ escaped ++ [dq].

(** ** A reader *)

(** The raw text of a string literal, up to the first quote that is not escaped, and what
    follows it. *)
Fixpoint split_string (s : bytes) : option (bytes * bytes) :=
  match s with
  | [] => None
  | c :: s1 =>
      if Ascii.eqb c dq then Some ([], s1)
      else if Ascii.eqb c backslash then
        match s1 with
        | [] => None
        | e :: s2 => (λ p, (c :: e :: p.1, p.2)) <$> split_string s2
        end
      else (λ p, (c :: p.1, p.2)) <$> split_string s1
  end.

(** The strings of an array, from its first element to its closing bracket. *)
Fixpoint read_items (fuel : nat) (s : bytes) : option (list bytes) :=
  match fuel with
  | 0 => None
  | S fuel =>
      match s with
      | q :: s1 =>
          if Ascii.eqb q dq then
            match split_string s1 with
            | Some (raw, c :: s2) =>
                match json_read raw with
                | None => None
                | Some text =>
                    if Ascii.eqb c "," then cons text <$> read_items fuel s2
                    else if streq (c :: s2) (bs "]}") then Some [text] else None
                end
            | _ => None
            end
          else if streq s (bs "]}") then Some [] else None
      | [] => None
      end
  end.

(** What a client makes of [head "a","b",...]}]. *)
Definition read_json_array (head s : bytes) : option (list bytes) :=
  if is_prefix head s then read_items (length s) (drop (length head) s) else None.

Lemma split_string_control c s :
  split_string (control_escape c ++ s) = (λ p, (control_escape c ++ p.1, p.2)) <$> split_string s.
Proof.
  destruct (byte_val_digits c) as [R1 R2].
  assert (∀ v, (0 ≤ v < 16)%Z → hex_digit v ≠ dq ∧ hex_digit v ≠ backslash) as Hd.
  { intros v Hv. pose proof (hex_digit_of v Hv) as H.
    split; intros E; rewrite E in H; vm_compute in H; discriminate H. }
  destruct (Hd _ R1) as [D1 D2], (Hd _ R2) as [D3 D4]. simpl.
  rewrite !(proj2 (ascii_eqb_false _ _)) by done. by destruct (split_string s).
Qed.

Lemma split_string_plain c s :
  c ≠ dq → c ≠ backslash → split_string (c :: s) = (λ p, (c :: p.1, p.2)) <$> split_string s.
Proof. intros Hd Hb. cbn [split_string]. by rewrite !(proj2 (ascii_eqb_false _ _)). Qed.

Lemma split_string_escape_char c s :
  split_string (json_escape_char c ++ s)
  = (λ p, (json_escape_char c ++ p.1, p.2)) <$> split_string s.
Proof.
  unfold json_escape_char.
  repeat (match goal with |- context [if Ascii.eqb c ?x then _ else _] =>
    destruct (Ascii.eqb c x) eqn:?; byte_facts; [by destruct (split_string s)|] end).
  destruct (byte_val c <? 32)%Z; [apply split_string_control|].
  by apply split_string_plain; congruence.
Qed.

Lemma split_string_escape t s :
  split_string (json_escape t ++ dq :: s) = Some (json_escape t, s).
Proof.
  induction t as [|c t IH]; [done|].
  change (json_escape (c :: t)) with (json_escape_char c ++ json_escape t).
  by rewrite <- app_assoc, split_string_escape_char, IH.
Qed.

(** The elements of the array. *)
Fixpoint array_text (first : bool) (texts : list bytes) : bytes :=
  match texts with
  | [] => []
  | t :: texts' => json_item first (json_escape t) ++ array_text false texts'
  end.

Lemma read_items_array fuel texts :
  length (array_text true texts) < fuel →
  read_items fuel (array_text true texts ++ bs "]}") = Some texts.
Proof.
  revert fuel. induction texts as [|t texts IH]; intros [|fuel] Hf; try (simpl in Hf; lia); [done|].
  assert (∀ rest, split_string (json_escape t ++ [dq] ++ rest) = Some (json_escape t, rest)) as Hs
    by (intros rest; apply split_string_escape).
  destruct texts as [|u texts].
  - simpl. unfold json_item. rewrite app_nil_r. simpl.
    rewrite <- (app_assoc (json_escape t)). rewrite Hs. by rewrite json_read_escape.
  - change (array_text true (t :: u :: texts) ++ bs "]}") with
      (dq :: (((json_escape t ++ [dq]) ++ ","%char :: array_text true (u :: texts)) ++ bs "]}")).
    rewrite <- !app_assoc. cbn [read_items]. rewrite ascii_eqb_refl, Hs. cbn [app].
    rewrite json_read_escape. change (Ascii.eqb "," ",") with true. cbn iota.
    rewrite IH; [done|].
    change (array_text true (t :: u :: texts)) with
      (dq :: ((json_escape t ++ [dq]) ++ ","%char :: array_text true (u :: texts))) in Hf.
    cbn [length] in Hf. rewrite !length_app in Hf. cbn [length] in Hf. lia.
Qed.

Lemma read_json_array_text head texts :
  read_json_array head (head ++ array_text true texts ++ bs "]}") = Some texts.
Proof.
  unfold read_json_array. rewrite is_prefix_app, drop_app_length. apply read_items_array.
  rewrite !length_app. change (length (bs "]}")) with 2. lia.
Qed.
