(* ===== verification/JsonValue.v ===== *)
(** * JSON values

    The values the metrics and networking modules print piece by piece, the texts of a
    value and a reader of such texts.  A module is correct when what it printed is a text
    of the value it means; [json_parse_form] then says that a client gets this value. *)

From S2P Require Import Prelude HttpUtils Json.

(** ** Values *)

(** [JDec neg m n] is the decimal fraction [m / 10^(n+1)] with its sign, as printed with
    [n + 1] digits behind the point. *)
Unset Elimination Schemes.
Inductive jvalue :=
| JNull
| JNum (z : Z)
| JDec (neg : bool) (m : N) (n : nat)
| JStr (s : bytes)
| JArr (l : list jvalue)
| JObj (l : list (bytes * jvalue)).
Set Elimination Schemes.

Lemma jvalue_ind (P : jvalue → Prop) :
  P JNull → (∀ z, P (JNum z)) → (∀ neg m n, P (JDec neg m n)) → (∀ s, P (JStr s)) →
  (∀ l, Forall P l → P (JArr l)) → (∀ l, Forall (λ m, P m.2) l → P (JObj l)) → ∀ v, P v.
Proof.
  intros Hnull Hnum Hdec Hstr Harr Hobj. fix IH 1.
  intros [|z|neg m n|s|l|l]; [done|done|done|done|apply Harr|apply Hobj].
  - induction l as [|v l IHl]; constructor; auto.
  - induction l as [|[k v] l IHl]; constructor; auto.
Qed.

(** ** The text of a value *)

(** The texts of the elements with commas in between. *)
Fixpoint join_comma (l : list bytes) : bytes :=
  match l with
  | [] => []
  | [t] => t
  | t :: l' => t ++ [","%char] ++ join_comma l'
  end.

(** How the contents of a string are written. *)
Class JsonEscape (esc : bytes → bytes) := {
  esc_split t s : split_string (esc t ++ dq :: s) = Some (esc t, s);
  esc_read t : json_read (esc t) = Some t
}.

#[export] Instance json_escape_ok : JsonEscape json_escape.
Proof. split; [apply split_string_escape|apply json_read_escape]. Qed.

(** Blanks between the tokens. *)
Definition json_blank (c : ascii) : bool :=
  Ascii.eqb c space || Ascii.eqb c tab || Ascii.eqb c lf || Ascii.eqb c cr.

Definition blanks (w : bytes) : Prop := Forall (λ c, json_blank c = true) w.

Section text.
Context (esc : bytes → bytes).

Definition quoted (t : bytes) : bytes := [dq] ++ esc t ++ [dq].

(** The text without blanks. *)
Fixpoint json_text (v : jvalue) : bytes :=
  match v with
  | JNull => bs "null"
  | JNum z => fmt_Z z
  | JDec neg m n => fmt_dec neg m (S n)
  | JStr s => quoted s
  | JArr l => ["["%char] ++ join_comma (json_text <$> l) ++ ["]"%char]
  | JObj l => ["{"%char] ++ join_comma ((λ m, quoted m.1 ++ [":"%char] ++ json_text m.2) <$> l)
              ++ ["}"%char]
  end.

Definition member_text (m : bytes * jvalue) : bytes := quoted m.1 ++ [":"%char] ++ json_text m.2.

(** The texts of a value, with blanks in front of elements, keys and members. *)
Inductive json_form : jvalue → bytes → Prop :=
| form_null : json_form JNull (bs "null")
| form_num z : json_form (JNum z) (fmt_Z z)
| form_dec neg m n : json_form (JDec neg m n) (fmt_dec neg m (S n))
| form_str s : json_form (JStr s) (quoted s)
| form_arr l ts : json_forms l ts → json_form (JArr l) (["["%char] ++ join_comma ts ++ ["]"%char])
| form_obj l ts : json_members l ts → json_form (JObj l) (["{"%char] ++ join_comma ts ++ ["}"%char])
with json_forms : list jvalue → list bytes → Prop :=
| forms_nil : json_forms [] []
| forms_cons v l w t ts :
    blanks w → json_form v t → json_forms l ts → json_forms (v :: l) ((w ++ t) :: ts)
with json_members : list (bytes * jvalue) → list bytes → Prop :=
| members_nil : json_members [] []
| members_cons k v l w w' t ts :
    blanks w → blanks w' → json_form v t → json_members l ts →
    json_members ((k, v) :: l) ((w ++ quoted k ++ [":"%char] ++ w' ++ t) :: ts).
End text.

Scheme json_form_mut := Minimality for json_form Sort Prop
  with json_forms_mut := Minimality for json_forms Sort Prop
  with json_members_mut := Minimality for json_members Sort Prop.

(** ** A reader *)

Definition skip_blanks : bytes → bytes := skip_while json_blank.

(** The digits behind a decimal point; [m] is what the digits in front of it amount to. *)
Definition parse_fraction (neg : bool) (m : Z) (s : bytes) : jvalue * bytes :=
  match s with
  | p :: c :: r =>
      if Ascii.eqb p "." && isdigit c then
        let s' := skip_while isdigit (c :: r) in
        (JDec neg (Z.to_N (digits_val m (c :: r))) (length r - length s'), s')
      else (JNum (if neg then - m else m), s)
  | _ => (JNum (if neg then - m else m), s)
  end.

Definition parse_number (s : bytes) : option (jvalue * bytes) :=
  let '(neg, s1) := match s with
                    | c :: s' => if Ascii.eqb c "-" then (true, s') else (false, s)
                    | [] => (false, s)
                    end in
  match s1 with
  | c :: _ => if isdigit c then Some (parse_fraction neg (digits_val 0 s1) (skip_while isdigit s1))
              else None
  | [] => None
  end.

Definition parse_string (s : bytes) : option (bytes * bytes) :=
  match s with
  | c :: s1 =>
      if Ascii.eqb c dq then
        match split_string s1 with
        | Some (raw, r) => (λ t, (t, r)) <$> json_read raw
        | None => None
        end
      else None
  | [] => None
  end.

(** Elements up to the closing bracket, at most [n]. *)
Fixpoint parse_elems {A} (pv : bytes → option (A * bytes)) (close : ascii) (n : nat) (s : bytes)
    : option (list A * bytes) :=
  match n with
  | 0 => None
  | S n =>
      match pv s with
      | Some (x, r) =>
          match skip_blanks r with
          | c :: r =>
              if Ascii.eqb c "," then (λ q, (x :: q.1, q.2)) <$> parse_elems pv close n r
              else if Ascii.eqb c close then Some ([x], r) else None
          | [] => None
          end
      | None => None
      end
  end.

Definition parse_list {A} (pv : bytes → option (A * bytes)) (close : ascii) (n : nat) (s : bytes)
    : option (list A * bytes) :=
  match skip_blanks s with
  | c :: r => if Ascii.eqb c close then Some ([], r) else parse_elems pv close n s
  | [] => None
  end.

Definition parse_member (pv : bytes → option (jvalue * bytes)) (s : bytes)
    : option ((bytes * jvalue) * bytes) :=
  match parse_string (skip_blanks s) with
  | Some (k, r) =>
      match skip_blanks r with
      | c :: r => if Ascii.eqb c ":" then (λ p, ((k, p.1), p.2)) <$> pv r else None
      | [] => None
      end
  | None => None
  end.

Fixpoint parse_value (fuel : nat) (s : bytes) : option (jvalue * bytes) :=
  match fuel with
  | 0 => None
  | S fuel =>
      match skip_blanks s with
      | [] => None
      | c :: s1 =>
          if Ascii.eqb c dq then (λ p, (JStr p.1, p.2)) <$> parse_string (c :: s1)
          else if Ascii.eqb c "[" then
            (λ p, (JArr p.1, p.2)) <$> parse_list (parse_value fuel) "]" fuel s1
          else if Ascii.eqb c "{" then
            (λ p, (JObj p.1, p.2)) <$> parse_list (parse_member (parse_value fuel)) "}" fuel s1
          else if is_prefix (bs "null") (c :: s1) then Some (JNull, drop 3 s1)
          else parse_number (c :: s1)
      end
  end.

(** What a client makes of a whole text. *)
Definition json_parse (s : bytes) : option jvalue :=
  match parse_value (S (length s)) s with
  | Some (v, r) => match skip_blanks r with [] => Some v | _ => None end
  | None => None
  end.

(** ** Reading back *)

(** A number may end here. *)
Definition ends_number (s : bytes) : Prop :=
  match s with c :: _ => isdigit c = false ∧ c ≠ "."%char | [] => True end.

Lemma ends_number_digit s : ends_number s → match s with c :: _ => isdigit c = false | [] => True end.
Proof. destruct s; [done|]. by intros [? _]. Qed.

Lemma digits_val_stop z s :
  match s with c :: _ => isdigit c = false | [] => True end → digits_val z s = z.
Proof. destruct s as [|c s]; [done|]. simpl. by intros ->. Qed.

Lemma skip_digits ds s :
  Forall (λ c, isdigit c = true) ds → match s with c :: _ => isdigit c = false | [] => True end →
  skip_while isdigit (ds ++ s) = s.
Proof.
  induction 1 as [|c ds Hc Hds IH]; intros Hs; [|simpl; by rewrite Hc, IH].
  destruct s as [|c s]; [done|]. simpl in *. by rewrite Hs.
Qed.

Lemma fmt_nat_head n : ∃ c t, fmt_nat n = c :: t ∧ isdigit c = true.
Proof.
  pose proof (fmt_nat_digits n) as Hd. pose proof (fmt_nat_nonempty n).
  destruct (fmt_nat n) as [|c t]; [done|]. apply Forall_cons in Hd as [Hc _]. eauto.
Qed.

(** The optional sign and the digits in front of a point. *)
Definition signed_digits (neg : bool) (n : nat) : bytes :=
  (if neg then ["-"%char] else []) ++ fmt_nat n.

Lemma fmt_Z_signed z : fmt_Z z = signed_digits (z <? 0)%Z (Z.to_nat (Z.abs z)).
Proof.
  unfold signed_digits. destruct (Z.ltb_spec z 0).
  - rewrite fmt_Z_neg by done. by rewrite Z.abs_neq by lia.
  - rewrite fmt_Z_nonneg by done. by rewrite Z.abs_eq.
Qed.

Lemma fmt_dec_signed neg m n :
  fmt_dec neg m n = signed_digits neg (Z.to_nat (Z.of_N m `div` 10 ^ Z.of_nat n)) ++
                    ["."%char] ++ fmt_pad n (Z.of_N m `mod` 10 ^ Z.of_nat n).
Proof.
  unfold fmt_dec, signed_digits.
  rewrite (fmt_Z_nonneg (_ `div` _)) by (apply Z.div_pos; lia). by rewrite <- app_assoc.
Qed.

(** How the text of a number begins. *)
Lemma signed_head neg n : ∃ c t, signed_digits neg n = c :: t ∧ (isdigit c = true ∨ c = "-"%char).
Proof.
  unfold signed_digits. destruct neg; [by eexists _, _; eauto|].
  destruct (fmt_nat_head n) as (c & t & -> & Hc). eauto.
Qed.

Lemma isdigit_not_minus c : isdigit c = true → Ascii.eqb c "-" = false.
Proof. intros H. apply ascii_eqb_false. intros ->. discriminate H. Qed.

Lemma parse_number_signed neg n s :
  match s with c :: _ => isdigit c = false | [] => True end →
  parse_number (signed_digits neg n ++ s) = Some (parse_fraction neg (Z.of_nat n) s).
Proof.
  intros Hs. unfold parse_number, signed_digits.
  assert (∃ c t, fmt_nat n ++ s = c :: t ∧ isdigit c = true) as (c & t & E & Hc).
  { destruct (fmt_nat_head n) as (c & t & -> & Hc). by exists c, (t ++ s). }
  assert (digits_val 0 (c :: t) = Z.of_nat n) as Hv
    by (by rewrite <- E, digits_val_fmt_nat, digits_val_stop).
  assert (skip_while isdigit (c :: t) = s) as Hk by (by rewrite <- E, skip_digits by auto using fmt_nat_digits).
  destruct neg; cbn [app].
  - change (Ascii.eqb "-" "-") with true. cbv iota beta. by rewrite E, Hc, Hv, Hk.
  - rewrite E, isdigit_not_minus by done. by rewrite Hc, Hv, Hk.
Qed.

Lemma parse_number_text z s : ends_number s → parse_number (fmt_Z z ++ s) = Some (JNum z, s).
Proof.
  intros Hs. rewrite fmt_Z_signed, parse_number_signed by by apply ends_number_digit.
  assert ((if (z <? 0)%Z then - Z.of_nat (Z.to_nat (Z.abs z)) else Z.of_nat (Z.to_nat (Z.abs z)))%Z = z)
    as Hz by (destruct (Z.ltb_spec z 0); lia).
  f_equal. unfold parse_fraction. destruct s as [|p [|c r]]; [by rewrite Hz..|].
  destruct Hs as [_ Hp]. rewrite (proj2 (ascii_eqb_false _ _)) by done. by rewrite Hz.
Qed.

(** The digits behind the point carry on where those in front of it ended. *)
Lemma parse_number_dec neg m n s :
  ends_number s → parse_number (fmt_dec neg m (S n) ++ s) = Some (JDec neg m n, s).
Proof.
  intros Hs%ends_number_digit. rewrite fmt_dec_signed, <- !app_assoc.
  rewrite parse_number_signed by done. f_equal.
  set (q := (Z.of_N m `div` 10 ^ Z.of_nat (S n))%Z). set (r := (Z.of_N m `mod` 10 ^ Z.of_nat (S n))%Z).
  assert (0 ≤ r < 10 ^ Z.of_nat (S n))%Z as Hr by (apply Z.mod_pos_bound; lia).
  pose proof (fmt_pad_length (S n) r ltac:(lia) Hr) as Hl.
  pose proof (fmt_pad_digits (S n) r ltac:(lia)) as Hd.
  assert (skip_while isdigit (fmt_pad (S n) r ++ s) = s) as Hk by by apply skip_digits.
  assert (digits_val q (fmt_pad (S n) r ++ s) = Z.of_N m) as Hv.
  { rewrite digits_val_fmt_pad, digits_val_stop by (done || lia). unfold q, r.
    rewrite (Z.div_mod (Z.of_N m) (10 ^ Z.of_nat (S n))) at 3 by lia. lia. }
  rewrite Z2Nat.id by (apply Z.div_pos; lia).
  destruct (fmt_pad (S n) r) as [|c t] eqn:E; [done|]. apply Forall_cons in Hd as [Hc Hd].
  cbn [app parse_fraction] in *. change (Ascii.eqb "." ".") with true. rewrite Hc. cbn [andb].
  rewrite Hk, Hv, N2Z.id. do 2 f_equal. cbn [length] in Hl. rewrite length_app. lia.
Qed.

(** The first byte of a number is none of those that begin the other values. *)
Lemma signed_not_other neg n s :
  ∃ c t, signed_digits neg n ++ s = c :: t ∧ json_blank c = false ∧ c ≠ dq ∧ c ≠ "["%char ∧
         c ≠ "{"%char ∧ c ≠ "n"%char ∧ c ≠ "]"%char ∧ c ≠ "}"%char.
Proof.
  destruct (signed_head neg n) as (c & t & -> & Hc). exists c, (t ++ s). split; [done|].
  split; [|split_and!; intros ->; by destruct Hc].
  assert (implb (isdigit c || Ascii.eqb c "-") (negb (json_blank c)) = true) as H
    by (revert c Hc; intros c _; revert c; apply byte_forall; vm_compute; reflexivity).
  apply negb_true_iff. destruct Hc as [Hc| ->]; [by rewrite Hc in H|done].
Qed.

Lemma skip_blanks_app w s : blanks w → skip_blanks (w ++ s) = skip_blanks s.
Proof. apply skip_while_app. Qed.

Lemma skip_blanks_stop c s : json_blank c = false → skip_blanks (c :: s) = c :: s.
Proof. apply skip_while_stop. Qed.

Lemma parse_value_blanks fuel w s : blanks w → parse_value fuel (w ++ s) = parse_value fuel s.
Proof. intros Hw. destruct fuel; [done|]. cbn [parse_value]. by rewrite skip_blanks_app. Qed.

(** A number is parsed as such. *)
Lemma parse_value_signed fuel neg n s :
  parse_value (S fuel) (signed_digits neg n ++ s) = parse_number (signed_digits neg n ++ s).
Proof.
  destruct (signed_not_other neg n s) as (c & t & -> & Hb & H1 & H2 & H3 & H4 & _).
  cbn [parse_value]. rewrite skip_blanks_stop by done.
  rewrite !(proj2 (ascii_eqb_false _ _)) by done.
  destruct (is_prefix (bs "null") (c :: t)) eqn:E; [|done].
  apply is_prefix_spec in E as [post E]. by injection E as -> _.
Qed.

(** Elements that are read one by one, with a comma or the closing bracket behind. *)
Lemma parse_elems_text {A} pv close (l : list A) ts n s :
  close ≠ ","%char → json_blank close = false → l ≠ [] → length l ≤ n →
  Forall2 (λ x t, ∀ c r, c = ","%char ∨ c = close → pv (t ++ c :: r) = Some (x, c :: r)) l ts →
  parse_elems pv close n (join_comma ts ++ close :: s) = Some (l, s).
Proof.
  intros Hclose Hblank Hne Hn Hl. revert n Hn.
  induction Hl as [|x t l ts Hx Hl IH]; intros n Hn; [done|].
  destruct n as [|n]; [simpl in Hn; lia|]. inversion Hl as [|y u l' ts' Hy Hl' E1 E2]; subst.
  - cbn [join_comma parse_elems]. rewrite Hx, skip_blanks_stop by auto.
    rewrite (proj2 (ascii_eqb_false _ _)) by done. by rewrite ascii_eqb_refl.
  - change (join_comma (t :: u :: ts')) with (t ++ [","%char] ++ join_comma (u :: ts')).
    rewrite <- !app_assoc. cbn [app parse_elems]. rewrite Hx, skip_blanks_stop by auto.
    rewrite ascii_eqb_refl. rewrite IH; [done|done|simpl in *; lia].
Qed.

(** A text that does not begin with a closing bracket. *)
Definition opens (t : bytes) : Prop :=
  ∀ s, ∃ c u, skip_blanks (t ++ s) = c :: u ∧ c ≠ "]"%char ∧ c ≠ "}"%char.

Lemma opens_blanks w t : blanks w → opens t → opens (w ++ t).
Proof. intros Hw Ht s. rewrite <- app_assoc, skip_blanks_app by done. apply Ht. Qed.

Lemma opens_cons c t : json_blank c = false → c ≠ "]"%char → c ≠ "}"%char → opens (c :: t).
Proof. intros Hb H1 H2 s. cbn [app]. rewrite skip_blanks_stop by done. eauto. Qed.

Lemma parse_list_text {A} pv close (l : list A) ts n s :
  (close = "]"%char ∨ close = "}"%char) → length l ≤ n → Forall opens ts →
  Forall2 (λ x t, ∀ c r, c = ","%char ∨ c = close → pv (t ++ c :: r) = Some (x, c :: r)) l ts →
  parse_list pv close n (join_comma ts ++ close :: s) = Some (l, s).
Proof.
  intros Hclose Hn Ho Hl.
  assert (close ≠ ","%char ∧ json_blank close = false) as [Hc Hb] by by destruct Hclose as [->| ->].
  pose proof (λ Hne, parse_elems_text pv close l ts n s Hc Hb Hne Hn Hl) as Helems.
  destruct Hl as [|x t l ts Hx Hl].
  - unfold parse_list. cbn [join_comma app]. rewrite skip_blanks_stop by done. by rewrite ascii_eqb_refl.
  - rewrite <- (Helems ltac:(done)). unfold parse_list.
    assert (∃ r, join_comma (t :: ts) ++ close :: s = t ++ r) as [r ->].
    { destruct ts; cbn; [by eexists|]. rewrite <- !app_assoc. by eexists. }
    apply Forall_cons in Ho as [Ho _]. destruct (Ho r) as (c & u & -> & H1 & H2).
    rewrite (proj2 (ascii_eqb_false c close)) by by destruct Hclose as [->| ->]. done.
Qed.

Lemma length_join_comma l t : t ∈ l → length t ≤ length (join_comma l).
Proof.
  induction l as [|u l IH]; [by intros ?%elem_of_nil|]. rewrite elem_of_cons. intros Ht.
  destruct l as [|w l]; [destruct Ht as [->|Ht%elem_of_nil]; done|].
  change (join_comma (u :: w :: l)) with (u ++ [","%char] ++ join_comma (w :: l)).
  rewrite !length_app. destruct Ht as [->|Ht]; [lia|]. specialize (IH Ht). lia.
Qed.

Lemma count_join_comma l : Forall (λ t, 0 < length t) l → length l ≤ length (join_comma l).
Proof.
  induction 1 as [|t l Ht Hl IH]; [done|]. destruct l as [|u l]; [simpl in *; lia|].
  change (join_comma (t :: u :: l)) with (t ++ [","%char] ++ join_comma (u :: l)).
  rewrite !length_app. cbn [length] in *. lia.
Qed.

Lemma opens_nonempty t : opens t → 0 < length t.
Proof. intros H. destruct t; [|simpl; lia]. destruct (H []) as (c & u & E & _). discriminate E. Qed.

(** [t] is read as [x] with any fuel beyond its length. *)
Definition reads {A} (pv : nat → bytes → option (A * bytes)) (x : A) (t : bytes) : Prop :=
  ∀ fuel s, length t < fuel → ends_number s → pv fuel (t ++ s) = Some (x, s).

(** A bracketed list whose elements are read. *)
Lemma parse_list_reads {A} (pv : nat → bytes → option (A * bytes)) close l ts fuel s :
  (close = "]"%char ∨ close = "}"%char) → Forall2 (reads pv) l ts → Forall opens ts →
  length (join_comma ts) + 1 < fuel →
  parse_list (pv fuel) close fuel (join_comma ts ++ close :: s) = Some (l, s).
Proof.
  intros Hclose Hl Ho Hf. apply parse_list_text; [done| |done|].
  - rewrite (Forall2_length _ _ _ Hl).
    pose proof (count_join_comma ts (Forall_impl _ _ _ Ho opens_nonempty)). lia.
  - assert (Forall (λ t, length t < fuel) ts) as Hlen.
    { apply Forall_forall. intros t Ht%length_join_comma. lia. }
    clear Ho Hf. induction Hl as [|x t l ts Hx Hl IH]; constructor; apply Forall_cons in Hlen as [Ht Hlen];
      [|by apply IH].
    intros c r Hc. apply Hx; [done|]. destruct Hc as [->|Hc]; [done|]. by destruct Hclose as [?|?]; subst.
Qed.

Section read.
Context (esc : bytes → bytes) `{!JsonEscape esc}.

Lemma parse_string_quoted t s : parse_string (quoted esc t ++ s) = Some (t, s).
Proof.
  unfold quoted, parse_string. rewrite <- !app_assoc. cbn [app].
  rewrite ascii_eqb_refl, esc_split. cbn. by rewrite esc_read.
Qed.

Lemma quoted_head t s : ∃ u, quoted esc t ++ s = dq :: u.
Proof. by eexists. Qed.

Lemma opens_quoted t : opens (quoted esc t).
Proof. by apply opens_cons. Qed.

Lemma opens_signed neg n t : opens (signed_digits neg n ++ t).
Proof.
  intros s. rewrite <- app_assoc.
  destruct (signed_not_other neg n (t ++ s)) as (c & u & -> & Hb & _ & _ & _ & _ & H1 & H2).
  rewrite skip_blanks_stop by done. eauto.
Qed.

Lemma json_form_opens v t : json_form esc v t → opens t.
Proof.
  destruct 1.
  - by apply opens_cons.
  - rewrite fmt_Z_signed, <- (app_nil_r (signed_digits _ _)). apply opens_signed.
  - rewrite fmt_dec_signed. apply opens_signed.
  - apply opens_quoted.
  - by apply opens_cons.
  - by apply opens_cons.
Qed.

(** A text of a value is read as the value, whatever follows it. *)
Lemma parse_value_form v t : json_form esc v t → reads parse_value v t.
Proof.
  revert v t. apply (json_form_mut esc (reads parse_value)
    (λ l ts, Forall2 (reads parse_value) l ts ∧ Forall opens ts)
    (λ l ts, Forall2 (reads (λ fuel, parse_member (parse_value fuel))) l ts ∧ Forall opens ts)).
  - intros [|fuel] s Hf Hs; [lia|]. done.
  - intros z [|fuel] s Hf Hs; [lia|]. rewrite <- parse_number_text by done.
    rewrite fmt_Z_signed. apply parse_value_signed.
  - intros neg m n [|fuel] s Hf Hs; [lia|]. rewrite <- parse_number_dec by done.
    rewrite fmt_dec_signed, <- !app_assoc. apply parse_value_signed.
  - intros t [|fuel] s Hf Hs; [lia|]. pose proof (parse_string_quoted t s) as Hq.
    destruct (quoted_head t s) as [u E]. rewrite E in *. cbn [parse_value].
    rewrite skip_blanks_stop by done. rewrite ascii_eqb_refl. by rewrite Hq.
  - intros l ts _ [Hl Ho] [|fuel] s Hf Hs; [lia|]. rewrite !length_app in Hf. cbn [length] in Hf.
    rewrite <- !app_assoc. cbn [app parse_value]. rewrite skip_blanks_stop by done.
    change (Ascii.eqb "[" dq) with false. change (Ascii.eqb "[" "[") with true. cbv iota.
    rewrite (parse_list_reads parse_value) with (l := l); [done|auto|done|done|lia].
  - intros l ts _ [Hl Ho] [|fuel] s Hf Hs; [lia|]. rewrite !length_app in Hf. cbn [length] in Hf.
    rewrite <- !app_assoc. cbn [app parse_value]. rewrite skip_blanks_stop by done.
    change (Ascii.eqb "{" dq) with false. change (Ascii.eqb "{" "[") with false.
    change (Ascii.eqb "{" "{") with true. cbv iota.
    rewrite (parse_list_reads (λ fuel, parse_member (parse_value fuel))) with (l := l);
      [done|auto|done|done|lia].
  - done.
  - intros v l w t ts Hw Hform Hv _ [Hl Ho]. split; constructor; [|done| |done].
    + intros fuel s Hf Hs. rewrite length_app in Hf. rewrite <- app_assoc, parse_value_blanks by done.
      apply Hv; [lia|done].
    + apply opens_blanks; [done|]. by eapply json_form_opens.
  - done.
  - intros k v l w w' t ts Hw Hw' Hform Hv _ [Hl Ho]. split; constructor; [|done| |done].
    + intros fuel s Hf Hs. rewrite !length_app in Hf. cbn [length] in Hf. rewrite <- !app_assoc.
      unfold parse_member. rewrite skip_blanks_app by done.
      pose proof (parse_string_quoted k ([":"%char] ++ w' ++ t ++ s)) as Hq.
      destruct (quoted_head k ([":"%char] ++ w' ++ t ++ s)) as [u E]. rewrite E in *.
      rewrite skip_blanks_stop by done. rewrite Hq. cbn [app]. rewrite skip_blanks_stop by done.
      change (Ascii.eqb ":" ":") with true. cbv iota.
      rewrite parse_value_blanks by done. by rewrite Hv by (done || lia).
    + apply opens_blanks; [done|]. apply (opens_cons dq); done.
Qed.

Theorem json_parse_form v t : json_form esc v t → json_parse t = Some v.
Proof.
  intros Hv. unfold json_parse. rewrite <- (app_nil_r t) at 2.
  by rewrite (parse_value_form v t Hv) by (lia || done).
Qed.

(** The text without blanks is one of the texts. *)
Lemma json_text_form v : json_form esc v (json_text esc v).
Proof.
  induction v as [|z|neg m n|t|l IH|l IH] using jvalue_ind; cbn [json_text]; try constructor.
  - induction IH as [|v l Hv Hl IHl]; [constructor|]. apply (forms_cons esc _ _ []); [constructor|done..].
  - induction IH as [|[k v] l Hv Hl IHl]; [constructor|].
    apply (members_cons esc _ _ _ [] []); [constructor..|done|done].
Qed.

Theorem json_parse_text v : json_parse (json_text esc v) = Some v.
Proof. apply json_parse_form, json_text_form. Qed.
End read.

(** ** Texts written without escaping *)

(** Bytes that mean themselves inside a string. *)
Definition clean (s : bytes) : Prop := Forall (λ c, json_escape_char c = [c]) s.

#[export] Instance clean_dec s : Decision (clean s).
Proof. unfold clean. apply _. Defined.

Lemma clean_escape s : clean s → json_escape s = s.
Proof.
  induction 1 as [|c s Hc Hs IH]; [done|].
  change (json_escape (c :: s)) with (json_escape_char c ++ json_escape s). by rewrite Hc, IH.
Qed.

Lemma clean_quoted s : clean s → quoted json_escape s = [dq] ++ s ++ [dq].
Proof. intros H. unfold quoted. by rewrite clean_escape. Qed.

Lemma clean_app a b : clean a → clean b → clean (a ++ b).
Proof. intros. by apply Forall_app. Qed.

Lemma clean_strlcpy n s : clean s → clean (strlcpy n s).
Proof. intros. by apply Forall_take. Qed.

Lemma clean_digits s : Forall (λ c, isdigit c = true) s → clean s.
Proof.
  intros H. eapply Forall_impl; [exact H|]. intros c Hc. cbv beta in *.
  assert (negb (isdigit c) || bool_decide (json_escape_char c = [c]) = true) as Hall
    by (clear Hc; revert c; apply byte_forall; vm_compute; reflexivity).
  rewrite Hc in Hall. by apply bool_decide_eq_true in Hall.
Qed.

Lemma clean_fmt_Z z : clean (fmt_Z z).
Proof.
  destruct (decide (0 ≤ z)%Z).
  - rewrite fmt_Z_nonneg by done. apply clean_digits, fmt_nat_digits.
  - rewrite fmt_Z_neg by lia. apply Forall_cons. split; [reflexivity|]. apply clean_digits, fmt_nat_digits.
Qed.

Lemma clean_fmt_pad n z : clean (fmt_pad n z).
Proof. apply clean_app; [|apply clean_fmt_Z]. by apply Forall_replicate. Qed.

(** ** Members side by side

    [t] is a text of the members [l], of one at least, with commas in between. *)
Definition json_section (l : list (bytes * jvalue)) (t : bytes) : Prop :=
  ∃ ts, json_members json_escape l ts ∧ ts ≠ [] ∧ t = join_comma ts.

Lemma join_comma_app a b : a ≠ [] → b ≠ [] → join_comma (a ++ b) = join_comma a ++ [","%char] ++ join_comma b.
Proof.
  intros Ha Hb. induction a as [|x a IH]; [done|]. destruct a as [|y a].
  - destruct b; [done|]. reflexivity.
  - change (join_comma ((x :: y :: a) ++ b)) with (x ++ [","%char] ++ join_comma ((y :: a) ++ b)).
    rewrite IH by done. change (join_comma (x :: y :: a)) with (x ++ [","%char] ++ join_comma (y :: a)).
    by rewrite <- !app_assoc.
Qed.

Lemma json_members_app l1 l2 ts1 ts2 :
  json_members json_escape l1 ts1 → json_members json_escape l2 ts2 →
  json_members json_escape (l1 ++ l2) (ts1 ++ ts2).
Proof.
  intros H1 H2. revert ts1 H1. induction l1 as [|m l1 IH]; intros ts1 H1; inversion H1; subst; [done|].
  cbn [app]. constructor; auto.
Qed.

Lemma json_section_app l1 l2 t1 t2 :
  json_section l1 t1 → json_section l2 t2 → json_section (l1 ++ l2) (t1 ++ [","%char] ++ t2).
Proof.
  intros (ts1 & H1 & N1 & ->) (ts2 & H2 & N2 & ->). exists (ts1 ++ ts2).
  split_and!; [by apply json_members_app|by destruct ts1|by rewrite join_comma_app].
Qed.

(** One member with a clean key. *)
Lemma json_section_member k v w t :
  clean k → blanks w → json_form json_escape v t →
  json_section [(k, v)] ([dq] ++ k ++ [dq] ++ bs ":" ++ w ++ t).
Proof.
  intros Hk Hw Hv. exists [[] ++ quoted json_escape k ++ [":"%char] ++ w ++ t].
  split_and!; [|done|].
  - apply (members_cons json_escape k v [] [] w t []); [constructor|done|done|constructor].
  - cbn [join_comma app]. rewrite clean_quoted by done. cbn [app]. by rewrite <- !app_assoc.
Qed.

(** Blanks in front of the first key. *)
Lemma json_section_blanks w l t : blanks w → json_section l t → json_section l (w ++ t).
Proof.
  intros Hw (ts & H & Hne & ->). inversion H as [|k v l' w1 w2 t ts' Hw1 Hw2 Hv Hl]; subst; [done|].
  exists ((w ++ w1 ++ quoted json_escape k ++ [":"%char] ++ w2 ++ t) :: ts'). split_and!; [|done|].
  - rewrite app_assoc. constructor; [by apply Forall_app|done..].
  - destruct ts'; cbn [join_comma]; by rewrite ?app_assoc.
Qed.

Lemma json_section_form l t :
  json_section l t → json_form json_escape (JObj l) (["{"%char] ++ t ++ ["}"%char]).
Proof. intros (ts & H & _ & ->). by constructor. Qed.

Lemma json_form_clean s : clean s → json_form json_escape (JStr s) ([dq] ++ s ++ [dq]).
Proof. intros H. rewrite <- clean_quoted by done. constructor. Qed.
