(* ===== verification/JsonBuf.v ===== *)
(** * Printing into a buffer

    Several modules assemble a text with [snprintf] into an array of fixed size, moving a
    pointer and a size by what [snprintf] returns: the length of the whole text, also when
    not all of it was written.  [jbuf] is such a buffer; once its offset is behind the end
    the remaining size wraps around and the next text is written out of bounds. *)

From S2P Require Import Prelude.

(** The text in the buffer, the offset and whether a write has left the buffer. *)
Record jbuf := { jb_text : bytes; jb_off : Z; jb_overrun : bool }.

(** [offset += snprintf(json + offset, max - offset, ...)] of the text [s]: the size
    argument wraps when [offset] is past the end. *)
Definition jb_printf (max : Z) (s : bytes) (b : jbuf) : jbuf :=
  let off' := (jb_off b + Z.of_nat (length s))%Z in
  if (off' <? max)%Z then
    {| jb_text := jb_text b ++ s; jb_off := off'; jb_overrun := jb_overrun b |}
  else if (jb_off b <=? max)%Z then
    {| jb_text := jb_text b ++ take (Z.to_nat (max - jb_off b - 1)) s; jb_off := off';
       jb_overrun := jb_overrun b |}
  else {| jb_text := jb_text b; jb_off := off'; jb_overrun := true |}.

Definition empty_jbuf : jbuf := {| jb_text := []; jb_off := 0; jb_overrun := false |}.

(** The size argument of the next [snprintf]. *)
Definition jb_left (max : Z) (b : jbuf) : Z := wrap64 (max - jb_off b).

(** ** Texts that fit *)

(** The buffer with the text [t], whole. *)
Definition jb_of (t : bytes) : jbuf := {| jb_text := t; jb_off := zlen t; jb_overrun := false |}.

Lemma jb_printf_of max s t :
  (zlen t + zlen s < max)%Z → jb_printf max s (jb_of t) = jb_of (t ++ s).
Proof.
  intros H. unfold jb_printf, jb_of. cbn [jb_off jb_text jb_overrun].
  rewrite (proj2 (Z.ltb_lt _ _)) by done. by rewrite zlen_app.
Qed.

Lemma jb_left_of max t :
  (zlen t ≤ max < 2 ^ 64)%Z → jb_left max (jb_of t) = (max - zlen t)%Z.
Proof. intros H. pose proof (zlen_nonneg t). apply Z.mod_small. cbn [jb_of jb_off]. lia. Qed.

Lemma jb_printf_fits max s b :
  jb_overrun b = false → jb_off b = Z.of_nat (length (jb_text b)) →
  (jb_off b + Z.of_nat (length s) < max)%Z →
  jb_printf max s b
  = {| jb_text := jb_text b ++ s; jb_off := jb_off b + Z.of_nat (length s); jb_overrun := false |}.
Proof. intros Hs Ho Hr. unfold jb_printf. rewrite (proj2 (Z.ltb_lt _ _)) by done. by rewrite Hs. Qed.

(** A text cut at the end of the buffer leaves the offset behind it, and the next one is
    written there. *)
Lemma jb_printf_cut max s b :
  (jb_off b ≤ max)%Z → (max < jb_off b + Z.of_nat (length s))%Z →
  jb_off (jb_printf max s b) = (jb_off b + Z.of_nat (length s))%Z.
Proof.
  intros Ho Hs. unfold jb_printf.
  rewrite (proj2 (Z.ltb_ge _ _)), (proj2 (Z.leb_le _ _)) by lia. done.
Qed.

Lemma jb_printf_out max s b :
  (max < jb_off b)%Z → jb_overrun (jb_printf max s b) = true.
Proof.
  intros Ho. unfold jb_printf.
  rewrite (proj2 (Z.ltb_ge _ _)), (proj2 (Z.leb_gt _ _)) by lia. done.
Qed.
