(* ===== verification/CFloat.v ===== *)
(** * Floating point numbers

    [float] and [double] are the spec_floats of the Standard Library at the precisions of
    IEEE 754, with its rounding to nearest even; [fmt_fixed] is printf of them.  The lemmas
    bound mantissa and magnitude of results, which bounds what is printed. *)

From Stdlib Require Import Floats.SpecFloat.
From S2P Require Import Prelude.

#[local] Open Scope Z_scope.

(** ** Operations *)

(** Conversion of an integer, and of a [double] to [float]. *)
Definition b32_of_Z (z : Z) : spec_float := binary_normalize 24 128 z 0 false.
Definition b64_of_Z (z : Z) : spec_float := binary_normalize 53 1024 z 0 false.

Definition b32_of_b64 (x : spec_float) : spec_float :=
  match x with S754_finite s m e => binary_round 24 128 s m e | _ => x end.

Definition b32_mul : spec_float → spec_float → spec_float := SFmul 24 128.
Definition b32_div : spec_float → spec_float → spec_float := SFdiv 24 128.
Definition b64_mul : spec_float → spec_float → spec_float := SFmul 53 1024.
Definition b64_div : spec_float → spec_float → spec_float := SFdiv 53 1024.
Definition b64_sub : spec_float → spec_float → spec_float := SFsub 53 1024.

(** *** printf *)

(** [n / d] to the nearest integer, halves to even. *)
Definition round_half_even (n d : Z) : Z :=
  let q := n / d in
  match Z.compare (2 * (n mod d)) d with
  | Lt => q
  | Gt => q + 1
  | Eq => if Z.even q then q else q + 1
  end.

(** [m * 2^e * 10^n] rounded to an integer *)
Definition scaled (m : positive) (e : Z) (n : nat) : Z :=
  if 0 <=? e then Zpos m * 2 ^ e * 10 ^ Z.of_nat n
  else round_half_even (Zpos m * 10 ^ Z.of_nat n) (2 ^ (- e)).

(** [%.nf], for [n > 0] *)
Definition fmt_fixed (n : nat) (x : spec_float) : bytes :=
  match x with
  | S754_zero s => fmt_dec s 0 n
  | S754_finite s m e => fmt_dec s (Z.to_N (scaled m e n)) n
  | S754_infinity s => (if s then ["-"%char] else []) ++ bs "inf"
  | S754_nan => bs "nan"
  end.

Example fmt_fixed_examples :
  fmt_fixed 2 (b32_div (b32_of_Z 1) (b32_of_Z 3)) = bs "0.33" ∧
  fmt_fixed 2 (b64_div (b64_of_Z 1) (b64_of_Z 8)) = bs "0.12" ∧
  fmt_fixed 1 (b32_div (b32_of_Z (-251)) (b32_of_Z 2)) = bs "-125.5" ∧
  fmt_fixed 2 (b64_mul (b64_of_Z 1000) (b64_of_Z 1000)) = bs "1000000.00" ∧
  fmt_fixed 1 (b32_of_Z (2 ^ 24 + 1)) = bs "16777216.0" ∧
  fmt_fixed 1 (b64_div (b64_of_Z 0) (b64_of_Z 0)) = bs "nan".
Proof. vm_compute. repeat split. Qed.

(** ** Digits *)

Lemma digits2_pos_bounds m : 2 ^ (Zpos (digits2_pos m) - 1) ≤ Zpos m < 2 ^ Zpos (digits2_pos m).
Proof.
  induction m as [m IH|m IH|]; cbn [digits2_pos]; [..|done];
    rewrite Pos2Z.inj_succ, Z.pow_succ_r by lia;
    replace (Z.succ (Zpos (digits2_pos m)) - 1) with (Z.succ (Zpos (digits2_pos m) - 1)) by lia;
    rewrite Z.pow_succ_r by lia; lia.
Qed.

Lemma Zdigits2_nonneg m : 0 ≤ Zdigits2 m.
Proof. destruct m; cbn; lia. Qed.

Lemma Zdigits2_lt m k : 0 ≤ m < 2 ^ k → 0 ≤ k → Zdigits2 m ≤ k.
Proof.
  intros Hm Hk. destruct m as [|m|m]; cbn [Zdigits2]; [lia| |lia].
  destruct (Z.le_gt_cases (Zpos (digits2_pos m)) k) as [?|H]; [done|].
  pose proof (digits2_pos_bounds m). pose proof (Z.pow_le_mono_r 2 k (Zpos (digits2_pos m) - 1)). lia.
Qed.

Lemma lt_Zdigits2 m : 0 ≤ m → m < 2 ^ Zdigits2 m.
Proof. destruct m; cbn [Zdigits2]; intros ?; [done| |lia]. apply digits2_pos_bounds. Qed.

Lemma Zdigits2_div m n : 0 ≤ m → 0 ≤ n → Zdigits2 (m / 2 ^ n) ≤ Z.max 0 (Zdigits2 m - n).
Proof.
  intros Hm Hn. pose proof (lt_Zdigits2 m Hm). pose proof (Zdigits2_nonneg m).
  apply Zdigits2_lt; [|lia]. split; [apply Z.div_pos; lia|].
  destruct (Z.le_gt_cases n (Zdigits2 m)).
  - rewrite Z.max_r by lia. apply Z.div_lt_upper_bound; [lia|]. rewrite <- Z.pow_add_r by lia.
    by replace (n + (Zdigits2 m - n)) with (Zdigits2 m) by lia.
  - rewrite Z.max_l by lia. apply Z.div_lt_upper_bound; [lia|].
    pose proof (Z.pow_le_mono_r 2 (Zdigits2 m) n). lia.
Qed.

Lemma Zdigits2_ge m k : 0 ≤ k → 2 ^ k ≤ m → k < Zdigits2 m.
Proof.
  intros Hk Hm. destruct (Z.le_gt_cases (Zdigits2 m) k) as [H|?]; [|done].
  pose proof (Z.pow_le_mono_r 2 (Zdigits2 m) k). pose proof (lt_Zdigits2 m). lia.
Qed.

Lemma Zdigits2_div_ge m n :
  0 ≤ m → 0 ≤ n < Zdigits2 m → Zdigits2 m - n ≤ Zdigits2 (m / 2 ^ n).
Proof.
  intros Hm Hn. assert (Zdigits2 m - n - 1 < Zdigits2 (m / 2 ^ n)); [|lia].
  apply Zdigits2_ge; [lia|]. apply Z.div_le_lower_bound; [lia|]. rewrite <- Z.pow_add_r by lia.
  replace (n + (Zdigits2 m - n - 1)) with (Zdigits2 m - 1) by lia.
  destruct m as [|m|m]; cbn [Zdigits2] in *; [lia| |lia]. apply digits2_pos_bounds.
Qed.

Lemma Zdigits2_pos m : 0 < m → 0 < Zdigits2 m.
Proof. intros ?. apply Zdigits2_ge; [lia|]. cbn. lia. Qed.

Lemma Zdigits2_succ m : 0 ≤ m → Zdigits2 (m + 1) ≤ Zdigits2 m + 1.
Proof.
  intros Hm. pose proof (lt_Zdigits2 m Hm). pose proof (Zdigits2_nonneg m).
  apply Zdigits2_lt; [|lia]. rewrite Z.pow_add_r by lia. lia.
Qed.

Lemma Zdigits2_mono a b : 0 ≤ a ≤ b → Zdigits2 a ≤ Zdigits2 b.
Proof.
  intros H. pose proof (lt_Zdigits2 b ltac:(lia)). apply Zdigits2_lt; [lia|apply Zdigits2_nonneg].
Qed.

(** ** Rounding *)

Lemma iter_pos_nat {A} (f : A → A) p x : SpecFloat.iter_pos f p x = Nat.iter (Pos.to_nat p) f x.
Proof.
  revert x. induction p as [p IH|p IH|]; intros x; cbn [SpecFloat.iter_pos]; [..|done]; rewrite !IH.
  - rewrite Pos2Nat.inj_xI. replace (2 * Pos.to_nat p)%nat with (Pos.to_nat p + Pos.to_nat p)%nat by lia.
    rewrite Nat.iter_succ_r, Nat.iter_add. done.
  - rewrite Pos2Nat.inj_xO. replace (2 * Pos.to_nat p)%nat with (Pos.to_nat p + Pos.to_nat p)%nat by lia.
    by rewrite Nat.iter_add.
Qed.

Lemma shr_1_m mrs : 0 ≤ shr_m mrs → shr_m (shr_1 mrs) = shr_m mrs / 2.
Proof.
  destruct mrs as [m r s]. cbn [shr_m]. intros Hm.
  destruct m as [|[m|m|]|m]; cbn [shr_1 shr_m]; [done|..|done|lia].
  - apply (Z.div_unique_pos _ _ _ 1); lia.
  - apply (Z.div_unique_pos _ _ _ 0); lia.
Qed.

Lemma shr_spec mrs e n :
  0 ≤ shr_m mrs →
  shr_m (shr mrs e n).1 = shr_m mrs / 2 ^ Z.max 0 n ∧ (shr mrs e n).2 = e + Z.max 0 n.
Proof.
  intros Hm. destruct n as [|p|p]; cbn [shr fst snd]; [rewrite Z.max_l, Z.div_1_r by lia; split; [done|lia]| |
    rewrite Z.max_l, Z.div_1_r by lia; split; [done|lia]].
  rewrite Z.max_r by lia. split; [|done]. rewrite iter_pos_nat, <- (positive_nat_Z p).
  induction (Pos.to_nat p) as [|k IH]; [cbn; by rewrite Z.div_1_r|].
  rewrite Nat.iter_succ, shr_1_m.
  - rewrite IH, Nat2Z.inj_succ, Z.pow_succ_r by lia. rewrite Z.div_div by lia. f_equal. lia.
  - rewrite IH. apply Z.div_pos; lia.
Qed.

Lemma round_even_spec m l : m ≤ round_nearest_even m l ≤ m + 1.
Proof. unfold round_nearest_even. repeat case_match; lia. Qed.

Lemma iter_xO_digits m d : digits2_pos (Pos.iter xO m d) = (digits2_pos m + d)%positive.
Proof.
  induction d as [|d IH] using Pos.peano_ind; [cbn; lia|].
  rewrite Pos.iter_succ. cbn [digits2_pos]. rewrite IH. lia.
Qed.

Lemma shl_align_spec m e e' :
  let '(m', e'') := shl_align m e e' in
  e'' ≤ e ∧ Zdigits2 (Zpos m') + e'' = Zdigits2 (Zpos m) + e.
Proof.
  unfold shl_align. destruct (e' - e) as [|d|d] eqn:E; [split; lia..|].
  cbn [Zdigits2]. rewrite iter_xO_digits. lia.
Qed.

Section round.
Context (prec emax : Z) (Hprec : 0 < prec).

(** The rounding shifts the mantissa into its width, at most twice. *)
Lemma shr_fexp_spec m e l :
  0 ≤ m →
  let n := Z.max 0 (Z.max (Zdigits2 m + e - prec) (emin prec emax) - e) in
  shr_m (shr_fexp prec emax m e l).1 = m / 2 ^ n ∧ (shr_fexp prec emax m e l).2 = e + n.
Proof.
  intros Hm n. unfold shr_fexp.
  assert (shr_m (shr_record_of_loc m l) = m) as E by (destruct l as [|[]]; done).
  destruct (shr_spec (shr_record_of_loc m l) e (fexp prec emax (Zdigits2 m + e) - e)) as [H1 H2];
    [by rewrite E|]. rewrite E in H1. done.
Qed.

(** A rounded number fits its mantissa, is at most twice as large as what was rounded, and
    is neither lost nor made smaller nor infinite in the normal range. *)
Definition rounds_to (m e : Z) (x : spec_float) : Prop :=
  match x with
  | S754_finite _ m' e' =>
      Zpos (digits2_pos m') ≤ prec ∧
      Zpos (digits2_pos m') + e' ≤ Z.max (Zdigits2 m + e) (emin prec emax) + 1 ∧
      (0 < m → emin prec emax < Zdigits2 m + e → Zdigits2 m + e ≤ Zpos (digits2_pos m') + e')
  | S754_zero _ => m = 0 ∨ Zdigits2 m + e ≤ emin prec emax
  | S754_infinity _ => emax < Z.max (Z.max (Zdigits2 m) prec + e) (emin prec emax + prec) + 1
  | S754_nan => False
  end.

Lemma binary_round_aux_spec s m e l : 0 ≤ m → rounds_to m e (binary_round_aux prec emax s m e l).
Proof.
  intros Hm. unfold binary_round_aux.
  destruct (shr_fexp_spec m e l Hm) as [M1 E1].
  destruct (shr_fexp prec emax m e l) as [mrs1 e1]. cbn [fst snd] in *.
  pose proof (round_even_spec (shr_m mrs1) (loc_of_shr_record mrs1)) as Hr.
  set (m2 := round_nearest_even (shr_m mrs1) (loc_of_shr_record mrs1)) in *.
  set (n1 := Z.max 0 (Z.max (Zdigits2 m + e - prec) (emin prec emax) - e)) in *.
  assert (0 ≤ shr_m mrs1) as Hm1 by (rewrite M1; apply Z.div_pos; lia).
  pose proof (Zdigits2_div m n1 Hm ltac:(lia)) as D1. rewrite <- M1 in D1.
  pose proof (Zdigits2_succ _ Hm1) as D2. pose proof (Zdigits2_mono m2 (shr_m mrs1 + 1) ltac:(lia)) as D2'.
  pose proof (Zdigits2_mono (shr_m mrs1) m2 ltac:(lia)) as L2.
  destruct (shr_fexp_spec m2 e1 loc_Exact ltac:(lia)) as [M3 E3].
  destruct (shr_fexp prec emax m2 e1 loc_Exact) as [mrs3 e3]. cbn [fst snd] in *.
  set (n3 := Z.max 0 (Z.max (Zdigits2 m2 + e1 - prec) (emin prec emax) - e1)) in *.
  pose proof (Zdigits2_div m2 n3 ltac:(lia) ltac:(lia)) as D3. rewrite <- M3 in D3.
  assert (0 ≤ shr_m mrs3) as Hm3 by (rewrite M3; apply Z.div_pos; lia).
  pose proof (Zdigits2_nonneg m) as N0. pose proof (Zdigits2_nonneg m2) as N2.
  assert (0 < m → emin prec emax < Zdigits2 m + e →
    0 < Zdigits2 (shr_m mrs3) ∧ Zdigits2 m + e ≤ Zdigits2 (shr_m mrs3) + e3) as Hge.
  { intros Hpos Hn. pose proof (Zdigits2_pos m Hpos) as P0.
    pose proof (Zdigits2_div_ge m n1 Hm ltac:(unfold n1; lia)) as G1. rewrite <- M1 in G1.
    assert (emin prec emax ≤ e1) by (rewrite E1; unfold n1; lia).
    pose proof (Zdigits2_div_ge m2 n3 ltac:(lia) ltac:(unfold n3; lia)) as G3. rewrite <- M3 in G3. unfold n1, n3 in *. lia. }
  destruct (shr_m mrs3) as [|m3|m3] eqn:Em3; [| |lia].
  - cbn [rounds_to]. destruct (Z.eq_dec m 0) as [?|Hne]; [by left|right].
    destruct (Z.le_gt_cases (Zdigits2 m + e) (emin prec emax)) as [?|Hn]; [done|exfalso].
    by destruct (Hge ltac:(lia) Hn).
  - destruct (Z.leb_spec e3 (emax - prec)) as [He3|He3]; cbn [rounds_to].
    + cbn [Zdigits2] in D3, Hge. split; [unfold n3 in *; lia|]. split; [unfold n1, n3 in *; lia|].
      intros Hp Hn. apply (Hge Hp Hn).
    + unfold n1, n3 in *. lia.
Qed.

Lemma binary_round_spec s m e : rounds_to (Zpos m) e (binary_round prec emax s m e).
Proof.
  unfold binary_round. pose proof (shl_align_spec m e (fexp prec emax (Zpos (digits2_pos m) + e))) as H.
  destruct (shl_align m e _) as [m' e'']. destruct H as [He Hd].
  pose proof (binary_round_aux_spec s (Zpos m') e'' loc_Exact ltac:(lia)) as Hr.
  destruct (binary_round_aux _ _ _ _ _ _); cbn [rounds_to] in *; lia.
Qed.
(** [|x| < 2^k], and neither infinite nor NaN. *)
Definition bounded_by (k : Z) (x : spec_float) : Prop :=
  match x with
  | S754_zero _ => True
  | S754_finite _ m e => Zpos (digits2_pos m) ≤ prec ∧ Zpos (digits2_pos m) + e ≤ k
  | _ => False
  end.

Lemma bounded_by_mono k k' x : k ≤ k' → bounded_by k x → bounded_by k' x.
Proof. intros Hk. destruct x; cbn; try done. lia. Qed.

Lemma rounds_to_bounded m e k x :
  rounds_to m e x → Zdigits2 m + e ≤ k → emin prec emax ≤ k →
  Z.max (Zdigits2 m) prec + e + 1 ≤ emax → emin prec emax + prec + 1 ≤ emax →
  bounded_by (k + 1) x.
Proof. destruct x; cbn; lia. Qed.

(** A positive number in the normal range is not lost. *)
Lemma rounds_to_positive m e x :
  rounds_to m e x → 0 < m → emin prec emax < Zdigits2 m + e →
  match x with
  | S754_finite _ m' e' => Zdigits2 m + e ≤ Zpos (digits2_pos m') + e'
  | S754_infinity _ => True
  | _ => False
  end.
Proof. destruct x; cbn; lia. Qed.

Lemma normalize_spec z e : 0 ≤ z → rounds_to z e (binary_normalize prec emax z e false).
Proof.
  intros Hz. destruct z as [|z|z]; [by left| |lia]. apply binary_round_spec.
Qed.
End round.

Lemma b32_of_Z_bounded z k :
  0 ≤ z < 2 ^ k → 0 ≤ k ≤ 100 → bounded_by 24 (k + 1) (b32_of_Z z).
Proof.
  intros Hz Hk. pose proof (Zdigits2_lt z k Hz ltac:(lia)).
  eapply (rounds_to_bounded 24 128); [apply normalize_spec; lia| |unfold emin; lia..]. lia.
Qed.

Lemma b64_of_Z_bounded z k :
  0 ≤ z < 2 ^ k → 0 ≤ k ≤ 900 → bounded_by 53 (k + 1) (b64_of_Z z).
Proof.
  intros Hz Hk. pose proof (Zdigits2_lt z k Hz ltac:(lia)).
  eapply (rounds_to_bounded 53 1024); [apply normalize_spec; lia| |unfold emin; lia..]. lia.
Qed.

Lemma Zdigits2_mul a b : Zdigits2 (Zpos (a * b)) ≤ Zpos (digits2_pos a) + Zpos (digits2_pos b).
Proof.
  pose proof (digits2_pos_bounds a). pose proof (digits2_pos_bounds b).
  apply Zdigits2_lt; [|lia]. rewrite Z.pow_add_r by lia. rewrite Pos2Z.inj_mul. nia.
Qed.

Lemma b32_mul_bounded i j x y :
  bounded_by 24 i x → bounded_by 24 j y → -124 ≤ i + j ≤ 78 → bounded_by 24 (i + j + 1) (b32_mul x y).
Proof.
  destruct x as [s1|s1| |s1 m1 e1], y as [s2|s2| |s2 m2 e2]; try done. cbn [bounded_by b32_mul SFmul].
  intros [D1 K1] [D2 K2] Hij. pose proof (Zdigits2_mul m1 m2).
  eapply (rounds_to_bounded 24 128); [apply binary_round_aux_spec; lia|unfold emin; lia..].
Qed.

(** The quotient of the mantissas before it is rounded. *)
Lemma div_core_spec prec emax m1 e1 m2 e2 :
  let '(q, e, l) := SFdiv_core_binary prec emax (Zpos m1) e1 (Zpos m2) e2 in
  0 ≤ q ∧ e = Z.min (fexp prec emax (Zpos (digits2_pos m1) + e1 - (Zpos (digits2_pos m2) + e2))) (e1 - e2) ∧
  Zdigits2 q + e ≤ Z.max e (Zpos (digits2_pos m1) + e1 - (Zpos (digits2_pos m2) + e2) + 1).
Proof.
  unfold SFdiv_core_binary. cbn [Zdigits2].
  set (e := Z.min _ _). set (s := e1 - e2 - e). assert (0 ≤ s) as Hs by (unfold s, e; lia).
  assert (match s with 0 => Zpos m1 | Zpos _ => Z.shiftl (Zpos m1) s | Zneg _ => 0 end
    = Zpos m1 * 2 ^ s) as ->.
  { destruct s as [|s'|s']; [cbn; lia|by rewrite Z.shiftl_mul_pow2|lia]. }
  unfold Z.div_eucl. pose proof (Z_div_mod (Zpos m1 * 2 ^ s) (Zpos m2) ltac:(lia)) as H.
  unfold Z.div_eucl in H.
  destruct (Zpos m1 * 2 ^ s) as [|p|p] eqn:Ep; [| |lia].
  { split_and!; [lia|done|cbn; lia]. }
  destruct (Z.pos_div_eucl p (Zpos m2)) as [q r]. destruct H as [H1 H2].
  pose proof (digits2_pos_bounds m1). pose proof (digits2_pos_bounds m2).
  assert (0 ≤ q) by nia. split_and!; [done|done|].
  destruct (Z.eq_dec q 0) as [->|Hq]; [cbn; lia|].
  assert (Zdigits2 q ≤ Zpos (digits2_pos m1) + s - Zpos (digits2_pos m2) + 1); [|unfold s in *; lia].
  set (d1 := Zpos (digits2_pos m1)) in *. set (d2 := Zpos (digits2_pos m2)) in *.
  assert (q * 2 ^ (d2 - 1) < 2 ^ (d1 + s)) as Hlt.
  { rewrite Z.pow_add_r by lia. assert (q * 2 ^ (d2 - 1) ≤ Zpos m1 * 2 ^ s) by nia.
    assert (0 < 2 ^ s) by (apply Z.pow_pos_nonneg; lia). nia. }
  assert (d2 - 1 < d1 + s) as Hd.
  { destruct (Z.le_gt_cases (d1 + s) (d2 - 1)) as [Hle|?]; [|lia].
    pose proof (Z.pow_le_mono_r 2 (d1 + s) (d2 - 1) ltac:(lia) Hle). nia. }
  apply Zdigits2_lt; [|lia]. split; [done|].
  replace (d1 + s) with ((d1 + s - d2 + 1) + (d2 - 1)) in Hlt by lia. rewrite Z.pow_add_r in Hlt by lia.
  assert (0 < 2 ^ (d2 - 1)) by (apply Z.pow_pos_nonneg; lia). nia.
Qed.

(** [2^(j-1) ≤ x], finite. *)
Definition at_least (j : Z) (x : spec_float) : Prop :=
  match x with S754_finite _ m e => j ≤ Zpos (digits2_pos m) + e | _ => False end.

Lemma b32_of_Z_at_least z j k :
  2 ^ j ≤ z < 2 ^ k → 0 ≤ j → 0 ≤ k ≤ 100 → at_least (j + 1) (b32_of_Z z).
Proof.
  intros Hz Hj Hk. pose proof (Zdigits2_ge z j Hj ltac:(lia)) as Hd.
  assert (0 < 2 ^ j) by (apply Z.pow_pos_nonneg; lia).
  pose proof (b32_of_Z_bounded z k ltac:(lia) Hk) as Hb.
  pose proof (normalize_spec 24 128 ltac:(lia) z 0 ltac:(lia)) as Hr.
  apply rounds_to_positive in Hr; [|lia|unfold emin; lia]. fold (b32_of_Z z) in Hr.
  destruct (b32_of_Z z); try done. cbn [at_least]. lia.
Qed.

Lemma b64_of_Z_at_least z j k :
  2 ^ j ≤ z < 2 ^ k → 0 ≤ j → 0 ≤ k ≤ 900 → at_least (j + 1) (b64_of_Z z).
Proof.
  intros Hz Hj Hk. pose proof (Zdigits2_ge z j Hj ltac:(lia)) as Hd.
  assert (0 < 2 ^ j) by (apply Z.pow_pos_nonneg; lia).
  pose proof (b64_of_Z_bounded z k ltac:(lia) Hk) as Hb.
  pose proof (normalize_spec 53 1024 ltac:(lia) z 0 ltac:(lia)) as Hr.
  apply rounds_to_positive in Hr; [|lia|unfold emin; lia]. fold (b64_of_Z z) in Hr.
  destruct (b64_of_Z z); try done. cbn [at_least]. lia.
Qed.

Lemma b32_div_bounded i j x y :
  bounded_by 24 i x → at_least j y → -140 ≤ i - j ≤ 100 → bounded_by 24 (i - j + 2) (b32_div x y).
Proof.
  destruct x as [s1|s1| |s1 m1 e1], y as [s2|s2| |s2 m2 e2]; try done. cbn [bounded_by at_least].
  intros [D1 K1] K2 Hij. unfold b32_div, SFdiv.
  pose proof (div_core_spec 24 128 m1 e1 m2 e2) as H.
  destruct (SFdiv_core_binary 24 128 (Zpos m1) e1 (Zpos m2) e2) as [[q e] l].
  destruct H as (Hq & He & Hd). unfold fexp, emin in *. pose proof (Zdigits2_nonneg q).
  replace (i - j + 2) with (i - j + 1 + 1) by lia.
  eapply (rounds_to_bounded 24 128); [apply binary_round_aux_spec; lia|unfold emin; lia..].
Qed.

(** ** Not a number *)

Definition is_nan (x : spec_float) : bool := match x with S754_nan => true | _ => false end.

Lemma rounds_to_number prec emax m e x : rounds_to prec emax m e x → is_nan x = false.
Proof. by destruct x. Qed.

Lemma b64_div_number x y k :
  bounded_by 53 k x → (∃ j, at_least j y) → is_nan (b64_div x y) = false.
Proof.
  destruct x as [s1|s1| |s1 m1 e1], y as [s2|s2| |s2 m2 e2]; try done; try (by intros _ [j Hj]).
  intros _ _. unfold b64_div, SFdiv.
  pose proof (div_core_spec 53 1024 m1 e1 m2 e2) as H.
  destruct (SFdiv_core_binary 53 1024 (Zpos m1) e1 (Zpos m2) e2) as [[q e] l].
  eapply (rounds_to_number 53 1024), binary_round_aux_spec; lia.
Qed.

Lemma binary_normalize_number prec emax z e : 0 < prec → is_nan (binary_normalize prec emax z e false) = false.
Proof.
  intros Hp. destruct z as [|z|z]; [done|..]; by eapply (rounds_to_number prec emax), binary_round_spec.
Qed.

Lemma b64_sub_number s m e y :
  is_nan y = false → is_nan (b64_sub (S754_finite s m e) y) = false.
Proof.
  destruct y as [s2|s2| |s2 m2 e2]; try done. intros _. by apply binary_normalize_number.
Qed.

Lemma b64_mul_number s m e y :
  is_nan y = false → is_nan (b64_mul (S754_finite s m e) y) = false.
Proof.
  destruct y as [s2|s2| |s2 m2 e2]; try done. intros _.
  eapply (rounds_to_number 53 1024), binary_round_aux_spec; lia.
Qed.

(** A conversion to [float] keeps numbers and has mantissas of 24 bits. *)
Lemma b32_of_b64_spec x :
  is_nan x = false → is_nan (b32_of_b64 x) = false ∧
  match b32_of_b64 x with S754_finite _ m _ => Zpos (digits2_pos m) ≤ 24 | _ => True end.
Proof.
  destruct x as [s|s| |s m e]; try done. intros _. cbn [b32_of_b64].
  pose proof (binary_round_spec 24 128 ltac:(lia) s m e) as H.
  destruct (binary_round 24 128 s m e); cbn in *; split; (done || lia).
Qed.

(** ** Comparison *)

(** [x < y] fails transitively, NaNs apart. *)
Lemma not_less_trans x y z :
  is_nan x = false → is_nan y = false → is_nan z = false →
  SFltb x y = false → SFltb y z = false → SFltb x z = false.
Proof.
  unfold SFltb.
  destruct x as [[]|[]| |[] m1 e1], y as [[]|[]| |[] m2 e2], z as [[]|[]| |[] m3 e3];
    try done; intros _ _ _; cbn [SFcompare];
    change (Pos.compare_cont Eq) with Pos.compare;
    destruct (Z.compare_spec e1 e2), (Z.compare_spec e2 e3), (Z.compare_spec e1 e3);
    try done; try lia; subst;
    destruct (Pos.compare_spec m1 m2), (Pos.compare_spec m2 m3), (Pos.compare_spec m1 m3);
    try done; try lia.
Qed.

Lemma less_not_less x y : SFltb x y = true → SFltb y x = false.
Proof.
  unfold SFltb. destruct x as [[]|[]| |[] m1 e1], y as [[]|[]| |[] m2 e2]; try done; cbn [SFcompare];
    change (Pos.compare_cont Eq) with Pos.compare;
    rewrite (Z.compare_antisym e1 e2); destruct (Z.compare e1 e2); try done; cbn [CompOpp];
    rewrite (Pos.compare_antisym m1 m2); by destruct (Pos.compare m1 m2).
Qed.

(** ** What is printed *)

Lemma round_half_even_bounds n d : 0 < d → 0 ≤ n → 0 ≤ round_half_even n d ∧ 2 * d * round_half_even n d ≤ 2 * n + d.
Proof.
  intros Hd Hn. unfold round_half_even. pose proof (Z.div_mod n d ltac:(lia)).
  pose proof (Z.mod_pos_bound n d Hd). pose proof (Z.div_pos n d Hn Hd).
  destruct (Z.compare_spec (2 * (n mod d)) d); [destruct (Z.even _)|..]; split; nia.
Qed.

Lemma round_half_even_le n d q : 0 < d → 0 ≤ n ≤ q * d → round_half_even n d ≤ q.
Proof. intros Hd Hn. destruct (round_half_even_bounds n d Hd ltac:(lia)). nia. Qed.

Lemma scaled_nonneg m e n : 0 ≤ scaled m e n.
Proof.
  unfold scaled. destruct (Z.leb_spec 0 e).
  - apply Z.mul_nonneg_nonneg; [apply Z.mul_nonneg_nonneg|]; try lia; apply Z.pow_nonneg; lia.
  - apply round_half_even_bounds; [apply Z.pow_pos_nonneg; lia|].
    apply Z.mul_nonneg_nonneg; [lia|]. apply Z.pow_nonneg; lia.
Qed.

(** [x ≤ b 2^k] printed with [n] digits. *)
Lemma scaled_le m e n b k :
  0 ≤ b → (if 0 <=? e then Zpos m * 2 ^ e ≤ b else Zpos m ≤ b * 2 ^ (- e)) →
  k = b * 10 ^ Z.of_nat n → scaled m e n ≤ k.
Proof.
  intros Hb Hm ->. unfold scaled. assert (0 < 10 ^ Z.of_nat n) by (apply Z.pow_pos_nonneg; lia).
  destruct (Z.leb_spec 0 e); [nia|]. assert (0 < 2 ^ (- e)) by (apply Z.pow_pos_nonneg; lia).
  apply round_half_even_le; nia.
Qed.

Lemma bounded_by_le prec k s m e :
  bounded_by prec k (S754_finite s m e) → 0 ≤ k →
  if 0 <=? e then Zpos m * 2 ^ e ≤ 2 ^ k else Zpos m ≤ 2 ^ k * 2 ^ (- e).
Proof.
  intros [_ Hk] H0. pose proof (digits2_pos_bounds m). destruct (Z.leb_spec 0 e).
  - transitivity (2 ^ Zpos (digits2_pos m) * 2 ^ e).
    + apply Z.mul_le_mono_nonneg_r; [apply Z.pow_nonneg|]; lia.
    + rewrite <- Z.pow_add_r by lia. apply Z.pow_le_mono_r; lia.
  - rewrite <- Z.pow_add_r by lia. pose proof (Z.pow_le_mono_r 2 (Zpos (digits2_pos m)) (k + - e)). lia.
Qed.

Lemma fmt_Z_short z j : (0 < j)%nat → 0 ≤ z < 10 ^ Z.of_nat j → zlen (fmt_Z z) ≤ Z.of_nat j.
Proof.
  intros Hj Hz. unfold zlen. rewrite fmt_Z_nonneg by lia.
  pose proof (fmt_nat_length (Z.to_nat z) j Hj). lia.
Qed.

Lemma fmt_dec_short neg m n j :
  (0 < j)%nat → (0 < n)%nat → Z.of_N m < 10 ^ Z.of_nat (j + n) →
  zlen (fmt_dec neg m n) ≤ 2 + Z.of_nat (j + n).
Proof.
  intros Hj Hn Hm. unfold fmt_dec. rewrite !zlen_app.
  assert (zlen (if neg then ["-"%char] else []) ≤ 1) by by destruct neg.
  change (zlen ["."%char]) with 1.
  assert (0 < 10 ^ Z.of_nat n) by (apply Z.pow_pos_nonneg; lia).
  rewrite Nat2Z.inj_add, Z.pow_add_r in Hm by lia.
  pose proof (fmt_Z_short (Z.of_N m / 10 ^ Z.of_nat n) j Hj) as H1.
  assert (zlen (fmt_pad n (Z.of_N m mod 10 ^ Z.of_nat n)) = Z.of_nat n) as ->.
  { unfold zlen. rewrite fmt_pad_length; [done|done|]. apply Z.mod_pos_bound. lia. }
  assert (Z.of_N m / 10 ^ Z.of_nat n < 10 ^ Z.of_nat j) by (apply Z.div_lt_upper_bound; lia).
  assert (0 ≤ Z.of_N m / 10 ^ Z.of_nat n) by (apply Z.div_pos; lia). lia.
Qed.

(** A finite number is printed as a decimal fraction. *)
Lemma fmt_fixed_dec n x :
  (∃ k prec, bounded_by prec k x) → ∃ s m, fmt_fixed n x = fmt_dec s m n.
Proof. intros (k & prec & Hx). destruct x; try done; cbn [fmt_fixed]; eauto. Qed.

Lemma fmt_fixed_short prec k n j x :
  bounded_by prec k x → 0 ≤ k → (0 < n)%nat → (0 < j)%nat → 2 ^ k < 10 ^ Z.of_nat j →
  zlen (fmt_fixed n x) ≤ 2 + Z.of_nat (j + n).
Proof.
  intros Hx Hk Hn Hj Hkj.
  assert (0 < 10 ^ Z.of_nat n) by (apply Z.pow_pos_nonneg; lia).
  assert (0 < 10 ^ Z.of_nat j) by (apply Z.pow_pos_nonneg; lia).
  destruct x as [s|s| |s m e]; try done; cbn [fmt_fixed]; apply fmt_dec_short; try done.
  - rewrite Nat2Z.inj_add, Z.pow_add_r by lia. nia.
  - rewrite Z2N.id by apply scaled_nonneg.
    pose proof (scaled_le m e n (2 ^ k) _ ltac:(apply Z.pow_nonneg; lia) (bounded_by_le _ _ _ _ _ Hx Hk) eq_refl).
    rewrite Nat2Z.inj_add, Z.pow_add_r by lia. nia.
Qed.

(** A [float] that is neither below 0 nor above 100. *)
Lemma percentage_printed x :
  is_nan x = false → match x with S754_finite _ m _ => Zpos (digits2_pos m) ≤ 24 | _ => True end →
  SFltb x (b32_of_Z 0) = false → SFltb (b32_of_Z 100) x = false →
  ∃ s m, fmt_fixed 2 x = fmt_dec s m 2 ∧ (m ≤ 10000)%N.
Proof.
  change (b32_of_Z 0) with (S754_zero false). change (b32_of_Z 100) with (S754_finite false 13107200 (-17)).
  destruct x as [s|[]| |[] m e]; try done; intros _ Hm _ Hlt.
  { exists s, 0%N. split; [done|lia]. }
  exists false, (Z.to_N (scaled m e 2)). split; [done|].
  assert (scaled m e 2 ≤ 100 * 100); [|lia]. apply (scaled_le m e 2 100); [lia| |done].
  pose proof (digits2_pos_bounds m) as [_ Hb].
  pose proof (Z.pow_le_mono_r 2 (Zpos (digits2_pos m)) 24 ltac:(lia) Hm) as H24.
  unfold SFltb in Hlt. cbn [SFcompare] in Hlt. change (Pos.compare_cont Eq) with Pos.compare in Hlt.
  destruct (Z.compare_spec (-17) e) as [<-|He|He]; [|done|].
  - destruct (Pos.compare_spec 13107200 m) as [<-|?|?]; [|done|]; cbn [Z.leb Z.compare]; lia.
  - rewrite (proj2 (Z.leb_gt 0 e)) by lia.
    pose proof (Z.pow_le_mono_r 2 18 (- e) ltac:(lia) ltac:(lia)). lia.
Qed.
