(* ===== verification/QueryString.v ===== *)
(** * Query strings (src/modules/packages/packages_module.c, src/modules/man/man_query.c)

    The two modules parse their parameters with the same code over buffers of different
    sizes.  [None] is the return of 0. *)

From S2P Require Import Prelude HttpUtils.

(** The loop of [url_decode_into]; [out] is what is in [dst], [None] is -1. *)
Fixpoint url_decode_go (fuel : nat) (src : bytes) (dst_size : nat) (out : bytes) : option bytes :=
  match fuel with
  | 0 => None
  | S fuel =>
      match src with
      | [] => Some out
      | c :: src' =>
          if dst_size <=? length out + 1 then None
          else if Ascii.eqb c "+" then url_decode_go fuel src' dst_size (out ++ [space])
          else
            match src' with
            | h :: l :: src'' =>
                if Ascii.eqb c "%" && isxdigit h && isxdigit l
                then url_decode_go fuel src'' dst_size
                       (out ++ [byte_of (hex_value h * 16 + hex_value l)])
                else url_decode_go fuel src' dst_size (out ++ [c])
            | _ => url_decode_go fuel src' dst_size (out ++ [c])
            end
      end
  end.

Definition url_decode_into (src : bytes) (dst_size : nat) : option bytes :=
  if dst_size =? 0 then None else url_decode_go (S (length src)) src dst_size [].

(** [char encoded[1024]] in [get_query_value], [char encoded[512]] in
    [man_get_query_value]. *)
Definition ENCODED_SIZE : nat := N.to_nat 1024.
Definition MAN_ENCODED_SIZE : nat := N.to_nat 512.

Lemma ENCODED_SIZE_val : Z.of_nat ENCODED_SIZE = 1024%Z.
Proof. reflexivity. Qed.

Lemma MAN_ENCODED_SIZE_val : Z.of_nat MAN_ENCODED_SIZE = 512%Z.
Proof. reflexivity. Qed.

#[global] Opaque ENCODED_SIZE MAN_ENCODED_SIZE.

(** [qs] after this entry: [amp + 1], or the end. *)
Definition after_amp (qs : bytes) (amp : nat) : bytes :=
  match drop amp qs with _ :: rest => rest | [] => [] end.

(** The loop over the entries of the query string: the text in [encoded]. *)
Fixpoint query_go (encoded_size fuel : nat) (qs key : bytes) : option bytes :=
  match fuel with
  | 0 => None
  | S fuel =>
      match qs with
      | [] => None
      | _ =>
          let amp := default (length qs) (strchr qs "&") in
          match strchr qs "=" with
          | None => query_go encoded_size fuel (after_amp qs amp) key
          | Some eq =>
              if amp <? eq then query_go encoded_size fuel (after_amp qs amp) key
              else if (eq =? length key) && is_prefix key qs then
                let encoded := take (amp - S eq) (drop (S eq) qs) in
                if encoded_size <=? length encoded then None else Some encoded
              else query_go encoded_size fuel (after_amp qs amp) key
          end
      end
  end.

Definition query_encoded (encoded_size : nat) (url key : bytes) : option bytes :=
  match strchr url "?" with
  | None => None
  | Some i => query_go encoded_size (S (length url)) (drop (S i) url) key
  end.

(** The bytes in [out] when the result is 1. *)
Definition query_parameter (encoded_size : nat) (url key : bytes) (out_size : nat)
    : option bytes :=
  if out_size =? 0 then None
  else
    match query_encoded encoded_size url key with
    | None => None
    | Some encoded => url_decode_into encoded out_size
    end.

Definition get_query_value : bytes → bytes → nat → option bytes := query_parameter ENCODED_SIZE.

Definition man_get_query_value : bytes → bytes → nat → option bytes :=
  query_parameter MAN_ENCODED_SIZE.

(** The string in a zeroed buffer of [out_size] bytes that held [init], after a call whose
    result is ignored: a value that does not fit leaves its first [out_size - 1] bytes. *)
Definition man_query_buffer (url key : bytes) (out_size : nat) (init : bytes) : bytes :=
  match query_encoded MAN_ENCODED_SIZE url key with
  | None => init
  | Some encoded =>
      match url_decode_into encoded out_size with
      | Some out => cstr out
      | None => cstr (take (out_size - 1) (default [] (url_decode_into encoded (S (S (length encoded))))))
      end
  end.

(** Also [man_path_matches_endpoint]. *)
Definition path_matches_endpoint (path prefix : bytes) : bool :=
  is_prefix prefix path &&
  match drop (length prefix) path with [] => true | c :: _ => Ascii.eqb c "?" end.

(** ** The reference

    The entries between the ampersands, the value of the first one whose
    name is the key. *)

Fixpoint split_amp (s : bytes) : list bytes :=
  match s with
  | [] => [[]]
  | c :: s' =>
      if Ascii.eqb c "&" then [] :: split_amp s'
      else match split_amp s' with
           | e :: es => (c :: e) :: es
           | [] => [[c]]
           end
  end.

Definition entry_value (key e : bytes) : option bytes :=
  match strchr e "=" with
  | Some i => if streq (take i e) key then Some (drop (S i) e) else None
  | None => None
  end.

Definition query_value (encoded_size : nat) (url key : bytes) (out_size : nat) : option bytes :=
  match strchr url "?" with
  | None => None
  | Some i =>
      match head (omap (entry_value key) (split_amp (drop (S i) url))) with
      | Some v => if encoded_size <=? length v then None else url_decode_into v out_size
      | None => None
      end
  end.

Lemma split_amp_here e : ("&"%char ∉ e) → split_amp e = [e].
Proof.
  induction e as [|c e IH]; [done|]. intros [Hc He]%not_elem_of_cons. simpl.
  rewrite (proj2 (ascii_eqb_false c "&")) by congruence. by rewrite IH.
Qed.

Lemma split_amp_entry e s : ("&"%char ∉ e) → split_amp (e ++ "&"%char :: s) = e :: split_amp s.
Proof.
  induction e as [|c e IH]; [done|]. intros [Hc He]%not_elem_of_cons. simpl.
  rewrite (proj2 (ascii_eqb_false c "&")) by congruence. by rewrite IH.
Qed.

Lemma strchr_app_l (a b : bytes) c i :
  strchr (a ++ b) c = Some i → i < length a → strchr a c = Some i.
Proof.
  rewrite !strchr_Some. intros [Hi Hn] Hlt. rewrite lookup_app_l in Hi by done.
  by rewrite take_app_le in Hn by lia.
Qed.

Lemma strchr_app_r (a b : bytes) c i :
  strchr (a ++ b) c = Some i → length a ≤ i → strchr a c = None.
Proof.
  rewrite strchr_Some, strchr_None. intros [_ Hn] Hle Ha. apply Hn.
  rewrite take_app_ge by done. apply elem_of_app. by left.
Qed.

(** The test of one entry [e] at the head of the rest [e ++ r] of the query. *)
Lemma entry_test (e r key : bytes) eq :
  strchr (e ++ r) "=" = Some eq → eq < length e →
  (if (eq =? length key) && is_prefix key (e ++ r) then Some (take (length e - S eq) (drop (S eq) (e ++ r)))
   else None) = entry_value key e.
Proof.
  intros Heq Hlt. unfold entry_value. rewrite (strchr_app_l _ _ _ _ Heq Hlt).
  assert (take (length e - S eq) (drop (S eq) (e ++ r)) = drop (S eq) e) as ->.
  { rewrite drop_app_le by lia. rewrite take_app_le by (rewrite length_drop; lia).
    rewrite take_ge; [done|]. rewrite length_drop. lia. }
  destruct (streq (take eq e) key) eqn:Ek.
  - apply streq_true in Ek. subst key. rewrite length_take, Nat.min_l by lia.
    rewrite Nat.eqb_refl. rewrite <- (take_drop eq e) at 2. rewrite <- app_assoc.
    by rewrite is_prefix_app.
  - apply streq_false in Ek. destruct (eq =? length key) eqn:El; [|done]. bool_facts.
    destruct (is_prefix key (e ++ r)) eqn:Ep; [|done]. exfalso. apply Ek.
    apply is_prefix_spec in Ep as [post Hp]. apply (f_equal (take eq)) in Hp.
    rewrite take_app_le in Hp by lia. rewrite Hp, El. by rewrite take_app_length.
Qed.

(** The first entry [e] of a query, with what follows it: nothing, or an ampersand and the
    rest. *)
Lemma split_amp_first q :
  ∃ e r rest, q = e ++ r ∧ ("&"%char ∉ e) ∧ default (length q) (strchr q "&") = length e ∧
    after_amp q (length e) = rest ∧ (q ≠ [] → length rest < length q) ∧
    (split_amp q = e :: split_amp rest ∨ split_amp q = [e] ∧ rest = []) ∧
    (r = [] ∨ ∃ r', r = "&"%char :: r').
Proof.
  destruct (strchr q "&") as [amp|] eqn:Ha.
  - apply strchr_split in Ha as (Hq & Hn & Hl).
    exists (take amp q), (("&"%char) :: drop (S amp) q), (drop (S amp) q).
    rewrite length_take, Nat.min_l by lia. cbn [default from_option id].
    split_and!; [done|done|done| | | |by eauto].
    + unfold after_amp. rewrite Hq at 1. rewrite drop_app_length'; [done|].
      rewrite length_take. lia.
    + intros _. rewrite length_drop. lia.
    + left. rewrite Hq at 1. by apply split_amp_entry.
  - apply strchr_None in Ha. exists q, [], []. rewrite app_nil_r. cbn [default from_option].
    split_and!; [done|done|done| | | |by left].
    + unfold after_amp. by rewrite drop_all.
    + destruct q; [done|simpl; lia].
    + right. split; [by apply split_amp_here|done].
Qed.

Lemma query_go_spec encoded_size fuel qs key :
  length qs < fuel →
  query_go encoded_size fuel qs key
  = match head (omap (entry_value key) (split_amp qs)) with
    | Some v => if encoded_size <=? length v then None else Some v
    | None => None
    end.
Proof.
  revert qs. induction fuel as [|fuel IH]; intros qs Hf; [lia|].
  destruct qs as [|c0 q0]; [done|]. cbn [query_go]. cbv zeta.
  set (q := c0 :: q0) in *. assert (q ≠ []) as Hne by done. clearbody q. clear c0 q0.
  destruct (split_amp_first q) as (e & r & rest & Hq & He & Hamp & Hrest & Hlen & Hsplit & Hr).
  rewrite Hamp, Hrest. specialize (IH rest ltac:(specialize (Hlen Hne); lia)). rewrite IH.
  assert (∀ f : bytes → option bytes, f [] = None → head (omap f (split_amp q))
    = match f e with Some v => Some v | None => head (omap f (split_amp rest)) end) as Hhead.
  { intros f Hf0. destruct Hsplit as [-> | [-> ->]]; simpl; destruct (f e); try done.
    by rewrite Hf0. }
  rewrite (Hhead (entry_value key)) by done.
  destruct (strchr q "=") as [eq|] eqn:Heq.
  - destruct (length e <? eq) eqn:Hb; bool_facts.
    + assert (entry_value key e = None) as ->; [|done]. unfold entry_value.
      rewrite Hq in Heq. by rewrite (strchr_app_r _ _ _ _ Heq) by lia.
    + assert (eq < length e) as Hlt.
      { destruct (decide (eq = length e)) as [->|]; [|lia]. exfalso.
        rewrite Hq in Heq. apply strchr_Some in Heq as [Hl _].
        rewrite lookup_app_r, Nat.sub_diag in Hl by lia.
        destruct Hr as [-> | [r' ->]]; discriminate Hl. }
      rewrite Hq in Heq |- *. rewrite <- (entry_test e r key eq Heq Hlt).
      destruct ((eq =? length key) && is_prefix key (e ++ r)); [|done]. done.
  - assert (entry_value key e = None) as ->; [|done]. unfold entry_value.
    apply strchr_None in Heq. rewrite Hq in Heq.
    rewrite (proj2 (strchr_None e "=")); [done|]. intros H. apply Heq, elem_of_app. by left.
Qed.

(** Decoding a well-formed encoding. *)
Lemma url_decode_go_encodes src o : url_encodes src o → ∀ fuel size out,
  length src < fuel → length out + length o < size →
  url_decode_go fuel src size out = Some (out ++ o).
Proof.
  induction 1 as [|h l src o Hh Hl He IH|src o He IH|c src o Hc1 Hc2 He IH];
    intros [|fuel] size out Hf Hs; try (simpl in *; lia).
  - simpl. by rewrite app_nil_r.
  - cbn [url_decode_go]. cbn [length] in *.
    rewrite (proj2 (Nat.leb_gt _ _)) by lia. change (Ascii.eqb "%" "+") with false.
    change (Ascii.eqb "%" "%") with true. rewrite Hh, Hl. cbn [andb].
    rewrite IH; [by rewrite <- app_assoc|lia|rewrite length_app; simpl; lia].
  - cbn [url_decode_go]. cbn [length] in *.
    rewrite (proj2 (Nat.leb_gt _ _)) by lia. change (Ascii.eqb "+" "+") with true.
    cbn iota. rewrite IH; [by rewrite <- app_assoc|lia|rewrite length_app; simpl; lia].
  - cbn [url_decode_go]. cbn [length] in *.
    rewrite (proj2 (Nat.leb_gt _ _)) by lia.
    rewrite (proj2 (ascii_eqb_false c "+")), (proj2 (ascii_eqb_false c "%")) by done.
    assert (url_decode_go fuel src size (out ++ [c]) = Some (out ++ c :: o)) as Hgo.
    { rewrite IH; [by rewrite <- app_assoc|lia|rewrite length_app; simpl; lia]. }
    destruct src as [|? [|? ?]]; exact Hgo.
Qed.

Lemma url_decode_into_encodes src o size :
  url_encodes src o → length o < size → url_decode_into src size = Some o.
Proof.
  intros He Hl. unfold url_decode_into. rewrite (proj2 (Nat.eqb_neq _ _)) by lia.
  by rewrite (url_decode_go_encodes src o He) by (simpl; lia).
Qed.

(** C39. [get_query_value] and [man_get_query_value] find the value of the first entry of
    that name, and refuse it exactly when it is longer than their buffer for it or does not
    fit decoded; so a client that
    sends [key=v] with [v] encoding [value] gets [value] through, whatever other
    entries follow. *)
Theorem query_parameter_spec encoded_size url key out_size :
  out_size ≠ 0 →
  query_parameter encoded_size url key out_size = query_value encoded_size url key out_size ∧
  ∀ path v value rest, url = path ++ bs "?" ++ key ++ bs "=" ++ v ++ rest →
    "?"%char ∉ path → "="%char ∉ key → "&"%char ∉ key ++ v →
    (rest = [] ∨ ∃ r, rest = "&"%char :: r) →
    url_encodes v value → length v < encoded_size → length value < out_size →
    query_parameter encoded_size url key out_size = Some value.
Proof.
  intros Ho.
  assert (query_parameter encoded_size url key out_size = query_value encoded_size url key out_size) as Heq.
  { unfold query_parameter, query_encoded, query_value. rewrite (proj2 (Nat.eqb_neq _ _)) by done.
    destruct (strchr url "?") as [i|]; [|done]. rewrite query_go_spec by (rewrite length_drop; lia).
    destruct (head _) as [v|]; [|done]. by destruct (_ <=? _). }
  split; [exact Heq|]. intros path v value rest -> Hp Hk Hamp Hrest He Hv Hl.
  rewrite Heq. unfold query_value. cbn [bs String.list_ascii_of_string app].
  change (bs "?" ++ ?x) with ("?"%char :: x). rewrite strchr_app_sep by done.
  rewrite drop_app_ge by lia. replace (S (length path) - length path) with 1 by lia.
  cbn [drop]. set (e := key ++ bs "=" ++ v).
  assert ("&"%char ∉ e) as Hae.
  { unfold e. rewrite !elem_of_app in *. change (bs "=") with ["="%char].
    rewrite list_elem_of_singleton. naive_solver. }
  assert (entry_value key e = Some v) as Hev.
  { unfold entry_value, e. change (bs "=" ++ v) with ("="%char :: v).
    rewrite strchr_app_sep by done. rewrite take_app_length, streq_refl.
    rewrite drop_app_ge by lia. by replace (S (length key) - length key) with 1 by lia. }
  replace (key ++ bs "=" ++ v ++ rest) with (e ++ rest) by (unfold e; by rewrite <- !app_assoc).
  rewrite drop_0.
  assert (head (omap (entry_value key) (split_amp (e ++ rest))) = Some v) as ->.
  { destruct Hrest as [->|[r ->]].
    - rewrite app_nil_r, split_amp_here by done. simpl. by rewrite Hev.
    - rewrite split_amp_entry by done. simpl. by rewrite Hev. }
  rewrite (proj2 (Nat.leb_gt _ _)) by done. by apply url_decode_into_encodes.
Qed.

Lemma query_parameter_spec_witness :
  get_query_value (bs "/api/packages/info?name=gtk%2B3&x=1") (bs "name") 1024 = Some (bs "gtk+3").
Proof.
  assert (1024 ≠ 0) as H0 by lia.
  refine (proj2 (query_parameter_spec ENCODED_SIZE (bs "/api/packages/info?name=gtk%2B3&x=1") (bs "name") 1024 H0)
    (bs "/api/packages/info") (bs "gtk%2B3") (bs "gtk+3") (bs "&x=1") eq_refl _ _ _ _ _ _ _).
  1-3: by_computation.
  - right. by eexists.
  - repeat first [apply ue_nil|apply (ue_hex "2" "B"); [reflexivity|reflexivity|]|
      apply ue_char; [discriminate|discriminate|]].
  - pose proof ENCODED_SIZE_val. change (length (bs "gtk%2B3")) with 7. lia.
  - change (length (bs "gtk+3")) with 5. lia.
Defined.
