(* ===== verification/ResponsePool.v ===== *)
(** * Response objects (src/http/response_pool.c, create and free of response_api.c)

    Sixteen pools of 1024 response objects, chosen by a hash of the thread id, with the
    heap behind them when a pool is empty.  A [resp_ptr] is the address of an object,
    [response_store] what the memory holds; each function that takes the pool lock is
    one atomic step. *)

From S2P Require Import Prelude FreeStack.

Definition RESPONSE_POOL_SHARDS : nat := 16.
(** The literal 1024 of response_pool.c. *)
Definition RESPONSE_POOL_ITEMS : nat := N.to_nat 1024.

Lemma RESPONSE_POOL_ITEMS_pos : 0 < RESPONSE_POOL_ITEMS.
Proof. unfold RESPONSE_POOL_ITEMS. lia. Qed.

#[global] Opaque RESPONSE_POOL_ITEMS.

(** ** Data *)

(** [headers] holds the first [headers_len] bytes of the array; [body] is [None] for
    NULL. *)
Record http_response := HttpResponse {
  status_code : Z;
  content_type : option bytes;
  body : option bytes;
  body_len : nat;
  free_body : bool;
  pool_shard_idx : Z;
  headers : bytes;
}.

Definition zero_response : http_response :=
  {| status_code := 0; content_type := None; body := None; body_len := 0;
     free_body := false; pool_shard_idx := 0; headers := [] |}.

#[export] Instance http_response_inhabited : Inhabited http_response := populate zero_response.

Record response_pool := ResponsePool {
  rp_items : list http_response;
  rp_free : free_stack;
  rp_initialized : bool;
}.

(** A pool in static storage, before its first use. *)
Definition static_pool : response_pool :=
  {| rp_items := replicate RESPONSE_POOL_ITEMS zero_response;
     rp_free := {| fs_slots := replicate RESPONSE_POOL_ITEMS 0; fs_top := 0 |};
     rp_initialized := false |}.

#[export] Instance response_pool_inhabited : Inhabited response_pool := populate static_pool.

Inductive resp_ptr := PoolItem (shard idx : nat) | HeapObj (id : nat).

#[export] Instance resp_ptr_eq_dec : EqDecision resp_ptr.
Proof. solve_decision. Defined.

Record response_store := ResponseStore {
  rs_pools : list response_pool;
  rs_heap : gmap nat http_response;
}.

Definition initial_store : response_store :=
  {| rs_pools := replicate RESPONSE_POOL_SHARDS static_pool; rs_heap := ∅ |}.

(** Reading and writing the object at an address. *)
Definition resp_get (st : response_store) (p : resp_ptr) : http_response :=
  match p with
  | PoolItem s i => rp_items (rs_pools st !!! s) !!! i
  | HeapObj h => rs_heap st !!! h
  end.

Definition set_item (i : nat) (r : http_response) (pool : response_pool) : response_pool :=
  {| rp_items := <[i := r]> (rp_items pool); rp_free := rp_free pool;
     rp_initialized := rp_initialized pool |}.

Definition resp_set (st : response_store) (p : resp_ptr) (r : http_response) : response_store :=
  match p with
  | PoolItem s i =>
      {| rs_pools := <[s := set_item i r (rs_pools st !!! s)]> (rs_pools st);
         rs_heap := rs_heap st |}
  | HeapObj h => {| rs_pools := rs_pools st; rs_heap := <[h := r]> (rs_heap st) |}
  end.

(** ** Operations *)

(** [tid] is the value of [pthread_self()]. *)
Definition thread_hash (tid : Z) : Z :=
  Z.lxor (Z.lxor tid (Z.shiftr tid 7)) (Z.shiftr tid 13).

Definition response_pool_shard_index (tid : Z) : nat :=
  Z.to_nat (thread_hash tid mod Z.of_nat RESPONSE_POOL_SHARDS).

Definition response_pool_init_locked (pool : response_pool) : response_pool :=
  if rp_initialized pool then pool
  else {| rp_items := rp_items pool; rp_free := fs_init RESPONSE_POOL_ITEMS;
          rp_initialized := true |}.

Definition with_shard (r : http_response) (shard : Z) : http_response :=
  {| status_code := status_code r; content_type := content_type r; body := body r;
     body_len := body_len r; free_body := free_body r; pool_shard_idx := shard;
     headers := headers r |}.

Definition http_response_pool_acquire (tid : Z) (st : response_store)
    : option resp_ptr * response_store :=
  let shard_idx := response_pool_shard_index tid in
  let pool := response_pool_init_locked (rs_pools st !!! shard_idx) in
  match fs_pop (rp_free pool) with
  | Some (idx, free') =>
      let resp := with_shard zero_response (Z.of_nat shard_idx) in
      let pool' := {| rp_items := <[idx := resp]> (rp_items pool); rp_free := free';
                      rp_initialized := rp_initialized pool |} in
      (Some (PoolItem shard_idx idx),
       {| rs_pools := <[shard_idx := pool']> (rs_pools st); rs_heap := rs_heap st |})
  | None =>
      (None, {| rs_pools := <[shard_idx := pool]> (rs_pools st); rs_heap := rs_heap st |})
  end.

(** Does the pointer lie in the items of pool [shard]? *)
Definition in_pool_items (p : resp_ptr) (shard : nat) : option nat :=
  match p with
  | PoolItem s i => if (s =? shard) && (i <? RESPONSE_POOL_ITEMS) then Some i else None
  | HeapObj _ => None
  end.

(** [true] is the return value 1. *)
Definition http_response_pool_release (p : resp_ptr) (st : response_store)
    : bool * response_store :=
  let shard_idx := pool_shard_idx (resp_get st p) in
  if ((shard_idx <? 0) || (Z.of_nat RESPONSE_POOL_SHARDS <=? shard_idx))%Z then (false, st)
  else
    let s := Z.to_nat shard_idx in
    match in_pool_items p s with
    | None => (false, st)
    | Some idx =>
        let pool := rs_pools st !!! s in
        let pool' := {| rp_items := <[idx := zero_response]> (rp_items pool);
                        rp_free := fs_push RESPONSE_POOL_ITEMS idx (rp_free pool);
                        rp_initialized := rp_initialized pool |} in
        (true, {| rs_pools := <[s := pool']> (rs_pools st); rs_heap := rs_heap st |})
    end.

Definition initial_response (r : http_response) : http_response :=
  {| status_code := 200; content_type := Some (bs "text/html; charset=utf-8");
     body := body r; body_len := body_len r; free_body := free_body r;
     pool_shard_idx := pool_shard_idx r; headers := headers r |}.

(** [calloc_ok]: does the fallback allocation succeed? *)
Definition http_response_create (tid : Z) (calloc_ok : bool) (st : response_store)
    : option resp_ptr * response_store :=
  let '(resp, st1) := http_response_pool_acquire tid st in
  match resp with
  | Some p => (Some p, resp_set st1 p (initial_response (resp_get st1 p)))
  | None =>
      if calloc_ok then
        let p := HeapObj (fresh (dom (rs_heap st1))) in
        (Some p, resp_set st1 p (initial_response (with_shard zero_response (-1))))
      else (None, st1)
  end.

(** Freeing the body releases memory the model does not track. *)
Definition http_response_free (p : option resp_ptr) (st : response_store) : response_store :=
  match p with
  | None => st
  | Some p =>
      let '(released, st') := http_response_pool_release p st in
      if released then st'
      else match p with
           | HeapObj h => {| rs_pools := rs_pools st'; rs_heap := delete h (rs_heap st') |}
           | PoolItem _ _ => st'
           end
  end.

(** ** The invariant

    [live] is the set of addresses handed out and not freed. *)

Record shard_wf (live : resp_ptr → Prop) (s : nat) (pool : response_pool) : Prop := {
  sw_items : length (rp_items pool) = RESPONSE_POOL_ITEMS;
  sw_free : rp_initialized pool = true → fs_wf RESPONSE_POOL_ITEMS (rp_free pool);
  sw_live : rp_initialized pool = true →
    ∀ i, i < RESPONSE_POOL_ITEMS → (live (PoolItem s i) ↔ i ∉ fs_free (rp_free pool));
  sw_static : rp_initialized pool = false → ∀ i, ¬ live (PoolItem s i);
  sw_shard : ∀ i, live (PoolItem s i) →
    i < RESPONSE_POOL_ITEMS ∧ pool_shard_idx (rp_items pool !!! i) = Z.of_nat s;
}.

Record store_wf (live : resp_ptr → Prop) (st : response_store) : Prop := {
  so_length : length (rs_pools st) = RESPONSE_POOL_SHARDS;
  so_shards : ∀ s, s < RESPONSE_POOL_SHARDS → shard_wf live s (rs_pools st !!! s);
  so_pool_live : ∀ s i, live (PoolItem s i) → s < RESPONSE_POOL_SHARDS;
  so_heap : ∀ h, live (HeapObj h) ↔ is_Some (rs_heap st !! h);
  so_heap_shard : ∀ h r, rs_heap st !! h = Some r → pool_shard_idx r = (-1)%Z;
}.

(** The same objects are live; used to change the [live] predicate. *)
Lemma shard_wf_ext (live live' : resp_ptr → Prop) s pool :
  (∀ i, live (PoolItem s i) ↔ live' (PoolItem s i)) → shard_wf live s pool →
  shard_wf live' s pool.
Proof.
  intros Hext [H1 H2 H3 H4 H5]. split; try done.
  - intros ? i ?. by rewrite <- Hext, H3.
  - intros ? i. by rewrite <- Hext; auto.
  - intros i. rewrite <- Hext. auto.
Qed.

Lemma initial_store_wf : store_wf (λ _, False) initial_store.
Proof.
  split; [by apply length_replicate| |done| |done].
  - intros s Hs. change (rs_pools initial_store) with (replicate RESPONSE_POOL_SHARDS static_pool).
    rewrite lookup_total_replicate_2 by done.
    split; [apply length_replicate|done|done|by intros _ i []|by intros i []].
  - intros h. simpl. rewrite lookup_empty. split; [done|]. by intros [? ?].
Qed.

Lemma init_locked_wf live s pool :
  shard_wf live s pool →
  shard_wf live s (response_pool_init_locked pool) ∧
  rp_initialized (response_pool_init_locked pool) = true.
Proof.
  intros Hwf. unfold response_pool_init_locked.
  destruct (rp_initialized pool) eqn:E; [done|]. split; [|done].
  destruct Hwf as [H1 H2 H3 H4 H5]. split; simpl; try done.
  - intros _. apply fs_init_wf.
  - intros _ i Hi. rewrite elem_of_fs_init. split; [|done]. intros Hl. by destruct (H4 E i).
Qed.

Lemma shard_index_lt tid : response_pool_shard_index tid < RESPONSE_POOL_SHARDS.
Proof.
  unfold response_pool_shard_index.
  pose proof (Z.mod_pos_bound (thread_hash tid) (Z.of_nat RESPONSE_POOL_SHARDS)
    ltac:(unfold RESPONSE_POOL_SHARDS; lia)). lia.
Qed.

Lemma store_wf_update live live' st s pool' :
  store_wf live st → s < RESPONSE_POOL_SHARDS → shard_wf live' s pool' →
  (∀ q, (∀ i, q ≠ PoolItem s i) → live q ↔ live' q) →
  store_wf live' {| rs_pools := <[s := pool']> (rs_pools st); rs_heap := rs_heap st |}.
Proof.
  intros [H1 H2 H3 H4 H5] Hs Hp Hother. split; simpl; try done.
  - by rewrite length_insert.
  - intros s' Hs'. destruct (decide (s' = s)) as [->|Hne].
    + rewrite list_lookup_total_insert_eq by lia. done.
    + rewrite list_lookup_total_insert_ne by done.
      apply (shard_wf_ext live); [|auto]. intros i. apply Hother. naive_solver.
  - intros s' i Hl. destruct (decide (s' = s)) as [->|Hne]; [done|].
    apply (H3 s' i), Hother; naive_solver.
  - intros h. rewrite <- H4. symmetry. apply Hother. done.
Qed.

Lemma resp_get_update st s pool' q :
  s < length (rs_pools st) →
  resp_get {| rs_pools := <[s := pool']> (rs_pools st); rs_heap := rs_heap st |} q =
  match q with
  | PoolItem s' i => if decide (s' = s) then rp_items pool' !!! i else resp_get st q
  | HeapObj h => resp_get st q
  end.
Proof.
  intros Hs. destruct q as [s' i|h]; [|done]. simpl. case_decide as E; subst.
  - by rewrite list_lookup_total_insert_eq.
  - by rewrite list_lookup_total_insert_ne.
Qed.

Definition also (p : resp_ptr) (live : resp_ptr → Prop) : resp_ptr → Prop :=
  λ q, q = p ∨ live q.
Definition except (p : resp_ptr) (live : resp_ptr → Prop) : resp_ptr → Prop :=
  λ q, q ≠ p ∧ live q.

Lemma acquire_wf live st tid :
  store_wf live st →
  let '(r, st') := http_response_pool_acquire tid st in
  let s := response_pool_shard_index tid in
  (∀ q, live q → resp_get st' q = resp_get st q) ∧
  match r with
  | Some p =>
      (∃ i, p = PoolItem s i) ∧ ¬ live p ∧ store_wf (also p live) st' ∧
      resp_get st' p = with_shard zero_response (Z.of_nat s)
  | None => store_wf live st' ∧ ∀ i, i < RESPONSE_POOL_ITEMS → live (PoolItem s i)
  end.
Proof.
  intros Hwf. unfold http_response_pool_acquire.
  pose proof (shard_index_lt tid) as Hs. revert Hs.
  generalize (response_pool_shard_index tid). intros s Hs.
  pose proof (so_shards _ _ Hwf s Hs) as Hsh0.
  apply init_locked_wf in Hsh0 as [Hsh Hinit].
  pose proof (so_length _ _ Hwf) as Hlen.
  assert (rp_items (response_pool_init_locked (rs_pools st !!! s)) =
          rp_items (rs_pools st !!! s)) as Hitems.
  { unfold response_pool_init_locked. destruct (rp_initialized (rs_pools st !!! s)); reflexivity. }
  revert Hsh Hinit Hitems. generalize (response_pool_init_locked (rs_pools st !!! s)).
  intros pool Hsh Hinit Hitems.
  destruct (fs_pop (rp_free pool)) as [[idx free']|] eqn:Hpop.
  - destruct (fs_pop_wf _ _ _ _ (sw_free _ _ _ Hsh Hinit) Hpop) as (Hf' & Hidx & Hni & Hfree).
    assert (¬ live (PoolItem s idx)) as Hnl.
    { rewrite (sw_live _ _ _ Hsh Hinit idx Hidx), Hfree. set_solver. }
    split_and!; [|by eexists|done| |].
    + intros q Hq. rewrite resp_get_update by lia. destruct q as [s' i|]; [|done].
      case_decide as E; [subst s'|done]. cbn [rp_items].
      rewrite list_lookup_total_insert_ne by congruence. simpl. by rewrite Hitems.
    + apply (store_wf_update live); [done|done| |].
      2:{ intros q Hq. unfold also. naive_solver. }
      destruct Hsh as [H1 H2 H3 H4 H5]. split; simpl; try done.
      * by rewrite length_insert.
      * intros ? i Hi. unfold also. specialize (H3 Hinit i Hi).
        rewrite Hfree, elem_of_app, list_elem_of_singleton in H3.
        destruct (decide (i = idx)) as [->|Hne]; naive_solver.
      * congruence.
      * intros i [[= ->]|Hl].
        -- split; [done|]. by rewrite list_lookup_total_insert_eq by lia.
        -- destruct (H5 i Hl). split; [done|].
           rewrite list_lookup_total_insert_ne by congruence. done.
    + rewrite resp_get_update by lia. rewrite decide_True by done. cbn [rp_items].
      rewrite list_lookup_total_insert_eq; [done|]. by rewrite (sw_items _ _ _ Hsh).
  - split_and!.
    + intros q Hq. rewrite resp_get_update by lia. destruct q as [s' i|]; [|done].
      case_decide as E; [subst s'|done]. simpl. by rewrite Hitems.
    + by apply (store_wf_update live).
    + apply (fs_pop_None RESPONSE_POOL_ITEMS) in Hpop; [|by apply (sw_free _ _ _ Hsh)].
      intros i Hi. rewrite (sw_live _ _ _ Hsh Hinit i Hi). unfold fs_free.
      rewrite Hpop. apply not_elem_of_nil.
Qed.

Lemma store_wf_ext (live live' : resp_ptr → Prop) st :
  (∀ q, live q ↔ live' q) → store_wf live st → store_wf live' st.
Proof.
  intros Hext [H1 H2 H3 H4 H5]. split; try done.
  - intros s Hs. apply (shard_wf_ext live); auto.
  - intros s i. rewrite <- Hext. apply H3.
  - intros h. by rewrite <- Hext.
Qed.

(** A handler writes a live object and leaves its [pool_shard_idx] alone. *)
Lemma resp_set_wf live st p r :
  store_wf live st → live p → pool_shard_idx r = pool_shard_idx (resp_get st p) →
  store_wf live (resp_set st p r) ∧ resp_get (resp_set st p r) p = r ∧
  ∀ q, q ≠ p → resp_get (resp_set st p r) q = resp_get st q.
Proof.
  intros Hwf Hp Hr. pose proof Hwf as [H1 H2 H3 H4 H5]. destruct p as [s i|h].
  - pose proof (H3 s i Hp) as Hs. pose proof (H2 s Hs) as Hsh.
    destruct (sw_shard _ _ _ Hsh i Hp) as [Hi Hidx].
    cbn [resp_set].
    split_and!.
    + apply (store_wf_update live); [done|done| |done].
      destruct Hsh as [K1 K2 K3 K4 K5]. split; simpl; try done.
      * by rewrite length_insert.
      * intros j Hj. destruct (K5 j Hj). split; [done|].
        destruct (decide (j = i)) as [->|Hne].
        -- rewrite list_lookup_total_insert_eq by lia. by rewrite Hr.
        -- by rewrite list_lookup_total_insert_ne.
    + rewrite resp_get_update by lia. rewrite decide_True by done. simpl.
      apply list_lookup_total_insert_eq. by rewrite (sw_items _ _ _ Hsh).
    + intros q Hq. rewrite resp_get_update by lia. destruct q as [s' j|]; [|done].
      case_decide; [subst|done]. simpl. apply list_lookup_total_insert_ne. congruence.
  - split_and!.
    + split; simpl; try done.
      * intros h'. rewrite H4. destruct (decide (h' = h)) as [->|Hne].
        -- rewrite lookup_insert_eq. apply H4 in Hp. split; [by eexists|done].
        -- by rewrite lookup_insert_ne.
      * intros h' r'. rewrite lookup_insert_Some. intros [[<- <-]|[_ ?]]; [|by eapply H5].
        rewrite Hr. simpl. apply H4 in Hp as [x Hx].
        rewrite lookup_total_alt, Hx. simpl. by eapply H5.
    + simpl. by rewrite lookup_total_insert_eq.
    + intros [s' j|h'] Hq; [done|]. simpl. rewrite lookup_total_insert_ne; congruence.
Qed.

Lemma heap_alloc_wf live st r :
  store_wf live st → pool_shard_idx r = (-1)%Z →
  let p := HeapObj (fresh (dom (rs_heap st))) in
  ¬ live p ∧ store_wf (also p live) (resp_set st p r) ∧
  resp_get (resp_set st p r) p = r ∧
  ∀ q, live q → resp_get (resp_set st p r) q = resp_get st q.
Proof.
  intros [H1 H2 H3 H4 H5] Hr p.
  pose proof (is_fresh (dom (rs_heap st))) as Hf. subst p. revert Hf.
  generalize (fresh (dom (rs_heap st))). intros h Hh. apply not_elem_of_dom in Hh.
  assert (¬ live (HeapObj h)) as Hnl by (rewrite H4, Hh; by intros [? ?]).
  split_and!; [done| | |].
  - split; simpl; try done.
    + intros s Hs. apply (shard_wf_ext live); [|auto].
      intros i. unfold also. naive_solver.
    + intros s i [?|?]; [done|]. by eapply H3.
    + intros h'. unfold also. rewrite H4. destruct (decide (h' = h)) as [->|Hne].
      * rewrite lookup_insert_eq. naive_solver.
      * rewrite lookup_insert_ne by done. naive_solver.
    + intros h' r'. rewrite lookup_insert_Some. naive_solver.
  - simpl. by rewrite lookup_total_insert_eq.
  - intros [s i|h'] Hq; [done|]. simpl. apply lookup_total_insert_ne. naive_solver.
Qed.

Lemma create_spec live st tid calloc_ok :
  store_wf live st →
  let '(r, st') := http_response_create tid calloc_ok st in
  (∀ q, live q → resp_get st' q = resp_get st q) ∧
  match r with
  | Some p =>
      ¬ live p ∧ store_wf (also p live) st' ∧
      resp_get st' p = initial_response
        (with_shard zero_response (pool_shard_idx (resp_get st' p)))
  | None =>
      calloc_ok = false ∧ store_wf live st' ∧
      ∀ i, i < RESPONSE_POOL_ITEMS → live (PoolItem (response_pool_shard_index tid) i)
  end.
Proof.
  intros Hwf. unfold http_response_create.
  pose proof (acquire_wf live st tid Hwf) as Hacq.
  destruct (http_response_pool_acquire tid st) as [[p|] st1].
  - destruct Hacq as (Hsame & _ & Hnl & Hwf1 & Hget).
    destruct (resp_set_wf (also p live) st1 p (initial_response (resp_get st1 p)))
      as (Hwf2 & Hget2 & Hother); [done|by left|done|].
    split_and!; [|done|done|].
    + intros q Hq. rewrite Hother by congruence. auto.
    + rewrite Hget2, Hget. done.
  - destruct Hacq as (Hsame & Hwf1 & Hfull). destruct calloc_ok; [|done].
    destruct (heap_alloc_wf live st1 (initial_response (with_shard zero_response (-1))))
      as (Hnl & Hwf2 & Hget2 & Hother); [done|done|].
    split_and!; [|done|done|].
    + intros q Hq. rewrite Hother by done. auto.
    + by rewrite Hget2.
Qed.

Lemma free_spec live st p :
  store_wf live st → live p →
  store_wf (except p live) (http_response_free (Some p) st) ∧
  ∀ q, q ≠ p → resp_get (http_response_free (Some p) st) q = resp_get st q.
Proof.
  intros Hwf Hp. pose proof Hwf as [H1 H2 H3 H4 H5].
  unfold http_response_free, http_response_pool_release. destruct p as [s i|h].
  - pose proof (H3 s i Hp) as Hs. pose proof (H2 s Hs) as Hsh.
    destruct (sw_shard _ _ _ Hsh i Hp) as [Hi Hidx]. simpl resp_get. rewrite Hidx.
    destruct ((Z.of_nat s <? 0) || (Z.of_nat RESPONSE_POOL_SHARDS <=? Z.of_nat s))%Z eqn:E.
    { apply orb_true_iff in E as [E|E]; bool_facts; lia. }
    rewrite Nat2Z.id. simpl in_pool_items.
    rewrite Nat.eqb_refl, (proj2 (Nat.ltb_lt i RESPONSE_POOL_ITEMS)) by done. cbn [andb].
    assert (rp_initialized (rs_pools st !!! s) = true) as Hinit.
    { destruct (rp_initialized (rs_pools st !!! s)) eqn:E'; [done|].
      by destruct (sw_static _ _ _ Hsh E' i). }
    assert (i ∉ fs_free (rp_free (rs_pools st !!! s))) as Hni
      by by apply (sw_live _ _ _ Hsh Hinit i Hi).
    destruct (fs_push_wf _ _ i (sw_free _ _ _ Hsh Hinit) Hi Hni) as [Hwf' Hfree].
    split.
    + apply (store_wf_update live); [done|done| |unfold except; naive_solver].
      destruct Hsh as [K1 K2 K3 K4 K5]. split; simpl; try done.
      * by rewrite length_insert.
      * intros _ j Hj. rewrite Hfree, elem_of_app, list_elem_of_singleton.
        unfold except. rewrite K3 by done. naive_solver.
      * intros E' j. congruence.
      * intros j [Hne Hj]. destruct (K5 j Hj). split; [done|].
        rewrite list_lookup_total_insert_ne by congruence. done.
    + intros q Hq. rewrite resp_get_update by lia. destruct q as [s' j|]; [|done].
      case_decide; [subst|done]. simpl. apply list_lookup_total_insert_ne. congruence.
  - pose proof Hp as Hp'. apply H4 in Hp' as [r Hr].
    simpl resp_get. rewrite (lookup_total_correct _ _ _ Hr), (H5 h r Hr). simpl. split.
    + split; simpl; try done.
      * intros s Hs. apply (shard_wf_ext live); [|auto]. unfold except. naive_solver.
      * intros s i [_ ?]. by eapply H3.
      * intros h'. unfold except. destruct (decide (h' = h)) as [->|Hne].
        -- rewrite lookup_delete_eq. split; [naive_solver|by intros [? ?]].
        -- rewrite lookup_delete_ne by done. rewrite <- H4. naive_solver.
      * intros h' r'. rewrite lookup_delete_Some. naive_solver.
    + intros [s' j|h'] Hq; [done|]. simpl. rewrite lookup_total_delete_ne; congruence.
Qed.

(** Freeing the newest object restores the set of live ones. *)
Lemma free_also live st p :
  ¬ live p → store_wf (also p live) st → store_wf live (http_response_free (Some p) st).
Proof.
  intros Hnl Hst. destruct (free_spec _ _ p Hst) as [Hf _]; [by left|].
  eapply store_wf_ext; [|exact Hf]. intros q. unfold except, also.
  split; [by intros [? [?|?]]|]. intros Hq. split; [congruence|by right].
Qed.

(** ** Reachable stores *)

Inductive store_reachable : (resp_ptr → Prop) → response_store → Prop :=
| sr_init : store_reachable (λ _, False) initial_store
| sr_create live st tid ok p st' :
    store_reachable live st → http_response_create tid ok st = (Some p, st') →
    store_reachable (also p live) st'
| sr_create_fail live st tid ok st' :
    store_reachable live st → http_response_create tid ok st = (None, st') →
    store_reachable live st'
| sr_set live st p r :
    store_reachable live st → live p → pool_shard_idx r = pool_shard_idx (resp_get st p) →
    store_reachable live (resp_set st p r)
| sr_free live st p :
    store_reachable live st → live p →
    store_reachable (except p live) (http_response_free (Some p) st).

Lemma store_reachable_wf live st : store_reachable live st → store_wf live st.
Proof.
  induction 1 as [|live st tid ok p st' _ Hwf Hc|live st tid ok st' _ Hwf Hc
    |live st p r _ Hwf Hp Hr|live st p _ Hwf Hp].
  - apply initial_store_wf.
  - pose proof (create_spec _ _ tid ok Hwf) as H. rewrite Hc in H. by destruct H as (_ & _ & ? & _).
  - pose proof (create_spec _ _ tid ok Hwf) as H. rewrite Hc in H. by destruct H as (_ & _ & ? & _).
  - by apply resp_set_wf.
  - by apply free_spec.
Qed.

(** C18. Response objects are never shared: after any history of creations, writes and
    frees by any threads, [http_response_create] hands out an object that is not in use,
    reset to status 200, HTML, no body and no headers, and touches no object in use; it
    fails only when the thread's pool is exhausted and the heap refuses. *)
Theorem response_create_fresh live st tid calloc_ok :
  store_reachable live st →
  let '(r, st') := http_response_create tid calloc_ok st in
  (∀ q, live q → resp_get st' q = resp_get st q) ∧
  match r with
  | Some p =>
      ¬ live p ∧
      resp_get st' p = initial_response
        (with_shard zero_response (pool_shard_idx (resp_get st' p)))
  | None =>
      calloc_ok = false ∧
      ∀ i, i < RESPONSE_POOL_ITEMS → live (PoolItem (response_pool_shard_index tid) i)
  end.
Proof.
  intros Hwf%store_reachable_wf. pose proof (create_spec live st tid calloc_ok Hwf) as H.
  destruct (http_response_create tid calloc_ok st) as [[p|] st']; naive_solver.
Qed.

Lemma response_create_fresh_witness :
  let '(r, st') := http_response_create 5 true initial_store in
  r = Some (PoolItem 5 0) ∧ resp_get st' (PoolItem 5 0) =
    initial_response (with_shard zero_response 5).
Proof.
  pose proof (response_create_fresh _ _ 5 true sr_init) as H.
  destruct (http_response_create 5 true initial_store) as [r st'] eqn:E.
  assert (r = Some (PoolItem 5 0)) as -> by (apply (f_equal fst) in E; vm_compute in E; congruence).
  split; [reflexivity|]. destruct H as (_ & _ & H). rewrite H.
  assert (pool_shard_idx (resp_get st' (PoolItem 5 0)) = 5%Z) as ->; [|reflexivity].
  apply (f_equal snd) in E. cbn [snd] in E. rewrite <- E. vm_compute. reflexivity.
Defined.
