(* ===== verification/HttpResponse.v ===== *)
(** * Sending responses (src/http/response_io.c, response_api.c, response_helpers.c)

    The kernel is a parameter: [k_write t n] is the result of the [t]-th system call
    when it asks to write [n] bytes, [k_poll t] the result of a [poll].  A [world] is
    the memory of response objects, the number of system calls so far and the bytes the
    client has received.  The write loops run until the kernel lets them finish; the
    model gives them fuel and [None] means that they have not returned yet. *)

From S2P Require Import Prelude ConnectionPool Router ResponsePool.

(** ** Requests *)

Record http_request := HttpRequest {
  req_fd : Z;
  req_method : bytes;
  req_url : bytes;
  req_version : bytes;
  req_keep_alive : bool;
  req_buffer : bytes;
  req_buffer_len : nat;
  req_client_addr : option sockaddr_in;
  hdr_scratch : bytes;
  ip_scratch : bytes;
}.

(** ** The kernel *)

Inductive errno := EINTR | EAGAIN | EOTHER.

#[export] Instance errno_eq_dec : EqDecision errno.
Proof. solve_decision. Defined.

Inductive sys_ret := Ret (n : nat) | Err (e : errno).

(** [PollEvents out err]: a positive result, with [POLLOUT] and with one of [POLLERR],
    [POLLHUP], [POLLNVAL] set in [revents]. *)
Inductive poll_ret := PollEvents (out err : bool) | PollTimeout | PollErr (e : errno).

(** [k_calloc] and [k_malloc]: does an allocation at that moment succeed? *)
Record kernel := Kernel {
  k_write : nat → nat → sys_ret;
  k_poll : nat → poll_ret;
  k_calloc : nat → bool;
  k_read : nat → nat → sys_ret;
  k_malloc : nat → bool;
}.

(** write(2) and writev(2) write at most what they are asked to, read(2) reads at most
    that much. *)
Class KernelLaws (k : kernel) : Prop := {
  k_write_le : ∀ t n w, k_write k t n = Ret w → w ≤ n;
  k_read_le : ∀ t n r, k_read k t n = Ret r → r ≤ n;
}.

Definition WRITE_RETRY_LIMIT : nat := 5.

(** [rc] of a wait and the number of system calls so far. *)
Fixpoint http_response_wait_fd_writable (k : kernel) (fuel t : nat) : option (Z * nat) :=
  match fuel with
  | 0 => None
  | S fuel =>
      match k_poll k t with
      | PollEvents true _ => Some (0%Z, S t)
      | PollEvents false true => Some ((-1)%Z, S t)
      | PollEvents false false => http_response_wait_fd_writable k fuel (S t)
      | PollTimeout => Some ((-1)%Z, S t)
      | PollErr EINTR => http_response_wait_fd_writable k fuel (S t)
      | PollErr _ => Some ((-1)%Z, S t)
      end
  end.

(** Result of a write loop: return value, bytes that reached the client, system calls. *)
Definition io_result : Type := option (Z * bytes * nat).

Definition prepend_sent (s : bytes) (r : io_result) : io_result :=
  match r with Some (rc, s', t) => Some (rc, s ++ s', t) | None => None end.

(** What both loops do after a failed write; [continue retries t] is the next
    iteration. *)
Definition on_write_error (k : kernel) (fuel t retries : nat) (e : errno)
    (continue : nat → nat → io_result) : io_result :=
  match e with
  | EINTR => continue retries (S t)
  | EAGAIN =>
      if WRITE_RETRY_LIMIT <? retries then Some ((-1)%Z, [], S t)
      else match http_response_wait_fd_writable k fuel (S t) with
           | None => None
           | Some (rc, t') =>
               if (rc <? 0)%Z then Some ((-1)%Z, [], t') else continue (S retries) t'
           end
  | EOTHER => Some ((-1)%Z, [], S t)
  end.

Fixpoint write_all_loop (k : kernel) (fuel retries t : nat) (data : bytes) : io_result :=
  match fuel with
  | 0 => None
  | S fuel =>
      if length data =? 0 then Some (0%Z, [], t)
      else match k_write k t (length data) with
           | Err e =>
               on_write_error k fuel t retries e
                 (λ retries' t', write_all_loop k fuel retries' t' data)
           | Ret 0 => Some ((-1)%Z, [], S t)
           | Ret w => prepend_sent (take w data) (write_all_loop k fuel 0 (S t) (drop w data))
           end
  end.

Definition http_response_write_all (k : kernel) (fuel t : nat) (data : bytes) : io_result :=
  write_all_loop k fuel 0 t data.

(** The vectors from [iov[idx]] on, after [left] bytes of them were written. *)
Fixpoint iov_advance (left : nat) (iov : list bytes) : list bytes :=
  match iov with
  | [] => []
  | b :: iov' =>
      if length b <=? left then iov_advance (left - length b) iov'
      else (if 0 <? left then drop left b else b) :: iov'
  end.

Fixpoint writev_all_loop (k : kernel) (fuel retries t : nat) (iov : list bytes) : io_result :=
  match fuel with
  | 0 => None
  | S fuel =>
      match iov with
      | [] => Some (0%Z, [], t)
      | _ :: _ =>
          match k_write k t (length (concat iov)) with
          | Err e =>
              on_write_error k fuel t retries e
                (λ retries' t', writev_all_loop k fuel retries' t' iov)
          | Ret 0 => Some ((-1)%Z, [], S t)
          | Ret w =>
              prepend_sent (take w (concat iov))
                (writev_all_loop k fuel 0 (S t) (iov_advance w iov))
          end
      end
  end.

Definition http_response_writev_all (k : kernel) (fuel t : nat) (iov : list bytes) : io_result :=
  writev_all_loop k fuel 0 t iov.

Definition http_response_status_text (code : Z) : bytes :=
  bs (match code with
      | 200 => "OK"
      | 301 => "Moved Permanently"
      | 302 => "Found"
      | 304 => "Not Modified"
      | 400 => "Bad Request"
      | 403 => "Forbidden"
      | 404 => "Not Found"
      | 405 => "Method Not Allowed"
      | 500 => "Internal Server Error"
      | 503 => "Service Unavailable"
      | _ => "Unknown"
      end)%Z.

(** ** Building a response *)

Definition HEADERS_SIZE : nat := N.to_nat 2048.
Definition HEADER_BUFFER_SIZE : nat := N.to_nat 4096.

Lemma HEADERS_SIZE_val : Z.of_nat HEADERS_SIZE = 2048%Z.
Proof. unfold HEADERS_SIZE. lia. Qed.

Lemma HEADER_BUFFER_SIZE_val : Z.of_nat HEADER_BUFFER_SIZE = 4096%Z.
Proof. unfold HEADER_BUFFER_SIZE. lia. Qed.

#[global] Opaque HEADERS_SIZE HEADER_BUFFER_SIZE.

Definition http_response_set_status (r : http_response) (code : Z) : http_response :=
  {| status_code := code; content_type := content_type r; body := body r;
     body_len := body_len r; free_body := free_body r;
     pool_shard_idx := pool_shard_idx r; headers := headers r |}.

Definition http_response_set_body (r : http_response) (b : option bytes) (len : nat)
    (must_free : bool) : http_response :=
  {| status_code := status_code r; content_type := content_type r; body := b;
     body_len := len; free_body := must_free; pool_shard_idx := pool_shard_idx r;
     headers := headers r |}.

Definition set_content_type (r : http_response) (ct : bytes) : http_response :=
  {| status_code := status_code r; content_type := Some ct; body := body r;
     body_len := body_len r; free_body := free_body r;
     pool_shard_idx := pool_shard_idx r; headers := headers r |}.

Definition set_headers (r : http_response) (h : bytes) : http_response :=
  {| status_code := status_code r; content_type := content_type r; body := body r;
     body_len := body_len r; free_body := free_body r;
     pool_shard_idx := pool_shard_idx r; headers := h |}.

Definition header_line (name value : bytes) : bytes := name ++ bs ": " ++ value ++ crlf.

(** On truncation [headers_len] becomes [sizeof(headers) - 1], the length snprintf has
    filled. *)
Definition http_response_add_header (r : http_response) (name value : bytes) : http_response :=
  if HEADERS_SIZE <=? length (headers r) then r
  else
    let space := HEADERS_SIZE - length (headers r) in
    let text := header_line name value in
    if length text <? space then set_headers r (headers r ++ text)
    else set_headers r (headers r ++ strlcpy space text).

Definition response_head (r : http_response) (keep_alive : bool) : bytes :=
  bs "HTTP/1.1 " ++ fmt_Z (status_code r) ++ [space] ++
  http_response_status_text (status_code r) ++ crlf ++
  bs "Content-Type: " ++ default (bs "(null)") (content_type r) ++ crlf ++
  bs "Content-Length: " ++ fmt_nat (body_len r) ++ crlf ++
  bs "Connection: " ++ (if keep_alive then bs "keep-alive" else bs "close") ++ crlf ++
  bs "Server: MiniWeb/kqueue" ++ crlf.

Arguments response_head : simpl never.

(** The bytes of [header] sent before the body, [None] when they do not fit. *)
Definition response_header_block (r : http_response) (keep_alive : bool) : option bytes :=
  let head := response_head r keep_alive in
  if HEADER_BUFFER_SIZE <=? length head then None
  else
    let block :=
      if (0 <? length (headers r)) && (length (headers r) <? HEADER_BUFFER_SIZE - length head)
      then head ++ headers r else head in
    if HEADER_BUFFER_SIZE <=? length block + 2 then None else Some (block ++ crlf).

(** ** The world of a handler *)

Record world := World { w_store : response_store; w_time : nat; w_wire : bytes }.

(** One more question to the system has been answered. *)
Definition tick (w : world) : world :=
  {| w_store := w_store w; w_time := S (w_time w); w_wire := w_wire w |}.

Definition after_io (w : world) (r : io_result) : option (Z * world) :=
  match r with
  | None => None
  | Some (rc, sent, t) =>
      Some (if (rc <? 0)%Z then (-1)%Z else 0%Z,
            {| w_store := w_store w; w_time := t; w_wire := w_wire w ++ sent |})
  end.

Definition http_response_send (k : kernel) (fuel : nat) (req : http_request)
    (r : http_response) (w : world) : option (Z * world) :=
  match response_header_block r (req_keep_alive req) with
  | None => Some ((-1)%Z, w)
  | Some header =>
      match body r with
      | Some b =>
          if 0 <? body_len r
          then after_io w (http_response_writev_all k fuel (w_time w) [header; take (body_len r) b])
          else after_io w (http_response_write_all k fuel (w_time w) header)
      | None => after_io w (http_response_write_all k fuel (w_time w) header)
      end
  end.

(** [resp = http_response_create(); if (!resp) return -1;] the updates [build] of the new
    object, [ret = http_response_send(req, resp); http_response_free(resp);
    return ret;]: the body every sending helper has. *)
Definition respond (k : kernel) (fuel : nat) (tid : Z) (req : http_request)
    (build : http_response → http_response) (w : world) : option (Z * world) :=
  let '(resp, st) := http_response_create tid (k_calloc k (w_time w)) (w_store w) in
  match resp with
  | None => Some ((-1)%Z, {| w_store := st; w_time := w_time w; w_wire := w_wire w |})
  | Some p =>
      let st1 := resp_set st p (build (resp_get st p)) in
      match http_response_send k fuel req (resp_get st1 p)
              {| w_store := st1; w_time := w_time w; w_wire := w_wire w |} with
      | None => None
      | Some (ret, w') =>
          Some (ret, {| w_store := http_response_free (Some p) (w_store w');
                        w_time := w_time w'; w_wire := w_wire w' |})
      end
  end.

(** The page [http_send_error] formats. *)
Definition error_page (code : Z) (message : option bytes) : bytes :=
  bs "<!DOCTYPE html><html><head>" ++ qs "<meta charset='UTF-8'>" ++
  bs "<title>" ++ fmt_Z code ++ bs " Error</title>" ++
  qs "<link rel='stylesheet' href='/static/css/custom.css'>" ++
  bs "</head><body>" ++ qs "<div class='container'>" ++
  bs "<h1>" ++ fmt_Z code ++ bs " Error</h1>" ++
  bs "<p>" ++ default (bs "An error occurred") message ++ bs "</p>" ++
  qs "<hr><p><a href='/'>MiniWeb</a> on OpenBSD</p></div>" ++
  bs "</body></html>".

Definition ERROR_BODY_SIZE : nat := N.to_nat 2048.

Lemma ERROR_BODY_SIZE_val : Z.of_nat ERROR_BODY_SIZE = 2048%Z.
Proof. unfold ERROR_BODY_SIZE. lia. Qed.

#[global] Opaque ERROR_BODY_SIZE.

(** The updates [http_send_error] makes to its new response. *)
Definition error_build (reg : registry) (req : http_request) (code : Z)
    (message : option bytes) (r0 : http_response) : http_response :=
  let page := error_page code message in
  let r1 := http_response_set_status r0 code in
  let r2 := http_response_set_body r1 (Some (strlcpy ERROR_BODY_SIZE page)) (length page) false in
  if (code =? 405)%Z then
    let '(allow, count) := route_allow_methods reg (req_url req) 256 in
    if (0 <? count)%Z then http_response_add_header r2 (bs "Allow") allow else r2
  else r2.

Definition http_send_error (k : kernel) (fuel : nat) (tid : Z) (reg : registry)
    (req : http_request) (code : Z) (message : option bytes) (w : world)
    : option (Z * world) :=
  respond k fuel tid req (error_build reg req code message) w.

Definition http_send_json (k : kernel) (fuel : nat) (tid : Z) (req : http_request)
    (json : bytes) (w : world) : option (Z * world) :=
  respond k fuel tid req (λ r,
    http_response_set_body (set_content_type r (bs "application/json")) (Some json)
      (length json) false) w.

Definition http_send_html (k : kernel) (fuel : nat) (tid : Z) (req : http_request)
    (html : bytes) (w : world) : option (Z * world) :=
  respond k fuel tid req (λ r, http_response_set_body r (Some html) (length html) false) w.

(** ** The write loops *)

Lemma iov_advance_concat w iov : concat (iov_advance w iov) = drop w (concat iov).
Proof.
  revert w. induction iov as [|b iov IH]; intros w; simpl; [by destruct w|].
  destruct (length b <=? w) eqn:E; byte_facts.
  - rewrite IH, drop_app_ge by done. done.
  - destruct (0 <? w) eqn:E0; byte_facts; simpl.
    + by rewrite drop_app_le by lia.
    + assert (w = 0) as -> by lia. done.
Qed.

(** The loop of [writev_all] is done only when all vectors are written. *)
Lemma iov_advance_nil w iov : concat (iov_advance w iov) = [] → iov_advance w iov = [].
Proof.
  revert w. induction iov as [|b iov IH]; intros w; simpl; [done|].
  destruct (length b <=? w) eqn:E; byte_facts; [auto|].
  intros H. simpl in H. apply (f_equal length) in H. rewrite length_app in H.
  destruct (0 <? w); rewrite ?length_drop in H; simpl in H; lia.
Qed.

Lemma writev_all_loop_S k fuel retries t iov :
  iov ≠ [] →
  writev_all_loop k (S fuel) retries t iov =
  match k_write k t (length (concat iov)) with
  | Err e =>
      on_write_error k fuel t retries e
        (λ retries' t', writev_all_loop k fuel retries' t' iov)
  | Ret 0 => Some ((-1)%Z, [], S t)
  | Ret w =>
      prepend_sent (take w (concat iov)) (writev_all_loop k fuel 0 (S t) (iov_advance w iov))
  end.
Proof. by destruct iov. Qed.

Lemma writev_all_loop_eq k fuel retries t iov :
  (concat iov = [] → iov = []) →
  writev_all_loop k fuel retries t iov = write_all_loop k fuel retries t (concat iov).
Proof.
  revert retries t iov. induction fuel as [|fuel IH]; intros retries t iov Hiov; [done|].
  destruct (decide (iov = [])) as [->|Hne]; [done|].
  rewrite writev_all_loop_S by done. cbn [write_all_loop].
  destruct (length (concat iov) =? 0) eqn:E; byte_facts.
  { apply length_zero_iff_nil in E. by apply Hiov in E. }
  destruct (k_write k t (length (concat iov))) as [[|w]|e]; [done| |].
  - rewrite IH; [by rewrite iov_advance_concat | apply iov_advance_nil].
  - unfold on_write_error. destruct e; try done; [by apply IH|].
    destruct (WRITE_RETRY_LIMIT <? retries); [done|].
    destruct (http_response_wait_fd_writable k fuel (S t)) as [[rc t']|]; [|done].
    destruct (rc <? 0)%Z; [done|]. by apply IH.
Qed.

(** C19. Gathered writes are plain writes: sending header and body with
    [http_response_writev_all] makes the same system calls, with the same results, as
    [http_response_write_all] on their concatenation, for every kernel. *)
Theorem writev_all_is_write_all k fuel t iov :
  concat iov ≠ [] →
  http_response_writev_all k fuel t iov = http_response_write_all k fuel t (concat iov).
Proof. intros H. apply writev_all_loop_eq. done. Qed.

(** A kernel that writes three bytes at a time and asks for patience now and then. *)
Definition slow_kernel : kernel :=
  {| k_write := λ t n, if t mod 3 =? 0 then Err EAGAIN else Ret (Nat.min 3 n);
     k_poll := λ _, PollEvents true false;
     k_calloc := λ _, true; k_read := λ _ n, Ret (Nat.min 5 n); k_malloc := λ _, true |}.

#[export] Instance slow_kernel_laws : KernelLaws slow_kernel.
Proof.
  split; intros t n w.
  - cbn [k_write slow_kernel]. destruct (t mod 3 =? 0); [discriminate|].
    intros H. injection H as <-. apply (Nat.le_min_r 3).
  - cbn [k_read slow_kernel]. intros H. injection H as <-. apply (Nat.le_min_r 5).
Qed.

Lemma writev_all_is_write_all_witness :
  http_response_writev_all slow_kernel 20 0 [bs "head"; bs ""; bs "body"] =
  Some (0%Z, bs "headbody", 9).
Proof.
  rewrite (writev_all_is_write_all slow_kernel 20 0 [bs "head"; bs ""; bs "body"]).
  - vm_compute. reflexivity.
  - discriminate.
Defined.

Lemma prepend_sent_Some s r rc sent t :
  prepend_sent s r = Some (rc, sent, t) ↔ ∃ s', r = Some (rc, s', t) ∧ sent = s ++ s'.
Proof. destruct r as [[[??]?]|]; simpl; naive_solver. Qed.

(** The outcome of a failed write: an error with nothing sent, or the next iteration. *)
Lemma on_write_error_Some k fuel t retries e continue r :
  on_write_error k fuel t retries e continue = Some r →
  (∃ t', r = ((-1)%Z, [], t')) ∨ (∃ retries' t', continue retries' t' = Some r).
Proof.
  unfold on_write_error. destruct e; [eauto| |naive_solver].
  destruct (WRITE_RETRY_LIMIT <? retries); [naive_solver|].
  destruct (http_response_wait_fd_writable k fuel (S t)) as [[rc t']|]; [|done].
  destruct (rc <? 0)%Z; naive_solver.
Qed.

Lemma write_all_loop_sent k fuel retries t data rc sent t' :
  write_all_loop k fuel retries t data = Some (rc, sent, t') →
  (rc = 0%Z ∧ sent = data) ∨ (rc = (-1)%Z ∧ ∃ n, n < length data ∧ sent = take n data).
Proof.
  revert retries t data sent. induction fuel as [|fuel IH]; intros retries t data sent; [done|].
  simpl. destruct (length data =? 0) eqn:E; byte_facts.
  { intros [= <- <- <-]. left. split; [done|]. by apply length_zero_iff_nil in E. }
  destruct (k_write k t (length data)) as [[|w]|e] eqn:Ew.
  - intros [= <- <- <-]. right. split; [done|]. exists 0. split; [lia|done].
  - intros (s' & Hs & ->)%prepend_sent_Some. apply IH in Hs as [[-> ->]|[-> (n & Hn & ->)]].
    + left. split; [done|]. apply take_drop.
    + right. split; [done|]. rewrite length_drop in Hn. exists (S w + n). split; [lia|].
      by rewrite take_take_drop.
  - intros [[t'' [= -> -> ->]]|(r' & t'' & H)]%on_write_error_Some.
    + right. split; [done|]. exists 0. split; [lia|done].
    + by apply IH in H.
Qed.

(** No partial success: [http_response_write_all] returns 0 exactly when the
    client has received all the bytes in order, and -1 after a strict prefix of them. *)
Theorem write_all_complete k fuel t data rc sent t' :
  http_response_write_all k fuel t data = Some (rc, sent, t') →
  (rc = 0%Z ∧ sent = data) ∨ (rc = (-1)%Z ∧ ∃ n, n < length data ∧ sent = take n data).
Proof. apply write_all_loop_sent. Qed.

Lemma write_all_complete_witness :
  let '(rc, sent, _) := default (1%Z, [], 0)
    (http_response_write_all slow_kernel 9 0 (bs "hello")) in
  (rc = 0%Z ∧ sent = bs "hello") ∨
  (rc = (-1)%Z ∧ ∃ n, n < 5 ∧ sent = take n (bs "hello")).
Proof.
  exact (write_all_complete slow_kernel 9 0 (bs "hello") 0 (bs "hello") 6 eq_refl).
Defined.

(** From call [T] on, no system call is interrupted by a signal and [poll] reports
    only what was asked for or an error. *)
Definition quiet_from (k : kernel) (T : nat) : Prop :=
  (∀ t n, T ≤ t → k_write k t n ≠ Err EINTR) ∧
  (∀ t, T ≤ t → k_poll k t ≠ PollErr EINTR ∧ k_poll k t ≠ PollEvents false false).

Lemma wait_fd_writable_returns k T fuel t :
  quiet_from k T → T - t < fuel →
  ∃ rc t', http_response_wait_fd_writable k fuel t = Some (rc, t') ∧ t < t'.
Proof.
  intros [_ Hp]. revert t. induction fuel as [|fuel IH]; intros t Hf; [lia|]. simpl.
  assert (k_poll k t = PollErr EINTR ∨ k_poll k t = PollEvents false false → T - S t < fuel)
    as Hnext.
  { intros H. destruct (decide (T ≤ t)) as [Ht|]; [|lia]. destruct (Hp t Ht). tauto. }
  destruct (k_poll k t) as [[] []| |[]]; eauto;
    (destruct (IH (S t)) as (rc & t' & -> & ?); [auto|]; exists rc, t'; split; [done|lia]).
Qed.

Lemma write_all_loop_returns k T fuel retries t data :
  KernelLaws k → quiet_from k T → retries ≤ 6 →
  (T - t) + 8 * length data + (7 - retries) < fuel →
  ∃ r, write_all_loop k fuel retries t data = Some r.
Proof.
  intros Hk Hq. revert retries t data.
  induction fuel as [|fuel IH]; intros retries t data Hr Hf; [lia|]. simpl.
  destruct (length data =? 0) eqn:E; byte_facts; [eauto|].
  destruct (k_write k t (length data)) as [[|w]|e] eqn:Ew; [eauto| |].
  - apply k_write_le in Ew.
    destruct (IH 0 (S t) (drop (S w) data)) as [[[rc s] t'] ->]; [lia| |by eexists].
    rewrite length_drop. lia.
  - unfold on_write_error. destruct e; [|destruct (WRITE_RETRY_LIMIT <? retries) eqn:El|]; eauto.
    + apply IH; [lia|]. destruct (decide (T ≤ t)) as [Ht|]; [|lia].
      destruct (proj1 Hq t (length data) Ht). done.
    + unfold WRITE_RETRY_LIMIT in El. byte_facts.
      destruct (wait_fd_writable_returns k T fuel (S t) Hq) as (rc & t' & -> & ?); [lia|].
      destruct (rc <? 0)%Z; [eauto|]. apply IH; lia.
Qed.

(** C22. The write loop terminates: once signals stop interrupting it (from the [T]-th
    system call on), at most [8 * n + 7] further iterations write [n] bytes or give up,
    however the kernel splits the writes and makes the server wait. *)
Theorem write_all_terminates k T fuel t data :
  KernelLaws k → quiet_from k T → (T - t) + 8 * length data + 7 < fuel →
  ∃ r, http_response_write_all k fuel t data = Some r.
Proof. intros Hk Hq Hf. apply (write_all_loop_returns k T); [done|done|lia|lia]. Qed.

Lemma write_all_terminates_witness :
  ∃ r, http_response_write_all slow_kernel 48 0 (bs "hello") = Some r.
Proof.
  apply (write_all_terminates slow_kernel 0 48 0 (bs "hello")); [exact _| |simpl; lia].
  split; [|done]. intros t n _. cbn [k_write slow_kernel]. by destruct (t mod 3 =? 0).
Defined.

(** ** Headers *)

Lemma add_header_headers r name value :
  length (headers r) < HEADERS_SIZE →
  headers (http_response_add_header r name value) =
  take (HEADERS_SIZE - 1) (headers r ++ header_line name value).
Proof.
  intros Hr. unfold http_response_add_header.
  rewrite (proj2 (Nat.leb_gt _ _)) by done.
  destruct (length (header_line name value) <? HEADERS_SIZE - length (headers r)) eqn:E;
    byte_facts; simpl.
  - rewrite take_ge; [done|]. rewrite length_app. lia.
  - unfold strlcpy. rewrite take_app_ge by lia. do 2 f_equal. lia.
Qed.

(** Adding headers: after any sequence of additions to an empty header area, the
    headers are the concatenated lines cut at 2047 bytes (the last line may lose its line
    end), and nothing is ever written outside the array. *)
Theorem add_headers_spec r hs :
  headers r = [] →
  headers (foldl (λ r h, http_response_add_header r h.1 h.2) r hs) =
  take (HEADERS_SIZE - 1) (concat ((λ h, header_line h.1 h.2) <$> hs)).
Proof.
  pose proof HEADERS_SIZE_val as Hsz. intros Hr.
  induction hs as [|h hs IH] using rev_ind;
    [cbn [foldl fmap list_fmap concat]; by rewrite take_nil|].
  rewrite foldl_snoc, add_header_headers, IH.
  - rewrite fmap_app, concat_app. simpl. rewrite app_nil_r.
    set (a := concat _). set (b := header_line _ _). clear.
    destruct (decide (length a ≤ HEADERS_SIZE - 1)).
    + by rewrite (take_ge a) by done.
    + rewrite (take_app_le (take _ a)), (take_app_le a) by (rewrite ?length_take; lia).
      by rewrite take_take, Nat.min_id.
  - rewrite IH, length_take. lia.
Qed.

Lemma add_headers_spec_witness :
  headers (http_response_add_header
    (http_response_add_header zero_response (bs "Allow") (bs "GET")) (bs "X") (bs "1")) =
  bs "Allow: GET" ++ crlf ++ bs "X: 1" ++ crlf.
Proof.
  refine (eq_trans (add_headers_spec zero_response
    [(bs "Allow", bs "GET"); (bs "X", bs "1")] eq_refl) _).
  vm_compute. reflexivity.
Defined.

(** ** Sending *)

(** What the client is sent: status line, headers, blank line, body. *)
Definition response_text (r : http_response) (keep_alive : bool) : bytes :=
  response_head r keep_alive ++ headers r ++ crlf ++
  match body r with Some b => take (body_len r) b | None => [] end.

Lemma response_text_nonempty r keep_alive : 0 < length (response_text r keep_alive).
Proof.
  unfold response_text. rewrite !length_app. change (length crlf) with 2. lia.
Qed.

Lemma response_header_block_fits r keep_alive :
  length (response_head r keep_alive ++ headers r) + 2 < HEADER_BUFFER_SIZE →
  response_header_block r keep_alive =
  Some (response_head r keep_alive ++ headers r ++ crlf).
Proof.
  unfold response_header_block. generalize (response_head r keep_alive).
  intros head H. rewrite length_app in H.
  rewrite (proj2 (Nat.leb_gt HEADER_BUFFER_SIZE (length head))) by lia.
  destruct (0 <? length (headers r)) eqn:E0; byte_facts; cbn [andb].
  - rewrite (proj2 (Nat.ltb_lt (length (headers r)) _)) by lia. cbv iota. rewrite length_app.
    rewrite (proj2 (Nat.leb_gt _ _)) by lia. by rewrite <- app_assoc.
  - rewrite (proj2 (Nat.leb_gt _ _)) by lia.
    assert (headers r = []) as -> by (apply length_zero_iff_nil; lia). done.
Qed.

Lemma http_response_send_spec k fuel req r w rc w' :
  length (response_head r (req_keep_alive req) ++ headers r) + 2 < HEADER_BUFFER_SIZE →
  http_response_send k fuel req r w = Some (rc, w') →
  w_store w' = w_store w ∧
  ((rc = 0%Z ∧ w_wire w' = w_wire w ++ response_text r (req_keep_alive req)) ∨
   (rc = (-1)%Z ∧ ∃ n, n < length (response_text r (req_keep_alive req)) ∧
      w_wire w' = w_wire w ++ take n (response_text r (req_keep_alive req)))).
Proof.
  intros Hfit. unfold http_response_send. rewrite response_header_block_fits by done.
  set (header := response_head r (req_keep_alive req) ++ headers r ++ crlf).
  assert (header ≠ []) as Hne.
  { unfold header. intros H. apply (f_equal length) in H. rewrite !length_app in H.
    simpl length in H. lia. }
  (* either branch sends the whole text *)
  assert (∀ data, data = response_text r (req_keep_alive req) →
    after_io w (http_response_write_all k fuel (w_time w) data) = Some (rc, w') →
    w_store w' = w_store w ∧
    ((rc = 0%Z ∧ w_wire w' = w_wire w ++ response_text r (req_keep_alive req)) ∨
     (rc = (-1)%Z ∧ ∃ n, n < length (response_text r (req_keep_alive req)) ∧
        w_wire w' = w_wire w ++ take n (response_text r (req_keep_alive req))))) as Hall.
  { intros data ->. unfold after_io.
    destruct (http_response_write_all _ _ _ _) as [[[rc0 s] t]|] eqn:E; [|done].
    intros [= <- <-]. simpl. split; [done|].
    apply write_all_loop_sent in E as [[-> ->]|[-> (n & ? & ->)]]; [by left|right; eauto]. }
  unfold response_text in Hall |- *.
  destruct (body r) as [b|] eqn:Eb.
  - destruct (Nat.ltb_spec 0 (body_len r)) as [El|El].
    + unfold http_response_writev_all. rewrite writev_all_loop_eq.
      * apply Hall. simpl. unfold header. by rewrite app_nil_r, <- !app_assoc.
      * intros H. cbn [concat] in H. by apply app_nil in H as [? _].
    + assert (body_len r = 0) as Hz by lia. rewrite Hz in *. apply Hall. unfold header.
      by rewrite take_0, !app_nil_r.
  - apply Hall. unfold header. by rewrite !app_nil_r.
Qed.

(** Sending does not touch the response objects. *)
Lemma http_response_send_store k fuel req r w rc w' :
  http_response_send k fuel req r w = Some (rc, w') → w_store w' = w_store w.
Proof.
  unfold http_response_send. intros H.
  assert (∀ x, after_io w x = Some (rc, w') → w_store w' = w_store w) as Hio.
  { intros [[[rc0 s] t]|]; simpl; [|done]. by intros [= _ <-]. }
  destruct (response_header_block _ _); [|by simplify_eq/=].
  destruct (body _); [destruct (0 <? _)|]; by eapply Hio.
Qed.

Lemma respond_spec k fuel tid req build w rc w' live :
  (∀ r, pool_shard_idx (build r) = pool_shard_idx r) →
  store_wf live (w_store w) →
  respond k fuel tid req build w = Some (rc, w') →
  store_wf live (w_store w') ∧
  (rc = (-1)%Z ∧ w_wire w' = w_wire w ∨
   ∃ shard, let r := build (initial_response (with_shard zero_response shard)) in
     length (response_head r (req_keep_alive req) ++ headers r) + 2 < HEADER_BUFFER_SIZE →
     (rc = 0%Z ∧ w_wire w' = w_wire w ++ response_text r (req_keep_alive req)) ∨
     (rc = (-1)%Z ∧ ∃ n, n < length (response_text r (req_keep_alive req)) ∧
        w_wire w' = w_wire w ++ take n (response_text r (req_keep_alive req)))).
Proof.
  intros Hbuild Hwf. unfold respond.
  pose proof (create_spec live (w_store w) tid (k_calloc k (w_time w)) Hwf) as Hc.
  destruct (http_response_create _ _ _) as [[p|] st]; last first.
  { intros [= <- <-]. simpl. destruct Hc as (_ & _ & ? & _). auto. }
  destruct Hc as (_ & Hnl & Hwf1 & Hget).
  destruct (resp_set_wf (also p live) st p (build (resp_get st p))) as (Hwf2 & Hget2 & _);
    [done|by left|apply Hbuild|].
  set (st1 := resp_set st p (build (resp_get st p))) in *.
  destruct (http_response_send _ _ _ _ _) as [[ret w1]|] eqn:Es; [|done].
  intros [= <- <-]. cbn [w_store w_wire].
  assert (w_store w1 = st1) as Hst1 by by apply http_response_send_store in Es.
  rewrite Hst1. split; [by apply free_also|].
  right. exists (pool_shard_idx (resp_get st p)). rewrite <- Hget, <- Hget2. intros Hfit.
  by destruct (http_response_send_spec _ _ _ _ _ _ _ Hfit Es) as [_ ?].
Qed.

(** ** What a client reads

    A reference HTTP client: it reads header lines up to an empty one and then as many
    bytes as [Content-Length] says. *)

Fixpoint read_head (fuel : nat) (wire : bytes) (len : option Z) : option (option Z * bytes) :=
  match fuel with
  | 0 => None
  | S fuel =>
      match strstr wire crlf with
      | None => None
      | Some i =>
          let line := take i wire in
          let rest := drop (i + 2) wire in
          if i =? 0 then Some (len, rest)
          else read_head fuel rest
                 (if is_prefix (bs "Content-Length: ") line
                  then Some (digits_val 0 (drop 16 line)) else len)
      end
  end.

(** The body and what follows the response. *)
Definition client_read (wire : bytes) : option (bytes * bytes) :=
  match read_head (S (length wire)) wire None with
  | Some (Some n, rest) =>
      if (n <=? Z.of_nat (length rest))%Z
      then Some (take (Z.to_nat n) rest, drop (Z.to_nat n) rest) else None
  | _ => None
  end.

Lemma strstr_line l r : cr ∉ l → strstr (l ++ crlf ++ r) crlf = Some (length l).
Proof.
  intros Hl. apply strstr_Some. split_and!.
  - rewrite drop_app_length. apply is_prefix_app.
  - rewrite length_app. lia.
  - intros j Hj. destruct (is_prefix crlf (drop j (l ++ crlf ++ r))) eqn:E; [|done].
    apply is_prefix_spec in E as [post E]. destruct Hl.
    rewrite drop_app_le in E by lia. apply (elem_of_drop_take cr j). right.
    destruct (drop j l) as [|x d] eqn:Ed.
    + apply (f_equal length) in Ed. rewrite length_drop in Ed. simpl in Ed. lia.
    + simplify_eq/=. left.
Qed.

Definition text_lines (ls : list bytes) : bytes := concat ((λ l, l ++ crlf) <$> ls).

Definition header_lines_len (ls : list bytes) (len : option Z) : option Z :=
  foldl (λ acc l, if is_prefix (bs "Content-Length: ") l
                  then Some (digits_val 0 (drop 16 l)) else acc) len ls.

Lemma read_head_lines ls fuel r len :
  Forall (λ l, cr ∉ l ∧ l ≠ []) ls → length ls < fuel →
  read_head fuel (text_lines ls ++ crlf ++ r) len = Some (header_lines_len ls len, r).
Proof.
  intros Hls. revert fuel len. induction Hls as [|l ls [Hcr Hne] _ IH]; intros fuel len Hf.
  - destruct fuel as [|fuel]; [simpl in Hf; lia|]. done.
  - destruct fuel as [|fuel]; [simpl in Hf; lia|]. cbn [read_head].
    unfold text_lines. rewrite fmap_cons. cbn [concat]. fold (text_lines ls).
    rewrite <- !app_assoc, (strstr_line l) by done.
    rewrite (proj2 (Nat.eqb_neq (length l) 0)) by (by destruct l).
    rewrite take_app_length, drop_app_add. cbn [drop crlf app].
    rewrite IH by (simpl in Hf; lia). done.
Qed.

Definition no_cr (s : bytes) : bool := forallb (λ c, negb (Ascii.eqb c cr)) s.

Lemma no_cr_spec s : no_cr s = true → cr ∉ s.
Proof.
  unfold no_cr. rewrite forallb_forall. intros H Hin.
  apply list_elem_of_In, H in Hin. by rewrite ascii_eqb_refl in Hin.
Qed.

Lemma no_cr_app a b : no_cr (a ++ b) = no_cr a && no_cr b.
Proof. apply forallb_app. Qed.

Lemma no_cr_digits s : Forall (λ c, isdigit c = true) s → no_cr s = true.
Proof.
  intros Hs. apply forallb_forall. intros c Hc%list_elem_of_In.
  rewrite Forall_forall in Hs. specialize (Hs c Hc). 
  apply negb_true_iff, ascii_eqb_false. intros ->. by vm_compute in Hs.
Qed.

Lemma status_text_check code :
  no_cr (http_response_status_text code) &&
  (length (http_response_status_text code) <=? 21) = true.
Proof. unfold http_response_status_text. repeat case_match; reflexivity. Qed.

Definition head_lines (r : http_response) (keep_alive : bool) : list bytes :=
  [ bs "HTTP/1.1 " ++ fmt_Z (status_code r) ++ [space] ++
      http_response_status_text (status_code r);
    bs "Content-Type: " ++ default (bs "(null)") (content_type r);
    bs "Content-Length: " ++ fmt_nat (body_len r);
    bs "Connection: " ++ (if keep_alive then bs "keep-alive" else bs "close");
    bs "Server: MiniWeb/kqueue" ].

Lemma response_head_lines r ka : response_head r ka = text_lines (head_lines r ka).
Proof.
  unfold response_head, text_lines, head_lines. cbn [fmap list_fmap concat].
  by rewrite <- !app_assoc, app_nil_r.
Qed.

(** The server's own responses: a status of at most three digits and a short type. *)
Record plain_response (r : http_response) (ct : bytes) (b : bytes) : Prop := {
  plain_code : (0 ≤ status_code r < 1000)%Z;
  plain_ct : content_type r = Some ct;
  plain_ct_cr : no_cr ct = true;
  plain_ct_len : length ct ≤ 64;
  plain_body : body r = Some b;
  plain_body_len : body_len r = length b;
  plain_body_int : (Z.of_nat (length b) < 10 ^ 20)%Z;
}.

Lemma response_head_length r ct b ka :
  plain_response r ct b → length (response_head r ka) ≤ 256.
Proof.
  intros []. rewrite response_head_lines. unfold text_lines, head_lines.
  cbn [fmap list_fmap concat]. rewrite !length_app.
  pose proof (status_text_check (status_code r)) as Hst. bool_facts.
  rewrite plain_ct0. cbn [default from_option]. rewrite fmt_Z_nonneg by lia.
  assert (length (fmt_nat (Z.to_nat (status_code r))) ≤ 3) by (apply fmt_nat_length; lia).
  assert (length (fmt_nat (body_len r)) ≤ 20)
    by (apply fmt_nat_length; [lia|rewrite plain_body_len0; lia]).
  assert (length (if ka then bs "keep-alive" else bs "close") ≤ 10) by (destruct ka; vm_compute; lia).
  repeat match goal with |- context [length (bs ?s)] =>
    let n := eval vm_compute in (length (bs s)) in change (length (bs s)) with n end.
  simpl length. lia.
Qed.

Lemma small_headers_fit r ct b ka :
  plain_response r ct b → length (headers r) < HEADERS_SIZE →
  length (response_head r ka ++ headers r) + 2 < HEADER_BUFFER_SIZE.
Proof.
  intros Hpl Hh. pose proof (response_head_length _ _ _ ka Hpl).
  pose proof HEADER_BUFFER_SIZE_val. pose proof HEADERS_SIZE_val. rewrite length_app. lia.
Qed.

Lemma head_lines_ok r ct b ka :
  plain_response r ct b → Forall (λ l, cr ∉ l ∧ l ≠ []) (head_lines r ka).
Proof.
  intros []. pose proof (status_text_check (status_code r)) as Hst. bool_facts.
  unfold head_lines. rewrite plain_ct0. cbn [default from_option].
  assert (no_cr (fmt_Z (status_code r)) = true).
  { rewrite fmt_Z_nonneg by lia. apply no_cr_digits, fmt_nat_digits. }
  assert (no_cr (fmt_nat (body_len r)) = true) by apply no_cr_digits, fmt_nat_digits.
  rewrite !Forall_cons, Forall_nil. split_and!; try done; apply no_cr_spec; rewrite ?no_cr_app.
  all: repeat (apply andb_true_iff; split); try done.
  by destruct ka.
Qed.

(** A response whose added headers are whole lines reads back. *)
Lemma client_read_response r ct b ka extra rest :
  plain_response r ct b → headers r = text_lines extra →
  Forall (λ l, cr ∉ l ∧ l ≠ [] ∧ is_prefix (bs "Content-Length: ") l = false) extra →
  client_read (response_text r ka ++ rest) = Some (b, rest).
Proof.
  intros Hr Hh Hex. pose proof (head_lines_ok r ct b ka Hr) as Hlines.
  unfold client_read, response_text. destruct Hr.
  rewrite plain_body0, plain_body_len0, (take_ge b) by done.
  assert ((response_head r ka ++ headers r ++ crlf ++ b) ++ rest =
    text_lines (head_lines r ka ++ extra) ++ crlf ++ b ++ rest) as ->.
  { rewrite response_head_lines, Hh. unfold text_lines.
    by rewrite fmap_app, concat_app, <- !app_assoc. }
  assert (∀ ls : list bytes, length ls ≤ length (text_lines ls)) as Htl.
  { intros ls. unfold text_lines. induction ls as [|l ls IH]; [done|].
    rewrite fmap_cons. cbn [concat]. rewrite !length_app. simpl. lia. }
  rewrite read_head_lines.
  - assert (header_lines_len (head_lines r ka ++ extra) None = Some (Z.of_nat (length b))) as ->.
    { unfold header_lines_len. rewrite foldl_app.
      assert (foldl (λ acc l, if is_prefix (bs "Content-Length: ") l
        then Some (digits_val 0 (drop 16 l)) else acc) None (head_lines r ka) =
        Some (Z.of_nat (length b))) as ->.
      { unfold head_lines. rewrite plain_body_len0. cbn [foldl].
        rewrite is_prefix_app.
        replace (is_prefix (bs "Content-Length: ")
          (bs "Connection: " ++ if ka then bs "keep-alive" else bs "close")) with false
          by (by destruct ka).
        change (drop 16 (bs "Content-Length: " ++ fmt_nat (length b))) with (fmt_nat (length b)).
        rewrite <- (app_nil_r (fmt_nat (length b))), digits_val_fmt_nat. done. }
      clear - Hex. induction Hex as [|l ls (_ & _ & Hl) _ IH]; [done|].
      cbn [foldl]. by rewrite Hl. }
    rewrite length_app, (proj2 (Z.leb_le _ _)) by lia.
    by rewrite Nat2Z.id, take_app_length, drop_app_length.
  - apply Forall_app. split; [done|]. eapply Forall_impl; [exact Hex|]. naive_solver.
  - specialize (Htl (head_lines r ka ++ extra)). rewrite !length_app in *. lia.
Qed.

(** [text] is a complete response: a client reads [b] from it and nothing more. *)
Definition carries (text b : bytes) : Prop :=
  ∀ rest, client_read (text ++ rest) = Some (b, rest).

(** A response without extra headers reaches the client whole, or the reply fails after a
    proper prefix of it. *)
Definition delivers (live : resp_ptr → Prop) (b : bytes) (w : world) (rc : Z) (w' : world) : Prop :=
  store_wf live (w_store w') ∧
  ∃ text, carries text b ∧
    (rc = 0%Z ∧ w_wire w' = w_wire w ++ text ∨
     rc = (-1)%Z ∧ ∃ n, n < length text ∧ w_wire w' = w_wire w ++ take n text).

(** A call that succeeds and leaves the connection open has written one response. *)
Definition framed (w : world) (rc : Z) (keep : bool) (w' : world) : Prop :=
  rc = 0%Z → keep = true → ∃ text b, carries text b ∧ w_wire w' = w_wire w ++ text.

Lemma delivers_framed live b w rc keep w' : delivers live b w rc w' → framed w rc keep w'.
Proof. intros (_ & text & Hc & [[_ Hw]|[-> _]]) Hrc _; [by exists text, b|done]. Qed.

Lemma respond_delivers_with k fuel tid req build ct b extra w rc w' live :
  (∀ r, pool_shard_idx (build r) = pool_shard_idx r) →
  (∀ sh, let r := build (initial_response (with_shard zero_response sh)) in
     plain_response r ct b ∧ headers r = text_lines extra) →
  Forall (λ l, cr ∉ l ∧ l ≠ [] ∧ is_prefix (bs "Content-Length: ") l = false) extra →
  length (text_lines extra) < HEADERS_SIZE →
  store_wf live (w_store w) → respond k fuel tid req build w = Some (rc, w') →
  delivers live b w rc w'.
Proof.
  intros Hshard Hpl Hex Hel Hwf H.
  eapply respond_spec in H as [Hwf' H]; [|done|exact Hwf]. split; [done|].
  set (r0 sh := build (initial_response (with_shard zero_response sh))) in *.
  assert (∀ sh, carries (response_text (r0 sh) (req_keep_alive req)) b) as Hread.
  { intros sh rest. destruct (Hpl sh) as [Hp Hh].
    by apply (client_read_response _ _ _ _ extra rest Hp). }
  destruct H as [[-> Hw]|[sh H]].
  - exists (response_text (r0 0%Z) (req_keep_alive req)). split; [done|].
    right. split; [done|]. exists 0. rewrite take_0, app_nil_r. split; [|done].
    apply response_text_nonempty.
  - exists (response_text (r0 sh) (req_keep_alive req)). split; [done|].
    destruct (Hpl sh) as [Hp Hh].
    apply H, (small_headers_fit (r0 sh) _ _ _ Hp). unfold r0. by rewrite Hh.
Qed.

Lemma respond_delivers k fuel tid req build ct b w rc w' live :
  (∀ r, pool_shard_idx (build r) = pool_shard_idx r) →
  (∀ sh, let r := build (initial_response (with_shard zero_response sh)) in
     plain_response r ct b ∧ headers r = []) →
  store_wf live (w_store w) → respond k fuel tid req build w = Some (rc, w') →
  delivers live b w rc w'.
Proof.
  intros Hshard Hpl. apply (respond_delivers_with _ _ _ _ _ ct _ []); [done|done|done|].
  pose proof HEADERS_SIZE_val. simpl. lia.
Qed.

Lemma http_send_html_delivers k fuel tid req html must_free w rc w' live :
  store_wf live (w_store w) → (Z.of_nat (length html) < 10 ^ 20)%Z →
  respond k fuel tid req (λ r, http_response_set_body r (Some html) (length html) must_free) w
    = Some (rc, w') →
  delivers live html w rc w'.
Proof.
  intros Hwf Hlen. apply respond_delivers with (bs "text/html; charset=utf-8"); [done| |done].
  intros sh. split; [|done]. split; [simpl; lia|done|done|by apply Nat.leb_le|done|done|done].
Qed.

(** [http_send_json] returns 0 exactly when it appended to the connection one
    complete response that carries the JSON text, from which a client can tell where the
    next response starts; otherwise it returns -1 after a proper prefix of it.  In both
    cases the response object is given back and no other object is touched. *)
Theorem http_send_json_delivers k fuel tid req json w rc w' live :
  store_wf live (w_store w) → (Z.of_nat (length json) < 10 ^ 20)%Z →
  http_send_json k fuel tid req json w = Some (rc, w') →
  store_wf live (w_store w') ∧
  ∃ text, carries text json ∧
    (rc = 0%Z ∧ w_wire w' = w_wire w ++ text ∨
     rc = (-1)%Z ∧ ∃ n, n < length text ∧ w_wire w' = w_wire w ++ take n text).
Proof.
  intros Hwf Hlen. unfold http_send_json.
  apply respond_delivers with (bs "application/json"); [done| |done].
  intros sh. split; [|done]. split; [simpl; lia|done|done|by apply Nat.leb_le|done|done|done].
Qed.

Definition test_request : http_request :=
  {| req_fd := 7; req_method := bs "GET"; req_url := bs "/api/metrics";
     req_version := bs "HTTP/1.1"; req_keep_alive := true; req_buffer := [];
     req_buffer_len := 0; req_client_addr := None; hdr_scratch := []; ip_scratch := [] |}.

Definition test_world : world := {| w_store := initial_store; w_time := 0; w_wire := [] |}.

(** A kernel that takes every write whole. *)
Definition eager_kernel : kernel :=
  {| k_write := λ _ n, Ret n; k_poll := λ _, PollEvents true false; k_calloc := λ _, true;
     k_read := λ _ n, Ret n; k_malloc := λ _, true |}.

Lemma http_send_json_delivers_witness :
  ∃ text, carries text (qs "{'a':1}") ∧
    ∃ n, n ≤ length text ∧
    option_map (λ r, w_wire r.2)
      (http_send_json eager_kernel 5 3 test_request (qs "{'a':1}") test_world) =
    Some (take n text).
Proof.
  destruct (http_send_json eager_kernel 5 3 test_request (qs "{'a':1}") test_world)
    as [[rc w']|] eqn:E.
  - destruct (http_send_json_delivers eager_kernel 5 3 test_request (qs "{'a':1}") test_world
      rc w' (λ _, False)) as (_ & text & Hc & H).
    + apply initial_store_wf.
    + vm_compute. reflexivity.
    + exact E.
    + exists text. split; [exact Hc|]. cbn [option_map snd].
      destruct H as [(_ & ->)|(_ & n & Hn & ->)].
      * exists (length text). split; [lia|]. by rewrite take_ge.
      * exists n. split; [lia|]. done.
  - exfalso. apply (f_equal (λ o, match o with Some _ => true | None => false end)) in E.
    vm_compute in E. discriminate E.
Defined.

Lemma set_headers_id r h : headers r = h → set_headers r h = r.
Proof. by destruct r; intros <-. Qed.

Lemma error_page_length code message :
  (0 ≤ code < 1000)%Z → length (default [] message) ≤ 1024 →
  length (error_page code message) < ERROR_BODY_SIZE.
Proof.
  intros Hc Hm. pose proof ERROR_BODY_SIZE_val.
  unfold error_page. rewrite !length_app.
  rewrite fmt_Z_nonneg by lia.
  assert (length (fmt_nat (Z.to_nat code)) ≤ 3) by (apply fmt_nat_length; lia).
  assert (length (default (bs "An error occurred") message) ≤ 1024).
  { destruct message; cbn [default from_option] in *; [lia|]. vm_compute. lia. }
  repeat match goal with
  | |- context [length (bs ?s)] =>
    let n := eval vm_compute in (length (bs s)) in change (length (bs s)) with n
  | |- context [length (qs ?s)] =>
    let n := eval vm_compute in (length (qs s)) in change (length (qs s)) with n
  end. lia.
Qed.

(** The error response under the program's tables, with the Allow header or not. *)
Lemma add_header_shard r name value :
  pool_shard_idx (http_response_add_header r name value) = pool_shard_idx r.
Proof.
  unfold http_response_add_header. by destruct (_ <=? _); [|destruct (_ <? _)].
Qed.

(** A header that fits is added as one more line. *)
Lemma add_header_fits r name value ls :
  headers r = text_lines ls →
  length (text_lines (ls ++ [name ++ bs ": " ++ value])) < HEADERS_SIZE →
  http_response_add_header r name value
  = set_headers r (text_lines (ls ++ [name ++ bs ": " ++ value])).
Proof.
  intros Hr. assert (text_lines (ls ++ [name ++ bs ": " ++ value])
    = text_lines ls ++ header_line name value) as ->.
  { unfold text_lines, header_line. rewrite fmap_app, concat_app. cbn.
    by rewrite app_nil_r, <- !app_assoc. }
  rewrite length_app. intros Hl. unfold http_response_add_header. rewrite Hr.
  rewrite (proj2 (Nat.leb_gt _ _)) by lia. by rewrite (proj2 (Nat.ltb_lt _ _)) by lia.
Qed.

(** The answers of the API handlers: a status, a content type, one header and a body. *)
Lemma api_answer_delivers k fuel tid req ct name value b free w rc w' live :
  no_cr ct = true → length ct ≤ 64 →
  no_cr (name ++ bs ": " ++ value) = true → name ++ bs ": " ++ value ≠ [] →
  is_prefix (bs "Content-Length: ") (name ++ bs ": " ++ value) = false →
  length (name ++ bs ": " ++ value) ≤ 64 →
  store_wf live (w_store w) → (Z.of_nat (length b) < 10 ^ 20)%Z →
  respond k fuel tid req (λ r, http_response_set_body
    (http_response_add_header (set_content_type (http_response_set_status r 200) ct) name value)
    (Some b) (length b) free) w = Some (rc, w') →
  delivers live b w rc w'.
Proof.
  intros Hct Hctl Hcr Hne Hpre Hlen Hwf Hb. pose proof HEADERS_SIZE_val.
  assert (length (text_lines [name ++ bs ": " ++ value]) < HEADERS_SIZE) as Hfit.
  { unfold text_lines. cbn [fmap list_fmap concat]. rewrite app_nil_r, length_app.
    change (length crlf) with 2. lia. }
  apply (respond_delivers_with _ _ _ _ _ ct _ [name ++ bs ": " ++ value]); [| |  |done|done].
  - intros r. cbn [http_response_set_body pool_shard_idx]. by rewrite add_header_shard.
  - intros sh. cbv zeta. rewrite (add_header_fits _ name value []) by done.
    split; [|done]. split; [simpl; lia|done..].
  - apply Forall_singleton. split_and!; [by apply no_cr_spec|done|done].
Qed.

Lemma error_build_eq conf reg req code message :
  ∃ extra, length (text_lines extra) ≤ 12 ∧
    Forall (λ l, cr ∉ l ∧ l ≠ [] ∧ is_prefix (bs "Content-Length: ") l = false) extra ∧
    ∀ r, headers r = [] →
      error_build (init_routes conf reg) req code message r =
      set_headers (http_response_set_body (http_response_set_status r code)
        (Some (strlcpy ERROR_BODY_SIZE (error_page code message)))
        (length (error_page code message)) false) (text_lines extra).
Proof.
  unfold error_build. destruct (code =? 405)%Z.
  - destruct (init_routes_allow conf reg (req_url req)) as [E|E]; cbv zeta in E; rewrite E.
    + exists []. split_and!; [simpl; lia|done|]. intros r Hr. symmetry.
      by apply set_headers_id.
    + exists [bs "Allow: GET"]. split_and!; [vm_compute; lia| |].
      { apply Forall_singleton. split_and!; [|done|done]. by apply no_cr_spec. }
      intros r Hr. pose proof HEADERS_SIZE_val. cbv beta iota zeta.
      cbn [http_response_set_body http_response_set_status Z.ltb Z.compare].
      apply (add_header_fits _ (bs "Allow") (bs "GET") []); [done|].
      change (length (text_lines _)) with 12. lia.
  - exists []. split_and!; [simpl; lia|done|]. intros r Hr. symmetry.
    by apply set_headers_id.
Qed.

Lemma error_build_shard reg req code message r :
  pool_shard_idx (error_build reg req code message r) = pool_shard_idx r.
Proof.
  unfold error_build. destruct (code =? 405)%Z; [|done].
  destruct (route_allow_methods _ _ _) as [a n]. destruct (0 <? n)%Z; [|done].
  by rewrite add_header_shard.
Qed.

Lemma http_send_error_sends k fuel tid conf reg req code message w rc w' live :
  store_wf live (w_store w) → (0 ≤ code < 1000)%Z → length (default [] message) ≤ 1024 →
  http_send_error k fuel tid (init_routes conf reg) req code message w = Some (rc, w') →
  store_wf live (w_store w') ∧
  ∃ text, carries text (error_page code message) ∧
    (rc = 0%Z ∧ w_wire w' = w_wire w ++ text ∨
     rc = (-1)%Z ∧ ∃ n, n < length text ∧ w_wire w' = w_wire w ++ take n text).
Proof.
  intros Hwf Hcode Hmsg H. unfold http_send_error in H.
  pose proof (error_page_length code message Hcode Hmsg) as Hpage.
  destruct (error_build_eq conf reg req code message) as (extra & Hel & Hex & Heq).
  revert H. apply (respond_delivers_with _ _ _ _ _ (bs "text/html; charset=utf-8") _ extra);
    [apply error_build_shard| |done| |done].
  - intros sh. cbv zeta. rewrite Heq by done. split; [|done].
    pose proof ERROR_BODY_SIZE_val. rewrite (strlcpy_id _ _ Hpage).
    split; [done|done|done|by apply Nat.leb_le|done|done|lia].
  - pose proof HEADERS_SIZE_val. lia.
Qed.

(** [http_send_error] sends the whole error page (its 2048-byte buffer holds it for
    every message of at most 1024 bytes), as a response a client can delimit, with the
    Allow header on a 405 under the program's route tables, and gives the response
    object back. *)
Theorem http_send_error_delivers k fuel tid conf reg req code message w rc w' live :
  store_wf live (w_store w) → (0 ≤ code < 1000)%Z → length (default [] message) ≤ 1024 →
  http_send_error k fuel tid (init_routes conf reg) req code message w = Some (rc, w') →
  store_wf live (w_store w') ∧
  ∃ text, carries text (error_page code message) ∧
    (rc = 0%Z ∧ w_wire w' = w_wire w ++ text ∨
     rc = (-1)%Z ∧ ∃ n, n < length text ∧ w_wire w' = w_wire w ++ take n text).
Proof. apply http_send_error_sends. Qed.

Lemma error_delivers k fuel tid conf reg req code msg w live rc w' :
  store_wf live (w_store w) → (0 ≤ code < 1000)%Z → length msg ≤ 1024 →
  http_send_error k fuel tid (init_routes conf reg) req code (Some msg) w = Some (rc, w') →
  delivers live (error_page code (Some msg)) w rc w'.
Proof. intros Hwf Hc Hl H. by eapply http_send_error_sends. Qed.

(** The same from a later world in which nothing has been written yet. *)
Lemma error_delivers_later k fuel tid conf reg req code msg w0 w live o :
  (0 ≤ code < 1000)%Z → length msg ≤ 1024 → store_wf live (w_store w0) → w_wire w0 = w_wire w →
  http_send_error k fuel tid (init_routes conf reg) req code (Some msg) w0 = Some o →
  delivers live (error_page code (Some msg)) w o.1 o.2.
Proof.
  intros Hc Hm Hw0 Hwire. destruct o as [rc w1]. intros H.
  eapply error_delivers in H; [|done..]. unfold delivers in *. by rewrite Hwire in H.
Qed.

(** The balance of the response objects, for any text. *)
Lemma respond_balanced k fuel tid req build w rc w' live :
  (∀ r, pool_shard_idx (build r) = pool_shard_idx r) → store_wf live (w_store w) →
  respond k fuel tid req build w = Some (rc, w') → store_wf live (w_store w').
Proof. intros Hb Hwf H. by eapply respond_spec in H as [? _]. Qed.

Lemma http_send_error_store k fuel tid reg req code msg w rc w' live :
  store_wf live (w_store w) → http_send_error k fuel tid reg req code msg w = Some (rc, w') →
  store_wf live (w_store w').
Proof. intros Hwf H. unfold http_send_error in H. eapply respond_balanced, H; [apply error_build_shard|done]. Qed.

(** [H] says that an error page with a fixed text is sent. *)
Ltac sends_error w H :=
  eapply (error_delivers_later _ _ _ _ _ _ _ _ _ w) in H; [exact H|lia|by apply Nat.leb_le|done..].

Lemma http_send_error_delivers_witness :
  ∃ text, carries text (error_page 404 (Some (bs "Not Found"))) ∧
    ∃ n, n ≤ length text ∧
    option_map (λ r, w_wire r.2)
      (http_send_error eager_kernel 5 3 (init_routes None empty_registry) test_request 404
         (Some (bs "Not Found")) test_world) =
    Some (take n text).
Proof.
  destruct (http_send_error eager_kernel 5 3 (init_routes None empty_registry) test_request 404
    (Some (bs "Not Found")) test_world) as [[rc w']|] eqn:E.
  - destruct (http_send_error_delivers eager_kernel 5 3 None empty_registry test_request 404
      (Some (bs "Not Found")) test_world rc w' (λ _, False)) as (_ & text & Hc & H).
    + apply initial_store_wf.
    + lia.
    + cbn [default from_option]. vm_compute. lia.
    + exact E.
    + exists text. split; [exact Hc|]. cbn [option_map snd].
      destruct H as [(_ & ->)|(_ & n & Hn & ->)].
      * exists (length text). split; [lia|]. by rewrite take_ge.
      * exists n. split; [lia|]. done.
  - exfalso. apply (f_equal (λ o, match o with Some _ => true | None => false end)) in E.
    vm_compute in E. discriminate E.
Defined.

#[export] Instance eager_kernel_laws : KernelLaws eager_kernel.
Proof. split; intros t n w H; injection H as <-; reflexivity. Qed.
