(* ===== verification/HttpRequest.v ===== *)
(** * Request headers and the client address (src/http/response_helpers.c)

    The helpers read the raw request, a C string, and write their results to the scratch
    buffers of the request, which they return; the returned pointer is the contents of
    the scratch buffer.  [trusted] is [config.trusted_proxy]. *)

From S2P Require Import Prelude ConnectionPool HttpResponse.

Definition INET_ADDRSTRLEN : nat := 16.
Definition HDR_SCRATCH_SIZE : nat := N.to_nat 1024.
Definition SEARCH_SIZE : nat := N.to_nat 256.

Lemma SEARCH_SIZE_val : Z.of_nat SEARCH_SIZE = 256%Z.
Proof. unfold SEARCH_SIZE. lia. Qed.

Lemma HDR_SCRATCH_SIZE_val : Z.of_nat HDR_SCRATCH_SIZE = 1024%Z.
Proof. unfold HDR_SCRATCH_SIZE. lia. Qed.

#[global] Opaque HDR_SCRATCH_SIZE SEARCH_SIZE.

Definition set_hdr_scratch (req : http_request) (v : bytes) : http_request :=
  {| req_fd := req_fd req; req_method := req_method req; req_url := req_url req;
     req_version := req_version req; req_keep_alive := req_keep_alive req;
     req_buffer := req_buffer req; req_buffer_len := req_buffer_len req;
     req_client_addr := req_client_addr req; hdr_scratch := v;
     ip_scratch := ip_scratch req |}.

Definition set_ip_scratch (req : http_request) (v : bytes) : http_request :=
  {| req_fd := req_fd req; req_method := req_method req; req_url := req_url req;
     req_version := req_version req; req_keep_alive := req_keep_alive req;
     req_buffer := req_buffer req; req_buffer_len := req_buffer_len req;
     req_client_addr := req_client_addr req; hdr_scratch := hdr_scratch req;
     ip_scratch := v |}.

Definition is_blank (c : ascii) : bool := Ascii.eqb c space || Ascii.eqb c tab.

(** Where the header starts in the buffer: first after a line end, then anywhere. *)
Definition find_header (buffer name : bytes) : option nat :=
  match strcasestr buffer (strlcpy SEARCH_SIZE (crlf ++ name ++ bs ":")) with
  | Some i => Some i
  | None => strcasestr buffer (strlcpy SEARCH_SIZE (name ++ bs ":"))
  end.

Definition http_request_get_header (req : http_request) (name : bytes)
    : option bytes * http_request :=
  match find_header (req_buffer req) name with
  | None => (None, req)
  | Some i =>
      let header := drop i (req_buffer req) in
      match strchr header ":" with
      | None => (None, req)
      | Some colon =>
          let val := skip_while is_blank (drop (S colon) header) in
          match strstr val crlf with
          | None => (None, req)
          | Some len =>
              let len := if HDR_SCRATCH_SIZE <=? len then HDR_SCRATCH_SIZE - 1 else len in
              let v := take len val in
              (Some v, set_hdr_scratch req v)
          end
      end
  end.

(** [inet_ntop(AF_INET, ...)] of an address in network byte order. *)
Definition inet_ntop (addr : Z) : bytes :=
  let octet := λ k, fmt_Z (Z.land (Z.shiftr addr k) 255) in
  octet 24%Z ++ bs "." ++ octet 16%Z ++ bs "." ++ octet 8%Z ++ bs "." ++ octet 0%Z.

Definition peer_ip (req : http_request) : bytes :=
  match req_client_addr req with Some a => inet_ntop (sin_addr a) | None => [] end.

(** [config.trusted_proxy[0] != '\0' && strcmp(peer_ip, config.trusted_proxy) == 0] *)
Definition from_trusted_proxy (trusted : bytes) (req : http_request) : bool :=
  negb (streq trusted []) && streq (peer_ip req) trusted.

Definition non_empty (v : option bytes) : option bytes :=
  match v with Some (_ :: _) => v | _ => None end.

Definition http_request_get_client_ip (trusted : bytes) (req : http_request)
    : bytes * http_request :=
  let direct := λ req, let v := strlcpy INET_ADDRSTRLEN (peer_ip req) in
                       (v, set_ip_scratch req v) in
  if from_trusted_proxy trusted req then
    let '(real_ip, req1) := http_request_get_header req (bs "X-Real-IP") in
    match non_empty real_ip with
    | Some ip => let v := strlcpy INET_ADDRSTRLEN ip in (v, set_ip_scratch req1 v)
    | None =>
        let '(forwarded, req2) := http_request_get_header req1 (bs "X-Forwarded-For") in
        match non_empty forwarded with
        | Some f =>
            let len := match strchr f "," with Some i => i | None => length f end in
            let len := if INET_ADDRSTRLEN <=? len then INET_ADDRSTRLEN - 1 else len in
            let v := take len f in (v, set_ip_scratch req2 v)
        | None => direct req2
        end
    end
  else direct req.

(** The result is the return value and the request. *)
Definition http_request_is_https (trusted : bytes) (req : http_request) : Z * http_request :=
  if negb (from_trusted_proxy trusted req) then (0%Z, req)
  else
    let '(proto, req1) := http_request_get_header req (bs "X-Forwarded-Proto") in
    (match proto with Some p => if streq p (bs "https") then 1%Z else 0%Z | None => 0%Z end, req1).

(** ** Finding a header *)

Lemma tolower_inj_cr c d : tolower c = tolower d → d = cr ∨ d = lf ∨ d = ":"%char → c = d.
Proof.
  intros H Hd.
  assert (∀ x, x ∈ [cr; lf; ":"%char] → implb (Ascii.eqb (tolower c) (tolower x)) (Ascii.eqb c x)
    = true) as Hall.
  { intros x Hx. repeat (apply elem_of_cons in Hx as [->|Hx];
      [revert c H; intros c _; revert c; apply byte_forall; vm_compute; reflexivity|]).
    by apply elem_of_nil in Hx. }
  assert (d ∈ [cr; lf; ":"%char]) as Hin by set_solver.
  specialize (Hall d Hin). rewrite H, ascii_eqb_refl in Hall. by apply ascii_eqb_true in Hall.
Qed.

Lemma tolower_not_elem (s t : bytes) c :
  tolower <$> s = tolower <$> t → c = cr ∨ c = lf ∨ c = ":"%char → c ∉ t → c ∉ s.
Proof.
  intros Heq Hc Ht Hs%(list_elem_of_fmap_2 tolower). rewrite Heq in Hs.
  apply list_elem_of_fmap in Hs as (d & Hd & Hin). apply Ht.
  symmetry in Hd. apply tolower_inj_cr in Hd; [by subst|done].
Qed.

(** The pattern is found at offset [length start] when it occurs nowhere before. *)
Lemma strcasestr_at start pat pat' rest :
  tolower <$> pat = tolower <$> pat' →
  (∀ j, j < length start →
     is_prefix_case pat (drop j (start ++ pat' ++ rest)) = false) →
  strcasestr (start ++ pat' ++ rest) pat = Some (length start).
Proof.
  intros Hp Hj. unfold strcasestr. rewrite !fmap_app. apply strstr_Some. split_and!.
  - rewrite <- (length_fmap tolower start), drop_app_length, <- Hp. apply is_prefix_app.
  - rewrite !length_app, length_fmap. lia.
  - intros j Hlt. specialize (Hj j Hlt). unfold is_prefix_case in Hj.
    by rewrite fmap_drop, !fmap_app in Hj.
Qed.

Lemma length_tolower_eq (a b : bytes) : tolower <$> a = tolower <$> b → length a = length b.
Proof. intros H. by rewrite <- (length_fmap tolower a), H, length_fmap. Qed.

(** Header lookup: on a request whose first line starting with the name (in any
    case) carries [value] after its colon and blanks, [http_request_get_header] returns
    exactly [value], for values of up to 1023 bytes. *)
Theorem get_header_value req name start name' blanks value post :
  req_buffer req = start ++ crlf ++ name' ++ bs ":" ++ blanks ++ value ++ crlf ++ post →
  tolower <$> name' = tolower <$> name → ":"%char ∉ name → length name ≤ 250 →
  (∀ j, j < length start → is_prefix_case (crlf ++ name ++ bs ":") (drop j (req_buffer req)) = false) →
  Forall (λ c, is_blank c = true) blanks →
  head value ≠ Some space → head value ≠ Some tab → cr ∉ value →
  length value < HDR_SCRATCH_SIZE →
  http_request_get_header req name = (Some value, set_hdr_scratch req value).
Proof.
  intros Hbuf Hname Hcolon Hnl Hfirst Hblanks Hsp Htab Hcr Hlen.
  pose proof SEARCH_SIZE_val.
  unfold http_request_get_header, find_header.
  rewrite (strlcpy_id SEARCH_SIZE (crlf ++ name ++ bs ":"))
    by (rewrite !length_app; simpl; lia).
  assert (strcasestr (req_buffer req) (crlf ++ name ++ bs ":") = Some (length start)) as ->.
  { rewrite Hbuf in Hfirst |- *.
    replace (start ++ crlf ++ name' ++ bs ":" ++ blanks ++ value ++ crlf ++ post)
      with (start ++ (crlf ++ name' ++ bs ":") ++ blanks ++ value ++ crlf ++ post) in *
      by by rewrite <- !app_assoc.
    apply strcasestr_at; [|done]. by rewrite !fmap_app, Hname. }
  rewrite Hbuf, drop_app_length.
  replace (crlf ++ name' ++ bs ":" ++ blanks ++ value ++ crlf ++ post)
    with ((crlf ++ name') ++ ":"%char :: (blanks ++ value ++ crlf ++ post))
    by by rewrite <- !app_assoc.
  rewrite strchr_app_sep.
  2:{ intros [Hin|Hin]%elem_of_app.
      - repeat (apply elem_of_cons in Hin as [?|Hin]; [done|]). by apply elem_of_nil in Hin.
      - revert Hin. apply (tolower_not_elem _ name); auto. }
  rewrite <- Nat.add_1_r, <- drop_drop, drop_app_length. cbn [drop]. rewrite drop_0.
  rewrite skip_while_app by done.
  assert (skip_while is_blank (value ++ crlf ++ post) = value ++ crlf ++ post) as ->.
  { destruct value as [|c value]; [done|]. cbn [head] in *. apply skip_while_stop.
    unfold is_blank. apply orb_false_iff. rewrite !ascii_eqb_false. split; congruence. }
  rewrite strstr_line by done. rewrite (proj2 (Nat.leb_gt _ _)) by done.
  by rewrite take_app_length.
Qed.

Definition header_request (buffer : bytes) (addr : option sockaddr_in) : http_request :=
  {| req_fd := 7; req_method := bs "GET"; req_url := bs "/"; req_version := bs "HTTP/1.1";
     req_keep_alive := true; req_buffer := buffer; req_buffer_len := length buffer;
     req_client_addr := addr; hdr_scratch := []; ip_scratch := [] |}.

Lemma get_header_value_witness :
  let buf := bs "GET / HTTP/1.1" ++ crlf ++ bs "x-real-ip" ++ bs ":" ++ bs " " ++
             bs "10.1.2.3" ++ crlf ++ crlf in
  (http_request_get_header (header_request buf None) (bs "X-Real-IP")).1 = Some (bs "10.1.2.3").
Proof.
  intros buf. pose proof HDR_SCRATCH_SIZE_val.
  refine (f_equal fst (get_header_value (header_request buf None) (bs "X-Real-IP")
    (bs "GET / HTTP/1.1") (bs "x-real-ip") (bs " ") (bs "10.1.2.3") crlf _ _ _ _ _ _ _ _ _ _)).
  - reflexivity.
  - vm_compute. reflexivity.
  - by_computation.
  - vm_compute. lia.
  - intros j Hj. change (length (bs "GET / HTTP/1.1")) with 14 in Hj.
    repeat (destruct j as [|j]; [vm_compute; reflexivity|]). lia.
  - repeat constructor.
  - discriminate.
  - discriminate.
  - by_computation.
  - change (length (bs "10.1.2.3")) with 8. lia.
Defined.

(** ** The client address *)

Lemma octet_length addr k :
  length (fmt_Z (Z.land (Z.shiftr addr k) 255)) ≤ 3.
Proof.
  change 255%Z with (Z.ones 8). rewrite Z.land_ones by lia.
  pose proof (Z.mod_pos_bound (Z.shiftr addr k) (2 ^ 8) ltac:(lia)).
  rewrite fmt_Z_nonneg by lia. apply fmt_nat_length; lia.
Qed.

Lemma inet_ntop_length addr : length (inet_ntop addr) < INET_ADDRSTRLEN.
Proof.
  unfold inet_ntop, INET_ADDRSTRLEN. rewrite !length_app.
  pose proof (octet_length addr 24). pose proof (octet_length addr 16).
  pose proof (octet_length addr 8). pose proof (octet_length addr 0).
  change (length (bs ".")) with 1. lia.
Qed.

Lemma peer_ip_length req : length (peer_ip req) < INET_ADDRSTRLEN.
Proof.
  unfold peer_ip. destruct (req_client_addr req); [apply inet_ntop_length|].
  simpl. unfold INET_ADDRSTRLEN. lia.
Qed.

(** C37. Forwarding headers cannot spoof the client address: unless the peer is the
    configured proxy, the address reported is the peer's own, whole, and the request is
    not HTTPS, whatever the client wrote in its request. *)
Theorem client_ip_not_spoofed trusted req :
  trusted = [] ∨ peer_ip req ≠ trusted →
  (http_request_get_client_ip trusted req).1 = peer_ip req ∧
  (http_request_is_https trusted req).1 = 0%Z.
Proof.
  intros H. assert (from_trusted_proxy trusted req = false) as Hf.
  { unfold from_trusted_proxy. apply andb_false_iff. rewrite negb_false_iff, streq_true, streq_false.
    done. }
  unfold http_request_get_client_ip, http_request_is_https. rewrite Hf. split; [|done].
  apply strlcpy_id, peer_ip_length.
Qed.

Lemma client_ip_not_spoofed_witness :
  let req := header_request (bs "GET / HTTP/1.1" ++ crlf ++ bs "X-Real-IP: 1.2.3.4" ++ crlf ++ crlf)
    (Some {| sin_addr := 3232235777; sin_port := 80 |}) in
  (http_request_get_client_ip (bs "127.0.0.1") req).1 = bs "192.168.1.1".
Proof.
  intros req.
  refine (eq_trans (proj1 (client_ip_not_spoofed (bs "127.0.0.1") req _)) _).
  - right. intros H. vm_compute in H. discriminate H.
  - vm_compute. reflexivity.
Defined.

(** Behind the proxy, and the fallback of the header search: a name that does not start
    a line is found wherever it occurs. *)
Example client_ip_forwarded :
  let proxy := Some {| sin_addr := 2130706433; sin_port := 80 |} in
  let req b := header_request (bs "GET / HTTP/1.1" ++ crlf ++ bs b ++ crlf ++ crlf) proxy in
  (http_request_get_client_ip (bs "127.0.0.1") (req "X-Real-IP: 1.2.3.4"%string)).1 = bs "1.2.3.4" ∧
  (http_request_get_client_ip (bs "127.0.0.1")
     (req "X-Forwarded-For: 5.6.7.8, 9.9.9.9"%string)).1 = bs "5.6.7.8" ∧
  (http_request_get_client_ip (bs "127.0.0.1") (req "Cookie: x-real-ip:6.6.6.6"%string)).1 =
    bs "6.6.6.6" ∧
  (http_request_get_client_ip (bs "127.0.0.1") (req "Accept: text/html"%string)).1 =
    bs "127.0.0.1".
Proof. vm_compute. split_and!; reflexivity. Qed.
