(* ===== verification/FileCache.v ===== *)
(** * The file cache (src/http/response_file_cache.c)

    Sixteen shards chosen by a hash of the path.  A shard keeps 32 file contents and 64
    candidate paths: a path is admitted the second time it is offered, at most eight
    insertions are made per second, and whatever was not used for 240 seconds is
    dropped.  Each function holds the lock of its shard, so a call is one atomic step;
    [now] is [time(NULL)] and the boolean arguments say whether malloc succeeds. *)

From S2P Require Import Prelude.

Definition FILE_CACHE_SLOTS : nat := 32.
Definition FILE_CACHE_MAX_BYTES : Z := 256 * 1024.
Definition FILE_CACHE_INSERTS_PER_SEC : Z := 8.
Definition FILE_CACHE_MAX_AGE_SEC : Z := 240.
Definition FILE_CACHE_SHARDS : nat := 16.
(** [char path[512]] *)
Definition CACHE_PATH_SIZE : nat := N.to_nat 512.

Lemma CACHE_PATH_SIZE_val : Z.of_nat CACHE_PATH_SIZE = 512%Z.
Proof. unfold CACHE_PATH_SIZE. lia. Qed.

#[global] Opaque CACHE_PATH_SIZE.

(** ** Data *)

Record file_cache_entry := FileCacheEntry {
  fe_path : bytes; fe_data : option bytes; fe_len : nat; fe_mtime : Z; fe_atime : Z }.

Record file_cache_candidate := FileCacheCandidate {
  fc_path : bytes; fc_hits : Z; fc_atime : Z }.

Definition zero_entry : file_cache_entry :=
  {| fe_path := []; fe_data := None; fe_len := 0; fe_mtime := 0; fe_atime := 0 |}.

Definition zero_candidate : file_cache_candidate :=
  {| fc_path := []; fc_hits := 0; fc_atime := 0 |}.

Record file_cache_shard := FileCacheShard {
  fs_entries : list file_cache_entry;
  fs_candidates : list file_cache_candidate;
  cache_insert_tokens : Z;
  cache_insert_window : Z;
  window_hits : Z;
  window_misses : Z;
  window_inserts : Z;
  window_throttles : Z;
}.

(** A shard after [file_cache_init_shards]. *)
Definition init_shard : file_cache_shard :=
  {| fs_entries := replicate FILE_CACHE_SLOTS zero_entry;
     fs_candidates := replicate (FILE_CACHE_SLOTS * 2) zero_candidate;
     cache_insert_tokens := FILE_CACHE_INSERTS_PER_SEC; cache_insert_window := 0;
     window_hits := 0; window_misses := 0; window_inserts := 0; window_throttles := 0 |}.

#[export] Instance file_cache_shard_inhabited : Inhabited file_cache_shard := populate init_shard.

Definition file_cache_init_shards : list file_cache_shard :=
  replicate FILE_CACHE_SHARDS init_shard.

(** FNV-1a on 64-bit words. *)
Definition fnv1a (path : bytes) : Z :=
  foldl (λ h c, wrap64 (Z.lxor h (byte_val c) * 1099511628211)%Z) 1469598103934665603%Z path.

Definition file_cache_shard_index (path : bytes) : nat :=
  Z.to_nat (fnv1a path mod Z.of_nat FILE_CACHE_SHARDS)%Z.

(** The fields of [struct stat] the server reads. *)
Record stat := Stat { st_size : Z; st_mtime : Z; st_isdir : bool }.

(** ** Operations on one shard *)

Definition with_tables (sh : file_cache_shard) (es : list file_cache_entry)
    (cs : list file_cache_candidate) : file_cache_shard :=
  {| fs_entries := es; fs_candidates := cs;
     cache_insert_tokens := cache_insert_tokens sh;
     cache_insert_window := cache_insert_window sh; window_hits := window_hits sh;
     window_misses := window_misses sh; window_inserts := window_inserts sh;
     window_throttles := window_throttles sh |}.

Definition with_counters (sh : file_cache_shard) (tokens hits misses inserts throttles : Z)
    : file_cache_shard :=
  {| fs_entries := fs_entries sh; fs_candidates := fs_candidates sh;
     cache_insert_tokens := tokens; cache_insert_window := cache_insert_window sh;
     window_hits := hits; window_misses := misses; window_inserts := inserts;
     window_throttles := throttles |}.

Definition file_cache_refill_budget_locked (sh : file_cache_shard) (now : Z) : file_cache_shard :=
  if ((cache_insert_window sh =? 0) || negb (now =? cache_insert_window sh))%Z
  then {| fs_entries := fs_entries sh; fs_candidates := fs_candidates sh;
          cache_insert_tokens := FILE_CACHE_INSERTS_PER_SEC; cache_insert_window := now;
          window_hits := 0; window_misses := 0; window_inserts := 0; window_throttles := 0 |}
  else sh.

Definition evict_entry (now : Z) (e : file_cache_entry) : file_cache_entry :=
  if streq (fe_path e) [] then e
  else if (FILE_CACHE_MAX_AGE_SEC <? now - fe_atime e)%Z then zero_entry else e.

Definition evict_candidate (now : Z) (c : file_cache_candidate) : file_cache_candidate :=
  if streq (fc_path c) [] then c
  else if (FILE_CACHE_MAX_AGE_SEC <? now - fc_atime c)%Z then zero_candidate else c.

Definition file_cache_evict_stale_locked (sh : file_cache_shard) (now : Z) : file_cache_shard :=
  with_tables sh (evict_entry now <$> fs_entries sh) (evict_candidate now <$> fs_candidates sh).

(** The scan of [file_cache_admit_locked] from candidate [i] on: [inl i] when the path
    is found at [i], [inr slot] with the slot to (re)use otherwise. *)
Fixpoint admit_scan (path : bytes) (cs : list file_cache_candidate) (i : nat)
    (best : option (nat * Z)) : nat + option nat :=
  match cs with
  | [] => inr (fst <$> best)
  | c :: cs' =>
      if streq (fc_path c) [] then inr (Some i)
      else if streq (fc_path c) path then inl i
      else admit_scan path cs' (S i)
             (match best with
              | None => Some (i, fc_atime c)
              | Some (slot, oldest) =>
                  if (fc_atime c <? oldest)%Z then Some (i, fc_atime c) else Some (slot, oldest)
              end)
  end.

(** [true]: admitted. *)
Definition file_cache_admit_locked (sh : file_cache_shard) (path : bytes) (now : Z)
    : bool * file_cache_shard :=
  match admit_scan path (fs_candidates sh) 0 None with
  | inl i =>
      match fs_candidates sh !! i with
      | None => (false, sh)
      | Some c =>
          let hits := wrap32 (fc_hits c + 1) in
          ((2 <=? hits)%Z,
           with_tables sh (fs_entries sh)
             (<[i := {| fc_path := fc_path c; fc_hits := hits; fc_atime := now |}]>
                (fs_candidates sh)))
      end
  | inr None => (false, sh)
  | inr (Some slot) =>
      (false,
       with_tables sh (fs_entries sh)
         (<[slot := {| fc_path := strlcpy CACHE_PATH_SIZE path; fc_hits := 1; fc_atime := now |}]>
            (fs_candidates sh)))
  end.

(** The slot for a new entry: the first empty one, else the least recently used. *)
Fixpoint entry_slot (es : list file_cache_entry) (i : nat) (best : option (nat * Z)) : option nat :=
  match es with
  | [] => fst <$> best
  | e :: es' =>
      if streq (fe_path e) [] then Some i
      else entry_slot es' (S i)
             (match best with
              | None => Some (i, fe_atime e)
              | Some (slot, oldest) =>
                  if (fe_atime e <? oldest)%Z then Some (i, fe_atime e) else Some (slot, oldest)
              end)
  end.

Definition store_locked (malloc_ok : bool) (path : bytes) (mtime : Z) (data : bytes) (now : Z)
    (sh0 : file_cache_shard) : file_cache_shard :=
  let sh := file_cache_evict_stale_locked (file_cache_refill_budget_locked sh0 now) now in
  if (cache_insert_tokens sh <=? 0)%Z then
    with_counters sh (cache_insert_tokens sh) (window_hits sh) (window_misses sh)
      (window_inserts sh) (wrap32 (window_throttles sh + 1))
  else
    let '(admitted, sh) := file_cache_admit_locked sh path now in
    if negb admitted then sh
    else match entry_slot (fs_entries sh) 0 None with
    | None => sh
    | Some slot =>
        let e := if malloc_ok
                 then {| fe_path := strlcpy CACHE_PATH_SIZE path; fe_data := Some data;
                         fe_len := length data; fe_mtime := mtime; fe_atime := now |}
                 else zero_entry in
        with_counters (with_tables sh (<[slot := e]> (fs_entries sh)) (fs_candidates sh))
          (cache_insert_tokens sh - 1) (window_hits sh) (window_misses sh)
          (if malloc_ok then wrap32 (window_inserts sh + 1) else window_inserts sh)
          (window_throttles sh)
    end.

Definition http_file_cache_store (malloc_ok : bool) (path : bytes) (st : stat) (data : bytes)
    (len : nat) (now : Z) (shards : list file_cache_shard) : list file_cache_shard :=
  if (len =? 0) || (FILE_CACHE_MAX_BYTES <? Z.of_nat len)%Z then shards
  else
    let i := file_cache_shard_index path in
    <[i := store_locked malloc_ok path (st_mtime st) (take len data) now (shards !!! i)]> shards.

(** The first entry of this path and modification time. *)
Definition find_entry (path : bytes) (mtime : Z) (es : list file_cache_entry)
    : option (nat * file_cache_entry) :=
  list_find (λ e, negb (streq (fe_path e) []) && streq (fe_path e) path &&
                  (fe_mtime e =? mtime)%Z = true) es.

Definition lookup_locked (malloc_ok : bool) (path : bytes) (mtime now : Z)
    (sh0 : file_cache_shard) : option bytes * file_cache_shard :=
  let sh := file_cache_evict_stale_locked (file_cache_refill_budget_locked sh0 now) now in
  let miss := with_counters sh (cache_insert_tokens sh) (window_hits sh)
                (wrap32 (window_misses sh + 1)) (window_inserts sh) (window_throttles sh) in
  match find_entry path mtime (fs_entries sh) with
  | None => (None, miss)
  | Some (i, e) =>
      if malloc_ok then
        (Some (take (fe_len e) (default [] (fe_data e))),
         with_counters
           (with_tables sh
              (<[i := {| fe_path := fe_path e; fe_data := fe_data e; fe_len := fe_len e;
                         fe_mtime := fe_mtime e; fe_atime := now |}]> (fs_entries sh))
              (fs_candidates sh))
           (cache_insert_tokens sh) (wrap32 (window_hits sh + 1)) (window_misses sh)
           (window_inserts sh) (window_throttles sh))
      else (None, miss)
  end.

(** [None]: not found (return value 0). *)
Definition http_file_cache_lookup (malloc_ok : bool) (path : bytes) (st : stat) (now : Z)
    (shards : list file_cache_shard) : option bytes * list file_cache_shard :=
  if ((st_size st <=? 0) || (FILE_CACHE_MAX_BYTES <? st_size st))%Z then (None, shards)
  else
    let i := file_cache_shard_index path in
    let '(r, sh) := lookup_locked malloc_ok path (st_mtime st) now (shards !!! i) in
    (r, <[i := sh]> shards).

(** Candidates and counters survive the cleanup, as do the times of the entries. *)
Definition http_handler_globals_cleanup (initialized : bool) (shards : list file_cache_shard)
    : list file_cache_shard :=
  if initialized then
    (λ sh, with_tables sh
       ((λ e, {| fe_path := []; fe_data := None; fe_len := 0; fe_mtime := fe_mtime e;
                 fe_atime := fe_atime e |}) <$> fs_entries sh) (fs_candidates sh)) <$> shards
  else shards.

(** ** The invariant

    [hist] is the list of (path, modification time, contents) offered so far. *)

Abbreviation history := (list (bytes * Z * bytes)).

Definition entry_ok (hist : history) (e : file_cache_entry) : Prop :=
  fe_path e = [] ∨
  ∃ p d, (p, fe_mtime e, d) ∈ hist ∧ fe_path e = strlcpy CACHE_PATH_SIZE p ∧
         fe_data e = Some d ∧ fe_len e = length d.

Record shard_ok (hist : history) (sh : file_cache_shard) : Prop := {
  so_entries : Forall (entry_ok hist) (fs_entries sh);
  so_tokens : (0 ≤ cache_insert_tokens sh ∧ 0 ≤ window_inserts sh ∧
               cache_insert_tokens sh + window_inserts sh ≤ FILE_CACHE_INSERTS_PER_SEC)%Z;
}.

Lemma entry_ok_mono hist hist' e : hist ⊆ hist' → entry_ok hist e → entry_ok hist' e.
Proof. intros Hsub [?|(p & d & ? & ? & ? & ?)]; [by left|right; eauto 10]. Qed.

Lemma shard_ok_mono hist hist' sh : hist ⊆ hist' → shard_ok hist sh → shard_ok hist' sh.
Proof.
  intros Hsub [H1 H2]. split; [|done].
  eapply Forall_impl; [exact H1|]. intros e. by apply entry_ok_mono.
Qed.

Lemma init_shard_ok hist : shard_ok hist init_shard.
Proof.
  split; [|simpl; unfold FILE_CACHE_INSERTS_PER_SEC; lia].
  apply Forall_replicate. by left.
Qed.

Lemma refill_ok hist sh now :
  shard_ok hist sh → shard_ok hist (file_cache_refill_budget_locked sh now).
Proof.
  intros [H1 H2]. unfold file_cache_refill_budget_locked. destruct (_ || _); [|done].
  split; [done|]. simpl. unfold FILE_CACHE_INSERTS_PER_SEC. lia.
Qed.

Lemma evict_ok hist sh now :
  shard_ok hist sh → shard_ok hist (file_cache_evict_stale_locked sh now).
Proof.
  intros [H1 H2]. split; [|done]. simpl. apply Forall_fmap. eapply Forall_impl; [exact H1|].
  intros e He. simpl. unfold evict_entry. destruct (streq (fe_path e) []); [done|].
  destruct (_ <? _)%Z; [by left|done].
Qed.

#[local] Hint Resolve refill_ok evict_ok : mw.

(** Admission touches only the candidates. *)
Lemma admit_entries sh path now :
  let '(_, sh') := file_cache_admit_locked sh path now in
  fs_entries sh' = fs_entries sh ∧ cache_insert_tokens sh' = cache_insert_tokens sh ∧
  window_inserts sh' = window_inserts sh.
Proof.
  unfold file_cache_admit_locked.
  destruct (admit_scan _ _ _ _) as [i|[i|]]; [|done|done].
  by destruct (fs_candidates sh !! i).
Qed.

Lemma store_locked_ok hist sh ok path mtime data now :
  shard_ok hist sh →
  shard_ok ((path, mtime, data) :: hist) (store_locked ok path mtime data now sh).
Proof.
  intros Hsh. unfold store_locked.
  assert (shard_ok ((path, mtime, data) :: hist)
    (file_cache_evict_stale_locked (file_cache_refill_budget_locked sh now) now)) as H.
  { apply evict_ok, refill_ok. eapply shard_ok_mono; [|done]. set_solver. }
  revert H. generalize (file_cache_evict_stale_locked (file_cache_refill_budget_locked sh now) now).
  clear sh Hsh. intros sh [H1 H2].
  destruct (cache_insert_tokens sh <=? 0)%Z eqn:Et; bool_facts; [by split|].
  pose proof (admit_entries sh path now) as Ha.
  destruct (file_cache_admit_locked sh path now) as [admitted sh1].
  destruct Ha as (He & Hk & Hi).
  destruct admitted; cbn [negb]; [|split; rewrite ?He, ?Hk, ?Hi; done].
  destruct (entry_slot (fs_entries sh1) 0 None) as [slot|];
    [|split; rewrite ?He, ?Hk, ?Hi; done].
  split; simpl; rewrite ?He, ?Hk, ?Hi.
  - apply Forall_insert; [done|]. destruct ok; [|by left].
    right. exists path, data. split_and!; [left|done|done|done].
  - unfold FILE_CACHE_INSERTS_PER_SEC in *. destruct ok; [|lia].
    unfold wrap32. rewrite Z.mod_small; lia.
Qed.

Lemma lookup_locked_ok hist sh ok path mtime now :
  shard_ok hist sh →
  shard_ok hist (lookup_locked ok path mtime now sh).2 ∧
  ∀ d, (lookup_locked ok path mtime now sh).1 = Some d →
    ∃ p, (p, mtime, d) ∈ hist ∧ path = strlcpy CACHE_PATH_SIZE p.
Proof.
  intros Hsh. unfold lookup_locked.
  assert (shard_ok hist
    (file_cache_evict_stale_locked (file_cache_refill_budget_locked sh now) now)) as H
    by auto with mw.
  revert H. generalize (file_cache_evict_stale_locked (file_cache_refill_budget_locked sh now) now).
  clear sh Hsh. intros sh [H1 H2].
  destruct (find_entry path mtime (fs_entries sh)) as [[i e]|] eqn:Ef; [|split; [by split|done]].
  destruct ok; [|split; [by split|done]].
  apply list_find_Some in Ef as (Hi & Hc & _). byte_facts.
  pose proof (Forall_lookup_1 _ _ _ _ H1 Hi) as He. split.
  - split; [|done]. simpl. apply Forall_insert; [done|].
    destruct He as [?|He]; [done|by right].
  - simpl. intros d [= <-]. destruct He as [?|(p & d & Hin & Hp & Hd & Hl)]; [done|].
    exists p. rewrite Hd, Hl. cbn [default from_option]. rewrite take_ge by done. done.
Qed.

(** ** Reachable caches *)

Inductive cache_op :=
| OpStore (malloc_ok : bool) (path : bytes) (st : stat) (data : bytes) (len : nat) (now : Z)
| OpLookup (malloc_ok : bool) (path : bytes) (st : stat) (now : Z).

Definition cache_step (shards : list file_cache_shard) (op : cache_op) : list file_cache_shard :=
  match op with
  | OpStore ok path st data len now => http_file_cache_store ok path st data len now shards
  | OpLookup ok path st now => (http_file_cache_lookup ok path st now shards).2
  end.

Definition offered (op : cache_op) : history :=
  match op with
  | OpStore _ path st data len _ => [(path, st_mtime st, take len data)]
  | OpLookup _ _ _ _ => []
  end.

Definition run_cache (ops : list cache_op) : list file_cache_shard :=
  foldl cache_step file_cache_init_shards ops.

Lemma file_cache_shard_index_lt path : file_cache_shard_index path < FILE_CACHE_SHARDS.
Proof.
  unfold file_cache_shard_index.
  pose proof (Z.mod_pos_bound (fnv1a path) (Z.of_nat FILE_CACHE_SHARDS)
    ltac:(unfold FILE_CACHE_SHARDS; lia)). lia.
Qed.

Lemma run_cache_ok ops :
  length (run_cache ops) = FILE_CACHE_SHARDS ∧
  Forall (shard_ok (reverse ops ≫= offered)) (run_cache ops).
Proof.
  unfold run_cache. induction ops as [|op ops [Hl IH]] using rev_ind.
  { split; [done|]. apply Forall_replicate, init_shard_ok. }
  rewrite foldl_snoc, reverse_snoc. cbn [mbind list_bind].
  set (shards := foldl cache_step file_cache_init_shards ops) in *.
  assert (Forall (shard_ok (offered op ++ (reverse ops ≫= offered))) shards) as IH'.
  { eapply Forall_impl; [exact IH|]. intros sh. apply shard_ok_mono. set_solver. }
  destruct op as [ok path st data len now|ok path st now]; simpl.
  - unfold http_file_cache_store. destruct (_ || _); [done|].
    split; [by rewrite length_insert|]. apply Forall_insert; [done|].
    apply store_locked_ok.
    apply (Forall_lookup_1 _ shards (file_cache_shard_index path)); [done|].
    apply list_lookup_lookup_total_lt. rewrite Hl. apply file_cache_shard_index_lt.
  - unfold http_file_cache_lookup. destruct (_ || _); [done|].
    assert (shard_ok (reverse ops ≫= offered) (shards !!! file_cache_shard_index path)) as Hsh.
    { apply (Forall_lookup_1 _ shards (file_cache_shard_index path)); [done|].
      apply list_lookup_lookup_total_lt. rewrite Hl. apply file_cache_shard_index_lt. }
    destruct (lookup_locked_ok _ _ ok path (st_mtime st) now Hsh) as [Hok _].
    destruct (lookup_locked _ _ _ _ _) as [r sh]. simpl.
    split; [by rewrite length_insert|]. by apply Forall_insert.
Qed.

(** The cache never serves wrong contents: after any sequence of stores and lookups,
    a hit for a path and a modification time returns contents that were stored earlier
    for that path (the paths of the server being shorter than 512 bytes) at that time. *)
Theorem cache_hit_was_stored ops ok path st now d :
  (http_file_cache_lookup ok path st now (run_cache ops)).1 = Some d →
  (∀ op p m c, op ∈ ops → (p, m, c) ∈ offered op → length p < CACHE_PATH_SIZE) →
  ∃ op, op ∈ ops ∧ (path, st_mtime st, d) ∈ offered op.
Proof.
  intros H Hlen. destruct (run_cache_ok ops) as [Hl Hok].
  unfold http_file_cache_lookup in H. destruct (_ || _); [done|].
  assert (shard_ok (reverse ops ≫= offered) (run_cache ops !!! file_cache_shard_index path)) as Hsh.
  { apply (Forall_lookup_1 _ (run_cache ops) (file_cache_shard_index path)); [done|].
    apply list_lookup_lookup_total_lt. rewrite Hl. apply file_cache_shard_index_lt. }
  destruct (lookup_locked_ok _ _ ok path (st_mtime st) now Hsh) as [_ Hd].
  destruct (lookup_locked _ _ _ _ _) as [r sh]. simpl in H. subst r.
  destruct (Hd d eq_refl) as (p & Hin & ->).
  apply list_elem_of_bind in Hin as (op & Hin & Hop). rewrite elem_of_reverse in Hop.
  rewrite strlcpy_id in * by eauto. eauto.
Qed.

(**  The insertion budget: at every moment a shard has inserted at most eight files
    in the current second, and its counters account for them. *)
Theorem cache_insert_budget ops i sh :
  run_cache ops !! i = Some sh →
  (0 ≤ cache_insert_tokens sh)%Z ∧
  (0 ≤ window_inserts sh ≤ FILE_CACHE_INSERTS_PER_SEC - cache_insert_tokens sh)%Z.
Proof.
  intros H. destruct (run_cache_ok ops) as [_ Hok].
  pose proof (so_tokens _ _ (Forall_lookup_1 _ _ _ _ Hok H)). lia.
Qed.

Definition sample_stat : stat := {| st_size := 5; st_mtime := 1000; st_isdir := false |}.

(** The second offer of a file is admitted. *)
Definition sample_ops : list cache_op :=
  [ OpStore true (bs "static/a.css") sample_stat (bs "body{") 5 7;
    OpStore true (bs "static/a.css") sample_stat (bs "body{") 5 7 ].

Lemma cache_hit_was_stored_witness :
  (http_file_cache_lookup true (bs "static/a.css") sample_stat 8 (run_cache sample_ops)).1 =
    Some (bs "body{") ∧
  ∃ op, op ∈ sample_ops ∧ (bs "static/a.css", 1000%Z, bs "body{") ∈ offered op.
Proof.
  assert ((http_file_cache_lookup true (bs "static/a.css") sample_stat 8
    (run_cache sample_ops)).1 = Some (bs "body{")) as H by (vm_compute; reflexivity).
  split; [exact H|].
  refine (cache_hit_was_stored sample_ops true (bs "static/a.css") sample_stat 8 _ H _).
  intros op p m c Hop Hin. pose proof CACHE_PATH_SIZE_val.
  repeat (apply elem_of_cons in Hop as [->|Hop];
    [apply list_elem_of_singleton in Hin; injection Hin as -> _ _;
     change (length (bs "static/a.css")) with 12; lia|]).
  destruct (proj1 (elem_of_nil op) Hop).
Defined.

Lemma cache_insert_budget_witness :
  option_map window_inserts (run_cache sample_ops !! 0) = Some 1%Z ∧
  ∀ sh, run_cache sample_ops !! 0 = Some sh → (0 ≤ cache_insert_tokens sh)%Z.
Proof.
  split; [vm_compute; reflexivity|].
  intros sh H. exact (proj1 (cache_insert_budget sample_ops 0 sh H)).
Defined.
