(* ===== verification/Files.v ===== *)
(** * Serving files (src/http/response_file.c, the static handlers of
      src/router/route_table.c)

    The file system is a parameter [fs]: what stat, open with fstat, access and readdir
    answer for a path.  [HandlerState] is what the replies need of a state; these handlers
    work on [hstate], the world of HttpResponse.v with the file cache.  The result of a
    handler is its return value, the [keep_alive] flag it leaves in the request and the new
    state, [None] while a write loop has not returned. *)

From S2P Require Import Prelude Router HttpUtils ResponsePool HttpResponse FileCache.

(** ** The file system *)

(** [fs_open p]: what fstat says of the opened file ([None] inside when it fails) and the
    bytes it holds; [None] when it cannot be opened.  [fs_readdir p]: the names in
    directory order. *)
Record filesystem := FileSystem {
  fs_stat : bytes → option stat;
  fs_open : bytes → option (option stat * bytes);
  fs_readable : bytes → bool;
  fs_readdir : bytes → option (list bytes);
}.

(** What the workers and the handlers' replies need of the state of the handlers. *)
Class HandlerState (H : Type) := {
  hworld : H → world;
  set_hworld : world → H → H;
  hworld_set w h : hworld (set_hworld w h) = w;
}.

(** The result of a handler over the state [H]. *)
Abbreviation handled H := (option (Z * bool * H)).

(** A reply helper as the end of a handler. *)
Definition reply `{HandlerState H} (keep : bool) (s : H) (r : option (Z * world)) : handled H :=
  match r with
  | None => None
  | Some (rc, w) => Some (rc, keep, set_hworld w s)
  end.

Record hstate := HState { hs_world : world; hs_cache : list file_cache_shard }.

#[export] Instance hstate_state : HandlerState hstate :=
  {| hworld := hs_world; set_hworld w s := {| hs_world := w; hs_cache := hs_cache s |};
     hworld_set _ _ := eq_refl |}.

Definition hresult : Type := handled hstate.

Definition tick_h (s : hstate) : hstate :=
  {| hs_world := tick (hs_world s); hs_cache := hs_cache s |}.

(** ** Sending one file *)

(** The loop of [read_entire_file]: bytes read so far, bytes still wanted. *)
Fixpoint read_entire_loop (k : kernel) (fuel t want : nat) (file acc : bytes)
    : option (bytes * nat) :=
  match fuel with
  | 0 => None
  | S fuel =>
      if want =? 0 then Some (acc, t)
      else match k_read k t want with
      | Err EINTR => read_entire_loop k fuel (S t) want file acc
      | Err _ => Some (acc, S t)
      | Ret n =>
          let chunk := take n file in
          if length chunk =? 0 then Some (acc, S t)
          else read_entire_loop k fuel (S t) (want - length chunk) (drop n file) (acc ++ chunk)
      end
  end.

(** The inner [None] is the return value -1. *)
Definition read_entire_file (k : kernel) (fuel t len : nat) (file : bytes)
    : option (option bytes * nat) :=
  match read_entire_loop k fuel t len file [] with
  | None => None
  | Some (b, t') => Some (if 0 <? length b then Some b else None, t')
  end.

(** [char buf[65536]], [char item[1024]], [char fullpath[512]] *)
Definition STREAM_CHUNK : nat := N.to_nat 65536.
Definition AUTOINDEX_ITEM_SIZE : nat := N.to_nat 1024.
Definition PATH_BUFFER_SIZE : nat := N.to_nat 512.

Lemma AUTOINDEX_ITEM_SIZE_val : Z.of_nat AUTOINDEX_ITEM_SIZE = 1024%Z.
Proof. unfold AUTOINDEX_ITEM_SIZE. lia. Qed.

Lemma PATH_BUFFER_SIZE_val : Z.of_nat PATH_BUFFER_SIZE = 512%Z.
Proof. unfold PATH_BUFFER_SIZE. lia. Qed.

#[global] Opaque STREAM_CHUNK AUTOINDEX_ITEM_SIZE PATH_BUFFER_SIZE.

(** The loop for large files: read a chunk, write it. *)
Fixpoint stream_loop (k : kernel) (fuel : nat) (file : bytes) (w : world) : option (Z * world) :=
  match fuel with
  | 0 => None
  | S fuel' =>
      let w1 := tick w in
      match k_read k (w_time w) STREAM_CHUNK with
      | Err _ => Some (0%Z, w1)
      | Ret n =>
          let chunk := take n file in
          if length chunk =? 0 then Some (0%Z, w1)
          else match after_io w1 (http_response_write_all k fuel' (w_time w1) chunk) with
          | None => None
          | Some (rc, w2) =>
              if (rc <? 0)%Z then Some ((-1)%Z, w2) else stream_loop k fuel' (drop n file) w2
          end
      end
  end.

Section serving.
Context (k : kernel) (fuel : nat) (tid : Z) (reg : registry) (fs : filesystem) (now : Z).

Definition with_store (w : world) (st : response_store) : world :=
  {| w_store := st; w_time := w_time w; w_wire := w_wire w |}.

(** [http_response_send(req, resp); http_response_free(resp)] on the object at [p]. *)
Definition send_and_free (req : http_request) (p : resp_ptr) (w : world) : option (Z * world) :=
  match http_response_send k fuel req (resp_get (w_store w) p) w with
  | None => None
  | Some (rc, w') => Some (rc, with_store w' (http_response_free (Some p) (w_store w')))
  end.

Definition set_body_at (p : resp_ptr) (b : option bytes) (len : nat) (must_free : bool) (w : world)
    : world :=
  with_store w (resp_set (w_store w) p
    (http_response_set_body (resp_get (w_store w) p) b len must_free)).

Definition without_keep_alive (req : http_request) : http_request :=
  {| req_fd := req_fd req; req_method := req_method req; req_url := req_url req;
     req_version := req_version req; req_keep_alive := false; req_buffer := req_buffer req;
     req_buffer_len := req_buffer_len req; req_client_addr := req_client_addr req;
     hdr_scratch := hdr_scratch req; ip_scratch := ip_scratch req |}.

(** The content type and the Content-Disposition header of a new file response. *)
Definition file_build (mime : bytes) (r : http_response) : http_response :=
  let r1 := set_content_type r mime in
  if is_prefix (bs "text/plain") mime
  then http_response_add_header r1 (bs "Content-Disposition") (bs "inline") else r1.

(** After the response object exists: cache, whole file, or stream. *)
Definition send_opened (req : http_request) (path : bytes) (st : stat) (file : bytes)
    (p : resp_ptr) (s : hstate) : hresult :=
  let keep := req_keep_alive req in
  let t := w_time (hs_world s) in
  let '(cached, cache) := http_file_cache_lookup (k_malloc k t) path st now (hs_cache s) in
  let w := tick (hs_world s) in
  let s1 := {| hs_world := w; hs_cache := cache |} in
  match cached with
  | Some c => reply keep s1 (send_and_free req p (set_body_at p (Some c) (length c) true w))
  | None =>
      if ((0 <? st_size st) && (st_size st <=? FILE_CACHE_MAX_BYTES * 4))%Z then
        if negb (k_malloc k (w_time w)) then
          Some ((-1)%Z, keep, {| hs_world := tick (with_store w (http_response_free (Some p) (w_store w)));
                                 hs_cache := cache |})
        else match read_entire_file k fuel (S (w_time w)) (Z.to_nat (st_size st)) file with
        | None => None
        | Some (None, t') =>
            let w1 := {| w_store := http_response_free (Some p) (w_store w); w_time := t';
                         w_wire := w_wire w |} in
            reply keep s1 (http_send_error k fuel tid reg req 500 (Some (bs "Read error")) w1)
        | Some (Some b, t') =>
            let w1 := set_body_at p (Some b) (length b) true
                        {| w_store := w_store w; w_time := t'; w_wire := w_wire w |} in
            match http_response_send k fuel req (resp_get (w_store w1) p) w1 with
            | None => None
            | Some (rc, w2) =>
                let cache' :=
                  if (rc =? 0)%Z
                  then http_file_cache_store (k_malloc k (w_time w2)) path st b (Z.to_nat rc) now cache
                  else cache in
                Some (rc, keep,
                  {| hs_world := with_store w2 (http_response_free (Some p) (w_store w2));
                     hs_cache := cache' |})
            end
        end
      else
        let req' := without_keep_alive req in
        let w1 := set_body_at p None (Z.to_nat (st_size st)) false w in
        match send_and_free req' p w1 with
        | None => None
        | Some (rc, w2) =>
            if (rc <? 0)%Z then Some ((-1)%Z, false, {| hs_world := w2; hs_cache := cache |})
            else reply false s1 (stream_loop k fuel file w2)
        end
  end.

Definition http_send_file (req : http_request) (path mime : bytes) (s : hstate) : hresult :=
  let keep := req_keep_alive req in
  match fs_open fs path with
  | None =>
      reply keep s (http_send_error k fuel tid reg req 404 (Some (bs "File not found")) (hs_world s))
  | Some (None, _) =>
      reply keep s (http_send_error k fuel tid reg req 500 (Some (bs "Cannot stat file")) (hs_world s))
  | Some (Some st, file) =>
      let w := hs_world s in
      let '(resp, store) := http_response_create tid (k_calloc k (w_time w)) (w_store w) in
      match resp with
      | None => Some ((-1)%Z, keep, {| hs_world := with_store w store; hs_cache := hs_cache s |})
      | Some p =>
          let store' := resp_set store p (file_build mime (resp_get store p)) in
          send_opened req path st file p
            {| hs_world := with_store w store'; hs_cache := hs_cache s |}
      end
  end.

(** ** Directory listings *)

Definition html_escape_char (c : ascii) : bytes :=
  if Ascii.eqb c "&" then bs "&amp;"
  else if Ascii.eqb c "<" then bs "&lt;"
  else if Ascii.eqb c ">" then bs "&gt;"
  else if Ascii.eqb c dq then bs "&quot;"
  else [c].

(** [None] when malloc fails. *)
Definition html_escape (malloc_ok : bool) (s : bytes) : option bytes :=
  if malloc_ok then Some (s ≫= html_escape_char) else None.

(** A growing buffer: the string it holds and its capacity. *)
Record strbuf := StrBuf { sb_text : bytes; sb_cap : nat }.

Fixpoint grow_cap (n need ncap : nat) : nat :=
  match n with
  | 0 => ncap
  | S n' => if ncap <? need then grow_cap n' need (ncap * 2) else ncap
  end.

(** [None] is the return value -1. *)
Definition append_str (realloc_ok : bool) (b : strbuf) (s : bytes) : option strbuf :=
  let need := length (sb_text b) + length s + 1 in
  if sb_cap b <? need then
    if realloc_ok
    then Some {| sb_text := sb_text b ++ s; sb_cap := grow_cap need need (sb_cap b) |}
    else None
  else Some {| sb_text := sb_text b ++ s; sb_cap := sb_cap b |}.

(** [append_str(...) != 0 || append_str(...) != 0 || ...] *)
Fixpoint append_list (w : world) (b : strbuf) (ss : list bytes) : option strbuf * world :=
  match ss with
  | [] => (Some b, w)
  | s :: ss' =>
      match append_str (k_malloc k (w_time w)) b s with
      | None => (None, tick w)
      | Some b' => append_list (tick w) b' ss'
      end
  end.


Definition index_item (escaped : bytes) (is_dir : bool) : bytes :=
  let slash := if is_dir then bs "/" else [] in
  strlcpy AUTOINDEX_ITEM_SIZE
    (qs "<li><a href='" ++ escaped ++ slash ++ qs "'>" ++ escaped ++ slash ++ bs "</a></li>").

(** The readdir loop. *)
Fixpoint autoindex_loop (fullpath : bytes) (names : list bytes) (w : world) (b : strbuf)
    : option strbuf * world :=
  match names with
  | [] => (Some b, w)
  | n :: names' =>
      if streq n (bs ".") || streq n (bs "..") then autoindex_loop fullpath names' w b
      else
        let is_dir := match fs_stat fs (strlcpy AUTOINDEX_ITEM_SIZE (fullpath ++ bs "/" ++ n)) with
                      | Some st => st_isdir st | None => false end in
        match html_escape (k_malloc k (w_time w)) n with
        | None => autoindex_loop fullpath names' (tick w) b
        | Some escaped =>
            match append_str (k_malloc k (w_time (tick w))) b (index_item escaped is_dir) with
            | None => (None, tick (tick w))
            | Some b' => autoindex_loop fullpath names' (tick (tick w)) b'
            end
        end
  end.

Definition autoindex_open : bytes :=
  qs "<!DOCTYPE html><html><head><meta charset='UTF-8'>" ++
  qs "<meta name='viewport' content='width=device-width,initial-scale=1'>" ++
  bs "<title>Index of ".

Definition autoindex_middle : bytes :=
  qs "</title><link rel='stylesheet' href='/static/css/custom.css'>" ++
  qs "</head><body><div class='container'><h1>Index of ".

Definition out_of_memory (req : http_request) (s : hstate) (w : world) : hresult :=
  reply (req_keep_alive req) s
    (http_send_error k fuel tid reg req 500 (Some (bs "Out of memory")) w).

Definition send_autoindex (req : http_request) (req_path fullpath : bytes) (s : hstate) : hresult :=
  let w := hs_world s in
  match fs_readdir fs fullpath with
  | None =>
      reply (req_keep_alive req) s
        (http_send_error k fuel tid reg req 403 (Some (bs "Directory listing disabled")) w)
  | Some names =>
      if negb (k_malloc k (w_time w)) then out_of_memory req s (tick w)
      else match html_escape (k_malloc k (w_time (tick w))) req_path with
      | None => out_of_memory req s (tick (tick w))
      | Some escaped =>
          let '(b1, w1) :=
            append_list (tick (tick w)) {| sb_text := []; sb_cap := N.to_nat 4096 |}
              ([autoindex_open; escaped; autoindex_middle; escaped; bs "</h1><ul>"] ++
               if streq req_path (bs "/static/") then []
               else [qs "<li><a href='../'>../</a></li>"]) in
          match b1 with
          | None => out_of_memory req s w1
          | Some b1 =>
              let '(b2, w2) := autoindex_loop fullpath names w1 b1 in
              match b2 with
              | None => out_of_memory req s w2
              | Some b2 =>
                  let '(b3, w3) := append_list w2 b2 [bs "</ul></div></body></html>"] in
                  match b3 with
                  | None => out_of_memory req s w3
                  | Some b3 =>
                      reply (req_keep_alive req) s (respond k fuel tid req (λ r,
                        http_response_set_body (set_content_type r (bs "text/html; charset=utf-8"))
                          (Some (sb_text b3)) (length (sb_text b3)) true) w3)
                  end
              end
          end
      end
  end.

Definition send_redirect (req : http_request) (code : Z) (location : bytes) (s : hstate) : hresult :=
  reply (req_keep_alive req) s (respond k fuel tid req (λ r,
    http_response_set_body
      (http_response_add_header
         (set_content_type (http_response_set_status r code) (bs "text/plain; charset=utf-8"))
         (bs "Location") location) (Some []) 0 false) (hs_world s)).

(** ** The handlers *)

(** [config_static_dir] and [config_autoindex]. *)
Context (static_dir : bytes) (autoindex : Z).

Definition favicon_handler (req : http_request) (s : hstate) : hresult :=
  http_send_file req (strlcpy PATH_BUFFER_SIZE (static_dir ++ bs "/assets/favicon.svg"))
    (bs "image/svg+xml") s.

Definition static_error (req : http_request) (code : Z) (msg : string) (s : hstate) : hresult :=
  reply (req_keep_alive req) s
    (http_send_error k fuel tid reg req code (Some (bs msg)) (hs_world s)).

(** The path below [static_dir], [.] for the directory itself. *)
Definition static_relpath (req_path : bytes) : bytes :=
  let r := drop 7 req_path in
  let r := match r with c :: r' => if Ascii.eqb c "/" then r' else r | [] => [] end in
  match r with [] => bs "." | _ => r end.

(** [n > 0 && (size_t)n < sizeof(index_path) && access(index_path, R_OK) == 0] *)
Definition index_file (fullpath : bytes) (name : string) : option bytes :=
  let p := fullpath ++ bs "/" ++ bs name in
  if (length p <? PATH_BUFFER_SIZE) && fs_readable fs p then Some p else None.

Definition static_handler (req : http_request) (s : hstate) : hresult :=
  let url := req_url req in
  let req_path_len := strcspn url (bs "?#") in
  if (req_path_len =? 0) || (PATH_BUFFER_SIZE <=? req_path_len)
  then static_error req 400 "Bad Request" s
  else
    let req_path := take req_path_len url in
    if negb (is_prefix (bs "/static") req_path) then static_error req 404 "Not Found" s
    else
      let relpath := static_relpath req_path in
      if bool_decide (is_Some (strstr relpath (bs ".."))) ||
         bool_decide (is_Some (strstr relpath (bs "//")))
      then static_error req 403 "Forbidden" s
      else
        let fullpath := static_dir ++ bs "/" ++ relpath in
        if PATH_BUFFER_SIZE <=? length fullpath then static_error req 414 "URI Too Long" s
        else match fs_stat fs fullpath with
        | None => static_error req 404 "File not found" s
        | Some st =>
            if st_isdir st then
              if (autoindex =? 0)%Z then static_error req 403 "Directory listing disabled" s
              else if negb (bool_decide (req_path !! (req_path_len - 1) = Some "/"%char)) then
                let redirect := req_path ++ bs "/" in
                if PATH_BUFFER_SIZE <=? length redirect
                then static_error req 414 "URI Too Long" s
                else send_redirect req 301 redirect s
              else match index_file fullpath "index.html" with
              | Some p => http_send_file req p (mime_type_for_path (Some (bs "index.html"))) s
              | None =>
                  match index_file fullpath "index.htm" with
                  | Some p => http_send_file req p (mime_type_for_path (Some (bs "index.htm"))) s
                  | None => send_autoindex req req_path fullpath s
                  end
              end
            else http_send_file req fullpath (mime_type_for_path (Some relpath)) s
        end.
End serving.

(** ** No path leaves the static directory *)

Fixpoint split_on (sep : ascii) (s : bytes) : list bytes :=
  match s with
  | [] => [[]]
  | c :: s' =>
      if Ascii.eqb c sep then [] :: split_on sep s'
      else match split_on sep s' with
           | w :: ws => (c :: w) :: ws
           | [] => [[c]]
           end
  end.

(** [p] lies below [dir]: no component after it is a parent reference. *)
Definition below (dir p : bytes) : Prop :=
  ∃ rel, p = dir ++ bs "/" ++ rel ∧ bs ".." ∉ split_on "/" rel.

Lemma split_on_not_nil sep s : split_on sep s ≠ [].
Proof. destruct s as [|c s]; simpl; [done|]. by destruct (Ascii.eqb c sep), (split_on sep s). Qed.

Lemma split_on_app_sep sep a b : split_on sep (a ++ sep :: b) = split_on sep a ++ split_on sep b.
Proof.
  induction a as [|c a IH]; simpl; [by rewrite ascii_eqb_refl|].
  destruct (Ascii.eqb c sep); rewrite IH; [done|].
  destruct (split_on sep a) eqn:E; [by apply split_on_not_nil in E|]. done.
Qed.

Lemma split_on_plain sep s : sep ∉ s → split_on sep s = [s].
Proof.
  induction s as [|c s IH]; simpl; [done|]. intros [Hc Hs]%not_elem_of_cons.
  destruct (Ascii.eqb c sep) eqn:E; byte_facts. by rewrite IH.
Qed.

(** A component is a substring, the first one a prefix. *)
Lemma split_on_substring sep s w :
  w ∈ split_on sep s → ∃ a b, s = a ++ w ++ b.
Proof.
  assert (∀ w0 ws, split_on sep s = w0 :: ws →
    (∃ b, s = w0 ++ b) ∧ ∀ w, w ∈ ws → ∃ a b, s = a ++ w ++ b) as H.
  { induction s as [|c s IH]; simpl; intros w0 ws E.
    - simplify_eq. split; [by exists []|]. by intros w' ?%elem_of_nil.
    - destruct (split_on sep s) as [|w1 ws1] eqn:Es; [by apply split_on_not_nil in Es|].
      destruct (IH w1 ws1 eq_refl) as [[b Hb] Hrest].
      destruct (Ascii.eqb c sep) eqn:Ec; simplify_eq.
      + split; [by exists (c :: w1 ++ b)|]. intros w' [->|Hw]%elem_of_cons.
        * by exists [c], b.
        * destruct (Hrest w' Hw) as (a & b' & E). exists (c :: a), b'. simpl. by rewrite E.
      + split; [by exists b|]. intros w' Hw. destruct (Hrest w' Hw) as (a & b' & E).
        exists (c :: a), b'. simpl. by rewrite E. }
  intros Hw. destruct (split_on sep s) as [|w0 ws] eqn:E; [by apply elem_of_nil in Hw|].
  destruct (H w0 ws eq_refl) as [[b ->] Hrest].
  apply elem_of_cons in Hw as [->|Hw]; [by exists [], b|auto].
Qed.

Lemma no_substring s n a b : strstr s n = None → s ≠ a ++ n ++ b.
Proof.
  intros H ->. rewrite strstr_None in H. specialize (H (length a)).
  rewrite drop_app_length, is_prefix_app, !length_app in H. discriminate H. lia.
Qed.

Lemma below_rel dir rel : strstr rel (bs "..") = None → below dir (dir ++ bs "/" ++ rel).
Proof.
  intros H. exists rel. split; [done|]. intros (a & b & E)%split_on_substring.
  by eapply no_substring.
Qed.

Lemma below_entry dir rel n :
  strstr rel (bs "..") = None → "/"%char ∉ n → n ≠ bs ".." →
  below dir ((dir ++ bs "/" ++ rel) ++ bs "/" ++ n).
Proof.
  intros H Hn Hd. exists (rel ++ "/"%char :: n). split; [by rewrite <- !app_assoc|].
  rewrite split_on_app_sep, (split_on_plain _ n) by done.
  intros [(a & b & E)%split_on_substring|?%list_elem_of_singleton]%elem_of_app; [|done].
  by eapply no_substring.
Qed.

(** Two file systems that answer alike for the paths of [P]. *)
Record fs_agree (P : bytes → Prop) (fs1 fs2 : filesystem) : Prop := {
  agree_stat p : P p → fs_stat fs1 p = fs_stat fs2 p;
  agree_open p : P p → fs_open fs1 p = fs_open fs2 p;
  agree_readable p : P p → fs_readable fs1 p = fs_readable fs2 p;
  agree_readdir p : P p → fs_readdir fs1 p = fs_readdir fs2 p;
}.

(** Directory entries are single components of at most 255 bytes. *)
Definition readdir_names_ok (fs : filesystem) : Prop :=
  ∀ p ns n, fs_readdir fs p = Some ns → n ∈ ns → "/"%char ∉ n ∧ length n ≤ 255.

Section confined.
Context (k : kernel) (fuel : nat) (tid : Z) (reg : registry) (now : Z).
Context (dir : bytes) (fs1 fs2 : filesystem).
Context (Hagree : fs_agree (below dir) fs1 fs2).

Lemma send_file_agree req path mime s :
  below dir path →
  http_send_file k fuel tid reg fs1 now req path mime s =
  http_send_file k fuel tid reg fs2 now req path mime s.
Proof. intros H. unfold http_send_file. by rewrite (agree_open _ _ _ Hagree) by done. Qed.

Lemma autoindex_loop_agree rel names w b :
  strstr rel (bs "..") = None → length (dir ++ bs "/" ++ rel) < PATH_BUFFER_SIZE →
  (∀ n, n ∈ names → "/"%char ∉ n ∧ length n ≤ 255) →
  autoindex_loop k fs1 (dir ++ bs "/" ++ rel) names w b =
  autoindex_loop k fs2 (dir ++ bs "/" ++ rel) names w b.
Proof.
  intros Hrel Hlen. pose proof PATH_BUFFER_SIZE_val. pose proof AUTOINDEX_ITEM_SIZE_val.
  revert w b. induction names as [|n names IH]; intros w b Hn; [done|].
  destruct (Hn n ltac:(left)) as [Hslash Hn255].
  assert (∀ n, n ∈ names → "/"%char ∉ n ∧ length n ≤ 255) as Hn' by (intros; apply Hn; by right).
  simpl. destruct (streq n (bs ".") || streq n (bs "..")) eqn:E; [auto|]. byte_facts.
  rewrite strlcpy_id by (rewrite !length_app in *; simpl in *; lia).
  rewrite (agree_stat _ _ _ Hagree) by by apply below_entry.
  destruct (html_escape _ _); [|auto]. destruct (append_str _ _ _); auto.
Qed.

Lemma autoindex_agree req req_path rel s :
  readdir_names_ok fs1 →
  strstr rel (bs "..") = None → length (dir ++ bs "/" ++ rel) < PATH_BUFFER_SIZE →
  send_autoindex k fuel tid reg fs1 req req_path (dir ++ bs "/" ++ rel) s =
  send_autoindex k fuel tid reg fs2 req req_path (dir ++ bs "/" ++ rel) s.
Proof.
  intros Hnames Hrel Hlen. unfold send_autoindex.
  rewrite <- (agree_readdir _ _ _ Hagree) by by apply below_rel.
  destruct (fs_readdir fs1 _) as [names|] eqn:Er; [|done].
  destruct (negb _); [done|]. destruct (html_escape _ _); [|done].
  destruct (append_list _ _ _ _) as [[b1|] w1]; [|done].
  rewrite autoindex_loop_agree; [done|done|done|]. intros n. by apply Hnames with (1 := Er).
Qed.

Lemma index_file_agree rel name :
  strstr rel (bs "..") = None → "/"%char ∉ bs name → bs name ≠ bs ".." →
  index_file fs1 (dir ++ bs "/" ++ rel) name = index_file fs2 (dir ++ bs "/" ++ rel) name.
Proof.
  intros Hrel Hn Hd. unfold index_file.
  by rewrite (agree_readable _ _ _ Hagree) by by apply below_entry.
Qed.

Lemma index_file_below rel name p :
  strstr rel (bs "..") = None → "/"%char ∉ bs name → bs name ≠ bs ".." →
  index_file fs2 (dir ++ bs "/" ++ rel) name = Some p → below dir p.
Proof.
  intros Hrel Hn Hd. unfold index_file.
  case_match; [|done]. intros [= <-]. by apply below_entry.
Qed.
End confined.

(** C6. Static files are confined: whatever the request path, the answer of
    [static_handler] depends on nothing outside the static directory.  Two file systems
    that agree on the paths below it (no [..] component after the directory) give the
    same bytes, return value and cache. *)
Theorem static_handler_confined k fuel tid reg now dir autoindex fs1 fs2 req s :
  fs_agree (below dir) fs1 fs2 → readdir_names_ok fs1 →
  static_handler k fuel tid reg fs1 now dir autoindex req s =
  static_handler k fuel tid reg fs2 now dir autoindex req s.
Proof.
  intros Hag Hnames. unfold static_handler.
  destruct (_ || _); [done|]. destruct (negb _); [done|].
  set (rel := static_relpath _).
  destruct (bool_decide _ || bool_decide _) eqn:Edd; [done|]. bool_facts.
  assert (strstr rel (bs "..") = None) as Hrel by (by apply eq_None_not_Some).
  destruct (PATH_BUFFER_SIZE <=? length (dir ++ bs "/" ++ rel)) eqn:El; [done|]. bool_facts.
  rewrite (agree_stat _ _ _ Hag) by by apply below_rel.
  destruct (fs_stat fs2 _) as [st|]; [|done].
  destruct (st_isdir st).
  2:{ by apply (send_file_agree _ _ _ _ _ dir), below_rel. }
  destruct (autoindex =? 0)%Z; [done|]. destruct (negb _); [done|].
  assert ("/"%char ∉ bs "index.html" ∧ "/"%char ∉ bs "index.htm") as [Hh1 Hh2]
    by (split; by_computation).
  rewrite !(index_file_agree _ fs1 fs2 Hag rel) by done.
  destruct (index_file fs2 _ "index.html") as [p|] eqn:E1.
  { apply (send_file_agree _ _ _ _ _ dir); [done|].
    by apply (index_file_below dir fs2 rel "index.html"). }
  destruct (index_file fs2 _ "index.htm") as [p|] eqn:E2.
  { apply (send_file_agree _ _ _ _ _ dir); [done|].
    by apply (index_file_below dir fs2 rel "index.htm"). }
  by apply autoindex_agree.
Qed.

Definition static_request (url : string) : http_request :=
  {| req_fd := 7; req_method := bs "GET"; req_url := bs url; req_version := bs "HTTP/1.1";
     req_keep_alive := true; req_buffer := []; req_buffer_len := 0;
     req_client_addr := None; hdr_scratch := []; ip_scratch := [] |}.

(** One style sheet in the static directory and one file outside of it. *)
Definition small_fs (outside : bytes) : filesystem :=
  let css := {| st_size := 5; st_mtime := 1000; st_isdir := false |} in
  let file p := if streq p (bs "static/a.css") then Some (Some css, bs "body{")
                else if streq p (bs "/etc/passwd") then Some (Some css, outside) else None in
  {| fs_stat p := match file p with Some (st, _) => st | None => None end;
     fs_open := file; fs_readable p := bool_decide (is_Some (file p));
     fs_readdir _ := None |}.

Definition test_state : hstate := {| hs_world := test_world; hs_cache := file_cache_init_shards |}.

Lemma small_fs_agree a b : fs_agree (below (bs "static")) (small_fs a) (small_fs b).
Proof.
  assert (∀ p, below (bs "static") p → streq p (bs "/etc/passwd") = false) as H.
  { intros p (rel & -> & _). by apply streq_false. }
  split; intros p Hp; unfold small_fs; cbn [fs_stat fs_open fs_readable fs_readdir];
    by rewrite ?(H p Hp).
Qed.

Lemma static_handler_confined_witness :
  static_handler eager_kernel 5 3 empty_registry (small_fs (bs "root")) 7 (bs "static") 0
    (static_request "/static/a.css") test_state =
  static_handler eager_kernel 5 3 empty_registry (small_fs (bs "toor")) 7 (bs "static") 0
    (static_request "/static/a.css") test_state.
Proof.
  apply (static_handler_confined eager_kernel 5 3 empty_registry 7 (bs "static") 0).
  - apply small_fs_agree.
  - intros p ns n H. discriminate H.
Defined.

Example parent_reference_forbidden :
  option_map (λ r, (r.1.1, is_prefix (bs "HTTP/1.1 403 Forbidden") (w_wire (hs_world r.2))))
    (static_handler eager_kernel 5 3 empty_registry (small_fs []) 7 (bs "static") 1
       (static_request "/static/../etc/passwd") test_state) = Some (0%Z, true).
Proof. vm_compute. reflexivity. Qed.

(** ** The file cache is never filled *)

Definition cache_empty (cache : list file_cache_shard) : Prop :=
  Forall (λ sh, Forall (λ e, fe_path e = []) (fs_entries sh)) cache.

Lemma lookup_cache_empty ok path st now cache :
  cache_empty cache →
  (http_file_cache_lookup ok path st now cache).1 = None ∧
  cache_empty (http_file_cache_lookup ok path st now cache).2.
Proof.
  intros H. unfold http_file_cache_lookup. destruct (_ || _); [done|].
  assert (Forall (λ e, fe_path e = []) (fs_entries (cache !!! file_cache_shard_index path))) as Hsh.
  { destruct (decide (file_cache_shard_index path < length cache)) as [Hi|Hi].
    - apply list_lookup_lookup_total_lt in Hi. exact (Forall_lookup_1 _ _ _ _ H Hi).
    - rewrite list_lookup_total_alt, (lookup_ge_None_2 cache) by lia.
      by apply Forall_replicate. }
  revert Hsh.
  generalize (cache !!! file_cache_shard_index path). intros sh0 Hsh.
  unfold lookup_locked.
  assert (Forall (λ e, fe_path e = []) (fs_entries
    (file_cache_evict_stale_locked (file_cache_refill_budget_locked sh0 now) now))) as Hsh'.
  { simpl. apply Forall_fmap.
    replace (fs_entries (file_cache_refill_budget_locked sh0 now)) with (fs_entries sh0)
      by (by unfold file_cache_refill_budget_locked; destruct (_ || _)).
    eapply Forall_impl; [exact Hsh|]. intros e He. simpl. unfold evict_entry.
    by rewrite He, streq_refl. }
  revert Hsh'. generalize (file_cache_evict_stale_locked (file_cache_refill_budget_locked sh0 now) now).
  intros sh Hsh'. destruct (find_entry _ _ _) as [[i e]|] eqn:Ef.
  - apply list_find_Some in Ef as (Hl & Hc & _). byte_facts.
    by pose proof (Forall_lookup_1 _ _ _ _ Hsh' Hl).
  - split; [done|]. by apply Forall_insert.
Qed.

(** The cache of file contents never holds anything: [http_send_file] stores with
    the length [(size_t)rc] after [rc] was overwritten by the result of the send, which
    is 0 when it stores, so that from an empty cache every file is read from disk. *)
Theorem send_file_never_caches k fuel tid reg fs now req path mime s rc keep s' :
  cache_empty (hs_cache s) →
  http_send_file k fuel tid reg fs now req path mime s = Some (rc, keep, s') →
  cache_empty (hs_cache s').
Proof.
  intros Hc. unfold http_send_file, reply.
  destruct (fs_open fs path) as [[[st|] file]|].
  2,3: destruct (http_send_error _ _ _ _ _ _ _ _) as [[??]|]; [|done]; by intros [= _ _ <-].
  destruct (http_response_create _ _ _) as [[p|] store]; [|by intros [= _ _ <-]].
  unfold send_opened. cbn [hs_world hs_cache].
  destruct (lookup_cache_empty (k_malloc k (w_time (with_store (hs_world s)
    (resp_set store p (file_build mime (resp_get store p)))))) path st now (hs_cache s) Hc)
    as [Hnone Hempty].
  destruct (http_file_cache_lookup _ _ _ _ _) as [cached cache]. cbn [fst snd] in *. subst cached.
  unfold reply. destruct (_ && _).
  - destruct (negb _); [by intros [= _ _ <-]|].
    destruct (read_entire_file _ _ _ _ _) as [[[b|] t']|]; [| |done].
    + destruct (http_response_send _ _ _ _ _) as [[rc0 w2]|]; [|done].
      intros [= _ _ <-]. simpl. destruct (rc0 =? 0)%Z eqn:E; bool_facts; [|done]. by subst rc0.
    + destruct (http_send_error _ _ _ _ _ _ _ _) as [[??]|]; [|done]. by intros [= _ _ <-].
  - destruct (send_and_free _ _ _ _ _) as [[rc0 w2]|]; [|done].
    destruct (rc0 <? 0)%Z; [by intros [= _ _ <-]|].
    destruct (stream_loop _ _ _ _) as [[??]|]; [|done]. by intros [= _ _ <-].
Qed.

Lemma init_cache_empty : cache_empty file_cache_init_shards.
Proof. apply Forall_replicate. by apply (Forall_replicate _ FILE_CACHE_SLOTS zero_entry). Qed.

Lemma send_file_never_caches_witness :
  ∃ rc keep s', http_send_file eager_kernel 5 3 empty_registry (small_fs []) 7
    (static_request "/static/a.css") (bs "static/a.css") (bs "text/css") test_state
      = Some (rc, keep, s') ∧ cache_empty (hs_cache s').
Proof.
  destruct (http_send_file eager_kernel 5 3 empty_registry (small_fs []) 7
    (static_request "/static/a.css") (bs "static/a.css") (bs "text/css") test_state)
    as [[[rc keep] s']|] eqn:E.
  - exists rc, keep, s'. split; [reflexivity|].
    refine (send_file_never_caches _ _ _ _ _ _ _ _ _ test_state _ _ _ init_cache_empty E).
  - exfalso. apply (f_equal (λ o, match o with Some _ => true | None => false end)) in E.
    vm_compute in E. discriminate E.
Defined.

(** ** File responses *)

(** The reader of a whole file returns a prefix of its bytes, at most [want]. *)
Lemma read_entire_loop_prefix k fuel t want file acc b t' :
  KernelLaws k →
  read_entire_loop k fuel t want file acc = Some (b, t') →
  ∃ n, b = acc ++ take n file ∧ n ≤ want.
Proof.
  intros Hk. revert t want file acc.
  induction fuel as [|fuel IH]; intros t want file acc; simpl; [done|].
  destruct (want =? 0) eqn:Ew; bool_facts.
  { intros [= <- _]. exists 0. rewrite take_0, app_nil_r. split; [done|lia]. }
  destruct (k_read k t want) as [n|[| |]] eqn:Er.
  - destruct (length (take n file) =? 0) eqn:El; bool_facts.
    { intros [= <- _]. exists 0. rewrite take_0, app_nil_r. split; [done|lia]. }
    intros (m & -> & Hm)%IH. apply k_read_le in Er.
    assert (length (take n file) = n ∨ drop n file = []) as [Hn|Hn].
    { rewrite length_take. destruct (decide (n ≤ length file)); [left; lia|].
      right. apply drop_ge. lia. }
    + exists (n + m). rewrite <- app_assoc, take_take_drop. split; [done|lia].
    + exists n. rewrite Hn, take_nil, app_nil_r. split; [done|lia].
  - intros H. by apply IH in H.
  - intros [= <- _]. exists 0. rewrite take_0, app_nil_r. split; [done|lia].
  - intros [= <- _]. exists 0. rewrite take_0, app_nil_r. split; [done|lia].
Qed.

(** The header lines of a new file response. *)
Lemma file_build_headers mime r :
  headers r = [] →
  ∃ extra, headers (file_build mime r) = text_lines extra ∧ length (text_lines extra) ≤ 64 ∧
    Forall (λ l, cr ∉ l ∧ l ≠ [] ∧ is_prefix (bs "Content-Length: ") l = false) extra.
Proof.
  intros Hr. unfold file_build. destruct (is_prefix _ _).
  - exists [bs "Content-Disposition: inline"]. split_and!.
    + rewrite add_header_headers.
      * simpl headers. rewrite Hr. pose proof HEADERS_SIZE_val. rewrite take_ge; [done|].
        cbn [app]. change (length (header_line _ _)) with 29. lia.
      * simpl headers. rewrite Hr. pose proof HEADERS_SIZE_val. simpl. lia.
    + vm_compute. lia.
    + apply Forall_singleton. split_and!; [|done|done]. by apply no_cr_spec.
  - exists []. split_and!; [done|simpl; lia|done].
Qed.

Lemma file_build_fields mime r :
  status_code (file_build mime r) = status_code r ∧
  content_type (file_build mime r) = Some mime ∧
  pool_shard_idx (file_build mime r) = pool_shard_idx r.
Proof.
  unfold file_build. destruct (is_prefix _ _); [|done]. unfold http_response_add_header.
  by destruct (_ <=? _); [|destruct (_ <? _)].
Qed.

(** Sending a new file response with body [b]. *)
Lemma file_response_sends k fuel req mime r0 b w rc w2 :
  headers r0 = [] → status_code r0 = 200%Z → no_cr mime = true → length mime ≤ 64 →
  (Z.of_nat (length b) < 10 ^ 20)%Z →
  http_response_send k fuel req
    (http_response_set_body (file_build mime r0) (Some b) (length b) true) w = Some (rc, w2) →
  w_store w2 = w_store w ∧
  (rc = 0%Z → ∃ text, carries text b ∧ w_wire w2 = w_wire w ++ text).
Proof.
  intros Hh0 Hc0 Hmime Hml Hb Hs. set (r1 := http_response_set_body _ _ _ _) in Hs.
  destruct (file_build_fields mime r0) as (Hcode & Hct & _).
  destruct (file_build_headers mime r0 Hh0) as (extra & Hh & Hle & Hex).
  change (headers (file_build mime r0)) with (headers r1) in Hh.
  assert (plain_response r1 mime b) as Hpl.
  { split; try done. change (status_code r1) with (status_code (file_build mime r0)).
    rewrite Hcode, Hc0. lia. }
  assert (length (headers r1) < HEADERS_SIZE) as Hfit
    by (rewrite Hh; pose proof HEADERS_SIZE_val; lia).
  destruct (http_response_send_spec _ _ _ _ _ _ _ (small_headers_fit r1 _ _ _ Hpl Hfit) Hs)
    as [Hst Hw].
  split; [done|]. intros ->. destruct Hw as [[_ Hw]|[? _]]; [|done].
  exists (response_text r1 (req_keep_alive req)). split; [|done].
  intros rest. by apply (client_read_response _ _ _ _ extra rest Hpl).
Qed.

(** A regular file of at most 1 MiB, sent. *)
Lemma small_file_sent k fuel tid conf reg fs now req path mime st file s rc keep s' live :
  KernelLaws k → store_wf live (w_store (hs_world s)) → cache_empty (hs_cache s) →
  fs_open fs path = Some (Some st, file) → (0 < st_size st ≤ FILE_CACHE_MAX_BYTES * 4)%Z →
  no_cr mime = true → length mime ≤ 64 →
  http_send_file k fuel tid (init_routes conf reg) fs now req path mime s = Some (rc, keep, s') →
  rc = 0%Z →
  store_wf live (w_store (hs_world s')) ∧ keep = req_keep_alive req ∧
  ∃ text b, carries text b ∧ w_wire (hs_world s') = w_wire (hs_world s) ++ text ∧
    (b = error_page 500 (Some (bs "Read error")) ∨
     ∃ n, b = take n file ∧ (0 < Z.of_nat (length b) ≤ st_size st)%Z).
Proof.
  intros Hk Hwf Hcache Hopen Hsize Hmime Hmimelen H ->.
  unfold http_send_file in H. rewrite Hopen in H.
  pose proof (create_spec live (w_store (hs_world s)) tid (k_calloc k (w_time (hs_world s))) Hwf)
    as Hcr.
  destruct (http_response_create _ _ _) as [[p|] store]; [|done].
  destruct Hcr as (_ & Hnl & Hwf1 & Hget). set (r0 := resp_get store p) in *.
  destruct (file_build_fields mime r0) as (Hcode & Hct & Hshard).
  destruct (resp_set_wf (also p live) store p (file_build mime r0)) as (Hwf2 & Hget2 & _);
    [done|by left|done|].
  set (store' := resp_set store p (file_build mime r0)) in *.
  assert (headers r0 = [] ∧ status_code r0 = 200%Z) as [Hh0 Hc0] by by rewrite Hget.
  unfold send_opened in H. cbn [hs_world hs_cache] in H.
  destruct (lookup_cache_empty (k_malloc k (w_time (with_store (hs_world s) store')))
    path st now (hs_cache s) Hcache) as [Hnone _].
  destruct (http_file_cache_lookup _ _ _ _ _) as [cached cache]. cbn [fst] in Hnone. subst cached.
  rewrite (proj2 (Z.ltb_lt _ _)), (proj2 (Z.leb_le _ _)) in H by lia. cbn [andb] in H.
  destruct (negb _); [done|].
  destruct (read_entire_file _ _ _ _ _) as [[ob t']|] eqn:Er; [|done].
  unfold read_entire_file in Er.
  destruct (read_entire_loop _ _ _ _ _ _) as [[b t1]|] eqn:El; [|done].
  apply read_entire_loop_prefix in El as (n & -> & Hn); [|done]. simpl in Er.
  destruct (0 <? length (take n file)) eqn:Elen; injection Er as <- <-; bool_facts.
  - destruct (http_response_send _ _ _ _ _) as [[rc w2]|] eqn:Es; [|done].
    injection H as -> <- <-.
    destruct (resp_set_wf (also p live) store' p (http_response_set_body (file_build mime r0)
      (Some (take n file)) (length (take n file)) true)) as (Hwf3 & Hget3 & _);
      [done|by left|by rewrite Hget2|].
    cbn [set_body_at with_store tick w_store w_time w_wire] in Es. rewrite Hget2, Hget3 in Es.
    apply file_response_sends in Es as [Hst Hw]; [|done|done|done|done|].
    2:{ rewrite length_take. unfold FILE_CACHE_MAX_BYTES in *. lia. }
    cbn [w_store] in Hst. split; [|split; [done|]].
    { apply (free_also live (w_store w2)); [done|]. rewrite Hst.
      unfold set_body_at. cbn [with_store w_store]. rewrite Hget2. exact Hwf3. }
    destruct (Hw eq_refl) as (text & Hc & Hwire). exists text, (take n file).
    split_and!; [done|done|right]. exists n. split; [done|]. rewrite length_take in *. lia.
  - unfold reply in H. destruct (http_send_error _ _ _ _ _ _ _ _) as [[rc w2]|] eqn:Ee; [|done].
    injection H as -> <- <-. cbn [hs_world].
    eapply http_send_error_sends in Ee as (Hwf' & text & Hc & Hw);
      [|by apply free_also|lia|simpl; lia].
    split; [done|]. split; [done|].
    destruct Hw as [[_ Hw]|[? _]]; [|done]. exists text, (error_page 500 (Some (bs "Read error"))). auto.
Qed.



(** ** Listings *)

Lemma grow_cap_enough n need ncap :
  0 < ncap → need ≤ ncap + n → need ≤ grow_cap n need ncap.
Proof.
  revert ncap. induction n as [|n IH]; intros ncap Hc Hn; simpl; [lia|].
  destruct (ncap <? need) eqn:E; bool_facts; [apply IH; lia|lia].
Qed.

(**  The listing buffer never overflows: after [append_str] the text and its
    terminator fit the capacity, the text is extended by exactly the argument, and the
    call fails only when memory is short. *)
Theorem append_str_spec realloc_ok b s :
  0 < sb_cap b →
  match append_str realloc_ok b s with
  | Some b' => sb_text b' = sb_text b ++ s ∧ length (sb_text b') + 1 ≤ sb_cap b'
  | None => realloc_ok = false ∧ sb_cap b < length (sb_text b ++ s) + 1
  end.
Proof.
  intros Hc. unfold append_str. rewrite length_app.
  destruct (sb_cap b <? length (sb_text b) + length s + 1) eqn:E; bool_facts.
  - destruct realloc_ok; simpl; [|split; [done|lia]]. split; [done|].
    rewrite length_app. apply grow_cap_enough; [done|lia].
  - simpl. split; [done|]. rewrite length_app. lia.
Qed.

Lemma append_str_spec_witness :
  option_map (λ b, (sb_text b, sb_cap b))
    (append_str true {| sb_text := bs "abc"; sb_cap := 4 |} (bs "defgh")) =
    Some (bs "abcdefgh", 16) ∧
  match append_str true {| sb_text := bs "abc"; sb_cap := 4 |} (bs "defgh") with
  | Some b' => length (sb_text b') + 1 ≤ sb_cap b'
  | None => False
  end.
Proof.
  split; [vm_compute; reflexivity|].
  pose proof (append_str_spec true {| sb_text := bs "abc"; sb_cap := 4 |} (bs "defgh")) as H.
  cbn [sb_cap] in H. specialize (H ltac:(lia)).
  destruct (append_str _ _ _); [exact (proj2 H)|discriminate (proj1 H)].
Defined.

(** Decoding of the four entities. *)
Fixpoint html_unescape (n : nat) (s : bytes) : bytes :=
  match n with
  | 0 => []
  | S n =>
      match s with
      | [] => []
      | c :: s' =>
          if is_prefix (bs "&amp;") s then "&"%char :: html_unescape n (drop 5 s)
          else if is_prefix (bs "&lt;") s then "<"%char :: html_unescape n (drop 4 s)
          else if is_prefix (bs "&gt;") s then ">"%char :: html_unescape n (drop 4 s)
          else if is_prefix (bs "&quot;") s then dq :: html_unescape n (drop 6 s)
          else c :: html_unescape n s'
      end
  end.

Lemma html_escape_char_inert c :
  Forall (λ x, x ∉ ["<"; ">"; dq]%char) (html_escape_char c).
Proof.
  apply Forall_forall. intros x Hx.
  assert (forallb (λ x, negb (bool_decide (x ∈ ["<"; ">"; dq]%char))) (html_escape_char c) = true)
    as H.
  { revert c Hx. intros c _. revert c. apply byte_forall. vm_compute. reflexivity. }
  rewrite forallb_forall in H. apply list_elem_of_In in Hx. specialize (H x Hx).
  apply negb_true_iff, bool_decide_eq_false in H. done.
Qed.

Lemma html_unescape_char n c r :
  html_unescape (S n) (html_escape_char c ++ r) = c :: html_unescape n r.
Proof.
  unfold html_escape_char.
  repeat (match goal with |- context [if Ascii.eqb c ?x then _ else _] =>
    destruct (Ascii.eqb_spec c x) as [->|?]; [reflexivity|] end).
  assert (∀ s post, s ∈ [bs "&amp;"; bs "&lt;"; bs "&gt;"; bs "&quot;"] → c :: r ≠ s ++ post) as H.
  { intros s post Hs E. repeat (apply elem_of_cons in Hs as [->|Hs]; [by simplify_eq/=|]).
    by apply elem_of_nil in Hs. }
  change (html_unescape (S n) ([c] ++ r)) with
    (if is_prefix (bs "&amp;") (c :: r) then "&"%char :: html_unescape n (drop 5 (c :: r))
     else if is_prefix (bs "&lt;") (c :: r) then "<"%char :: html_unescape n (drop 4 (c :: r))
     else if is_prefix (bs "&gt;") (c :: r) then ">"%char :: html_unescape n (drop 4 (c :: r))
     else if is_prefix (bs "&quot;") (c :: r) then dq :: html_unescape n (drop 6 (c :: r))
     else c :: html_unescape n r).
  repeat (match goal with |- context [if is_prefix ?s (c :: r) then _ else _] =>
    destruct (is_prefix s (c :: r)) eqn:E;
    [apply is_prefix_spec in E as [post E]; exfalso; apply (H s post); [set_solver|exact E]
    |clear E] end).
  done.
Qed.

(** Names in a listing are inert: the escaped text has no angle bracket and no
    double quote, so it cannot leave the text or the attribute it is put in, and a
    browser reads the original name back. *)
Theorem html_escape_inert s e :
  html_escape true s = Some e →
  Forall (λ x, x ∉ ["<"; ">"; dq]%char) e ∧ html_unescape (length s) e = s.
Proof.
  intros [= <-]. split.
  - apply Forall_bind, Forall_true. apply html_escape_char_inert.
  - induction s as [|c s IH]; [done|]. cbn [mbind list_bind length].
    by rewrite html_unescape_char, IH.
Qed.

Lemma html_escape_inert_witness :
  html_unescape 5 (bs "a&lt;b&gt;&quot;") = bs "a<b>" ++ [dq].
Proof.
  refine (proj2 (html_escape_inert (bs "a<b>" ++ [dq]) (bs "a&lt;b&gt;&quot;") _)).
  vm_compute. reflexivity.
Defined.
