(* ===== verification/StaticAnswers.v ===== *)
(** * Static files: the answers of the handlers (src/http/response_file.c,
      src/router/route_table.c)

    [favicon_handler] and [static_handler] give back every response object, leave the file
    cache empty, and when they succeed and leave the connection open have written one
    response that a client can delimit. *)

From S2P Require Import Prelude Conf Router HttpUtils ResponsePool HttpResponse FileCache Files.

(** What the answers rely on: no name of a file contains a carriage return, and a directory
    has fewer than 2^32 entries. *)
Class FsLaws (fs : filesystem) : Prop := {
  fl_no_cr p : cr ∈ p → fs_stat fs p = None;
  fl_entries p names : fs_readdir fs p = Some names → (Z.of_nat (length names) < 2 ^ 32)%Z;
}.

Lemma mime_type_ok p : no_cr (mime_type_for_path p) = true ∧ length (mime_type_for_path p) ≤ 64.
Proof.
  assert (∀ m, no_cr m && (length m <=? 64) = true → no_cr m = true ∧ length m ≤ 64) as H.
  { intros m [? ?]%andb_true_iff. split; [done|by apply Nat.leb_le]. }
  apply H. unfold mime_type_for_path. repeat case_match; reflexivity.
Qed.

Section answers.
Context (k : kernel) (Hk : KernelLaws k) (fuel : nat) (tid : Z) (conf : option miniweb_conf) (reg0 : registry).
Context (fs : filesystem) (Hfs : FsLaws fs) (now : Z).

Abbreviation reg := (init_routes conf reg0).

(** What a handler does from [s] to [s']; the cache is empty from the start. *)
Record answered (live : resp_ptr → Prop) (s : hstate) (rc : Z) (keep : bool) (s' : hstate) : Prop := {
  an_store : store_wf live (w_store (hs_world s'));
  an_cache : cache_empty (hs_cache s) → cache_empty (hs_cache s');
  an_framed : cache_empty (hs_cache s) → framed (hs_world s) rc keep (hs_world s')
}.

Abbreviation answers live s r := (∀ rc keep s', r = Some (rc, keep, s') → answered live s rc keep s').

Lemma reply_answers live keep0 s r :
  (∀ rc w, r = Some (rc, w) → ∃ b, delivers live b (hs_world s) rc w) → answers live s (reply keep0 s r).
Proof.
  intros Hr rc keep s'. destruct r as [[rc0 w]|]; [|done]. intros [= <- <- <-].
  destruct (Hr rc0 w eq_refl) as [b Hd]. split; [apply Hd|done|intros _; by eapply delivers_framed].
Qed.

Lemma error_answers live req code msg s w :
  (0 ≤ code < 1000)%Z → length msg ≤ 1024 →
  store_wf live (w_store w) → w_wire w = w_wire (hs_world s) →
  answers live s (reply (req_keep_alive req) s (http_send_error k fuel tid reg req code (Some msg) w)).
Proof.
  intros Hcode Hmsg Hwf Hwire. apply reply_answers. intros rc w' H. eexists.
  by apply (error_delivers_later k fuel tid conf reg0 req code msg w (hs_world s) live (rc, w')).
Qed.

(** ** Files *)

Lemma send_and_free_store live req p w rc w' :
  ¬ live p → store_wf (also p live) (w_store w) →
  send_and_free k fuel req p w = Some (rc, w') → store_wf live (w_store w').
Proof.
  intros Hp Hwf. unfold send_and_free. destruct (http_response_send _ _ _ _ _) as [[rc0 w0]|] eqn:E; [|done].
  intros [= <- <-]. apply http_response_send_store in E. cbn. rewrite E. by apply free_also.
Qed.

Lemma stream_loop_store n file w rc w' : stream_loop k n file w = Some (rc, w') → w_store w' = w_store w.
Proof.
  revert file w. induction n as [|n IH]; intros file w; cbn [stream_loop]; [done|].
  destruct (k_read _ _ _) as [m|]; [|by intros [= _ <-]]. destruct (_ =? 0); [by intros [= _ <-]|].
  unfold after_io. destruct (http_response_write_all _ _ _ _) as [[[rc0 sent] t]|]; [|done].
  destruct (rc0 <? 0)%Z; [by intros [= _ <-]|]. by intros ->%IH.
Qed.

Lemma set_body_store live p b len f w :
  store_wf (also p live) (w_store w) → store_wf (also p live) (w_store (set_body_at p b len f w)).
Proof. intros Hwf. apply resp_set_wf; [done|by left|done]. Qed.

(** The object of the response is given back. *)
Lemma send_opened_store live req path st file p s rc keep s' :
  ¬ live p → store_wf (also p live) (w_store (hs_world s)) →
  send_opened k fuel tid reg now req path st file p s = Some (rc, keep, s') →
  store_wf live (w_store (hs_world s')).
Proof.
  intros Hp Hwf. unfold send_opened. destruct (http_file_cache_lookup _ _ _ _ _) as [[c|] cache].
  { unfold reply. destruct (send_and_free _ _ _ _ _) as [[rc0 w2]|] eqn:E; [|done]. intros [= _ _ <-].
    eapply send_and_free_store in E; [done|done|by apply set_body_store]. }
  pose proof (free_also live (w_store (hs_world s)) p Hp Hwf) as Hfree. destruct (_ && _).
  - destruct (negb _); [by intros [= _ _ <-]|].
    destruct (read_entire_file _ _ _ _ _) as [[[b|] t']|]; [| |done].
    + destruct (http_response_send _ _ _ _ _) as [[rc0 w2]|] eqn:E; [|done]. intros [= _ _ <-].
      apply http_response_send_store in E. cbn [hs_world with_store w_store]. rewrite E.
      apply free_also; [done|]. by apply set_body_store.
    + unfold reply. destruct (http_send_error _ _ _ _ _ _ _ _) as [[rc0 w2]|] eqn:E; [|done].
      intros [= _ _ <-]. by eapply http_send_error_store in E.
  - destruct (send_and_free _ _ _ _ _) as [[rc0 w2]|] eqn:E; [|done].
    eapply send_and_free_store in E; [|done|by apply set_body_store].
    destruct (rc0 <? 0)%Z; [by intros [= _ _ <-]|]. unfold reply.
    destruct (stream_loop _ _ _ _) as [[rc1 w3]|] eqn:El; [|done]. apply stream_loop_store in El.
    intros [= _ _ <-]. cbn. by rewrite El.
Qed.

(** A file that is streamed closes the connection. *)
Lemma streamed_closes req path st file p s rc s' :
  cache_empty (hs_cache s) →
  send_opened k fuel tid reg now req path st file p s = Some (rc, true, s') →
  (0 < st_size st ≤ FILE_CACHE_MAX_BYTES * 4)%Z.
Proof.
  intros Hc. unfold send_opened.
  destruct (lookup_cache_empty (k_malloc k (w_time (hs_world s))) path st now (hs_cache s) Hc) as [Hnone _].
  destruct (http_file_cache_lookup _ _ _ _ _) as [cached cache]. cbn [fst] in Hnone. subst cached.
  destruct (_ && _) eqn:Esize; bool_facts; [done|].
  destruct (send_and_free _ _ _ _ _) as [[rc0 w2]|]; [|done]. destruct (rc0 <? 0)%Z; [done|]. unfold reply.
  by destruct (stream_loop _ _ _ _) as [[rc1 w3]|].
Qed.

Lemma send_file_answers live req path mime s :
  store_wf live (w_store (hs_world s)) → no_cr mime = true → length mime ≤ 64 →
  answers live s (http_send_file k fuel tid reg fs now req path mime s).
Proof.
  intros Hwf Hm Hml rc keep s' H.
  pose proof (small_file_sent k fuel tid conf reg0 fs now req path mime) as Hsmall.
  pose proof H as H0. unfold http_send_file in H0.
  destruct (fs_open fs path) as [[[st|] file]|] eqn:Eo;
    [|by eapply error_answers, H0; [lia|apply Nat.leb_le|..]..].
  pose proof (create_spec live (w_store (hs_world s)) tid (k_calloc k (w_time (hs_world s))) Hwf) as Hcr.
  destruct (http_response_create _ _ _) as [[p|] store].
  2: { injection H0 as <- <- <-. split; [apply Hcr|done|done]. }
  destruct Hcr as (_ & Hnl & Hwf1 & _).
  split.
  - eapply send_opened_store, H0; [done|]. apply resp_set_wf; [done|by left|]. apply file_build_fields.
  - intros Hc. by eapply send_file_never_caches, H.
  - intros Hc -> ->. apply streamed_closes in H0; [|done].
    destruct (Hsmall st file s 0%Z true s' live) as (_ & _ & text & b & ? & ? & _); try done. by exists text, b.
Qed.

Lemma favicon_answers live sdir req s :
  store_wf live (w_store (hs_world s)) →
  answers live s (favicon_handler k fuel tid reg fs now sdir req s).
Proof. intros Hwf. apply send_file_answers; [done..|by apply Nat.leb_le]. Qed.

(** ** Redirects *)

Lemma redirect_answers live req location s :
  store_wf live (w_store (hs_world s)) → cr ∉ location → length location < 512 →
  answers live s (send_redirect k fuel tid req 301 location s).
Proof.
  intros Hwf Hcr Hl. apply reply_answers. intros rc w H. exists []. revert H.
  pose proof HEADERS_SIZE_val.
  assert (length (text_lines [bs "Location" ++ bs ": " ++ location]) < HEADERS_SIZE) as Hfit.
  { unfold text_lines. cbn [fmap list_fmap concat]. rewrite app_nil_r, !length_app.
    change (length crlf) with 2. change (length (bs "Location")) with 8. change (length (bs ": ")) with 2. lia. }
  apply (respond_delivers_with _ _ _ _ _ (bs "text/plain; charset=utf-8") _ [bs "Location" ++ bs ": " ++ location]);
    [| | |done|done].
  - intros r. cbn [http_response_set_body pool_shard_idx]. by rewrite add_header_shard.
  - intros sh. cbv zeta. rewrite (add_header_fits _ (bs "Location") location []) by done.
    split; [|done]. split; try done. by apply Nat.leb_le.
  - apply Forall_singleton. split_and!; [|done|done]. rewrite !elem_of_app.
    intros [?|[?|?]]; [..|done]; by apply (no_cr_spec (bs "Location: ")); [|set_solver].
Qed.

(** ** Listings *)

(** Only time has passed. *)
Definition same_output (w w' : world) : Prop := w_store w' = w_store w ∧ w_wire w' = w_wire w.

#[local] Instance same_output_preorder : PreOrder same_output.
Proof. split; [done|]. intros w1 w2 w3 [] []. split; congruence. Qed.

Lemma append_str_text b b' ok x : append_str ok b x = Some b' → sb_text b' = sb_text b ++ x.
Proof. unfold append_str. destruct (_ <? _); [destruct ok; [|done]|]; by intros [= <-]. Qed.

Lemma append_list_spec w b ss :
  let '(o, w') := append_list k w b ss in
  same_output w w' ∧ ∀ b', o = Some b' → sb_text b' = sb_text b ++ concat ss.
Proof.
  revert w b. induction ss as [|x ss IH]; intros w b; cbn [append_list concat].
  { split; [done|]. intros b' [= <-]. by rewrite app_nil_r. }
  destruct (append_str _ b x) as [b1|] eqn:E; [|by split].
  specialize (IH (tick w) b1). destruct (append_list k (tick w) b1 ss) as [o w'].
  destruct IH as [[H1 H2] Hb]. split; [by split|]. intros b' Hb'. apply append_str_text in E.
  by rewrite (Hb b' Hb'), E, <- app_assoc.
Qed.

Lemma autoindex_loop_spec fullpath names w b :
  let '(o, w') := autoindex_loop k fs fullpath names w b in
  same_output w w' ∧
  ∀ b', o = Some b' → length (sb_text b') ≤ length (sb_text b) + AUTOINDEX_ITEM_SIZE * length names.
Proof.
  revert w b. induction names as [|n names IH]; intros w b; cbn [autoindex_loop].
  { split; [done|]. intros b' [= <-]. lia. }
  assert (∀ w0, same_output w w0 → let '(o, w') := autoindex_loop k fs fullpath names w0 b in
    same_output w w' ∧ ∀ b', o = Some b' →
      length (sb_text b') ≤ length (sb_text b) + AUTOINDEX_ITEM_SIZE * length (n :: names)) as Hskip.
  { intros w0 Hw0. specialize (IH w0 b). destruct (autoindex_loop _ _ _ _ w0 b) as [o w'].
    destruct IH as [Hw Hb]. split; [by etransitivity|]. intros b' Hb'. specialize (Hb b' Hb'). simpl. lia. }
  destruct (_ || _); [by apply Hskip|]. destruct (html_escape _ n) as [escaped|]; [|by apply Hskip].
  set (item := index_item _ _). assert (length item ≤ AUTOINDEX_ITEM_SIZE) as Hitem.
  { unfold item, index_item. pose proof AUTOINDEX_ITEM_SIZE_val.
    match goal with |- length (strlcpy _ ?x) ≤ _ => pose proof (length_strlcpy AUTOINDEX_ITEM_SIZE x) end. lia. }
  destruct (append_str _ b item) as [b1|] eqn:E; [|by split]. apply append_str_text in E.
  specialize (IH (tick (tick w)) b1). destruct (autoindex_loop _ _ _ _ _ b1) as [o w'].
  destruct IH as [[H1 H2] Hb]. split; [by split|]. intros b' Hb'. specialize (Hb b' Hb').
  rewrite E, length_app in Hb. simpl. lia.
Qed.

Lemma html_escape_length ok x e : html_escape ok x = Some e → length e ≤ 6 * length x.
Proof.
  unfold html_escape. destruct ok; [|done]. intros [= <-]. induction x as [|c x IH]; [done|].
  cbn [mbind list_bind]. rewrite length_app. cbn [length].
  assert (length (html_escape_char c) ≤ 6); [|lia]. unfold html_escape_char.
  repeat (case_match; [by apply Nat.leb_le|]). by apply Nat.leb_le.
Qed.

Lemma autoindex_answers live req req_path fullpath s :
  store_wf live (w_store (hs_world s)) → length req_path < 512 →
  answers live s (send_autoindex k fuel tid reg fs req req_path fullpath s).
Proof.
  intros Hwf Hpath. unfold send_autoindex.
  destruct (fs_readdir fs fullpath) as [names|] eqn:En; [|by apply error_answers; [lia|apply Nat.leb_le|..]].
  apply (fl_entries (fs := fs)) in En.
  assert (∀ w, same_output (hs_world s) w → answers live s (out_of_memory k fuel tid reg req s w)) as Hoom.
  { intros w [H1 H2]. apply error_answers; [lia|by apply Nat.leb_le| |done]. by rewrite H1. }
  destruct (negb _); [by apply Hoom|].
  destruct (html_escape _ req_path) as [escaped|] eqn:Eesc; [|by apply Hoom].
  apply html_escape_length in Eesc.
  match goal with |- context [append_list k ?w ?b ?l] =>
    pose proof (append_list_spec w b l) as H1; assert (Z.of_nat (length (concat l)) ≤ 8000)%Z as Hl end.
  { cbn [concat app]. rewrite !length_app.
    assert (length autoindex_open + length autoindex_middle ≤ 400) by by apply Nat.leb_le.
    change (length (bs "</h1><ul>")) with 9.
    assert (length (concat (if streq req_path (bs "/static/") then []
      else [qs "<li><a href='../'>../</a></li>"])) ≤ 64) by (destruct (streq _ _); by apply Nat.leb_le). lia. }
  destruct (append_list k _ _ _) as [b1 w1]. destruct H1 as [Hw1 Hb1].
  destruct b1 as [b1|]; [|by apply Hoom]. specialize (Hb1 b1 eq_refl).
  pose proof (autoindex_loop_spec fullpath names w1 b1) as H2.
  destruct (autoindex_loop _ _ _ _ _ _) as [b2 w2]. destruct H2 as [Hw2 Hb2].
  assert (same_output (hs_world s) w2) as Hs2 by (by etransitivity; [|exact Hw2]).
  destruct b2 as [b2|]; [|by apply Hoom]. specialize (Hb2 b2 eq_refl).
  pose proof (append_list_spec w2 b2 [bs "</ul></div></body></html>"]) as H3.
  destruct (append_list k w2 _ _) as [b3 w3]. destruct H3 as [Hw3 Hb3].
  assert (same_output (hs_world s) w3) as [Hst Hwire] by (by etransitivity; [|exact Hw3]).
  destruct b3 as [b3|]; [|by apply Hoom]. specialize (Hb3 b3 eq_refl).
  apply reply_answers. intros rc w H. exists (sb_text b3). revert H. unfold delivers. rewrite <- Hwire.
  apply respond_delivers with (bs "text/html; charset=utf-8"); [done| |by rewrite Hst].
  intros sh. split; [split; try done; [by apply Nat.leb_le|]|done].
  cbn [concat app] in *. rewrite Hb3, length_app. change (length (_ ++ [])) with 25. rewrite Hb1 in Hb2.
  cbn [sb_text app] in Hb2. pose proof AUTOINDEX_ITEM_SIZE_val. nia.
Qed.

(** ** The handler *)

(** Every byte of the path after [/static] but a slash is in the path below the directory. *)
Lemma relpath_cr req_path :
  is_prefix (bs "/static") req_path = true → cr ∈ req_path → cr ∈ static_relpath req_path.
Proof.
  intros [rest ->]%is_prefix_spec. rewrite elem_of_app. intros [H|H].
  { exfalso. revert H. by_computation. }
  unfold static_relpath. change (drop 7 (bs "/static" ++ rest)) with rest.
  destruct rest as [|c rest]; [by apply elem_of_nil in H|]. apply elem_of_cons in H as [<-|H]; [by left|].
  destruct (Ascii.eqb c "/"); [|by right]. destruct rest; [by apply elem_of_nil in H|done].
Qed.

Lemma static_answers live sdir autoindex req s :
  store_wf live (w_store (hs_world s)) →
  answers live s (static_handler k fuel tid reg fs now sdir autoindex req s).
Proof.
  intros Hwf. unfold static_handler. set (req_path := take _ (req_url req)).
  assert (∀ code msg, (0 ≤ code < 1000)%Z → length (bs msg) <= 1024 →
    answers live s (static_error k fuel tid reg req code msg s)) as Herr.
  { intros code msg Hcode Hmsg. by apply error_answers. }
  assert (∀ path p, answers live s (http_send_file k fuel tid reg fs now req path (mime_type_for_path p) s)) as Hfile.
  { intros path p. destruct (mime_type_ok p). by apply send_file_answers. }
  destruct (_ || _) eqn:E1; [apply Herr; [lia|by apply Nat.leb_le]|]. apply orb_false_iff in E1 as [_ E1].
  apply Nat.leb_gt in E1. assert (length req_path < 512) as Hlen.
  { unfold req_path. rewrite length_take. pose proof PATH_BUFFER_SIZE_val. lia. }
  destruct (negb (is_prefix _ _)) eqn:E2; [apply Herr; [lia|by apply Nat.leb_le]|]. apply negb_false_iff in E2.
  cbv zeta. destruct (_ || _); [apply Herr; [lia|by apply Nat.leb_le]|].
  destruct (PATH_BUFFER_SIZE <=? _); [apply Herr; [lia|by apply Nat.leb_le]|].
  set (fullpath := sdir ++ bs "/" ++ static_relpath req_path).
  destruct (fs_stat fs fullpath) as [st|] eqn:Est; [|apply Herr; [lia|by apply Nat.leb_le]].
  destruct (st_isdir st); [|apply Hfile].
  destruct (_ =? _)%Z; [apply Herr; [lia|by apply Nat.leb_le]|].
  destruct (negb _).
  - destruct (Nat.leb_spec PATH_BUFFER_SIZE (length (req_path ++ bs "/"))); [apply Herr; [lia|by apply Nat.leb_le]|].
    pose proof PATH_BUFFER_SIZE_val. apply redirect_answers; [done| |lia].
    intros [Hcr|Hcr]%elem_of_app; [|by apply list_elem_of_singleton in Hcr].
    rewrite (fl_no_cr (fs := fs)) in Est; [done|]. unfold fullpath. rewrite !elem_of_app.
    right; right. by apply relpath_cr.
  - destruct (index_file _ _ "index.html"); [apply Hfile|].
    destruct (index_file _ _ "index.htm"); [apply Hfile|]. by apply autoindex_answers.
Qed.
End answers.
