(* ===== verification/Worker.v ===== *)
(** * Worker threads (src/net/worker.c)

    One iteration of [miniweb_worker_thread] on a popped connection: read until the end
    of the header, parse, dispatch to a handler, answer, then either re-arm the socket
    for the next request or close it.  [recv] is a parameter like the rest of the kernel;
    [now] is the clock.  The handlers are reached through [run_handler], so that the
    theorems hold for every handler the tables can name. *)

From S2P Require Import Prelude FreeStack ConnectionPool Conf Router ResponsePool HttpResponse.
From S2P Require Import HttpRequest FileCache Files.

Definition MAX_KEEPALIVE_REQUESTS : Z := 64.

(** ** Parsing *)

(** [Some (method, url, version)] is the return value 0. *)
Definition parse_request_line (buf : bytes) : option (bytes * bytes * bytes) :=
  match strchr buf space with
  | None => None
  | Some sp1 =>
      if sp1 =? 0 then None
      else
        let after1 := drop (S sp1) buf in
        match strchr after1 space with
        | None => None
        | Some ulen =>
            let after2 := drop (S ulen) after1 in
            match strstr after2 crlf with
            | None => None
            | Some vlen =>
                if (ulen =? 0) || (vlen =? 0) then None
                else if (32 <=? sp1) || (512 <=? ulen) || (32 <=? vlen) then None
                else Some (take sp1 buf, take ulen after1, take vlen after2)
            end
        end
  end.

Definition find_header_end (buf : bytes) : option nat := strstr buf (crlf ++ crlf).

Definition is_sp_tab (c : ascii) : bool := Ascii.eqb c space || Ascii.eqb c tab.

(** The loop of [request_keep_alive], from [p] on. *)
Fixpoint keep_alive_loop (fuel : nat) (p : bytes) : option bool :=
  match fuel with
  | 0 => None
  | S fuel =>
      match strcasestr p (crlf ++ bs "Connection:") with
      | None => None
      | Some i =>
          let p := skip_while is_sp_tab (drop (i + 13) p) in
          if is_prefix_case (bs "close") p then Some false
          else if is_prefix_case (bs "keep-alive") p then Some true
          else keep_alive_loop fuel p
      end
  end.

Definition request_keep_alive (buf version : bytes) : bool :=
  match keep_alive_loop (S (length buf)) buf with
  | Some b => b
  | None => streq version (bs "HTTP/1.1")
  end.

(** ** The connection object *)

Definition conn_with (c : connection) (buffer : bytes) (bytes_read : nat) (last_activity : Z)
    (requests_served : Z) : connection :=
  {| conn_fd := conn_fd c; conn_addr := conn_addr c; conn_buffer := buffer;
     conn_bytes_read := bytes_read; conn_created := conn_created c;
     conn_last_activity := last_activity; conn_requests_served := requests_served;
     conn_gen_of := conn_gen_of c |}.

(** The bytes [d] arrive at [buffer + bytes_read] and a NUL is put behind them. *)
Definition conn_receive (c : connection) (d : bytes) (now : Z) : connection :=
  conn_with c (buf_write (conn_bytes_read c) (d ++ [nul]) (conn_buffer c))
    (conn_bytes_read c + length d) now (conn_requests_served c).

Definition conn_rearm (c : connection) (now : Z) : connection :=
  conn_with c (buf_write 0 [nul] (conn_buffer c)) 0 now (conn_requests_served c + 1)%Z.

(** ** The iteration *)

Inductive recv_ret := RecvData (d : bytes) | RecvErr (e : errno).

Inductive read_outcome := ReadAgain | ReadClosed | ReadTooLarge | ReadDone.

(** What the threads ask of the kernel besides reading and writing; the last two are the
    dispatcher's ([EV_ADD | EV_DISPATCH] and [F_SETFL]). *)
Inductive action :=
| KEventEnable (fd : Z) (slot : nat)
| KEventDelete (fd : Z)
| CloseFd (fd : Z)
| KEventAdd (fd : Z) (slot : nat)
| SetFlags (fd flags : Z).

(** [HS] is the state of the handlers. *)
Record wstate (HS : Type) := WState { ws_pool : connection_pool; ws_h : HS; ws_actions : list action }.
Arguments WState {HS} _ _ _.
Arguments ws_pool {HS} _.
Arguments ws_h {HS} _.
Arguments ws_actions {HS} _.

Section worker.
Context {HS : Type} `{!HandlerState HS}.
Context (recv : nat → nat → recv_ret) (kevent_ok : nat → bool) (now : nat → Z).
Context (k : kernel) (fuel : nat) (tid : Z) (reg : registry) (conf : miniweb_conf).
Context (run_handler : Z → route_handler → http_request → HS → handled HS).

(** [(size_t)max_req_size - bytes_read - 1] *)
Definition recv_room (c : connection) : nat :=
  Z.to_nat (wrap64 (max_req_size conf - Z.of_nat (conn_bytes_read c) - 1)).

(** The [while (!done)] loop; [t] counts the calls of [recv]. *)
Fixpoint read_loop (n t : nat) (c : connection) : option (read_outcome * connection * nat) :=
  match n with
  | 0 => None
  | S n =>
      match recv t (recv_room c) with
      | RecvErr EAGAIN => Some (ReadAgain, c, S t)
      | RecvErr _ => Some (ReadClosed, c, S t)
      | RecvData d =>
          if length d =? 0 then Some (ReadClosed, c, S t)
          else
            let c' := conn_receive c d (now t) in
            match find_header_end (cstr (conn_buffer c')) with
            | Some _ => Some (ReadDone, c', S t)
            | None =>
                if (wrap64 (max_req_size conf - 1) <=? Z.of_nat (conn_bytes_read c'))%Z
                then Some (ReadTooLarge, c', S t)
                else read_loop n (S t) c'
            end
      end
  end.

Definition set_conn (p : connection_pool) (slot : nat) (c : connection) : connection_pool :=
  cp_update p slot (λ _, c).

Definition plain_request (fd : Z) : http_request :=
  {| req_fd := fd; req_method := bs "GET"; req_url := bs "/"; req_version := bs "HTTP/1.1";
     req_keep_alive := false; req_buffer := []; req_buffer_len := 0;
     req_client_addr := None; hdr_scratch := []; ip_scratch := [] |}.

Definition send_error_response (fd code : Z) (msg : bytes) (s : wstate HS) : option (wstate HS) :=
  match http_send_error k fuel tid reg (plain_request fd) code (Some msg) (hworld (ws_h s)) with
  | None => None
  | Some (_, w) =>
      Some {| ws_pool := ws_pool s;
              ws_h := set_hworld w (ws_h s);
              ws_actions := ws_actions s |}
  end.

Definition close_connection (fd : Z) (s : wstate HS) : wstate HS :=
  {| ws_pool := miniweb_connection_free (ws_pool s) fd; ws_h := ws_h s;
     ws_actions := ws_actions s ++ [KEventDelete fd; CloseFd fd] |}.

(** The result says whether the socket was re-armed. *)
Definition try_rearm_keepalive (slot t : nat) (s : wstate HS) : bool * wstate HS :=
  let c := cp_pool (ws_pool s) !!! slot in
  if (MAX_KEEPALIVE_REQUESTS <=? conn_requests_served c)%Z then (false, s)
  else
    (kevent_ok t,
     {| ws_pool := set_conn (ws_pool s) slot (conn_rearm c (now t)); ws_h := ws_h s;
        ws_actions := ws_actions s ++ [KEventEnable (conn_fd c) slot] |}).

(** The request object built from the connection. *)
Definition make_request (fd : Z) (c : connection) (method path version : bytes) : http_request :=
  let buf := cstr (conn_buffer c) in
  {| req_fd := fd; req_method := method; req_url := path; req_version := version;
     req_keep_alive := request_keep_alive buf version; req_buffer := buf;
     req_buffer_len := conn_bytes_read c; req_client_addr := Some (conn_addr c);
     hdr_scratch := []; ip_scratch := [] |}.

(** Handler or error answer: return value, [keep_alive] and handler state. *)
Definition dispatch_request (req : http_request) (s : HS) : handled HS :=
  match route_match reg (req_method req) (req_url req) with
  | Some h => run_handler tid h req s
  | None =>
      let known := route_path_known reg (req_url req) in
      reply (req_keep_alive req) s
        (http_send_error k fuel tid reg req (if known then 405 else 404)
           (Some (if known then bs "Method Not Allowed" else bs "Not Found")) (hworld s))
  end.

(** The [if (done)] block; the result says whether to close. *)
Definition serve_request (slot t : nat) (fd : Z) (s : wstate HS) : option (bool * wstate HS) :=
  let c := cp_pool (ws_pool s) !!! slot in
  match parse_request_line (cstr (conn_buffer c)) with
  | None =>
      match send_error_response fd 400 (bs "Bad Request") s with
      | None => None
      | Some s' => Some (true, s')
      end
  | Some (method, path, version) =>
      match dispatch_request (make_request fd c method path version) (ws_h s) with
      | None => None
      | Some (rc, keep, h) =>
          let s' := {| ws_pool := ws_pool s; ws_h := h; ws_actions := ws_actions s |} in
          if keep && (rc =? 0)%Z then
            let '(rearmed, s'') := try_rearm_keepalive slot t s' in Some (negb rearmed, s'')
          else Some (true, s')
      end
  end.

Definition close_if (close : bool) (fd : Z) (s : wstate HS) : wstate HS :=
  if close then close_connection fd s else s.

(** One turn of the worker on a popped pointer; [None] while a write is still blocked. *)
Definition worker_iteration (slot t : nat) (s : wstate HS) : option (wstate HS) :=
  let fd := conn_fd (cp_pool (ws_pool s) !!! slot) in
  if negb (fd_ok fd) || miniweb_connection_is_stale (ws_pool s) fd (Some slot) then Some s
  else
    let c := cp_pool (ws_pool s) !!! slot in
    match read_loop (Z.to_nat (max_req_size conf) + 1) t c with
    | None => None
    | Some (outcome, c', t') =>
        let s1 := {| ws_pool := set_conn (ws_pool s) slot c'; ws_h := ws_h s;
                     ws_actions := ws_actions s |} in
        match outcome with
        | ReadAgain =>
            Some {| ws_pool := ws_pool s1; ws_h := ws_h s1;
                    ws_actions := ws_actions s1 ++ [KEventEnable fd slot] |}
        | ReadClosed => Some (close_connection fd s1)
        | ReadTooLarge =>
            match send_error_response fd 400 (bs "Request Too Large") s1 with
            | None => None
            | Some s2 => Some (close_connection fd s2)
            end
        | ReadDone =>
            match serve_request slot t' fd s1 with
            | None => None
            | Some (close, s2) => Some (close_if close fd s2)
            end
        end
    end.
End worker.

(** ** The request line *)

(** [parse_request_line] accepts exactly the buffers that start with a non-empty
    method, a non-empty target and a non-empty version, separated by single blanks and
    ended by the first line end after the second blank, each within its array, and it
    returns these three. *)
Theorem parse_request_line_spec buf m u v :
  parse_request_line buf = Some (m, u, v) ↔
  ∃ rest, buf = m ++ [space] ++ u ++ [space] ++ v ++ crlf ++ rest ∧
    space ∉ m ∧ space ∉ u ∧ strstr (v ++ crlf ++ rest) crlf = Some (length v) ∧
    0 < length m < 32 ∧ 0 < length u < 512 ∧ 0 < length v < 32.
Proof.
  unfold parse_request_line. split.
  - destruct (strchr buf space) as [i|] eqn:Ei; [|done].
    apply strchr_split in Ei as (Hb & Hm & Hi).
    destruct (i =? 0) eqn:E0; bool_facts; [done|].
    destruct (strchr (drop (S i) buf) space) as [j|] eqn:Ej; [|done].
    apply strchr_split in Ej as (Hb2 & Hu & Hj).
    destruct (strstr (drop (S j) (drop (S i) buf)) crlf) as [l|] eqn:El; [|done].
    pose proof (strstr_split _ _ _ El) as Hb3. pose proof (strstr_bound _ _ _ El) as Hl.
    destruct ((j =? 0) || (l =? 0)) eqn:Ez; bool_facts; [done|].
    destruct ((32 <=? i) || (512 <=? j) || (32 <=? l)) eqn:Eb; [done|].
    rewrite !orb_false_iff in Eb. destruct Eb as [[? ?] ?]. bool_facts. intros [= <- <- <-].
    exists (drop (l + length crlf) (drop (S j) (drop (S i) buf))).
    rewrite !length_take, !length_drop in *. rewrite <- Hb3.
    split_and!; try done; [|rewrite El; f_equal|lia..].
    + rewrite Hb at 1. f_equal. simpl. f_equal. exact Hb2.
    + lia.
  - intros (rest & -> & Hm & Hu & Hv & Hml & Hul & Hvl).
    change (m ++ [space] ++ u ++ [space] ++ v ++ crlf ++ rest)
      with (m ++ space :: (u ++ space :: (v ++ crlf ++ rest))).
    rewrite strchr_app_sep by done. rewrite (proj2 (Nat.eqb_neq _ _)) by lia.
    rewrite <- Nat.add_1_r, <- drop_drop, !drop_app_length. cbn [drop]. rewrite !drop_0.
    rewrite strchr_app_sep by done.
    rewrite <- Nat.add_1_r, <- drop_drop, !drop_app_length. cbn [drop]. rewrite drop_0, Hv.
    rewrite (proj2 (Nat.eqb_neq (length u) 0)), (proj2 (Nat.eqb_neq (length v) 0)) by lia.
    rewrite (proj2 (Nat.leb_gt 32 (length m))), (proj2 (Nat.leb_gt 512 (length u))),
      (proj2 (Nat.leb_gt 32 (length v))) by lia.
    cbn [orb]. by rewrite !take_app_length.
Qed.

(** A target may span the end of the request line when the line has no version. *)
Example request_line_crosses_lines :
  parse_request_line (bs "GET /a" ++ crlf ++ bs "Host: b" ++ crlf ++ crlf) =
  Some (bs "GET", bs "/a" ++ crlf ++ bs "Host:", bs "b").
Proof. reflexivity. Qed.

(** ** Reading *)

(** The connection a worker may read into. *)
Record conn_ok (conf : miniweb_conf) (c : connection) : Prop := {
  co_buffer : length (conn_buffer c) = MINIWEB_REQUEST_BUFFER_SIZE;
  co_read : (Z.of_nat (conn_bytes_read c) < max_req_size conf)%Z;
  co_served : (0 ≤ conn_requests_served c ≤ MAX_KEEPALIVE_REQUESTS)%Z;
}.

Definition same_identity (c c' : connection) : Prop :=
  conn_fd c' = conn_fd c ∧ conn_gen_of c' = conn_gen_of c ∧ conn_addr c' = conn_addr c ∧
  conn_created c' = conn_created c ∧ conn_requests_served c' = conn_requests_served c.

Section reading.
Context (recv : nat → nat → recv_ret) (now : nat → Z) (conf : miniweb_conf).
(** recv(2) returns at most the bytes it is asked for. *)
Context (Hrecv : ∀ t n d, recv t n = RecvData d → length d ≤ n).
Context (Hmax : (0 < max_req_size conf ≤ Z.of_nat MINIWEB_REQUEST_BUFFER_SIZE)%Z).

Lemma recv_room_eq c :
  conn_ok conf c → Z.of_nat (recv_room conf c) = (max_req_size conf - Z.of_nat (conn_bytes_read c) - 1)%Z.
Proof.
  intros [_ Hr _]. unfold recv_room, wrap64. pose proof MINIWEB_REQUEST_BUFFER_SIZE_val.
  rewrite Z.mod_small; lia.
Qed.

(** One [recv] stays inside the buffer, its terminator included. *)
Lemma conn_receive_ok c d t :
  conn_ok conf c → length d ≤ recv_room conf c →
  conn_ok conf (conn_receive c d t) ∧
  conn_bytes_read (conn_receive c d t) = conn_bytes_read c + length d ∧
  take (conn_bytes_read (conn_receive c d t)) (conn_buffer (conn_receive c d t)) =
    take (conn_bytes_read c) (conn_buffer c) ++ d ∧
  conn_buffer (conn_receive c d t) !! conn_bytes_read (conn_receive c d t) = Some nul.
Proof.
  intros Hok Hd. pose proof (recv_room_eq c Hok) as Hroom. destruct Hok as [Hb Hr Hs].
  pose proof MINIWEB_REQUEST_BUFFER_SIZE_val.
  assert (conn_bytes_read c + length (d ++ [nul]) ≤ length (conn_buffer c)) as Hfit
    by (rewrite length_app; simpl; lia).
  assert (length (take (conn_bytes_read c) (conn_buffer c)) = conn_bytes_read c) as Hlt
    by (rewrite length_take; lia).
  unfold conn_receive. split_and!; simpl.
  - split; simpl; [by rewrite length_buf_write|lia|done].
  - done.
  - unfold buf_write. rewrite <- (app_assoc d [nul]), app_assoc.
    apply take_app_length'. rewrite length_app. lia.
  - unfold buf_write. rewrite <- (app_assoc d [nul]), app_assoc.
    apply list_lookup_middle. rewrite length_app. lia.
Qed.

(** What the loop leaves: the buffer holds what it held and the bytes received; a
    complete header, or a full buffer without one, or neither. *)
Definition read_result (c : connection) (o : read_outcome) (c' : connection) : Prop :=
  (∃ data, take (conn_bytes_read c') (conn_buffer c') =
           take (conn_bytes_read c) (conn_buffer c) ++ data ∧
           conn_bytes_read c' = conn_bytes_read c + length data) ∧
  match o with
  | ReadDone => is_Some (find_header_end (cstr (conn_buffer c')))
  | ReadTooLarge => find_header_end (cstr (conn_buffer c')) = None ∧
      Z.of_nat (conn_bytes_read c') = (max_req_size conf - 1)%Z
  | _ => True
  end.

Lemma read_loop_spec n t c :
  conn_ok conf c → (max_req_size conf - Z.of_nat (conn_bytes_read c) ≤ Z.of_nat n)%Z →
  ∃ o c' t', read_loop recv now conf n t c = Some (o, c', t') ∧
    conn_ok conf c' ∧ same_identity c c' ∧ read_result c o c'.
Proof.
  revert t c. induction n as [|n IH]; intros t c Hok Hn; [destruct Hok; lia|].
  cbn [read_loop].
  assert (read_result c ReadAgain c ∧ read_result c ReadClosed c) as [Hagain Hclosed].
  { split; (split; [exists []|done]); rewrite app_nil_r; simpl; auto with lia. }
  assert (same_identity c c) as Hself by done.
  destruct (recv t (recv_room conf c)) as [d|[]] eqn:Er;
    [|by exists ReadClosed, c, (S t)|by exists ReadAgain, c, (S t)|by exists ReadClosed, c, (S t)].
  destruct (length d =? 0) eqn:Ed; bool_facts; [by exists ReadClosed, c, (S t)|].
  pose proof (recv_room_eq c Hok) as Hroom. apply Hrecv in Er.
  destruct (conn_receive_ok c d (now t) Hok Er) as (Hok' & Hbr & Hdata & _).
  set (c1 := conn_receive c d (now t)) in *.
  assert (same_identity c c1) as Hid by done.
  destruct (find_header_end (cstr (conn_buffer c1))) eqn:Eh.
  { exists ReadDone, c1, (S t). split; [reflexivity|]. split; [exact Hok'|]. split; [exact Hid|]. split; [eauto|rewrite Eh; by eexists]. }
  destruct (wrap64 (max_req_size conf - 1) <=? Z.of_nat (conn_bytes_read c1))%Z eqn:El; bool_facts.
  - exists ReadTooLarge, c1, (S t). split_and!; [done|done|done|]. split; [eauto|].
    pose proof MINIWEB_REQUEST_BUFFER_SIZE_val.
    unfold wrap64 in El. rewrite Z.mod_small in El by lia. destruct Hok'. split; [done|lia].
  - destruct (IH (S t) c1 Hok') as (o & c' & t' & -> & Hc' & Hid' & (data & Hd & Hb') & Ho); [lia|].
    exists o, c', t'. split_and!; [done|done| |split; [|done]].
    + destruct Hid as (?&?&?&?&?), Hid' as (?&?&?&?&?). unfold same_identity.
      split_and!; congruence.
    + exists (d ++ data). rewrite Hd, Hdata, <- app_assoc, length_app. split; [done|lia].
Qed.

End reading.

(** A client that sends its request in two pieces. *)
Definition two_pieces (t n : nat) : recv_ret :=
  let d := nth t [bs "GET / HTTP/1.1"; crlf ++ crlf] [] in
  if length d <=? n then RecvData d else RecvErr EAGAIN.

Definition fresh_conn : connection := new_connection 5 0 0 None.

Lemma fresh_conn_ok conf : (0 < max_req_size conf)%Z → conn_ok conf fresh_conn.
Proof.
  intros H. split; simpl; [apply length_replicate|lia|unfold MAX_KEEPALIVE_REQUESTS; lia].
Qed.


(** ** One iteration *)

Definition served_ok (conf : miniweb_conf) (p : connection_pool) : Prop :=
  ∀ fd slot, serves p fd slot → conn_ok conf (cp_pool p !!! slot).

Lemma set_conn_spec p slot c :
  pool_wf p → slot < MINIWEB_MAX_CONNECTIONS →
  conn_fd c = conn_fd (cp_pool p !!! slot) → conn_gen_of c = conn_gen_of (cp_pool p !!! slot) →
  pool_wf (set_conn p slot c) ∧ cp_pool (set_conn p slot c) !!! slot = c ∧
  (∀ fd, cp_conn (set_conn p slot c) fd = cp_conn p fd) ∧
  ∀ s', s' ≠ slot → cp_pool (set_conn p slot c) !!! s' = cp_pool p !!! s'.
Proof.
  intros Hwf Hs Hfd Hg. split_and!.
  - by apply update_at_wf.
  - simpl. rewrite list_lookup_total_alt, list_lookup_alter_eq.
    destruct (lookup_lt_is_Some_2 (cp_pool p) slot) as [x ->]; [|done].
    by rewrite (wf_pool _ Hwf).
  - done.
  - intros s' Hne. simpl. by rewrite !list_lookup_total_alt, list_lookup_alter_ne.
Qed.

Lemma set_conn_served conf p slot c :
  pool_wf p → slot < MINIWEB_MAX_CONNECTIONS →
  conn_fd c = conn_fd (cp_pool p !!! slot) → conn_gen_of c = conn_gen_of (cp_pool p !!! slot) →
  conn_ok conf c → served_ok conf p → served_ok conf (set_conn p slot c).
Proof.
  intros Hwf Hs Hfd Hg Hc Hp fd' s' [Hok Hsv].
  destruct (set_conn_spec p slot c Hwf Hs Hfd Hg) as (_ & Hsame & Hconn & Hother).
  rewrite Hconn in Hsv. destruct (decide (s' = slot)) as [->|Hne]; [by rewrite Hsame|].
  rewrite Hother by done. by apply (Hp fd').
Qed.

Lemma free_served conf p fd slot :
  pool_wf p → served_ok conf p → serves p fd slot →
  let p' := miniweb_connection_free p fd in
  pool_wf p' ∧ served_ok conf p' ∧ cp_conn p' fd = None ∧
  (∀ fd', fd' ≠ fd → fd_ok fd' = true → cp_conn p' fd' = cp_conn p fd') ∧
  ∀ s', s' ≠ slot → cp_pool p' !!! s' = cp_pool p !!! s'.
Proof.
  intros Hwf Hp Hsv p'. subst p'.
  pose proof (free_wf p fd Hwf) as Hwf'. destruct (free_inv p fd Hwf) as [_ Hyes].
  rewrite (Hyes slot Hsv) in *. pose proof (wf_connections _ Hwf) as Hl.
  destruct Hsv as [Hok Hc].
  assert (∀ s', s' ≠ slot → <[slot := zero_connection]> (cp_pool p) !!! s' = cp_pool p !!! s') as Ho.
  { intros s' Hne. by rewrite list_lookup_total_insert_ne. }
  split_and!; [done| |..].
  - intros fd' s' [Hok' Hc']. erewrite cp_conn_insert in Hc' by eauto.
    case_bool_decide as E; [done|]. cbn [cp_pool].
    rewrite Ho; [apply (Hp fd'); done|]. intros ->. apply E.
    apply (serves_inj p fd fd' slot Hwf); done.
  - erewrite cp_conn_insert by eauto. by rewrite bool_decide_true.
  - intros fd' Hne Hok'. erewrite cp_conn_insert by eauto. by rewrite bool_decide_false.
  - done.
Qed.

Section iteration.
Context {HS : Type} `{!HandlerState HS}.
Context (recv : nat → nat → recv_ret) (kevent_ok : nat → bool) (now : nat → Z).
Context (k : kernel) (fuel : nat) (tid : Z) (reg : registry) (conf : miniweb_conf).
Context (run_handler : Z → route_handler → http_request → HS → handled HS).
Context (Hrecv : ∀ t n d, recv t n = RecvData d → length d ≤ n).
Context (Hmax : (0 < max_req_size conf ≤ Z.of_nat MINIWEB_REQUEST_BUFFER_SIZE)%Z).

Lemma send_error_response_pool fd code msg s s' :
  send_error_response k fuel tid reg fd code msg s = Some s' →
  ws_pool s' = ws_pool s ∧ ws_actions s' = ws_actions s.
Proof.
  unfold send_error_response. destruct (http_send_error _ _ _ _ _ _ _ _) as [[? w]|]; [|done].
  by intros [= <-].
Qed.

(** What the request block does to the pool: nothing, or the re-arming of the slot. *)
Lemma serve_request_pool slot t fd s close s' :
  serve_request kevent_ok now k fuel tid reg run_handler slot t fd s = Some (close, s') →
  let c := cp_pool (ws_pool s) !!! slot in
  (close = true ∧ ws_pool s' = ws_pool s ∧ ws_actions s' = ws_actions s) ∨
  ((conn_requests_served c < MAX_KEEPALIVE_REQUESTS)%Z ∧
   ws_pool s' = set_conn (ws_pool s) slot (conn_rearm c (now t)) ∧
   ws_actions s' = ws_actions s ++ [KEventEnable (conn_fd c) slot]).
Proof.
  intros H c. unfold serve_request in H. fold c in H.
  destruct (parse_request_line _) as [[[m u] v]|].
  - destruct (dispatch_request _ _ _ _ _ _ _) as [[[rc keep] h]|]; [|done].
    destruct (keep && _); [|by simplify_eq; left].
    unfold try_rearm_keepalive in H. cbn [ws_pool ws_h ws_actions] in H. fold c in H.
    destruct (MAX_KEEPALIVE_REQUESTS <=? conn_requests_served c)%Z eqn:E; bool_facts;
      simplify_eq; [by left|by right].
  - destruct (send_error_response _ _ _ _ _ _ _ _) as [s1|] eqn:E; [|done]. simplify_eq.
    left. split; [done|]. by eapply send_error_response_pool.
Qed.

(** How an iteration ends for the connection it served. *)
Definition iteration_end (fd : Z) (slot : nat) (s s' : wstate HS) : Prop :=
  (serves (ws_pool s') fd slot ∧ ws_actions s' = ws_actions s ++ [KEventEnable fd slot]) ∨
  (cp_conn (ws_pool s') fd = None ∧
   ∃ pre, ws_actions s' = ws_actions s ++ pre ++ [KEventDelete fd; CloseFd fd] ∧
          (pre = [] ∨ pre = [KEventEnable fd slot])).

Definition others_same (fd : Z) (slot : nat) (p p' : connection_pool) : Prop :=
  (∀ fd', fd' ≠ fd → fd_ok fd' = true → cp_conn p' fd' = cp_conn p fd') ∧
  ∀ s', s' ≠ slot → cp_pool p' !!! s' = cp_pool p !!! s'.

(** Closing a connection whose object was updated on the way. *)
Lemma close_after fd slot c' pre s s1 :
  pool_wf (ws_pool s) → served_ok conf (ws_pool s) → serves (ws_pool s) fd slot →
  slot < MINIWEB_MAX_CONNECTIONS →
  conn_fd c' = conn_fd (cp_pool (ws_pool s) !!! slot) →
  conn_gen_of c' = conn_gen_of (cp_pool (ws_pool s) !!! slot) → conn_ok conf c' →
  ws_pool s1 = set_conn (ws_pool s) slot c' → ws_actions s1 = ws_actions s ++ pre →
  (pre = [] ∨ pre = [KEventEnable fd slot]) →
  let s' := close_connection fd s1 in
  pool_wf (ws_pool s') ∧ served_ok conf (ws_pool s') ∧
  others_same fd slot (ws_pool s) (ws_pool s') ∧ iteration_end fd slot s s'.
Proof.
  intros Hwf Hok Hsv Hs Hfd Hg Hc Hp Ha Hpre s'. subst s'. unfold close_connection. simpl.
  destruct (set_conn_spec _ _ _ Hwf Hs Hfd Hg) as (Hwf1 & _ & Hconn & Hother).
  pose proof (set_conn_served conf _ _ _ Hwf Hs Hfd Hg Hc Hok) as Hok1.
  rewrite Hp. destruct (free_served conf _ fd slot Hwf1 Hok1) as (? & ? & Hnone & Hfds & Hslots).
  { destruct Hsv. split; [done|]. by rewrite Hconn. }
  split_and!; [done|done| |].
  - split; [intros fd' Hne Hok'; by rewrite Hfds, Hconn|].
    intros s' Hne. by rewrite Hslots, Hother.
  - right. split; [done|]. exists pre. split; [|done]. by rewrite Ha, <- app_assoc.
Qed.

(** Re-arming after the read is one update of the slot. *)
Lemma rearm_state c' tm slot (s s2 : wstate HS) :
  pool_wf (ws_pool s) → slot < MINIWEB_MAX_CONNECTIONS → conn_ok conf c' →
  conn_fd c' = conn_fd (cp_pool (ws_pool s) !!! slot) →
  conn_gen_of c' = conn_gen_of (cp_pool (ws_pool s) !!! slot) →
  (conn_requests_served c' < MAX_KEEPALIVE_REQUESTS)%Z →
  ws_pool s2 = set_conn (set_conn (ws_pool s) slot c') slot (conn_rearm c' tm) →
  ∃ c2, ws_pool s2 = set_conn (ws_pool s) slot c2 ∧
    conn_fd c2 = conn_fd (cp_pool (ws_pool s) !!! slot) ∧
    conn_gen_of c2 = conn_gen_of (cp_pool (ws_pool s) !!! slot) ∧ conn_ok conf c2.
Proof.
  intros Hwf Hs [Hb Hr Hsv] Hfd Hg Hlt ->. exists (conn_rearm c' tm). split_and!; [|done|done|].
  - unfold set_conn, cp_update. simpl. f_equal. apply list_eq. intros j.
    destruct (decide (j = slot)) as [->|Hne];
      [rewrite !list_lookup_alter_eq; by destruct (cp_pool (ws_pool s) !! slot)|].
    by rewrite !list_lookup_alter_ne.
  - pose proof MINIWEB_REQUEST_BUFFER_SIZE_val. split; cbn [conn_rearm conn_with conn_buffer conn_bytes_read conn_requests_served];
      [|lia|lia].
    rewrite length_buf_write; [done|]. simpl. lia.
Qed.

Lemma worker_iteration_spec slot t s s' :
  pool_wf (ws_pool s) → served_ok conf (ws_pool s) → slot < MINIWEB_MAX_CONNECTIONS →
  worker_iteration recv kevent_ok now k fuel tid reg conf run_handler slot t s = Some s' →
  let fd := conn_fd (cp_pool (ws_pool s) !!! slot) in
  pool_wf (ws_pool s') ∧ served_ok conf (ws_pool s') ∧
  others_same fd slot (ws_pool s) (ws_pool s') ∧
  ((s' = s ∧ ¬ serves (ws_pool s) fd slot) ∨
   (serves (ws_pool s) fd slot ∧ iteration_end fd slot s s')).
Proof.
  intros Hwf Hok Hs H fd. unfold worker_iteration in H. fold fd in H.
  destruct (fd_ok fd) eqn:Hfd; cbn [negb orb] in H; last first.
  { simplify_eq. split_and!; [done|done|done|]. left. split; [done|]. intros [? _]. congruence. }
  destruct (miniweb_connection_is_stale (ws_pool s) fd (Some slot)) eqn:Hst.
  { simplify_eq. split_and!; [done|done|done|]. left. split; [done|]. intros [_ Hc].
    rewrite <- (stale_spec _ _ _ Hwf Hfd) in Hc. congruence. }
  apply (stale_spec _ _ _ Hwf Hfd) in Hst.
  assert (serves (ws_pool s) fd slot) as Hsv by done.
  pose proof (Hok fd slot Hsv) as Hc. set (c := cp_pool (ws_pool s) !!! slot) in *.
  destruct (read_loop_spec recv now conf Hrecv Hmax (Z.to_nat (max_req_size conf) + 1) t c Hc)
    as (o & c' & t' & Hl & Hc' & (Hid1 & Hid2 & _ & _ & Hid5) & _); [lia|].
  rewrite Hl in H. clear Hl.
  destruct (set_conn_spec _ _ _ Hwf Hs Hid1 Hid2) as (Hwf1 & Hsame & Hconn & Hother).
  pose proof (set_conn_served conf _ _ _ Hwf Hs Hid1 Hid2 Hc' Hok) as Hok1.
  assert (∀ s1 s2, ws_pool s1 = set_conn (ws_pool s) slot c' → ws_actions s1 = ws_actions s →
    s2 = close_connection fd s1 → pool_wf (ws_pool s2) ∧ served_ok conf (ws_pool s2) ∧
    others_same fd slot (ws_pool s) (ws_pool s2) ∧ iteration_end fd slot s s2) as Hclose.
  { intros s1 s2 Hp Ha ->. apply (close_after fd slot c' [] s s1); auto. by rewrite app_nil_r. }
  assert (∀ P : Prop, P → (s' = s ∧ ¬ serves (ws_pool s) fd slot) ∨ (serves (ws_pool s) fd slot ∧ P))
    as Hright by auto.
  destruct o.
  - simplify_eq. cbn [ws_pool ws_actions]. split_and!; [done|done|by split|].
    apply Hright. left. split; [|done]. split; [done|]. by rewrite Hconn.
  - simplify_eq. destruct (Hclose {| ws_pool := set_conn (ws_pool s) slot c'; ws_h := ws_h s;
      ws_actions := ws_actions s |} _ eq_refl eq_refl eq_refl) as (? & ? & ? & ?). auto.
  - destruct (send_error_response _ _ _ _ _ _ _ _) as [s2|] eqn:Ee; [|done]. simplify_eq.
    apply send_error_response_pool in Ee as [Hp Ha].
    destruct (Hclose s2 _ Hp Ha eq_refl) as (? & ? & ? & ?). auto.
  - destruct (serve_request _ _ _ _ _ _ _ _ _ _ _) as [[close s2]|] eqn:Es; [|done].
    injection H as <-. apply serve_request_pool in Es. cbn [ws_pool ws_actions] in Es.
    rewrite Hsame in Es. destruct Es as [(-> & Hp & Ha)|(Hserved & Hp & Ha)].
    { destruct (Hclose s2 _ Hp Ha eq_refl) as (? & ? & ? & ?). auto. }
    destruct (rearm_state c' (now t') slot s s2) as (c2 & Hp2 & Hfd2 & Hg2 & Hc2); try done.
    fold c in Hfd2, Hg2. rewrite Hid1 in Ha.
    destruct close; cbn [close_if].
    { destruct (close_after fd slot c2 [KEventEnable fd slot] s s2) as (? & ? & ? & ?); auto. }
    destruct (set_conn_spec _ _ _ Hwf Hs Hfd2 Hg2) as (Hwf2 & _ & Hconn2 & Hother2).
    pose proof (set_conn_served conf _ _ _ Hwf Hs Hfd2 Hg2 Hc2 Hok) as Hok2.
    rewrite Hp2. split_and!; [done|done|by split|].
    apply Hright. left. rewrite Hp2. split; [|done]. split; [done|]. by rewrite Hconn2.
Qed.

End iteration.

Lemma init_served conf : served_ok conf miniweb_connection_pool_init.
Proof.
  intros fd slot [Hok Hc]. unfold cp_conn in Hc; simpl in Hc.
  rewrite list_lookup_total_alt, lookup_replicate_2 in Hc; [done|by apply fd_ok_spec].
Qed.

Lemma alloc_served conf p fd addr mc tm r p' :
  (0 < max_req_size conf)%Z → pool_wf p → served_ok conf p →
  miniweb_connection_alloc p fd addr mc tm = (r, p') → served_ok conf p'.
Proof.
  intros Hmax Hwf Hp Ha%alloc_inv. destruct r as [slot|]; [|by subst].
  destruct Ha as (Hok & _ & Hc & free' & Hpop & ->).
  destruct (fs_pop_wf _ _ _ _ (wf_free _ Hwf) Hpop) as (_ & Hs & Hns & Hfree).
  intros fd' slot' [Hok' Hc']. pose proof (wf_connections _ Hwf) as Hl.
  erewrite cp_conn_insert in Hc' by eauto. cbn [cp_pool]. case_bool_decide as E; simplify_eq.
  - rewrite list_lookup_total_insert_eq by (rewrite (wf_pool _ Hwf); done).
    split; simpl; [apply length_replicate|lia|unfold MAX_KEEPALIVE_REQUESTS; lia].
  - destruct (wf_serves _ Hwf fd' slot') as (_ & Hni & _); [done|].
    rewrite list_lookup_total_insert_ne; [by apply (Hp fd')|].
    intros ->. apply Hni. rewrite Hfree. set_solver.
Qed.

(** A handler that answers with one page. *)
Definition hello_handler (tid : Z) (h : route_handler) (req : http_request) (s : hstate) : hresult :=
  reply (req_keep_alive req) s
    (http_send_html eager_kernel 5 tid req (bs "hello") (hs_world s)).

Definition one_connection : connection_pool :=
  (miniweb_connection_alloc miniweb_connection_pool_init 5 None 10 0).2.

Definition worker_start : wstate hstate :=
  {| ws_pool := one_connection; ws_h := test_state; ws_actions := [] |}.

Definition worker_run : option (wstate hstate) :=
  worker_iteration two_pieces (λ _, true) (λ _, 9%Z) eager_kernel 5 3
    (init_routes None empty_registry) (conf_defaults 4) hello_handler 0 0 worker_start.


(** ** The contract of handlers

    A handler gives back every response object it creates, whatever it returns. *)

Class HandlerLaws `{HandlerState HS} (run : Z → route_handler → http_request → HS → handled HS) : Prop := {
  handler_balanced tid h req s rc keep s' live :
    store_wf live (w_store (hworld s)) → run tid h req s = Some (rc, keep, s') →
    store_wf live (w_store (hworld s'));
}.

(** ... and keeps an invariant of its own; what it leaves on a connection that stays open is
    one response, when its text [fits] the Content-Length header. *)
Class HandlerAnswers `{HandlerState HS} (inv : HS → Prop) (fits : route_handler → http_request → HS → Prop)
    (run : Z → route_handler → http_request → HS → handled HS) : Prop := {
  answers_world w s : inv s → inv (set_hworld w s);
  answers_inv tid h req s rc keep s' live :
    inv s → store_wf live (w_store (hworld s)) → run tid h req s = Some (rc, keep, s') → inv s';
  answers_framed tid h req s rc keep s' live :
    inv s → store_wf live (w_store (hworld s)) → fits h req s → run tid h req s = Some (rc, keep, s') →
    framed (hworld s) rc keep (hworld s');
}.

Lemma reply_store `{HSt : HandlerState HS} keep0 (s : HS) r rc keep s' :
  reply keep0 s r = Some (rc, keep, s') →
  ∃ w, r = Some (rc, w) ∧ hworld s' = w ∧ keep = keep0.
Proof.
  unfold reply. destruct r as [[rc0 w]|]; [|done]. intros [= <- <- <-]. exists w. by rewrite hworld_set.
Qed.

(** Over one iteration the worker gives back every response object, given that the
    handlers do. *)
Lemma worker_iteration_store `{HSt : HandlerState HS} recv kev now k fuel tid reg conf
    (run : Z → route_handler → http_request → HS → handled HS) slot t s s' live :
  HandlerLaws run → store_wf live (w_store (hworld (ws_h s))) →
  worker_iteration recv kev now k fuel tid reg conf run slot t s = Some s' →
  store_wf live (w_store (hworld (ws_h s'))).
Proof.
  intros Hrun Hwf. unfold worker_iteration.
  destruct (_ || _); [by intros [= <-]|].
  destruct (read_loop _ _ _ _ _ _) as [[[o c'] t']|]; [|done].
  assert (∀ fd code msg s1 s2, ws_h s1 = ws_h s →
    send_error_response k fuel tid reg fd code msg s1 = Some s2 →
    store_wf live (w_store (hworld (ws_h s2)))) as Herr.
  { intros fd code msg s1 s2 Hs1. unfold send_error_response. rewrite Hs1.
    destruct (http_send_error _ _ _ _ _ _ _ _) as [[rc w]|] eqn:E; [|done].
    intros [= <-]. cbn [ws_h]. rewrite hworld_set. by eapply http_send_error_store. }
  destruct o; [by intros [= <-]|by intros [= <-]| |].
  - destruct (send_error_response _ _ _ _ _ _ _ _) as [s2|] eqn:E; [|done].
    intros [= <-]. simpl. by eapply Herr in E.
  - destruct (serve_request _ _ _ _ _ _ _ _ _ _ _) as [[close s2]|] eqn:E; [|done].
    intros [= <-].
    assert (store_wf live (w_store (hworld (ws_h s2)))); [|by destruct close].
    unfold serve_request in E. destruct (parse_request_line _) as [[[m u] v]|].
    + destruct (dispatch_request _ _ _ _ _ _ _) as [[[rc keep] h]|] eqn:Ed; [|done].
      assert (store_wf live (w_store (hworld h))) as Hh.
      { unfold dispatch_request in Ed. destruct (route_match _ _ _).
        - eapply handler_balanced; [|exact Ed]. done.
        - apply reply_store in Ed as (w & Ed & -> & _). by eapply http_send_error_store in Ed. }
      destruct (keep && _); [|by simplify_eq].
      unfold try_rearm_keepalive in E. destruct (_ <=? _)%Z; by simplify_eq.
    + destruct (send_error_response _ _ _ _ _ _ _ _) as [s3|] eqn:E3; [|done].
      simplify_eq. by eapply Herr in E3.
Qed.

(** ** Keep-alive *)

Lemma strcasestr_bound s n i : strcasestr s n = Some i → i + length n ≤ length s.
Proof.
  unfold strcasestr. intros H. apply strstr_bound in H. by rewrite !length_fmap in H.
Qed.

Lemma length_skip_while f s : length (skip_while f s) ≤ length s.
Proof. induction s as [|c s IH]; simpl; [done|]. destruct (f c); simpl; lia. Qed.

(** More fuel than bytes does not change the answer. *)
Lemma keep_alive_loop_fuel n n' p :
  length p < n → length p < n' → keep_alive_loop n p = keep_alive_loop n' p.
Proof.
  revert n' p. induction n as [|n IH]; intros n' p Hn Hn'; [lia|].
  destruct n' as [|n']; [lia|]. cbn [keep_alive_loop].
  destruct (strcasestr p (crlf ++ bs "Connection:")) as [i|] eqn:E; [|done].
  apply strcasestr_bound in E. change (length (crlf ++ bs "Connection:")) with 13 in E.
  pose proof (length_skip_while is_sp_tab (drop (i + 13) p)) as Hl. rewrite length_drop in Hl.
  destruct (is_prefix_case _ _); [done|]. destruct (is_prefix_case _ _); [done|].
  apply IH; lia.
Qed.

(** Keep-alive: without a Connection header the version decides; otherwise the
    first Connection header does, [close] and [keep-alive] in any case and after any
    blanks, and one with another value is skipped and the search goes on after it. *)
Theorem request_keep_alive_spec buf version :
  (strcasestr buf (crlf ++ bs "Connection:") = None →
   request_keep_alive buf version = streq version (bs "HTTP/1.1")) ∧
  ∀ start hdr blanks value,
    buf = start ++ hdr ++ blanks ++ value →
    tolower <$> hdr = tolower <$> crlf ++ bs "Connection:" →
    (∀ j, j < length start →
       is_prefix_case (crlf ++ bs "Connection:") (drop j buf) = false) →
    Forall (λ c, is_sp_tab c = true) blanks →
    head value ≠ Some space → head value ≠ Some tab →
    request_keep_alive buf version =
      if is_prefix_case (bs "close") value then false
      else if is_prefix_case (bs "keep-alive") value then true
      else request_keep_alive value version.
Proof.
  split.
  - intros H. unfold request_keep_alive. cbn [keep_alive_loop]. by rewrite H.
  - intros start hdr blanks value Hbuf Hhdr Hfirst Hblanks Hsp Htab.
    assert (length hdr = 13) as Hl.
    { apply length_tolower_eq in Hhdr. exact Hhdr. }
    unfold request_keep_alive. cbn [keep_alive_loop].
    assert (strcasestr buf (crlf ++ bs "Connection:") = Some (length start)) as ->.
    { rewrite Hbuf in *. by apply strcasestr_at. }
    assert (skip_while is_sp_tab (drop (length start + 13) buf) = value) as ->.
    { rewrite Hbuf, <- Hl, drop_app_add, drop_app_length, skip_while_app by done.
      destruct value as [|c value]; [done|]. cbn [head] in *. apply skip_while_stop.
      unfold is_sp_tab. apply orb_false_iff. rewrite !ascii_eqb_false. split; congruence. }
    destruct (is_prefix_case (bs "close") value); [done|].
    destruct (is_prefix_case (bs "keep-alive") value); [done|].
    rewrite (keep_alive_loop_fuel (length buf) (S (length value)) value); [done| |lia].
    rewrite Hbuf, !length_app. lia.
Qed.

Lemma request_keep_alive_spec_witness :
  request_keep_alive (bs "GET / HTTP/1.0" ++ crlf ++ bs "connection: Keep-Alive" ++ crlf ++ crlf)
    (bs "HTTP/1.0") = true ∧
  request_keep_alive (bs "GET / HTTP/1.1" ++ crlf ++ crlf) (bs "HTTP/1.1") = true.
Proof.
  split.
  - refine (eq_trans (proj2 (request_keep_alive_spec _ (bs "HTTP/1.0")) (bs "GET / HTTP/1.0")
      (crlf ++ bs "connection:") (bs " ") (bs "Keep-Alive" ++ crlf ++ crlf) _ _ _ _ _ _) _).
    + vm_compute. reflexivity.
    + vm_compute. reflexivity.
    + intros j Hj. change (length (bs "GET / HTTP/1.0")) with 14 in Hj.
      repeat (destruct j as [|j]; [vm_compute; reflexivity|]). lia.
    + repeat constructor.
    + discriminate.
    + discriminate.
    + vm_compute. reflexivity.
  - refine (eq_trans (proj1 (request_keep_alive_spec _ (bs "HTTP/1.1")) _) _);
      vm_compute; reflexivity.
Defined.

(** ** Requests without a route *)

(** A request no route serves is answered 405 with the Allow header when its path is
    known and 404 otherwise: the client receives the whole error page or the worker sees
    a failure, [keep_alive] is left as the request asked and the response object is given
    back. *)
Theorem unrouted_request_answer `{HSt : HandlerState HS} k fuel tid conf reg
    (run : Z → route_handler → http_request → HS → handled HS) req s rc keep s' live :
  store_wf live (w_store (hworld s)) →
  route_match (init_routes conf reg) (req_method req) (req_url req) = None →
  dispatch_request k fuel tid (init_routes conf reg) run req s = Some (rc, keep, s') →
  let known := route_path_known (init_routes conf reg) (req_url req) in
  let page := if known then error_page 405 (Some (bs "Method Not Allowed"))
              else error_page 404 (Some (bs "Not Found")) in
  store_wf live (w_store (hworld s')) ∧ keep = req_keep_alive req ∧
  ∃ text, carries text page ∧
    (rc = 0%Z ∧ w_wire (hworld s') = w_wire (hworld s) ++ text ∨
     rc = (-1)%Z ∧ ∃ n, n < length text ∧
       w_wire (hworld s') = w_wire (hworld s) ++ take n text).
Proof.
  intros Hwf Hno H known page. unfold dispatch_request in H. rewrite Hno in H. fold known in H.
  unfold reply in H. destruct (http_send_error _ _ _ _ _ _ _ _) as [[rc0 w]|] eqn:E; [|done].
  injection H as <- <- <-. rewrite hworld_set.
  eapply http_send_error_sends in E as (Hwf' & text & Hc & Hw);
    [|exact Hwf|destruct known; lia|destruct known; simpl; lia].
  split; [done|]. split; [done|]. exists text. split; [|done]. by destruct known.
Qed.

Lemma unrouted_request_answer_witness :
  let req := make_request 5 fresh_conn (bs "POST") (bs "/docs") (bs "HTTP/1.1") in
  match dispatch_request eager_kernel 5 3 (init_routes None empty_registry) hello_handler req
          test_state with
  | Some (rc, keep, s') => keep = true ∧
      ∃ text, carries text (error_page 405 (Some (bs "Method Not Allowed"))) ∧
              ∃ n, w_wire (hs_world s') = take n text
  | None => False
  end.
Proof.
  intros req.
  destruct (dispatch_request eager_kernel 5 3 (init_routes None empty_registry) hello_handler req
    test_state) as [[[rc keep] s']|] eqn:E.
  - destruct (unrouted_request_answer eager_kernel 5 3 None empty_registry hello_handler req
      test_state rc keep s' (λ _, False)) as (_ & Hk & text & Hc & Hw).
    + apply initial_store_wf.
    + vm_compute. reflexivity.
    + exact E.
    + split; [rewrite Hk; vm_compute; reflexivity|]. exists text. split; [exact Hc|].
      cbn [hworld hstate_state] in Hw.
      destruct Hw as [[_ Hw]|(_ & n & _ & Hw)]; rewrite Hw; cbn [test_state hs_world test_world w_wire app].
      * exists (length text). by rewrite take_ge.
      * by exists n.
  - apply (f_equal (λ o, match o with Some _ => true | None => false end)) in E.
    vm_compute in E. discriminate E.
Defined.
