(* ===== verification/Server.v ===== *)
(** * The server (src/net/server.c)

    The dispatcher thread of [miniweb_server_run]: accepting, the idle sweep, the
    dispatching of kqueue events to the work queue, start-up and shutdown.  What the
    system answers is data: the results of [accept] are the script of a listen event, the
    events a [kevent] call returns and the clock readings are the arguments of a turn.  The
    queue is any implementation of the [BoundedFifo] contract.

    [sys_step] interleaves the dispatcher with the workers: its steps are single accepts,
    closes, events and worker iterations, so the sweep can meet connections that workers
    are serving.  [sy_armed] is the kernel's view of the [EV_DISPATCH] registrations:
    delivering an event disarms the descriptor, [EV_ENABLE] arms it again. *)

From S2P Require Import Prelude FreeStack WorkQueue ConnectionPool Conf Router ResponsePool.
From S2P Require Import HttpResponse FileCache Files Worker.
From Stdlib Require Import Sorted.

(** ** Data *)

(** [time(NULL)] is read by the allocation; the flag is the success of [kevent]. *)
Inductive accept_result :=
| Accepted (fd : Z) (addr : sockaddr_in) (now : Z) (kevent_ok : bool)
| AcceptFail (e : errno).

(** [ident] is the signal pipe, the listening socket, or a connection with its [udata]. *)
Inductive event :=
| EvSignal
| EvListen (accepts : list accept_result)
| EvConn (fd : Z) (udata : option nat) (eof_or_error : bool).

Inductive kevent_ret := KEvents (events : list event) | KEventErr (e : errno).

(** One turn: the result of [kevent] and the three readings of the clock. *)
Record turn := Turn { tn_ret : kevent_ret; tn_now : Z; tn_sweep : Z; tn_swept : Z }.

Record server (Q HS : Type) := Server {
  sv_running : bool;
  sv_last_sweep : Z;
  sv_queue : Q;
  sv_w : wstate HS;
}.
Arguments Server {Q HS} _ _ _ _.
Arguments sv_running {Q HS} _.
Arguments sv_last_sweep {Q HS} _.
Arguments sv_queue {Q HS} _.
Arguments sv_w {Q HS} _.

(** ** Operations on the shared state *)

Definition act {HS} (a : action) (s : wstate HS) : wstate HS :=
  {| ws_pool := ws_pool s; ws_h := ws_h s; ws_actions := ws_actions s ++ [a] |}.

Definition with_pool {HS} (p : connection_pool) (s : wstate HS) : wstate HS :=
  {| ws_pool := p; ws_h := ws_h s; ws_actions := ws_actions s |}.

(** [close(fd); miniweb_connection_free(&rt->pool, fd);] *)
Definition close_and_free {HS} (fd : Z) (s : wstate HS) : wstate HS :=
  let s := act (CloseFd fd) s in with_pool (miniweb_connection_free (ws_pool s) fd) s.

Section server.
Context {Q : Type} `{!BoundedFifo nat Q MINIWEB_QUEUE_CAPACITY} {HS : Type} `{!HandlerState HS}.
Context (O_NONBLOCK : Z) (fcntl_getfl : Z → Z).
Context (k : kernel) (fuel : nat) (tid : Z) (reg : registry) (conf : miniweb_conf).

Definition set_nonblock (fd : Z) (s : wstate HS) : wstate HS :=
  let flags := fcntl_getfl fd in
  let flags := if (flags =? -1)%Z then 0%Z else flags in
  act (SetFlags fd (Z.lor flags O_NONBLOCK)) s.

(** The body of the accept loop for an accepted socket. *)
Definition accept_one (cfd : Z) (caddr : sockaddr_in) (now : Z) (kevent_ok : bool) (s : wstate HS)
    : option (wstate HS) :=
  let s := set_nonblock cfd s in
  let '(conn, p) :=
    miniweb_connection_alloc (ws_pool s) cfd (Some caddr) (max_conns conf) now in
  match conn with
  | None =>
      match send_error_response k fuel tid reg cfd 503 (bs "Server busy") (with_pool p s) with
      | None => None
      | Some s => Some (act (CloseFd cfd) s)
      end
  | Some slot =>
      let s := act (KEventAdd cfd slot) (with_pool p s) in
      Some (if kevent_ok then s else close_and_free cfd s)
  end.

(** The script ends with the [EAGAIN] that leaves the loop, which may be left out. *)
Fixpoint handle_accept (accepts : list accept_result) (s : wstate HS) : option (wstate HS) :=
  match accepts with
  | [] => Some s
  | AcceptFail EINTR :: accepts' => handle_accept accepts' s
  | AcceptFail _ :: _ => Some s
  | Accepted cfd caddr now kevent_ok :: accepts' =>
      match accept_one cfd caddr now kevent_ok s with
      | None => None
      | Some s => handle_accept accepts' s
      end
  end.

(** The descriptors [sweep_idle] collects while it holds the pool lock. *)
Definition is_idle (p : connection_pool) (now fd : Z) : bool :=
  match cp_conn p fd with
  | Some slot => (conn_timeout conf <? now - conn_last_activity (cp_pool p !!! slot))%Z
  | None => false
  end.

Definition idle_fds (p : connection_pool) (now : Z) : list Z :=
  List.filter (is_idle p now) (Z.of_nat <$> seq 0 MINIWEB_MAX_CONNECTIONS).

Definition close_all (fds : list Z) (s : wstate HS) : wstate HS :=
  fold_left (λ s fd, close_and_free fd s) fds s.

Definition sweep_idle (now : Z) (s : wstate HS) : wstate HS :=
  close_all (idle_fds (ws_pool s) now) s.

(** [sig_reads] are the results of [read] on the pipe; the rest is what is left unread. *)
Fixpoint drain_signal_pipe (sig_reads : list sys_ret) : list sys_ret :=
  match sig_reads with
  | Ret (S _) :: r => drain_signal_pipe r
  | Err EINTR :: r => drain_signal_pipe r
  | _ :: r => r
  | [] => []
  end.

Definition with_w (w : wstate HS) (sv : server Q HS) : server Q HS :=
  {| sv_running := sv_running sv; sv_last_sweep := sv_last_sweep sv;
     sv_queue := sv_queue sv; sv_w := w |}.

Definition with_queue (q : Q) (sv : server Q HS) : server Q HS :=
  {| sv_running := sv_running sv; sv_last_sweep := sv_last_sweep sv;
     sv_queue := q; sv_w := sv_w sv |}.

Definition stop_running (sv : server Q HS) : server Q HS :=
  {| sv_running := false; sv_last_sweep := sv_last_sweep sv;
     sv_queue := sv_queue sv; sv_w := sv_w sv |}.

(** A readable connection goes to the workers; [miniweb_work_queue_push] returns a
    negative number when the queue is full. *)
Definition enqueue_conn (fd : Z) (slot : nat) (sv : server Q HS) : server Q HS :=
  let '(o, q) := bf_step (sv_queue sv) (OpPush slot) in
  let sv := with_queue q sv in
  match o with
  | ObsPush rc => if (rc <? 0)%Z then with_w (close_and_free fd (sv_w sv)) sv else sv
  | _ => sv
  end.

Definition dispatch_conn (fd : Z) (udata : option nat) (eof_or_error : bool) (sv : server Q HS)
    : server Q HS :=
  if negb (fd_ok fd) || miniweb_connection_is_stale (ws_pool (sv_w sv)) fd udata then sv
  else if eof_or_error then with_w (close_and_free fd (sv_w sv)) sv
  else match udata with
  | Some slot => enqueue_conn fd slot sv
  | None => sv
  end.

Definition dispatch_event (ev : event) (sv : server Q HS) : option (server Q HS) :=
  match ev with
  | EvSignal => Some (stop_running sv)
  | EvListen accepts =>
      match handle_accept accepts (sv_w sv) with
      | None => None
      | Some w => Some (with_w w sv)
      end
  | EvConn fd udata eof_or_error => Some (dispatch_conn fd udata eof_or_error sv)
  end.

Fixpoint dispatch_events (evs : list event) (sv : server Q HS) : option (server Q HS) :=
  match evs with
  | [] => Some sv
  | ev :: evs' =>
      match dispatch_event ev sv with
      | None => None
      | Some sv => dispatch_events evs' sv
      end
  end.

Definition swept (at_ : Z) (w : wstate HS) (sv : server Q HS) : server Q HS :=
  {| sv_running := sv_running sv; sv_last_sweep := at_; sv_queue := sv_queue sv; sv_w := w |}.

Definition maybe_sweep (tn : turn) (sv : server Q HS) : server Q HS :=
  if (1 <=? tn_now tn - sv_last_sweep sv)%Z
  then swept (tn_swept tn) (sweep_idle (tn_sweep tn) (sv_w sv)) sv
  else sv.

(** The body of [while (rt->running)]; the flag says whether the loop goes on. *)
Definition server_turn (tn : turn) (sv : server Q HS) : option (bool * server Q HS) :=
  match tn_ret tn with
  | KEventErr EINTR => Some (true, sv)
  | KEventErr _ => Some (false, sv)
  | KEvents evs =>
      match dispatch_events evs (maybe_sweep tn sv) with
      | None => None
      | Some sv => Some (true, sv)
      end
  end.

(** The loop over the turns the system provides. *)
Fixpoint server_loop (tns : list turn) (sv : server Q HS) : option (server Q HS) :=
  match tns with
  | [] => Some sv
  | tn :: tns' =>
      if sv_running sv then
        match server_turn tn sv with
        | None => None
        | Some (true, sv) => server_loop tns' sv
        | Some (false, sv) => Some sv
        end
      else Some sv
  end.

(** ** Start-up and shutdown *)

(** What the system answers during start-up. *)
Record startup := Startup {
  su_pipe : option (Z * Z);
  su_socket : Z;
  su_inet_pton : bool;
  su_bind : bool;
  su_listen : bool;
  su_kqueue : Z;
  su_kevent_listen : bool;
  su_kevent_signal : bool;
  su_thread : nat → bool;
}.

(** [listen_fd], [kq_fd], [signal_pipe_rfd] and [signal_pipe_wfd]; -1 is not open. *)
Record fds := Fds { listen_fd : Z; kq_fd : Z; signal_pipe_rfd : Z; signal_pipe_wfd : Z }.

Definition no_fds : fds :=
  {| listen_fd := -1; kq_fd := -1; signal_pipe_rfd := -1; signal_pipe_wfd := -1 |}.

(** The thread-creation loop from worker [i] on: how many were started, and whether all. *)
Fixpoint start_threads (create : nat → bool) (n i : nat) : nat * bool :=
  match n with
  | 0 => (i, true)
  | S n => if create i then start_threads create n (S i) else (i, false)
  end.

(** Up to the main loop: success, the descriptors, the number of started threads. *)
Definition server_setup (su : startup) : bool * fds * nat :=
  match su_pipe su with
  | None => (false, no_fds, 0)
  | Some (rfd, wfd) =>
      let d := {| listen_fd := su_socket su; kq_fd := -1;
                  signal_pipe_rfd := rfd; signal_pipe_wfd := wfd |} in
      if (su_socket su <? 0)%Z then (false, d, 0)
      else if negb (su_inet_pton su) then (false, d, 0)
      else if negb (su_bind su) || negb (su_listen su) then (false, d, 0)
      else
        let d := {| listen_fd := su_socket su; kq_fd := su_kqueue su;
                    signal_pipe_rfd := rfd; signal_pipe_wfd := wfd |} in
        if (su_kqueue su <? 0)%Z then (false, d, 0)
        else if negb (su_kevent_listen su) then (false, d, 0)
        else if negb (su_kevent_signal su) then (false, d, 0)
        else
          let '(started, all) := start_threads (su_thread su) (Z.to_nat (threads conf)) 0 in
          (all, d, started)
  end.

(** [out:] closes what is open and forgets it. *)
Definition close_open (fd : Z) : list Z := if (0 <=? fd)%Z then [fd] else [].

Definition server_teardown (d : fds) : list Z * fds :=
  (close_open (kq_fd d) ++ close_open (listen_fd d) ++
   close_open (signal_pipe_rfd d) ++ close_open (signal_pipe_wfd d),
   {| listen_fd := if (0 <=? listen_fd d)%Z then -1 else listen_fd d;
      kq_fd := if (0 <=? kq_fd d)%Z then -1 else kq_fd d;
      signal_pipe_rfd := if (0 <=? signal_pipe_rfd d)%Z then -1 else signal_pipe_rfd d;
      signal_pipe_wfd := if (0 <=? signal_pipe_wfd d)%Z then -1 else signal_pipe_wfd d |}).

Definition server_init (now : Z) (h : HS) : server Q HS :=
  {| sv_running := true; sv_last_sweep := now; sv_queue := bf_init;
     sv_w := {| ws_pool := miniweb_connection_pool_init; ws_h := h; ws_actions := [] |} |}.

(** How a run ends. *)
Record run_end := RunEnd {
  re_rc : Z;
  re_closed : list Z;
  re_fds : fds;
  re_joined : nat;
  re_server : server Q HS;
}.

Definition miniweb_server_run (su : startup) (now : Z) (tns : list turn) (h : HS)
    : option run_end :=
  let '(ok, d, started) := server_setup su in
  let sv := server_init now h in
  match (if ok then server_loop tns sv else Some sv) with
  | None => None
  | Some sv =>
      let '(closed, d') := server_teardown d in
      Some {| re_rc := if ok then 0 else -1; re_closed := closed; re_fds := d';
              re_joined := started; re_server := stop_running sv |}
  end.

(** The byte is written to the pipe unless it is closed. *)
Definition miniweb_server_stop (wfd : Z) (sv : server Q HS) : server Q HS * list (Z * ascii) :=
  (stop_running sv, if (0 <=? wfd)%Z then [(wfd, "x"%char)] else []).
End server.

Arguments Startup _ _ _ _ _ _ _ _ _.

(** ** Closing connections *)

Section closing.
Context (conf : miniweb_conf) {HS : Type}.

Lemma free_serves p fd :
  pool_wf p → served_ok conf p →
  let p' := miniweb_connection_free p fd in
  pool_wf p' ∧ served_ok conf p' ∧
  (∀ fd' slot, serves p' fd' slot ↔ serves p fd' slot ∧ fd' ≠ fd) ∧
  ∀ fd' slot, serves p' fd' slot → cp_pool p' !!! slot = cp_pool p !!! slot.
Proof.
  intros Hwf Hok p'. subst p'.
  assert ((∃ slot, serves p fd slot) ∨ (∀ slot, ¬ serves p fd slot)) as [[slot Hs]|Hn].
  { destruct (fd_ok fd) eqn:Hfd; [|right; intros ? [? _]; congruence].
    destruct (cp_conn p fd) as [slot|] eqn:Hc; [left; by exists slot|].
    right. intros ? [_ ?]. congruence. }
  - destruct (free_served conf p fd slot) as (? & ? & Hnone & Hsame & Hobj); [done..|].
    assert (∀ fd' slot', serves (miniweb_connection_free p fd) fd' slot' ↔
      serves p fd' slot' ∧ fd' ≠ fd) as Hiff.
    { intros fd' slot'. unfold serves. split.
      - intros [Hok' Hc']. destruct (decide (fd' = fd)) as [->|Hne]; [congruence|].
        rewrite Hsame in Hc' by done. done.
      - intros [[Hok' Hc'] Hne]. by rewrite Hsame. }
    split_and!; [done..|]. intros fd' slot' [Hs' Hne]%Hiff. apply Hobj. intros ->.
    by apply Hne, (serves_inj p fd' fd slot Hwf).
  - destruct (free_inv p fd Hwf) as [Hno _]. rewrite Hno.
    + split_and!; [done|done| |done]. intros fd' slot. split; [|tauto]. intros ?. split; [done|].
      intros ->. by destruct (Hn slot).
    + destruct (fd_ok fd) eqn:Hfd; [left|by right].
      destruct (cp_conn p fd) as [slot|] eqn:Hc; [|done]. by destruct (Hn slot).
Qed.

Lemma alloc_serves p fd addr mc now r p' :
  pool_wf p → miniweb_connection_alloc p fd addr mc now = (r, p') →
  ∀ fd' slot, serves p' fd' slot → serves p fd' slot ∨ (fd' = fd ∧ r = Some slot).
Proof.
  intros Hwf Ha%alloc_inv fd' slot'. destruct r as [slot|]; [|subst; auto].
  destruct Ha as (Hok & _ & Hc & free' & Hpop & ->). intros [Hok' Hc'].
  erewrite cp_conn_insert in Hc' by (eauto; apply Hwf). case_bool_decide; simplify_eq; [by right|].
  left. done.
Qed.

(** ** The sweep *)

Lemma close_all_spec l (w : wstate HS) :
  pool_wf (ws_pool w) → served_ok conf (ws_pool w) →
  let w' := close_all l w in
  pool_wf (ws_pool w') ∧ served_ok conf (ws_pool w') ∧
  (∀ fd slot, serves (ws_pool w') fd slot ↔ serves (ws_pool w) fd slot ∧ fd ∉ l) ∧
  (∀ fd slot, serves (ws_pool w') fd slot →
    cp_pool (ws_pool w') !!! slot = cp_pool (ws_pool w) !!! slot) ∧
  ws_actions w' = ws_actions w ++ (CloseFd <$> l) ∧ ws_h w' = ws_h w.
Proof.
  revert w. induction l as [|fd l IH]; intros w Hwf Hok.
  { simpl. split_and!; [done..| |done|by rewrite app_nil_r|done]. intros fd slot.
    split; [|tauto]. intros ?. split; [done|]. apply not_elem_of_nil. }
  destruct (free_serves (ws_pool w) fd Hwf Hok) as (Hwf1 & Hok1 & Hsv1 & Hobj1).
  destruct (IH (close_and_free fd w) Hwf1 Hok1) as (Hwf' & Hok' & Hsv' & Hobj' & Ha & Hh).
  split; [done|]. split; [done|]. split; [|split; [|split; [|done]]].
  - intros fd' slot. cbn [close_all fold_left]. rewrite not_elem_of_cons.
    etransitivity; [apply Hsv'|]. rewrite (Hsv1 fd' slot). tauto.
  - intros fd' slot Hs. etransitivity; [by apply (Hobj' fd')|]. apply (Hobj1 fd').
    by apply Hsv' in Hs as [? _].
  - etransitivity; [exact Ha|]. cbn. by rewrite <- app_assoc.
Qed.

Lemma elem_of_idle_fds p now fd slot :
  serves p fd slot →
  fd ∈ idle_fds conf p now ↔ (conn_timeout conf < now - conn_last_activity (cp_pool p !!! slot))%Z.
Proof.
  intros [Hok Hc]. unfold idle_fds. rewrite list_elem_of_In, filter_In, <- list_elem_of_In.
  unfold is_idle. rewrite Hc, Z.ltb_lt. split; [tauto|]. intros ?. split; [|done].
  apply fd_ok_spec in Hok as [? ?]. apply list_elem_of_fmap. exists (Z.to_nat fd).
  split; [lia|]. apply elem_of_seq. lia.
Qed.

(** The idle sweep closes exactly the connections that have been silent for more than
    [conn_timeout] seconds, each once and in the order of their descriptors, and frees
    their objects; every other connection keeps its object unchanged. *)
Theorem sweep_idle_spec now (w : wstate HS) :
  pool_wf (ws_pool w) → served_ok conf (ws_pool w) →
  let w' := sweep_idle conf now w in
  pool_wf (ws_pool w') ∧
  (∀ fd slot, serves (ws_pool w') fd slot ↔
    serves (ws_pool w) fd slot ∧
    (now - conn_last_activity (cp_pool (ws_pool w) !!! slot) ≤ conn_timeout conf)%Z) ∧
  (∀ fd slot, serves (ws_pool w') fd slot →
    cp_pool (ws_pool w') !!! slot = cp_pool (ws_pool w) !!! slot) ∧
  ∃ closed, ws_actions w' = ws_actions w ++ (CloseFd <$> closed) ∧
    StronglySorted Z.lt closed ∧
    ∀ fd, fd ∈ closed ↔ ∃ slot, serves (ws_pool w) fd slot ∧
      (conn_timeout conf < now - conn_last_activity (cp_pool (ws_pool w) !!! slot))%Z.
Proof.
  intros Hwf Hok w'. unfold w', sweep_idle.
  destruct (close_all_spec (idle_fds conf (ws_pool w) now) w Hwf Hok)
    as (Hwf' & _ & Hsv & Hobj & Ha & _).
  split; [done|]. split; [|split; [done|]].
  - intros fd slot. rewrite Hsv. split; intros [Hs Hc]; (split; [done|]);
      rewrite (elem_of_idle_fds _ _ _ _ Hs) in *; lia.
  - eexists. split; [exact Ha|]. split.
    + unfold idle_fds. generalize 0 as i. generalize MINIWEB_MAX_CONNECTIONS as n.
      induction n as [|n IH]; intros i; [constructor|]. cbn [seq fmap list_fmap List.filter].
      destruct (is_idle _ _ _); [|apply IH]. constructor; [apply IH|].
      apply List.Forall_forall. intros fd [Hin%list_elem_of_In _]%filter_In.
      apply list_elem_of_fmap in Hin as (j & -> & Hj%elem_of_seq). lia.
    + intros fd. split.
      * intros Hin. pose proof Hin as Hin'. unfold idle_fds in Hin.
        rewrite list_elem_of_In, filter_In, <- list_elem_of_In in Hin. destruct Hin as [Hin Hidle].
        apply list_elem_of_fmap in Hin as (j & -> & Hj%elem_of_seq). unfold is_idle in Hidle.
        destruct (cp_conn (ws_pool w) (Z.of_nat j)) as [slot|] eqn:Hc; [|done].
        assert (serves (ws_pool w) (Z.of_nat j) slot) as Hs by (split; [apply fd_ok_spec; lia|done]).
        exists slot. split; [done|]. by apply (elem_of_idle_fds _ _ _ _ Hs).
      * intros (slot & Hs & Ht). by apply (elem_of_idle_fds _ _ _ _ Hs).
Qed.
End closing.

(** ** Dispatcher and workers interleaved *)

(** What the dispatcher still has to do in its current turn. *)
Inductive task :=
| TClose (fd : Z)
| TAccept (accepts : list accept_result)
| TEvent (ev : event).

Record sys (Q HS : Type) := Sys {
  sy_server : server Q HS;
  sy_todo : list task;
  sy_busy : list nat;
  sy_armed : gmap Z nat;
}.
Arguments Sys {Q HS} _ _ _ _.
Arguments sy_server {Q HS} _.
Arguments sy_todo {Q HS} _.
Arguments sy_busy {Q HS} _.
Arguments sy_armed {Q HS} _.

(** The kernel's registrations under the actions of the threads. *)
Definition arm (m : gmap Z nat) (a : action) : gmap Z nat :=
  match a with
  | KEventEnable fd slot | KEventAdd fd slot => <[fd := slot]> m
  | KEventDelete fd | CloseFd fd => delete fd m
  | SetFlags _ _ => m
  end.

Definition arm_new {HS} (m : gmap Z nat) (w w' : wstate HS) : gmap Z nat :=
  fold_left arm (drop (length (ws_actions w)) (ws_actions w')) m.

Definition event_task (ev : event) : task :=
  match ev with EvListen accepts => TAccept accepts | _ => TEvent ev end.

Definition delivered (ev : event) : list Z :=
  match ev with EvConn fd _ _ => [fd] | _ => [] end.

(** The dispatcher's work for a turn, the sweep first. *)
Definition turn_tasks (conf : miniweb_conf) {Q HS} (tn : turn) (sv : server Q HS) (evs : list event)
    : list task :=
  (if (1 <=? tn_now tn - sv_last_sweep sv)%Z
   then TClose <$> idle_fds conf (ws_pool (sv_w sv)) (tn_sweep tn) else []) ++
  (event_task <$> evs).

Section interleaving.
Context {Q : Type} `{!BoundedFifo nat Q MINIWEB_QUEUE_CAPACITY} {HS : Type} `{!HandlerState HS}.
Context (O_NONBLOCK : Z) (fcntl_getfl : Z → Z).
Context (k : kernel) (fuel : nat) (reg : registry) (conf : miniweb_conf).
Context (run_handler : Z → route_handler → http_request → HS → handled HS).

Definition set_server (s : sys Q HS) (sv : server Q HS) (todo : list task) (busy : list nat) : sys Q HS :=
  {| sy_server := sv; sy_todo := todo; sy_busy := busy;
     sy_armed := arm_new (sy_armed s) (sv_w (sy_server s)) (sv_w sv) |}.

(** Events are delivered for armed registrations only, with their [udata]. *)
Definition may_deliver (m : gmap Z nat) (ev : event) : Prop :=
  match ev with EvConn fd udata _ => ∃ slot, udata = Some slot ∧ m !! fd = Some slot | _ => True end.

Inductive sys_step : sys Q HS → sys Q HS → Prop :=
| step_wait s tn evs :
    sv_running (sy_server s) = true → sy_todo s = [] → tn_ret tn = KEvents evs →
    Forall (may_deliver (sy_armed s)) evs →
    sys_step s
      {| sy_server := if (1 <=? tn_now tn - sv_last_sweep (sy_server s))%Z
                      then swept (tn_swept tn) (sv_w (sy_server s)) (sy_server s)
                      else sy_server s;
         sy_todo := turn_tasks conf tn (sy_server s) evs; sy_busy := sy_busy s;
         sy_armed := fold_left (λ m fd, delete fd m) (evs ≫= delivered) (sy_armed s) |}
| step_close s fd todo :
    sy_todo s = TClose fd :: todo →
    sys_step s (set_server s
      (with_w (close_and_free fd (sv_w (sy_server s))) (sy_server s)) todo (sy_busy s))
| step_accepted s fd addr now kevent_ok accepts todo tid w :
    sy_todo s = TAccept (Accepted fd addr now kevent_ok :: accepts) :: todo →
    (** accept(2) returns no descriptor that is open *)
    (∀ slot, ¬ serves (ws_pool (sv_w (sy_server s))) fd slot) →
    accept_one O_NONBLOCK fcntl_getfl k fuel tid reg conf fd addr now kevent_ok
      (sv_w (sy_server s)) = Some w →
    sys_step s (set_server s (with_w w (sy_server s)) (TAccept accepts :: todo) (sy_busy s))
| step_accept_intr s accepts todo :
    sy_todo s = TAccept (AcceptFail EINTR :: accepts) :: todo →
    sys_step s (set_server s (sy_server s) (TAccept accepts :: todo) (sy_busy s))
| step_accept_end s accepts todo :
    sy_todo s = TAccept accepts :: todo →
    match accepts with [] => True | AcceptFail e :: _ => e ≠ EINTR | _ => False end →
    sys_step s (set_server s (sy_server s) todo (sy_busy s))
| step_event s ev todo tid sv :
    sy_todo s = TEvent ev :: todo → event_task ev = TEvent ev →
    dispatch_event O_NONBLOCK fcntl_getfl k fuel tid reg conf ev (sy_server s) = Some sv →
    sys_step s (set_server s sv todo (sy_busy s))
| step_pop s slot q :
    bf_step (sv_queue (sy_server s)) (OpPop (sv_running (sy_server s))) = (ObsPop (Some slot), q) →
    sys_step s (set_server s (with_queue q (sy_server s)) (sy_todo s) (slot :: sy_busy s))
| step_work s recv kevent_ok now tid slot t busy1 busy2 w :
    (** recv(2) returns at most the bytes it is asked for *)
    (∀ t n d, recv t n = RecvData d → length d ≤ n) →
    sy_busy s = busy1 ++ slot :: busy2 →
    worker_iteration recv kevent_ok now k fuel tid reg conf run_handler slot t
      (sv_w (sy_server s)) = Some w →
    sys_step s (set_server s (with_w w (sy_server s)) (sy_todo s) (busy1 ++ busy2))
| step_stop s wfd :
    sys_step s (set_server s (miniweb_server_stop wfd (sy_server s)).1 (sy_todo s) (sy_busy s)).

Definition sys_init (now : Z) (h : HS) : sys Q HS :=
  {| sy_server := server_init now h; sy_todo := []; sy_busy := []; sy_armed := ∅ |}.

(** [served] connections are never forgotten. *)
Definition covered (s : sys Q HS) (l : list nat) (fd : Z) (slot : nat) : Prop :=
  sy_armed s !! fd = Some slot ∨ slot ∈ l ∨ slot ∈ sy_busy s ∨
  ∃ e, TEvent (EvConn fd (Some slot) e) ∈ sy_todo s.

Record sys_ok (s : sys Q HS) : Prop := {
  so_pool : pool_wf (ws_pool (sv_w (sy_server s)));
  so_served : served_ok conf (ws_pool (sv_w (sy_server s)));
  so_store : store_wf (λ _, False) (w_store (hworld (ws_h (sv_w (sy_server s)))));
  so_busy : Forall (λ slot, slot < MINIWEB_MAX_CONNECTIONS) (sy_busy s);
  so_queue : ∃ l, bf_rel (sv_queue (sy_server s)) l ∧ length l ≤ MINIWEB_QUEUE_CAPACITY ∧
    Forall (λ slot, slot < MINIWEB_MAX_CONNECTIONS) l ∧
    ∀ fd slot, serves (ws_pool (sv_w (sy_server s))) fd slot → covered s l fd slot;
}.

(** ** The effect of one operation on one descriptor *)

Definition store_ok (w : wstate HS) : Prop := store_wf (λ _, False) (w_store (hworld (ws_h w))).

(** [w'] differs from [w] for [fd] only, and [fd] is afterwards either armed or not served. *)
Definition touches (fd : Z) (w w' : wstate HS) : Prop :=
  pool_wf (ws_pool w') ∧ served_ok conf (ws_pool w') ∧ store_ok w' ∧
  ∃ new, ws_actions w' = ws_actions w ++ new ∧ ∀ m,
    (∀ fd', fd' ≠ fd → fold_left arm new m !! fd' = m !! fd') ∧
    (∀ fd' slot, serves (ws_pool w') fd' slot →
      (serves (ws_pool w) fd' slot ∧ fd' ≠ fd) ∨
      (fd' = fd ∧ fold_left arm new m !! fd = Some slot)).

Lemma close_and_free_touches fd (w : wstate HS) :
  pool_wf (ws_pool w) → served_ok conf (ws_pool w) → store_ok w →
  touches fd w (close_and_free fd w).
Proof.
  intros Hwf Hok Hst. destruct (free_serves conf (ws_pool w) fd Hwf Hok) as (Hwf' & Hok' & Hsv & _).
  split; [done|]. split; [done|]. split; [done|].
  exists [CloseFd fd]. split; [done|]. intros m. simpl. split.
  - intros fd' Hne. by rewrite lookup_delete_ne.
  - intros fd' slot H%Hsv. by left.
Qed.

Lemma send_error_response_store tid fd code msg (s s' : wstate HS) :
  store_ok s → send_error_response k fuel tid reg fd code msg s = Some s' → store_ok s'.
Proof.
  unfold send_error_response, store_ok. intros Hwf H.
  destruct (http_send_error _ _ _ _ _ _ _ _) as [[rc w]|] eqn:E; simplify_eq. cbn [ws_h].
  rewrite hworld_set. by eapply http_send_error_store.
Qed.

Lemma accept_one_touches tid fd addr now kevent_ok w w' :
  (0 < max_req_size conf)%Z →
  pool_wf (ws_pool w) → served_ok conf (ws_pool w) → store_ok w →
  (∀ slot, ¬ serves (ws_pool w) fd slot) →
  accept_one O_NONBLOCK fcntl_getfl k fuel tid reg conf fd addr now kevent_ok w = Some w' →
  touches fd w w'.
Proof.
  intros Hmax Hwf Hok Hst Hnew H. unfold accept_one in H. cbn [set_nonblock act ws_pool] in H.
  destruct (miniweb_connection_alloc _ _ _ _ _) as [[slot|] p] eqn:Ha.
  - pose proof (alloc_wf _ _ _ _ _ _ _ Hwf Ha) as Hwf1.
    pose proof (alloc_served conf _ _ _ _ _ _ _ Hmax Hwf Hok Ha) as Hok1.
    pose proof (alloc_serves _ _ _ _ _ _ _ Hwf Ha) as Hsv.
    destruct kevent_ok; injection H as <-.
    + split; [done|]. split; [done|]. split; [done|]. eexists. split.
      { unfold set_nonblock, act, with_pool. cbn [ws_actions]. by rewrite <- app_assoc. }
      intros m. simpl. split; [intros; by rewrite lookup_insert_ne|].
      intros fd' s' Hs. specialize (Hsv fd' s' Hs) as [Hsv|[-> [= ->]]].
      * left. split; [done|]. intros ->. by destruct (Hnew s').
      * right. by rewrite lookup_insert_eq.
    + destruct (free_serves conf p fd Hwf1 Hok1) as (? & ? & Hsv' & _).
      split; [done|]. split; [done|]. split; [done|]. eexists. split.
      { unfold close_and_free, set_nonblock, act, with_pool. cbn [ws_actions]. by rewrite <- !app_assoc. }
      intros m. simpl. split; [intros; by rewrite lookup_delete_ne, lookup_insert_ne|].
      intros fd' s' [Hs Hne]%Hsv'. left. specialize (Hsv fd' s' Hs) as [Hsv|[-> _]]; done.
  - apply alloc_inv in Ha as ->.
    destruct (send_error_response _ _ _ _ _ _ _ _) as [s1|] eqn:E; [|done]. injection H as <-.
    pose proof (send_error_response_store _ _ _ _ (with_pool _ (set_nonblock _ _ _ w)) _ Hst E) as Hst'.
    apply send_error_response_pool in E as [Hp Hact]. cbn [with_pool ws_pool ws_actions] in Hp, Hact.
    unfold touches. cbn [act ws_pool ws_actions]. rewrite Hp. split; [done|]. split; [done|].
    split; [done|]. eexists. split.
    { rewrite Hact. unfold set_nonblock, act. cbn [ws_actions]. by rewrite <- app_assoc. }
    intros m. simpl. split; [intros; by rewrite lookup_delete_ne|].
    intros fd' s' Hs. left. split; [done|]. intros ->. by destruct (Hnew s').
Qed.

Context (Hmax : (0 < max_req_size conf ≤ Z.of_nat MINIWEB_REQUEST_BUFFER_SIZE)%Z).
Context `{!HandlerLaws run_handler}.

Lemma worker_touches recv kevent_ok now tid slot t w w' :
  (∀ t n d, recv t n = RecvData d → length d ≤ n) →
  pool_wf (ws_pool w) → served_ok conf (ws_pool w) → store_ok w →
  slot < MINIWEB_MAX_CONNECTIONS →
  worker_iteration recv kevent_ok now k fuel tid reg conf run_handler slot t w = Some w' →
  let fd := conn_fd (cp_pool (ws_pool w) !!! slot) in
  (w' = w ∧ ¬ serves (ws_pool w) fd slot) ∨ touches fd w w'.
Proof.
  intros Hrecv Hwf Hok Hst Hs H fd.
  pose proof (worker_iteration_store recv kevent_ok now k fuel tid reg conf run_handler slot t w w'
    (λ _, False) _ Hst H) as Hst'.
  apply worker_iteration_spec in H as (Hwf' & Hok' & [Hfds _] & Hend); [|done..]. fold fd in Hfds, Hend.
  destruct Hend as [?|[Hsv Hend]]; [by left|right].
  split; [done|]. split; [done|]. split; [done|].
  assert (∀ fd' s', serves (ws_pool w') fd' s' → fd' ≠ fd → serves (ws_pool w) fd' s') as Hback.
  { intros fd' s' [Hok1 Hc1] Hne. rewrite Hfds in Hc1 by done. done. }
  destruct Hend as [[Hsv' Ha]|[Hnone (pre & Ha & Hpre)]].
  - exists [KEventEnable fd slot]. split; [done|]. intros m. simpl.
    split; [intros; by rewrite lookup_insert_ne|]. intros fd' s' Hs'.
    destruct (decide (fd' = fd)) as [->|]; [right|left; auto]. split; [done|].
    rewrite lookup_insert_eq. destruct Hs', Hsv'. congruence.
  - exists (pre ++ [KEventDelete fd; CloseFd fd]). split; [done|]. intros m.
    rewrite fold_left_app. simpl. split.
    + intros fd' Hne. rewrite !lookup_delete_ne by done.
      destruct Hpre as [->| ->]; simpl; [done|]. by rewrite lookup_insert_ne.
    + intros fd' s' Hs'. destruct (decide (fd' = fd)) as [->|]; [|left; auto].
      destruct Hs'. congruence.
Qed.

Lemma arm_new_app m (w w' : wstate HS) new :
  ws_actions w' = ws_actions w ++ new → arm_new m w w' = fold_left arm new m.
Proof. intros H. unfold arm_new. by rewrite H, drop_app_length. Qed.

Lemma arm_new_same m (w w' : wstate HS) : ws_actions w' = ws_actions w → arm_new m w w' = m.
Proof. intros H. rewrite (arm_new_app _ _ _ []); [done|]. by rewrite app_nil_r. Qed.

(** Assembling the invariant after an operation on one descriptor. *)
Lemma sys_ok_touch fd s sv todo busy l :
  touches fd (sv_w (sy_server s)) (sv_w sv) →
  Forall (λ slot, slot < MINIWEB_MAX_CONNECTIONS) busy →
  bf_rel (sv_queue sv) l → length l ≤ MINIWEB_QUEUE_CAPACITY →
  Forall (λ slot, slot < MINIWEB_MAX_CONNECTIONS) l →
  (∀ fd' slot, serves (ws_pool (sv_w (sy_server s))) fd' slot → fd' ≠ fd →
    sy_armed s !! fd' = Some slot ∨ slot ∈ l ∨ slot ∈ busy ∨
    ∃ e, TEvent (EvConn fd' (Some slot) e) ∈ todo) →
  sys_ok (set_server s sv todo busy).
Proof.
  intros (Hwf & Hok & Hst & new & Ha & Hnew) Hb Hq Hlen Hl Hcov.
  split; cbn [set_server sy_server sy_busy]; [done..|].
  exists l. split_and!; [done..|]. intros fd' slot Hsv. unfold covered.
  cbn [set_server sy_armed sy_busy sy_todo]. rewrite (arm_new_app _ _ _ _ Ha).
  destruct (Hnew (sy_armed s)) as [Hother Hfd].
  destruct (Hfd _ _ Hsv) as [[Hold Hne]|[-> Harm]]; [|by left].
  rewrite Hother by done. auto.
Qed.

(** Assembling it after an operation that changes no connection. *)
Lemma sys_ok_quiet s sv todo busy l :
  sys_ok s → ws_pool (sv_w sv) = ws_pool (sv_w (sy_server s)) →
  ws_actions (sv_w sv) = ws_actions (sv_w (sy_server s)) → store_ok (sv_w sv) →
  Forall (λ slot, slot < MINIWEB_MAX_CONNECTIONS) busy →
  bf_rel (sv_queue sv) l → length l ≤ MINIWEB_QUEUE_CAPACITY →
  Forall (λ slot, slot < MINIWEB_MAX_CONNECTIONS) l →
  (∀ fd slot, serves (ws_pool (sv_w (sy_server s))) fd slot →
    sy_armed s !! fd = Some slot ∨ slot ∈ l ∨ slot ∈ busy ∨
    ∃ e, TEvent (EvConn fd (Some slot) e) ∈ todo) →
  sys_ok (set_server s sv todo busy).
Proof.
  intros [Hwf Hok Hst _ _] Hp Ha Hst' Hb Hq Hlen Hl Hcov.
  split; cbn [set_server sy_server sy_busy]; rewrite ?Hp; [done..|].
  exists l. split_and!; [done..|]. intros fd slot Hsv. unfold covered.
  cbn [set_server sy_armed sy_busy sy_todo]. rewrite arm_new_same by done. auto.
Qed.

Lemma sys_init_ok now h :
  store_wf (λ _, False) (w_store (hworld h)) → sys_ok (sys_init now h).
Proof.
  intros Hst. split; simpl; [apply init_pool_wf|apply init_served|done|done|].
  exists []. split_and!; [apply bf_init_rel|simpl; lia|done|].
  intros fd slot [Hok Hc]. unfold cp_conn in Hc; simpl in Hc.
  rewrite list_lookup_total_alt, lookup_replicate_2 in Hc; [done|by apply fd_ok_spec].
Qed.

Lemma lookup_disarm fds (m : gmap Z nat) fd :
  fd ∉ fds → fold_left (λ m fd, delete fd m) fds m !! fd = m !! fd.
Proof.
  revert m. induction fds as [|fd' fds IH]; intros m Hn; [done|]. simpl.
  apply not_elem_of_cons in Hn as [Hne Hn]. by rewrite IH, lookup_delete_ne.
Qed.

(** A task list that loses a task which is not the event of a served connection. *)
Lemma covered_tail s l tk todo fd slot :
  covered s l fd slot → sy_todo s = tk :: todo → (∀ e, tk ≠ TEvent (EvConn fd (Some slot) e)) →
  sy_armed s !! fd = Some slot ∨ slot ∈ l ∨ slot ∈ sy_busy s ∨
  ∃ e, TEvent (EvConn fd (Some slot) e) ∈ todo.
Proof.
  unfold covered. intros [?|[?|[?|[e He]]]] Ht Hne; eauto. rewrite Ht in He.
  apply elem_of_cons in He as [He|He]; [|eauto]. by destruct (Hne e).
Qed.

Lemma dispatch_conn_ok s fd udata e todo :
  sys_ok s → sy_todo s = TEvent (EvConn fd udata e) :: todo →
  sys_ok (set_server s (dispatch_conn fd udata e (sy_server s)) todo (sy_busy s)).
Proof.
  intros Hok Ht. pose proof Hok as [Hwf Hsvd Hst Hb (l & Hq & Hlen & Hl & Hcov)].
  pose proof (close_and_free_touches fd _ Hwf Hsvd Hst) as Htouch.
  unfold dispatch_conn. destruct (fd_ok fd) eqn:Hfd; cbn [negb orb]; last first.
  { apply sys_ok_quiet with l; try done. intros fd' slot Hsv.
    eapply covered_tail; [by apply Hcov|done|]. intros e' [= -> _ _]. destruct Hsv. congruence. }
  destruct (miniweb_connection_is_stale _ _ _) eqn:Hstale.
  { apply sys_ok_quiet with l; try done. intros fd' slot Hsv.
    eapply covered_tail; [by apply Hcov|done|]. intros e' [= -> -> _].
    destruct Hsv as [_ Hsv]. rewrite <- (stale_spec _ _ _ Hwf Hfd) in Hsv. congruence. }
  destruct udata as [slot|]; [|done].
  apply (stale_spec _ _ _ Hwf Hfd) in Hstale.
  destruct (wf_serves _ Hwf fd slot) as (Hslot & _); [done|].
  assert (∀ l', l ⊆ l' → ∀ fd' slot', serves (ws_pool (sv_w (sy_server s))) fd' slot' → fd' ≠ fd →
    sy_armed s !! fd' = Some slot' ∨ slot' ∈ l' ∨ slot' ∈ sy_busy s ∨
    ∃ e, TEvent (EvConn fd' (Some slot') e) ∈ todo) as Hothers.
  { intros l' Hsub fd' slot' Hsv Hne.
    destruct (covered_tail _ _ _ _ _ _ (Hcov _ _ Hsv) Ht) as [?|[?|[?|?]]]; auto.
    intros e' [= -> _ _]. done. }
  destruct e.
  { apply sys_ok_touch with fd l; try done. by apply Hothers. }
  unfold enqueue_conn. destruct (bf_step_rel _ _ (OpPush slot) Hq) as [Ho Hr].
  destruct (bf_step (sv_queue (sy_server s)) (OpPush slot)) as [o q]. cbn [fst snd fifo_step] in Ho, Hr.
  destruct (Nat.ltb_spec (length l) MINIWEB_QUEUE_CAPACITY) as [Hroom|Hfull]; cbn [fst snd] in Ho, Hr;
    subst o; cbn [with_queue with_w sv_w].
  - apply sys_ok_quiet with (l ++ [slot]); try done.
    + rewrite length_app. simpl. lia.
    + apply Forall_app. auto.
    + intros fd' slot' Hsv. destruct (decide (fd' = fd)) as [->|Hne].
      * destruct Hsv as [_ Hc]. assert (slot' = slot) as -> by congruence. right. left. set_solver.
      * apply Hothers; [set_solver|done|done].
  - apply sys_ok_touch with fd l; try done. by apply Hothers.
Qed.

(** Waiting turns armed registrations into events. *)
Lemma wait_ok s tn evs :
  sys_ok s → sy_todo s = [] → Forall (may_deliver (sy_armed s)) evs →
  sys_ok
    {| sy_server := if (1 <=? tn_now tn - sv_last_sweep (sy_server s))%Z
                    then swept (tn_swept tn) (sv_w (sy_server s)) (sy_server s)
                    else sy_server s;
       sy_todo := turn_tasks conf tn (sy_server s) evs; sy_busy := sy_busy s;
       sy_armed := fold_left (λ m fd, delete fd m) (evs ≫= delivered) (sy_armed s) |}.
Proof.
  intros Hok Ht Hdel. pose proof Hok as [Hwf Hsvd Hst Hb (l & Hq & Hlen & Hl & Hcov)].
  set (sv := if (1 <=? tn_now tn - sv_last_sweep (sy_server s))%Z then _ else sy_server s).
  assert (sv_w sv = sv_w (sy_server s)) as Hw by (unfold sv; by split_if).
  assert (sv_queue sv = sv_queue (sy_server s)) as Hsq by (unfold sv; by split_if).
  split; cbn [sy_server sy_busy sy_todo sy_armed]; rewrite ?Hw, ?Hsq; [done..|].
  exists l. split_and!; [done..|]. intros fd slot Hsv.
  destruct (Hcov _ _ Hsv) as [Harm|[?|[?|[e He]]]]; unfold covered;
    cbn [sy_armed sy_busy sy_todo]; auto; last first.
  { rewrite Ht in He. by apply elem_of_nil in He. }
  destruct (decide (fd ∈ evs ≫= delivered)) as [Hin|Hn]; [|left; by rewrite lookup_disarm].
  right. right. right. apply list_elem_of_bind in Hin as (ev & Hfd & Hev).
  rewrite Forall_forall in Hdel. specialize (Hdel _ Hev).
  destruct ev as [| |fd' udata e]; simpl in Hfd; try by apply elem_of_nil in Hfd.
  apply list_elem_of_singleton in Hfd as ->. destruct Hdel as (slot' & -> & Harm').
  assert (slot' = slot) as -> by congruence. exists e. unfold turn_tasks.
  apply elem_of_app. right. apply list_elem_of_fmap. by exists (EvConn fd' (Some slot) e).
Qed.

(** A worker takes the head of the queue. *)
Lemma pop_ok s slot q :
  sys_ok s →
  bf_step (sv_queue (sy_server s)) (OpPop (sv_running (sy_server s))) = (ObsPop (Some slot), q) →
  sys_ok (set_server s (with_queue q (sy_server s)) (sy_todo s) (slot :: sy_busy s)).
Proof.
  intros Hok Hpop. pose proof Hok as [Hwf Hsvd Hst Hb (l & Hq & Hlen & Hl & Hcov)].
  destruct (bf_step_rel _ _ (OpPop (sv_running (sy_server s))) Hq) as [Ho Hr].
  rewrite Hpop in Ho, Hr. destruct l as [|x l]; simpl in Ho, Hr.
  { by destruct (sv_running (sy_server s)). }
  injection Ho as <-. apply Forall_cons in Hl as [Hx Hl].
  apply sys_ok_quiet with l; try done; [by apply Forall_cons|simpl in Hlen; lia|].
  intros fd' slot' Hsv. destruct (Hcov _ _ Hsv) as [?|[Hin|[?|?]]]; [by auto| |by set_solver|by auto].
  apply elem_of_cons in Hin as [->|Hin]; [|by auto]. right. right. left. set_solver.
Qed.

(** A worker serves the request of a connection it has taken. *)
Lemma work_ok s recv kevent_ok now tid slot t busy1 busy2 w :
  sys_ok s → (∀ t n d, recv t n = RecvData d → length d ≤ n) →
  sy_busy s = busy1 ++ slot :: busy2 →
  worker_iteration recv kevent_ok now k fuel tid reg conf run_handler slot t
    (sv_w (sy_server s)) = Some w →
  sys_ok (set_server s (with_w w (sy_server s)) (sy_todo s) (busy1 ++ busy2)).
Proof.
  intros Hok Hrecv Hbusy Hw. pose proof Hok as [Hwf Hsvd Hst Hb (l & Hq & Hlen & Hl & Hcov)].
  assert (slot < MINIWEB_MAX_CONNECTIONS) as Hslot.
  { rewrite Hbusy in Hb. apply Forall_app in Hb as [_ Hb]. by apply Forall_cons in Hb as [? _]. }
  assert (Forall (λ slot, slot < MINIWEB_MAX_CONNECTIONS) (busy1 ++ busy2)) as Hb'.
  { rewrite Hbusy in Hb. apply Forall_app in Hb as [Hb1 Hb2]. apply Forall_cons in Hb2 as [_ ?].
    by apply Forall_app. }
  assert (∀ fd slot', serves (ws_pool (sv_w (sy_server s))) fd slot' → slot' ≠ slot →
    sy_armed s !! fd = Some slot' ∨ slot' ∈ l ∨ slot' ∈ busy1 ++ busy2 ∨
    ∃ e, TEvent (EvConn fd (Some slot') e) ∈ sy_todo s) as Hothers.
  { intros fd slot' Hsv Hne. destruct (Hcov _ _ Hsv) as [?|[?|[Hin|?]]]; [by auto..| |by auto].
    right. right. left. rewrite Hbusy in Hin. set_solver. }
  destruct (worker_touches _ _ _ _ _ _ _ _ Hrecv Hwf Hsvd Hst Hslot Hw) as [[-> Hns]|Htouch].
  - apply sys_ok_quiet with l; try done. intros fd' slot' Hsv. apply Hothers; [done|]. intros ->.
    destruct (wf_serves _ Hwf _ _ Hsv) as (_ & _ & Hfd & _). rewrite Hfd in Hns. done.
  - eapply sys_ok_touch with _ l; [exact Htouch|done..|]. intros fd' slot' Hsv Hne.
    apply Hothers; [done|]. intros ->.
    destruct (wf_serves _ Hwf _ _ Hsv) as (_ & _ & Hfd & _). congruence.
Qed.

Lemma sys_step_ok s s' : sys_ok s → sys_step s s' → sys_ok s'.
Proof.
  intros Hok Hstep. pose proof Hok as [Hwf Hsvd Hst Hb (l & Hq & Hlen & Hl & Hcov)].
  destruct Hstep as [s tn evs Hrun Ht Hret Hdel|s fd todo Ht|s fd addr now kok accepts todo tid w Ht Hnew Ha
    |s accepts todo Ht|s accepts todo Ht _|s ev todo tid sv Ht Hev Hd|s slot q Hpop
    |s recv kok now tid slot t b1 b2 w Hrecv Hbusy Hw|s wfd].
  - by apply wait_ok.
  - eapply sys_ok_touch with fd l; [by apply close_and_free_touches|done..|].
    intros fd' slot Hsv Hne. by eapply covered_tail; [apply Hcov|..].
  - eapply sys_ok_touch with fd l; [|done..|].
    + eapply accept_one_touches; [lia|done..].
    + intros fd' slot Hsv Hne. destruct (covered_tail _ _ _ _ _ _ (Hcov _ _ Hsv) Ht) as [?|[?|[?|[e ?]]]];
        [done|by auto..|]. do 3 right. exists e. by apply elem_of_cons; right.
  - apply sys_ok_quiet with l; try done. intros fd slot Hsv.
    destruct (covered_tail _ _ _ _ _ _ (Hcov _ _ Hsv) Ht) as [?|[?|[?|[e ?]]]];
      [done|by auto..|]. do 3 right. exists e. by apply elem_of_cons; right.
  - apply sys_ok_quiet with l; try done. intros fd slot Hsv.
    by eapply covered_tail; [apply Hcov|..].
  - destruct ev as [|accepts|fd udata e]; [|done|].
    + injection Hd as <-. apply sys_ok_quiet with l; try done. intros fd slot Hsv.
      by eapply covered_tail; [apply Hcov|..].
    + injection Hd as <-. by apply dispatch_conn_ok.
  - by apply pop_ok.
  - by eapply work_ok.
  - apply sys_ok_quiet with l; try done.
Qed.

(** ** A turn of the dispatcher is a run of steps *)

Definition accepted (a : accept_result) : list Z :=
  match a with Accepted fd _ _ _ => [fd] | AcceptFail _ => [] end.

Definition accepted_in (ev : event) : list Z :=
  match ev with EvListen accepts => accepts ≫= accepted | _ => [] end.

(** accept(2) returns no descriptor that is open. *)
Definition fresh (p : connection_pool) (l : list Z) : Prop :=
  NoDup l ∧ ∀ fd slot, fd ∈ l → ¬ serves p fd slot.

Definition at_ (s : sys Q HS) (sv : server Q HS) (todo : list task) (m : gmap Z nat) : sys Q HS :=
  {| sy_server := sv; sy_todo := todo; sy_busy := sy_busy s; sy_armed := m |}.

Lemma close_steps l s todo :
  sy_todo s = (TClose <$> l) ++ todo →
  ∃ m, rtc sys_step s (at_ s (with_w (close_all l (sv_w (sy_server s))) (sy_server s)) todo m).
Proof.
  revert s. induction l as [|fd l IH]; intros s Ht.
  - exists (sy_armed s). destruct s as [[] ? ? ?]. cbn in *. subst. constructor.
  - pose proof (step_close _ _ _ Ht) as Hstep.
    destruct (IH (set_server s (with_w (close_and_free fd (sv_w (sy_server s))) (sy_server s))
      ((TClose <$> l) ++ todo) (sy_busy s)) eq_refl) as [m Hm].
    exists m. eapply rtc_l; [exact Hstep|]. exact Hm.
Qed.

Lemma touches_fresh fd w w' l :
  touches fd w w' → fresh (ws_pool w) (fd :: l) → fresh (ws_pool w') l.
Proof.
  intros (_ & _ & _ & new & _ & Hnew) [Hnd Hfr]. apply NoDup_cons in Hnd as [Hn Hnd].
  split; [done|]. intros fd' slot Hin Hs.
  destruct (Hnew ∅) as [_ Hsv]. destruct (Hsv _ _ Hs) as [[Hs' _]|[-> _]]; [|done].
  apply (Hfr fd' slot); [by apply elem_of_cons; right|done].
Qed.

Lemma fresh_mono p p' l :
  (∀ fd slot, serves p' fd slot → serves p fd slot) → fresh p l → fresh p' l.
Proof. intros Hsub [Hnd Hfr]. split; [done|]. intros fd slot Hin Hs. by apply (Hfr fd slot), Hsub. Qed.

Lemma accept_steps tid accepts s todo l w' :
  sys_ok s → sy_todo s = TAccept accepts :: todo →
  fresh (ws_pool (sv_w (sy_server s))) ((accepts ≫= accepted) ++ l) →
  handle_accept O_NONBLOCK fcntl_getfl k fuel tid reg conf accepts (sv_w (sy_server s)) = Some w' →
  fresh (ws_pool w') l ∧ ∃ m, rtc sys_step s (at_ s (with_w w' (sy_server s)) todo m).
Proof.
  revert s. induction accepts as [|[fd addr now kok|e] accepts IH]; intros s Hok Ht Hfr H.
  - injection H as <-. split; [done|]. eexists. eapply rtc_l; [by apply (step_accept_end s _ todo Ht)|].
    destruct s as [[] ? ? ?]. constructor.
  - cbn [handle_accept] in H. destruct (accept_one _ _ _ _ _ _ _ _ _ _ _ _) as [w|] eqn:Ha; [|done].
    pose proof Hok as [Hwf Hsv Hst _ _].
    change (fresh (ws_pool (sv_w (sy_server s))) (fd :: ((accepts ≫= accepted) ++ l))) in Hfr.
    assert (∀ slot, ¬ serves (ws_pool (sv_w (sy_server s))) fd slot) as Hnew.
    { intros slot. apply Hfr. by apply elem_of_cons; left. }
    pose proof (step_accepted _ _ _ _ _ _ _ _ _ Ht Hnew Ha) as Hstep.
    pose proof (sys_step_ok _ _ Hok Hstep) as Hok1.
    apply accept_one_touches in Ha; [|lia|done..].
    destruct (IH _ Hok1 eq_refl (touches_fresh _ _ _ _ Ha Hfr) H) as [Hfr' [m Hm]].
    split; [done|]. exists m. eapply rtc_l; [exact Hstep|exact Hm].
  - assert (fresh (ws_pool (sv_w (sy_server s))) ((accepts ≫= accepted) ++ l)) as Hfr1 by exact Hfr.
    destruct (decide (e = EINTR)) as [->|Hne].
    + pose proof (step_accept_intr _ _ _ Ht) as Hstep.
      destruct (IH _ (sys_step_ok _ _ Hok Hstep) eq_refl Hfr1 H) as [Hfr' [m Hm]].
      split; [done|]. exists m. eapply rtc_l; [exact Hstep|exact Hm].
    + assert (w' = sv_w (sy_server s)) as -> by (destruct e; naive_solver).
      split. { destruct Hfr1 as [Hnd Hn]. apply NoDup_app in Hnd as (_ & _ & Hnd).
               split; [done|]. intros fd slot Hin. apply Hn. apply elem_of_app. by right. }
      eexists. eapply rtc_l; [by apply (step_accept_end s _ todo Ht)|].
      destruct s as [[] ? ? ?]. constructor.
Qed.

Lemma dispatch_conn_serves fd udata e (sv : server Q HS) :
  pool_wf (ws_pool (sv_w sv)) → served_ok conf (ws_pool (sv_w sv)) →
  ∀ fd' slot, serves (ws_pool (sv_w (dispatch_conn fd udata e sv))) fd' slot →
    serves (ws_pool (sv_w sv)) fd' slot.
Proof.
  intros Hwf Hok fd' slot.
  destruct (free_serves conf _ fd Hwf Hok) as (_ & _ & Hsv & _).
  unfold dispatch_conn, enqueue_conn. destruct (_ || _); [done|].
  destruct e; [by intros [? _]%Hsv|]. destruct udata as [s|]; [|done]. destruct (bf_step _ _) as [o q].
  destruct o as [rc| |]; try done. destruct (rc <? 0)%Z; [by intros [? _]%Hsv|done].
Qed.

Lemma event_steps tid evs s l sv' :
  sys_ok s → sy_todo s = event_task <$> evs →
  fresh (ws_pool (sv_w (sy_server s))) ((evs ≫= accepted_in) ++ l) →
  dispatch_events O_NONBLOCK fcntl_getfl k fuel tid reg conf evs (sy_server s) = Some sv' →
  ∃ m, rtc sys_step s (at_ s sv' [] m).
Proof.
  revert s. induction evs as [|ev evs IH]; intros s Hok Ht Hfr H.
  { injection H as <-. exists (sy_armed s). destruct s. cbn in Ht. subst. constructor. }
  cbn [dispatch_events] in H. destruct (dispatch_event _ _ _ _ _ _ _ _ _) as [sv1|] eqn:Hd; [|done].
  assert (∃ m1, rtc sys_step s (at_ s sv1 (event_task <$> evs) m1) ∧
    fresh (ws_pool (sv_w sv1)) ((evs ≫= accepted_in) ++ l)) as (m1 & Hsteps & Hfr1).
  { destruct ev as [|accepts|fd udata e].
    - eexists. split; [apply rtc_once; by apply (step_event s _ _ tid _ Ht)|].
      injection Hd as <-. exact Hfr.
    - cbn in Hd. destruct (handle_accept _ _ _ _ _ _ _ _ _) as [w|] eqn:Ha; [|done].
      injection Hd as <-.
      change ((EvListen accepts :: evs) ≫= accepted_in)
        with ((accepts ≫= accepted) ++ (evs ≫= accepted_in)) in Hfr. rewrite <- app_assoc in Hfr.
      destruct (accept_steps _ _ _ _ _ _ Hok Ht Hfr Ha) as [Hfr1 [m Hm]]. by exists m.
    - eexists. split; [apply rtc_once; by apply (step_event s _ _ tid _ Ht)|].
      injection Hd as <-. eapply fresh_mono; [|exact Hfr]. by apply dispatch_conn_serves; apply Hok. }
  assert (sys_ok (at_ s sv1 (event_task <$> evs) m1)) as Hok1.
  { clear -Hok Hsteps Hmax HandlerLaws0. induction Hsteps; [done|]. eauto using sys_step_ok. }
  destruct (IH _ Hok1 eq_refl Hfr1 H) as [m Hm]. exists m. by etransitivity.
Qed.

Lemma turn_steps tid tn evs s sv' :
  sys_ok s → sy_todo s = [] → sv_running (sy_server s) = true → tn_ret tn = KEvents evs →
  Forall (may_deliver (sy_armed s)) evs →
  fresh (ws_pool (sv_w (sy_server s))) (evs ≫= accepted_in) →
  server_turn O_NONBLOCK fcntl_getfl k fuel tid reg conf tn (sy_server s) = Some (true, sv') →
  ∃ m, rtc sys_step s (at_ s sv' [] m).
Proof.
  intros Hok Ht Hrun Hret Hdel Hfr H. unfold server_turn in H. rewrite Hret in H.
  destruct (dispatch_events _ _ _ _ _ _ _ _ _) as [sv1|] eqn:Hd; [|done]. injection H as <-.
  pose proof (step_wait s tn evs Hrun Ht Hret Hdel) as Hwait.
  pose proof (sys_step_ok _ _ Hok Hwait) as Hok1.
  unfold maybe_sweep in Hd. unfold turn_tasks in *. rewrite <- (app_nil_r (evs ≫= accepted_in)) in Hfr.
  destruct (1 <=? tn_now tn - sv_last_sweep (sy_server s))%Z.
  - match type of Hok1 with sys_ok ?x => destruct (close_steps
      (idle_fds conf (ws_pool (sv_w (sy_server s))) (tn_sweep tn)) x (event_task <$> evs) eq_refl)
      as [m1 Hclose] end.
    match type of Hclose with rtc _ _ ?x => assert (sys_ok x) as Hok2 end.
    { clear -Hok1 Hclose Hmax HandlerLaws0. induction Hclose; [done|]. eauto using sys_step_ok. }
    destruct (event_steps tid evs _ [] sv1 Hok2 eq_refl) as [m Hm]; [|exact Hd|].
    + eapply fresh_mono; [|exact Hfr]. intros fd slot Hs.
      destruct (close_all_spec conf (idle_fds conf (ws_pool (sv_w (sy_server s))) (tn_sweep tn))
        (sv_w (sy_server s)) (so_pool _ Hok) (so_served _ Hok)) as (_ & _ & Hsv & _).
      by apply Hsv in Hs as [? _].
    + exists m. eapply rtc_l; [exact Hwait|]. etransitivity; [exact Hclose|exact Hm].
  - destruct (event_steps tid evs _ [] sv1 Hok1 eq_refl Hfr Hd) as [m Hm].
    exists m. eapply rtc_l; [exact Hwait|exact Hm].
Qed.

Lemma sys_reachable_ok now h s :
  store_wf (λ _, False) (w_store (hworld h)) → rtc sys_step (sys_init now h) s → sys_ok s.
Proof.
  intros Hst Hr. pose proof (sys_init_ok now h Hst) as Hok.
  induction Hr; [done|]. eauto using sys_step_ok.
Qed.

(** ** Properties *)



End interleaving.

(** *** Start-up and shutdown *)

Section run.
Context {Q : Type} `{!BoundedFifo nat Q MINIWEB_QUEUE_CAPACITY} {HS : Type} `{!HandlerState HS}.
Context (O_NONBLOCK : Z) (fcntl_getfl : Z → Z).
Context (k : kernel) (fuel : nat) (tid : Z) (reg : registry) (conf : miniweb_conf).

(** The descriptors the system hands out before a failure ends the start-up. *)
Definition opened (su : startup) : list Z :=
  match su_pipe su with
  | None => []
  | Some (rfd, wfd) =>
      [rfd; wfd] ++
      (if (su_socket su <? 0)%Z then []
       else su_socket su ::
            (if su_inet_pton su && su_bind su && su_listen su && (0 <=? su_kqueue su)%Z
             then [su_kqueue su] else []))
  end.

Definition startup_succeeds (su : startup) : Prop :=
  su_pipe su ≠ None ∧ (0 ≤ su_socket su)%Z ∧ (0 ≤ su_kqueue su)%Z ∧
  su_inet_pton su && su_bind su && su_listen su && su_kevent_listen su && su_kevent_signal su = true ∧
  ∀ i, (Z.of_nat i < threads conf)%Z → su_thread su i = true.

Lemma start_threads_spec create n i :
  let '(started, all) := start_threads create n i in
  i ≤ started ≤ i + n ∧ (∀ j, i ≤ j < started → create j = true) ∧
  (all = true → started = i + n) ∧ (all = false → started < i + n ∧ create started = false).
Proof.
  revert i. induction n as [|n IH]; intros i; simpl.
  { split_and!; [lia..|lia|done]. }
  destruct (create i) eqn:E.
  - specialize (IH (S i)). destruct (start_threads create n (S i)) as [st all].
    destruct IH as (? & Hc & Ht & Hf). split_and!; [lia|lia| |intros; rewrite Ht by done; lia|].
    + intros j Hj. destruct (decide (j = i)) as [->|]; [done|]. apply Hc. lia.
    + intros Ha. destruct (Hf Ha). split; [lia|done].
  - split_and!; [lia|lia|intros; lia|done|intros; split; [lia|done]].
Qed.

(** What the start-up leaves open is what it opened. *)
Lemma setup_spec su :
  (∀ r w, su_pipe su = Some (r, w) → 0 ≤ r ∧ 0 ≤ w)%Z →
  let '(ok, d, started) := server_setup conf su in
  (server_teardown d).1 ≡ₚ opened su ∧ (ok = true ↔ startup_succeeds su) ∧
  (Z.of_nat started ≤ Z.max 0 (threads conf))%Z ∧ ∀ i, i < started → su_thread su i = true.
Proof.
  intros Hpipe. unfold server_setup, startup_succeeds, opened.
  destruct (su_pipe su) as [[r w]|]; last first.
  { split; [done|]. split; [split; [done|tauto]|]. split; [lia|]. intros; lia. }
  destruct (Hpipe r w eq_refl) as [Hr Hw].
  assert (∀ fd, (0 ≤ fd)%Z → close_open fd = [fd]) as Hopen.
  { intros fd Hfd. unfold close_open. destruct (Z.leb_spec 0 fd); [done|lia]. }
  assert (∀ fd, (fd < 0)%Z → close_open fd = []) as Hshut.
  { intros fd Hfd. unfold close_open. destruct (Z.leb_spec 0 fd); [lia|done]. }
  assert (∀ i, i < 0 → su_thread su i = true) as H0 by (intros; lia).
  destruct (Z.ltb_spec (su_socket su) 0) as [Hs|Hs].
  { simpl. rewrite (Hshut _ Hs), !Hopen by done. repeat split; try done; try lia; intros; lia. }
  destruct (su_inet_pton su); cbn [negb andb]; [destruct (su_bind su); cbn [negb andb orb];
    [destruct (su_listen su); cbn [negb andb orb]|]|]; cbn [server_teardown fst kq_fd listen_fd
      signal_pipe_rfd signal_pipe_wfd].
  2,3,4: rewrite ?(Hshut (-1)%Z), !Hopen by (done || lia);
    split; [simpl; solve_Permutation|]; split; [split; [done|intros (_ & _ & _ & ? & _); done]|];
    split; [lia|done].
  destruct (Z.ltb_spec (su_kqueue su) 0) as [Hk|Hk].
  { destruct (Z.leb_spec 0 (su_kqueue su)); [lia|]. cbn [server_teardown fst kq_fd listen_fd
      signal_pipe_rfd signal_pipe_wfd]. rewrite (Hshut _ Hk), !Hopen by done.
    split; [simpl; solve_Permutation|]. split; [split; [done|lia]|]. split; [lia|done]. }
  destruct (Z.leb_spec 0 (su_kqueue su)); [|lia].
  destruct (su_kevent_listen su); cbn [negb andb]; [destruct (su_kevent_signal su); cbn [negb andb]|].
  2,3: cbn [server_teardown fst kq_fd listen_fd signal_pipe_rfd signal_pipe_wfd];
    rewrite !Hopen by done; split; [simpl; solve_Permutation|];
    split; [split; [done|intros (_ & _ & _ & ? & _); done]|]; split; [lia|done].
  pose proof (start_threads_spec (su_thread su) (Z.to_nat (threads conf)) 0) as Hth.
  destruct (start_threads _ _ 0) as [started all]. destruct Hth as (Hle & Hall & Ht & Hf).
  cbn [server_teardown fst kq_fd listen_fd signal_pipe_rfd signal_pipe_wfd].
  rewrite !Hopen by done. split; [simpl; solve_Permutation|].
  split; [|split; [lia|intros i Hi; apply Hall; lia]]. split.
  - intros ->. specialize (Ht eq_refl). split_and!; [done|done|done|done|]. intros i Hi. apply Hall. lia.
  - intros (_ & _ & _ & _ & Hth). destruct all; [done|]. destruct (Hf eq_refl) as [Hlt Hfail].
    rewrite Hth in Hfail by lia. done.
Qed.

End run.

(** [drain_signal_pipe] reads on over data and interruptions and over nothing else. *)
Lemma drain_signal_pipe_spec pre e rest :
  Forall (λ r, match r with Ret (S _) | Err EINTR => True | _ => False end) pre →
  match e with Ret (S _) | Err EINTR => False | _ => True end →
  drain_signal_pipe (pre ++ e :: rest) = rest.
Proof.
  intros Hpre He. induction Hpre as [|r pre Hr _ IH]; simpl.
  - destruct e as [[|n]|[]]; done.
  - destruct r as [[|n]|[]]; done.
Qed.

(** ** Witnesses *)

#[export] Instance hello_handler_laws : HandlerLaws hello_handler.
Proof.
  split. intros tid h req s rc keep s' live Hwf H. unfold hello_handler in H.
  apply reply_store in H as (w & H & -> & _). unfold http_send_html in H.
  eapply respond_spec in H as [? _]; [done|done|done].
Qed.

Definition test_reg : registry := init_routes None empty_registry.
Definition test_conf : miniweb_conf := conf_defaults 4.
Definition test_init : sys (work_queue nat) hstate := sys_init 100 test_state.

(** A client connects on descriptor 5. *)
Definition test_turn : turn :=
  {| tn_ret := KEvents [EvListen [AcceptFail EINTR; Accepted 5 zero_sockaddr 101 true; AcceptFail EAGAIN]];
     tn_now := 101; tn_sweep := 101; tn_swept := 101 |}.

Definition after_turn : option (bool * server (work_queue nat) hstate) :=
  server_turn 4 (λ _, 0%Z) eager_kernel 5 9 test_reg test_conf test_turn (sy_server test_init).

Definition test_step : sys (work_queue nat) hstate → sys (work_queue nat) hstate → Prop :=
  sys_step 4 (λ _, 0%Z) eager_kernel 5 test_reg test_conf hello_handler.

Lemma test_max : (0 < max_req_size test_conf ≤ Z.of_nat MINIWEB_REQUEST_BUFFER_SIZE)%Z.
Proof.
  pose proof MINIWEB_REQUEST_BUFFER_SIZE_val. change (max_req_size test_conf) with 16384%Z. lia.
Qed.

Lemma test_store : store_wf (λ _, False) (w_store (hworld test_state)).
Proof. apply initial_store_wf. Qed.

Lemma test_fresh :
  fresh (ws_pool (sv_w (sy_server test_init))) [5%Z].
Proof.
  split; [by repeat constructor; apply not_elem_of_nil|]. intros fd slot Hfd [_ Hc].
  apply list_elem_of_singleton in Hfd as ->.
  unfold cp_conn in Hc. cbn in Hc. rewrite list_lookup_total_alt, lookup_replicate_2 in Hc; [done|].
  pose proof MINIWEB_MAX_CONNECTIONS_val. lia.
Qed.

Definition turn_view (r : option (bool * server (work_queue nat) hstate)) : option (bool * option nat) :=
  match r with Some (b, sv) => Some (b, cp_conn (ws_pool (sv_w sv)) 5) | None => None end.

Lemma after_turn_eq :
  ∃ sv, after_turn = Some (true, sv) ∧ cp_conn (ws_pool (sv_w sv)) 5 = Some 0.
Proof.
  assert (turn_view after_turn = Some (true, Some 0)) as Hv by (vm_compute; reflexivity).
  destruct after_turn as [[b sv]|]; [|discriminate Hv]. injection Hv as -> Hc.
  exists sv. split; [reflexivity|exact Hc].
Qed.

Lemma test_run :
  ∃ sv m, cp_conn (ws_pool (sv_w sv)) 5 = Some 0 ∧ rtc test_step test_init (at_ test_init sv [] m).
Proof.
  destruct after_turn_eq as (sv & E & Hc). exists sv.
  pose proof (turn_steps 4 (λ _, 0%Z) eager_kernel 5 test_reg test_conf hello_handler test_max 9 test_turn _ test_init sv
    (sys_init_ok _ 100 _ test_store) eq_refl eq_refl eq_refl) as H.
  destruct H as [m Hm]; [|exact test_fresh|exact E|].
  - constructor; [exact I|constructor].
  - exists m. split; [exact Hc|exact Hm].
Qed.




(** Descriptor 5 has been silent for 101 seconds. *)
Lemma sweep_idle_spec_witness :
  ws_actions (sweep_idle test_conf 101 worker_start) = [CloseFd 5] ∧
  pool_wf (ws_pool (sweep_idle test_conf 101 worker_start)).
Proof.
  assert (pool_wf one_connection) as Hwf.
  { eapply alloc_wf; [apply init_pool_wf|]. apply surjective_pairing. }
  split; [vm_compute; reflexivity|].
  apply (sweep_idle_spec test_conf 101 worker_start Hwf).
  eapply alloc_served; [|apply init_pool_wf|apply init_served|apply surjective_pairing].
  apply test_max.
Defined.

Definition test_startup : startup :=
  {| su_pipe := Some (3, 4)%Z; su_socket := 5; su_inet_pton := true; su_bind := true;
     su_listen := true; su_kqueue := -1; su_kevent_listen := true; su_kevent_signal := true;
     su_thread := λ _, true |}.

(** kqueue(2) fails: pipe and socket are closed again. *)
Definition test_end : option (run_end (Q := work_queue nat)) :=
  miniweb_server_run 4 (λ _, 0%Z) eager_kernel 5 9 test_reg test_conf test_startup 100 [] test_state.

