(* ===== verification/Session.v ===== *)
(** * What a client reads on one connection (src/net/worker.c)

    The iterations of workers on a connection that stays open, with any handlers that keep
    their contract ([HandlerLaws], [HandlerAnswers]): the socket carries one response for
    each request that was counted, one after the other and nothing in between.  What the
    handlers keep, the whole server keeps. *)

From S2P Require Import Prelude WorkQueue ConnectionPool Conf Router ResponsePool HttpResponse Files Worker Server.

Section session.
Context {HS : Type} `{!HandlerState HS}.
Context (k : kernel) (fuel : nat) (conf : miniweb_conf) (rconf : option miniweb_conf) (reg0 : registry).
Context (run_handler : Z → route_handler → http_request → HS → handled HS).
Context (inv : HS → Prop) (fits : route_handler → http_request → HS → Prop).
Context `{!HandlerLaws run_handler} `{!HandlerAnswers inv fits run_handler}.
Context (Hmax : (0 < max_req_size conf ≤ Z.of_nat MINIWEB_REQUEST_BUFFER_SIZE)%Z).

Abbreviation reg := (init_routes rconf reg0).
Abbreviation wire s := (w_wire (hworld (ws_h s))).

(** The handlers' part of a state. *)
Definition handlers_ok (h : HS) : Prop := inv h ∧ store_wf (λ _, False) (w_store (hworld h)).

Lemma reply_ok keep0 h r rc keep h' :
  handlers_ok h → (∀ rc w, r = Some (rc, w) → store_wf (λ _, False) (w_store w)) →
  reply keep0 h r = Some (rc, keep, h') → handlers_ok h'.
Proof.
  intros [Hi Hst] Hr. unfold reply. destruct r as [[rc0 w]|]; [|done]. intros [= <- <- <-].
  split; [by apply answers_world|]. rewrite hworld_set. by eapply Hr.
Qed.

Lemma dispatch_ok tid req h rc keep h' :
  handlers_ok h → dispatch_request k fuel tid reg run_handler req h = Some (rc, keep, h') → handlers_ok h'.
Proof.
  intros Hok. pose proof Hok as [Hi Hst]. unfold dispatch_request. destruct (route_match _ _ _) as [rh|].
  - intros H. split; [by eapply answers_inv, H|by eapply handler_balanced, H].
  - apply reply_ok; [done|]. intros rc0 w. by apply http_send_error_store.
Qed.

Lemma dispatch_framed tid req h rc keep h' :
  handlers_ok h → (∀ rh, route_match reg (req_method req) (req_url req) = Some rh → fits rh req h) →
  dispatch_request k fuel tid reg run_handler req h = Some (rc, keep, h') →
  framed (hworld h) rc keep (hworld h').
Proof.
  intros [Hi Hst] Hfits. unfold dispatch_request. destruct (route_match _ _ _) as [rh|].
  - intros H. eapply answers_framed, H; [exact Hi|exact Hst|by apply Hfits].
  - intros (w & E & -> & _)%reply_store.
    assert (∃ page, delivers (λ _, False) page (hworld h) rc w) as [page Hd].
    { eexists. eapply http_send_error_sends, E; [done|by destruct (route_path_known _ _)|].
      destruct (route_path_known _ _); by apply Nat.leb_le. }
    by eapply delivers_framed.
Qed.

Lemma error_response_ok tid fd code msg s s' :
  handlers_ok (ws_h s) → send_error_response k fuel tid reg fd code msg s = Some s' → handlers_ok (ws_h s').
Proof.
  intros [Hi Hst]. unfold send_error_response.
  destruct (http_send_error _ _ _ _ _ _ _ _) as [[rc w]|] eqn:E; [|done]. intros [= <-]. cbn [ws_h].
  split; [by apply answers_world|]. rewrite hworld_set. by eapply http_send_error_store.
Qed.

Lemma serve_ok kevent_ok now tid slot t fd s close s' :
  handlers_ok (ws_h s) →
  serve_request kevent_ok now k fuel tid reg run_handler slot t fd s = Some (close, s') → handlers_ok (ws_h s').
Proof.
  intros Hok. unfold serve_request. destruct (parse_request_line _) as [[[m u] v]|].
  - destruct (dispatch_request _ _ _ _ _ _ _) as [[[rc keep] h]|] eqn:E; [|done]. apply dispatch_ok in E; [|done].
    destruct (keep && _); [|by intros [= _ <-]]. unfold try_rearm_keepalive. by destruct (_ <=? _)%Z; intros [= _ <-].
  - destruct (send_error_response _ _ _ _ _ _ _ _) as [s1|] eqn:E; [|done]. intros [= _ <-].
    by eapply error_response_ok.
Qed.

Lemma iteration_ok recv kevent_ok now tid slot t s s' :
  handlers_ok (ws_h s) →
  worker_iteration recv kevent_ok now k fuel tid reg conf run_handler slot t s = Some s' → handlers_ok (ws_h s').
Proof.
  intros Hok. unfold worker_iteration. destruct (_ || _); [by intros [= <-]|].
  destruct (read_loop _ _ _ _ _ _) as [[[o c'] t']|]; [|done]. destruct o; [by intros [= <-]..| |].
  - destruct (send_error_response _ _ _ _ _ _ _ _) as [s2|] eqn:E; [|done]. intros [= <-].
    by eapply error_response_ok in E.
  - destruct (serve_request _ _ _ _ _ _ _ _ _ _ _) as [[close s2]|] eqn:E; [|done]. intros [= <-].
    apply serve_ok in E; [by destruct close|done].
Qed.

(** One response, of which a client reads [b]. *)
Definition answer_written (s s' : wstate HS) (b : bytes) : Prop :=
  ∃ text, carries text b ∧ wire s' = wire s ++ text.

(** The request in the buffer and the handler of its route. *)
Definition buffered_request (fd : Z) (c : connection) : option (route_handler * http_request) :=
  match parse_request_line (cstr (conn_buffer c)) with
  | Some (m, u, v) =>
      let req := make_request fd c m u v in (λ rh, (rh, req)) <$> route_match reg (req_method req) (req_url req)
  | None => None
  end.

(** ... once a worker has read it. *)
Definition iteration_request (recv : nat → nat → recv_ret) (now : nat → Z) (slot t : nat) (s : wstate HS)
    : option (route_handler * http_request) :=
  let c := cp_pool (ws_pool s) !!! slot in
  match read_loop recv now conf (Z.to_nat (max_req_size conf) + 1) t c with
  | Some (ReadDone, c', _) => buffered_request (conn_fd c) c'
  | _ => None
  end.

Lemma serve_framed kevent_ok now tid slot t fd s s' :
  handlers_ok (ws_h s) →
  (∀ rh req, buffered_request fd (cp_pool (ws_pool s) !!! slot) = Some (rh, req) → fits rh req (ws_h s)) →
  serve_request kevent_ok now k fuel tid reg run_handler slot t fd s = Some (false, s') →
  ∃ b, answer_written s s' b.
Proof.
  intros Hok Hfits. unfold buffered_request in Hfits. unfold serve_request.
  destruct (parse_request_line _) as [[[m u] v]|]; [|by destruct (send_error_response _ _ _ _ _ _ _ _)].
  destruct (dispatch_request _ _ _ _ _ _ _) as [[[rc keep] h]|] eqn:E; [|done].
  apply dispatch_framed in E as Hf; [|done|].
  2: { intros rh Hrh. apply Hfits. by rewrite Hrh. }
  destruct (keep && (rc =? 0)%Z) eqn:Ek; [|done].
  apply andb_true_iff in Ek as [-> ->%Z.eqb_eq]. destruct (Hf eq_refl eq_refl) as (text & b & Hc & Hw).
  unfold try_rearm_keepalive. destruct (_ <=? _)%Z; intros [= _ <-]; by exists b, text.
Qed.

Abbreviation served s slot := (conn_requests_served (cp_pool (ws_pool s) !!! slot)).

Lemma actions_differ (l : list action) fd fd' slot pre :
  l ++ pre ++ [KEventDelete fd; CloseFd fd] ≠ l ++ [KEventEnable fd' slot].
Proof.
  intros H%app_inv_head. apply (f_equal last) in H. by rewrite last_app in H.
Qed.

Lemma action_added (l : list action) a : l ≠ l ++ [a].
Proof. intros H%(f_equal length). rewrite length_app in H. simpl in H. lia. Qed.

(** An iteration that leaves the connection open wrote nothing and counted nothing, or wrote
    one response and counted one request. *)
Lemma iteration_framed recv kevent_ok now tid slot t s s' :
  (∀ t n d, recv t n = RecvData d → length d ≤ n) →
  pool_wf (ws_pool s) → served_ok conf (ws_pool s) → slot < MINIWEB_MAX_CONNECTIONS →
  handlers_ok (ws_h s) →
  (∀ rh req, iteration_request recv now slot t s = Some (rh, req) → fits rh req (ws_h s)) →
  worker_iteration recv kevent_ok now k fuel tid reg conf run_handler slot t s = Some s' →
  ws_actions s' = ws_actions s ++ [KEventEnable (conn_fd (cp_pool (ws_pool s) !!! slot)) slot] →
  (served s' slot = served s slot ∧ wire s' = wire s) ∨
  (served s' slot = (served s slot + 1)%Z ∧ ∃ b, answer_written s s' b).
Proof.
  intros Hrecv Hwf Hsv Hslot Hok Hfits. unfold iteration_request in Hfits. unfold worker_iteration.
  set (c := cp_pool (ws_pool s) !!! slot). set (fd := conn_fd c).
  destruct (negb _) eqn:Hfd; cbn [orb].
  { intros [= <-]. by intros ?%action_added. }
  apply negb_false_iff in Hfd. destruct (miniweb_connection_is_stale _ _ _) eqn:Hst.
  { intros [= <-]. by intros ?%action_added. }
  assert (conn_ok conf c) as Hc.
  { apply (Hsv fd slot). split; [done|]. by apply (stale_spec _ _ _ Hwf Hfd). }
  destruct (read_loop_spec recv now conf Hrecv Hmax (Z.to_nat (max_req_size conf) + 1) t c Hc)
    as (o & c' & t' & Er & Hc' & (Hid1 & Hid2 & _ & _ & Hid5) & _); [lia|].
  fold c in Hfits. rewrite Er in *. clear Er.
  destruct (set_conn_spec _ _ _ Hwf Hslot Hid1 Hid2) as (Hwf1 & Hsame & _ & _).
  set (s1 := WState (set_conn (ws_pool s) slot c') (ws_h s) (ws_actions s)).
  assert (∀ (s2 : wstate HS) pre, ws_actions s2 = ws_actions s ++ pre →
    ws_actions (close_connection fd s2) = ws_actions s ++ [KEventEnable fd slot] → False) as Hclosed.
  { intros s2 pre Hp. cbn [close_connection ws_actions]. rewrite Hp, <- app_assoc. apply actions_differ. }
  destruct o.
  - intros [= <-] _. left. cbn [ws_pool ws_h]. by rewrite Hsame.
  - intros [= <-] H. exfalso. apply (Hclosed s1 []); [by rewrite app_nil_r|done].
  - destruct (send_error_response _ _ _ _ _ _ _ _) as [s2|] eqn:E; [|done]. intros [= <-] H.
    apply send_error_response_pool in E as [_ Ha].
    exfalso. apply (Hclosed s2 []); [by rewrite Ha, app_nil_r|done].
  - destruct (serve_request _ _ _ _ _ _ _ _ _ _ _) as [[close s2]|] eqn:E; [|done]. intros [= <-] H.
    pose proof (serve_request_pool _ _ _ _ _ _ _ _ _ _ _ _ _ E) as Hpool.
    cbn [ws_pool ws_actions s1] in Hpool. rewrite Hsame in Hpool.
    destruct Hpool as [(-> & _ & Ha)|(_ & Hp & Ha)].
    { exfalso. apply (Hclosed s2 []); [by rewrite Ha, app_nil_r|done]. }
    destruct close; [exfalso; by apply (Hclosed s2 _ Ha)|]. right.
    apply serve_framed in E as (b & text & Hcar & Hw); [|done|intros rh req; unfold s1; cbn [ws_pool ws_h]; rewrite Hsame; apply Hfits]. split; [|by exists b, text].
    destruct (set_conn_spec (set_conn (ws_pool s) slot c') slot (conn_rearm c' (now t'))) as (_ & Hrearm & _);
      [done|done|by rewrite Hsame|by rewrite Hsame|].
    cbn [close_if]. rewrite Hp, Hrearm. cbn [conn_rearm conn_with conn_requests_served]. by rewrite Hid5.
Qed.

(** ** Sessions *)

(** Iterations on one connection, by any workers, each of which leaves it open. *)
Inductive session (slot : nat) : wstate HS → wstate HS → Prop :=
| session_end s : session slot s s
| session_turn s s1 s2 recv kevent_ok now tid t :
    (** recv(2) returns at most the bytes it is asked for *)
    (∀ t n d, recv t n = RecvData d → length d ≤ n) →
    (∀ rh req, iteration_request recv now slot t s = Some (rh, req) → fits rh req (ws_h s)) →
    worker_iteration recv kevent_ok now k fuel tid reg conf run_handler slot t s = Some s1 →
    ws_actions s1 = ws_actions s ++ [KEventEnable (conn_fd (cp_pool (ws_pool s) !!! slot)) slot] →
    session slot s1 s2 → session slot s s2.

(** [text] is [length bodies] responses: a client that reads one after the other has read
    [bodies] and nothing is left. *)
Fixpoint client_reads (n : nat) (text : bytes) : option (list bytes) :=
  match n with
  | 0 => if length text =? 0 then Some [] else None
  | S n => '(b, rest) ← client_read text; cons b <$> client_reads n rest
  end.

Lemma client_reads_carries text b n rest bodies :
  carries text b → client_reads n rest = Some bodies → client_reads (S n) (text ++ rest) = Some (b :: bodies).
Proof. intros Hc Hn. cbn [client_reads]. rewrite Hc. cbn. by rewrite Hn. Qed.

Theorem session_answers slot s s' :
  pool_wf (ws_pool s) → served_ok conf (ws_pool s) → slot < MINIWEB_MAX_CONNECTIONS →
  handlers_ok (ws_h s) → session slot s s' →
  ∃ text bodies, wire s' = wire s ++ text ∧ client_reads (length bodies) text = Some bodies ∧
    served s' slot = (served s slot + Z.of_nat (length bodies))%Z.
Proof.
  intros Hwf Hsv Hslot Hok Hs. induction Hs as [s|s s1 s2 recv kev now tid t Hrecv Hfits Hit Hopen _ IH].
  { exists [], []. rewrite app_nil_r. split_and!; [done|done|simpl; lia]. }
  pose proof (worker_iteration_spec _ _ _ _ _ _ _ _ _ Hrecv Hmax _ _ _ _ Hwf Hsv Hslot Hit)
    as (Hwf1 & Hsv1 & _).
  pose proof (iteration_ok _ _ _ _ _ _ _ _ Hok Hit) as Hok1.
  apply iteration_framed in Hit as Hturn; [|done..].
  destruct (IH Hwf1 Hsv1 Hok1) as (text & bodies & Hw & Hr & Hn).
  destruct Hturn as [[Hn1 Hw1]|(Hn1 & b & t1 & Hc & Hw1)].
  - exists text, bodies. rewrite <- Hw1, <- Hn1. done.
  - exists (t1 ++ text), (b :: bodies). split_and!; [by rewrite Hw, Hw1, <- app_assoc| |cbn [length]; lia].
    by apply client_reads_carries.
Qed.

(** ** The server *)

Section server.
Context {Q : Type} `{!BoundedFifo nat Q MINIWEB_QUEUE_CAPACITY}.
Context (O_NONBLOCK : Z) (fcntl_getfl : Z → Z).

Abbreviation step := (sys_step (Q := Q) O_NONBLOCK fcntl_getfl k fuel reg conf run_handler).
Abbreviation hstate_of s := (ws_h (sv_w (sy_server s))).

Lemma accept_one_ok tid fd addr now kevent_ok w w' :
  handlers_ok (ws_h w) →
  accept_one O_NONBLOCK fcntl_getfl k fuel tid reg conf fd addr now kevent_ok w = Some w' → handlers_ok (ws_h w').
Proof.
  intros Hok. unfold accept_one. destruct (miniweb_connection_alloc _ _ _ _ _) as [[slot|] p].
  - intros [= <-]. by destruct kevent_ok.
  - destruct (send_error_response _ _ _ _ _ _ _ _) as [w1|] eqn:E; [|done]. intros [= <-].
    by eapply error_response_ok in E.
Qed.

Lemma dispatch_conn_handlers fd udata e (sv : server Q HS) :
  ws_h (sv_w (dispatch_conn fd udata e sv)) = ws_h (sv_w sv).
Proof.
  unfold dispatch_conn, enqueue_conn. destruct (_ || _); [done|]. destruct e; [done|]. destruct udata as [slot|]; [|done].
  destruct (bf_step _ _) as [[rc| |] q]; [|done..]. by destruct (rc <? 0)%Z.
Qed.

Lemma step_handlers_ok s s' : handlers_ok (hstate_of s) → step s s' → handlers_ok (hstate_of s').
Proof.
  intros Hok Hstep. destruct Hstep as [s tn evs| | |s accepts| |s ev todo tid sv Htodo Hev Hd|
    s slot q|s recv kevent_ok now tid slot t busy1 busy2 w _ _ Hw|]; try done.
  - cbn [sy_server]. by destruct (1 <=? _)%Z.
  - by eapply accept_one_ok.
  - cbn [set_server sy_server]. destruct ev as [|accepts|fd udata e]; [by injection Hd as <-|done|].
    injection Hd as <-. by rewrite dispatch_conn_handlers.
  - by eapply iteration_ok.
Qed.

(** In every state of the server the handlers have what they keep. *)
Lemma reachable_handlers_ok now h s :
  handlers_ok h → rtc step (sys_init now h) s → handlers_ok (hstate_of s).
Proof.
  intros Hok Hr. assert (handlers_ok (hstate_of (sys_init (Q := Q) now h))) as H0 by done.
  induction Hr; [done|]. eauto using step_handlers_ok.
Qed.

(** From there, what a client reads while its connection stays open. *)
Theorem reachable_session_answers now h s slot w' :
  handlers_ok h → rtc step (sys_init now h) s → slot < MINIWEB_MAX_CONNECTIONS →
  session slot (sv_w (sy_server s)) w' →
  ∃ text bodies, wire w' = wire (sv_w (sy_server s)) ++ text ∧
    client_reads (length bodies) text = Some bodies ∧
    served w' slot = (served (sv_w (sy_server s)) slot + Z.of_nat (length bodies))%Z.
Proof.
  intros Hok Hr Hslot. pose proof (reachable_handlers_ok _ _ _ Hok Hr) as Hh.
  eapply sys_reachable_ok in Hr; [|done|done|apply Hok].
  apply session_answers; [apply Hr|apply Hr|done|done].
Qed.
End server.
End session.
