(* ===== verification/Heartbeat.v ===== *)
(** * The heartbeat scheduler (src/core/heartbeat.c, heartbeat_schedule.c,
      heartbeat_dispatch.c)

    A table of [HB_MAX_TASKS] periodic tasks under one mutex and a thread that runs the
    tasks that are due.  Every API call is one critical section; the thread's loop is cut
    where it drops the mutex, so [thread_step] makes one critical section or one batch of
    callbacks per step and the API calls of other threads come in between.  A callback is
    the address it is called by.  Names are pointers the table keeps: they stand for the
    string, which the callers never change.  Times are [time_t] far from overflow, the
    counters are [uint64_t]. *)

From S2P Require Import Prelude.
From stdpp Require Import gmap fin_maps.

(** ** Data *)

Definition HB_MAX_TASKS : nat := 32.
Definition HB_IDLE_WAIT_SEC : Z := 3600.

Record hb_task := HbTask {
  ht_name : option bytes;
  ht_period_sec : Z;
  ht_initial_delay_sec : Z;
  ht_cb : option Z;
  ht_ctx : Z;
}.

Record hb_task_stats := HbTaskStats { runs : Z; overruns : Z; last_run : Z; last_error : Z }.

Record hb_slot := HbSlot {
  sl_task : hb_task;
  sl_next_run : Z;
  sl_stats : hb_task_stats;
  sl_active : bool;
}.

Definition zero_task : hb_task :=
  {| ht_name := None; ht_period_sec := 0; ht_initial_delay_sec := 0; ht_cb := None; ht_ctx := 0 |}.
Definition zero_stats : hb_task_stats :=
  {| runs := 0; overruns := 0; last_run := 0; last_error := 0 |}.
Definition zero_slot : hb_slot :=
  {| sl_task := zero_task; sl_next_run := 0; sl_stats := zero_stats; sl_active := false |}.

Record hb := Hb {
  hb_slots : list hb_slot;
  hb_initialized : bool;
  hb_running : bool;
  hb_stop_requested : bool;
  hb_drain_on_stop : bool;
}.

(** Static storage is zero. *)
Definition hb_static : hb :=
  {| hb_slots := replicate HB_MAX_TASKS zero_slot; hb_initialized := false;
     hb_running := false; hb_stop_requested := false; hb_drain_on_stop := false |}.

Definition with_slots (slots : list hb_slot) (g : hb) : hb :=
  {| hb_slots := slots; hb_initialized := hb_initialized g; hb_running := hb_running g;
     hb_stop_requested := hb_stop_requested g; hb_drain_on_stop := hb_drain_on_stop g |}.

Definition with_flags (running stop drain : bool) (g : hb) : hb :=
  {| hb_slots := hb_slots g; hb_initialized := hb_initialized g; hb_running := running;
     hb_stop_requested := stop; hb_drain_on_stop := drain |}.

Inductive hb_register_result := HB_REGISTER_ERROR | HB_REGISTER_DUPLICATE | HB_REGISTER_INSERTED.

(** ** The table *)

Definition heartbeat_init (g : hb) : hb :=
  if hb_initialized g then g
  else {| hb_slots := replicate HB_MAX_TASKS zero_slot; hb_initialized := true;
          hb_running := hb_running g; hb_stop_requested := hb_stop_requested g;
          hb_drain_on_stop := hb_drain_on_stop g |}.

(** [strcmp(g_hb_slots[i].task.name, name) == 0] on an active slot. *)
Definition slot_named (name : bytes) (s : hb_slot) : bool :=
  sl_active s && match ht_name (sl_task s) with Some n => streq n name | None => false end.

(** The index of the first slot that passes the test. *)
Fixpoint find_slot (f : hb_slot → bool) (slots : list hb_slot) : option nat :=
  match slots with
  | [] => None
  | s :: slots' => if f s then Some 0 else option_map S (find_slot f slots')
  end.

Definition heartbeat_register (task : option hb_task) (now : Z) (g : hb)
    : hb_register_result * hb :=
  match task with
  | None => (HB_REGISTER_ERROR, g)
  | Some t =>
      match ht_name t, ht_cb t with
      | Some name, Some _ =>
          if (ht_period_sec t =? 0)%Z then (HB_REGISTER_ERROR, g)
          else
            let g := heartbeat_init g in
            match find_slot (slot_named name) (hb_slots g) with
            | Some _ => (HB_REGISTER_DUPLICATE, g)
            | None =>
                match find_slot (λ s, negb (sl_active s)) (hb_slots g) with
                | Some i =>
                    let s := {| sl_task := t; sl_next_run := now + ht_initial_delay_sec t;
                                sl_stats := zero_stats; sl_active := true |} in
                    (HB_REGISTER_INSERTED, with_slots (<[i := s]> (hb_slots g)) g)
                | None => (HB_REGISTER_ERROR, g)
                end
            end
      | _, _ => (HB_REGISTER_ERROR, g)
      end
  end.

Definition heartbeat_unregister (name : option bytes) (g : hb) : Z * hb :=
  match name with
  | None => ((-1)%Z, g)
  | Some name =>
      let g := heartbeat_init g in
      match find_slot (slot_named name) (hb_slots g) with
      | Some i => (0%Z, with_slots (<[i := zero_slot]> (hb_slots g)) g)
      | None => ((-1)%Z, g)
      end
  end.

(** A slot rescheduled by [heartbeat_update]. *)
Definition reschedule (period_sec initial_delay_sec ctx now : Z) (s : hb_slot) : hb_slot :=
  {| sl_task := {| ht_name := ht_name (sl_task s); ht_period_sec := period_sec;
                   ht_initial_delay_sec := initial_delay_sec; ht_cb := ht_cb (sl_task s);
                   ht_ctx := ctx |};
     sl_next_run := now + initial_delay_sec; sl_stats := sl_stats s;
     sl_active := sl_active s |}.

Definition heartbeat_update (name : option bytes) (period_sec initial_delay_sec ctx now : Z)
    (g : hb) : Z * hb :=
  match name with
  | None => ((-1)%Z, g)
  | Some name =>
      if (period_sec =? 0)%Z then ((-1)%Z, g)
      else
        let g := heartbeat_init g in
        match find_slot (slot_named name) (hb_slots g) with
        | Some i =>
            (0%Z, with_slots (alter (reschedule period_sec initial_delay_sec ctx now) i
                                (hb_slots g)) g)
        | None => ((-1)%Z, g)
        end
  end.

(** [*stats_out] is written when the result is 0; [stats_ok] says whether it is not NULL. *)
Definition heartbeat_get_stats (name : option bytes) (stats_ok : bool) (g : hb)
    : Z * option hb_task_stats * hb :=
  match name with
  | Some name =>
      if negb stats_ok then ((-1)%Z, None, g)
      else
        let g := heartbeat_init g in
        match find_slot (slot_named name) (hb_slots g) with
        | Some i =>
            (0%Z, option_map sl_stats (hb_slots g !! i), g)
        | None => ((-1)%Z, None, g)
        end
  | None => ((-1)%Z, None, g)
  end.

(** ** Batches *)

Definition hb_batch_push (batch : list hb_task) (t : hb_task) : list hb_task :=
  if HB_MAX_TASKS <=? length batch then batch else batch ++ [t].

(** The callbacks a batch calls, with their arguments. *)
Definition hb_batch_run (batch : list hb_task) : list (option Z * Z) :=
  (λ t, (ht_cb t, ht_ctx t)) <$> batch.

Definition time_of_u64 (x : Z) : Z := if (x <? 2 ^ 63)%Z then x else (x - 2 ^ 64)%Z.

(** The periods a due task has skipped. *)
Definition missed_periods (now : Z) (s : hb_slot) : Z :=
  let period := ht_period_sec (sl_task s) in
  let elapsed := (now - sl_next_run s)%Z in
  if (0 <? period)%Z && (0 <? elapsed)%Z then wrap64 (Z.quot elapsed period) else 0%Z.

(** The slot of a task that is being run. *)
Definition run_slot (now : Z) (s : hb_slot) : hb_slot :=
  let missed := missed_periods now s in
  {| sl_task := sl_task s;
     sl_next_run := sl_next_run s +
       time_of_u64 (wrap64 (wrap64 (missed + 1) * ht_period_sec (sl_task s)));
     sl_stats := {| runs := wrap64 (runs (sl_stats s) + 1);
                    overruns := wrap64 (overruns (sl_stats s) + missed);
                    last_run := now; last_error := 0 |};
     sl_active := sl_active s |}.

Fixpoint hb_collect_due_tasks (now : Z) (slots : list hb_slot) (wake_at : Z)
    (todo : list hb_task) : list hb_slot * Z * list hb_task :=
  match slots with
  | [] => ([], wake_at, todo)
  | s :: slots' =>
      if negb (sl_active s) then
        let '(r, w, b) := hb_collect_due_tasks now slots' wake_at todo in (s :: r, w, b)
      else
        let wake_at :=
          if (wake_at =? 0)%Z || (sl_next_run s <? wake_at)%Z then sl_next_run s else wake_at in
        if (now <? sl_next_run s)%Z then
          let '(r, w, b) := hb_collect_due_tasks now slots' wake_at todo in (s :: r, w, b)
        else
          let '(r, w, b) :=
            hb_collect_due_tasks now slots' wake_at (hb_batch_push todo (sl_task s)) in
          (run_slot now s :: r, w, b)
  end.

Definition drain_slot (now : Z) (s : hb_slot) : hb_slot :=
  {| sl_task := sl_task s; sl_next_run := sl_next_run s;
     sl_stats := {| runs := wrap64 (runs (sl_stats s) + 1); overruns := overruns (sl_stats s);
                    last_run := now; last_error := 0 |};
     sl_active := sl_active s |}.

Fixpoint hb_collect_all_active (now : Z) (slots : list hb_slot) (todo : list hb_task)
    : list hb_slot * list hb_task :=
  match slots with
  | [] => ([], todo)
  | s :: slots' =>
      if negb (sl_active s) then
        let '(r, b) := hb_collect_all_active now slots' todo in (s :: r, b)
      else
        let '(r, b) := hb_collect_all_active now slots' (hb_batch_push todo (sl_task s)) in
        (drain_slot now s :: r, b)
  end.

Definition hb_mark_stopped (g : hb) : hb := with_flags false false false g.

(** The seconds [pthread_cond_timedwait] waits at most. *)
Definition hb_wait_for_next_tick (now wake_at : Z) : Z :=
  if negb (wake_at =? 0)%Z && (now <? wake_at)%Z then wake_at - now
  else if (wake_at =? 0)%Z then HB_IDLE_WAIT_SEC
  else 0.

(** ** The thread *)

(** Where the thread is: at the top of the loop, holding a batch with what it read of the
    flags, between the batch and the drain, holding the final batch, before
    [hb_mark_stopped], gone. *)
Inductive pc :=
| PcTop
| PcBatch (todo : list hb_task) (should_stop drain : bool)
| PcDrain
| PcFinal (todo : list hb_task)
| PcMark
| PcGone.

(** One critical section or one batch at time [now]: the callbacks made, the wait asked
    for. *)
Definition thread_step (now : Z) (c : pc) (g : hb)
    : pc * list (option Z * Z) * option Z * hb :=
  match c with
  | PcTop =>
      let '(slots, wake_at, todo) := hb_collect_due_tasks now (hb_slots g) 0 [] in
      let g := with_slots slots g in
      let should_stop := hb_stop_requested g in
      let drain := hb_drain_on_stop g in
      if (length todo =? 0) && negb should_stop
      then (PcTop, [], Some (hb_wait_for_next_tick now wake_at), g)
      else (PcBatch todo should_stop drain, [], None, g)
  | PcBatch todo should_stop drain =>
      (if should_stop then (if drain then PcDrain else PcMark) else PcTop,
       hb_batch_run todo, None, g)
  | PcDrain =>
      let '(slots, final) := hb_collect_all_active now (hb_slots g) [] in
      (PcFinal final, [], None, with_slots slots g)
  | PcFinal final => (PcMark, hb_batch_run final, None, g)
  | PcMark => (PcGone, [], None, hb_mark_stopped g)
  | PcGone => (PcGone, [], None, g)
  end.

(** The result is the return value and whether a thread was created. *)
Definition heartbeat_start (create_ok : bool) (g : hb) : Z * bool * hb :=
  let g := heartbeat_init g in
  if hb_running g then (0%Z, false, g)
  else
    let g := with_flags (hb_running g) false false g in
    if negb create_ok then ((-1)%Z, false, g) else (0%Z, true, with_flags true false false g).

(** Up to [pthread_join]; the flag says whether the caller goes on to join. *)
Definition heartbeat_shutdown (drain : bool) (g : hb) : bool * hb :=
  let g := heartbeat_init g in
  if hb_running g then (true, with_flags true true drain g) else (false, g).

Definition heartbeat_stop (g : hb) : bool * hb := heartbeat_shutdown false g.

(** ** The table as a finite map

    The contract of the table: a finite map from names to slots with room for
    [HB_MAX_TASKS] tasks. *)

Abbreviation table := (gmap bytes hb_slot).

Inductive hb_op :=
| OpRegister (task : option hb_task) (now : Z)
| OpUnregister (name : option bytes)
| OpUpdate (name : option bytes) (period_sec initial_delay_sec ctx now : Z)
| OpGetStats (name : option bytes) (stats_ok : bool)
| OpCollectDue (now : Z)
| OpCollectAll (now : Z).

Inductive hb_obs :=
| ObsRegister (r : hb_register_result)
| ObsRc (rc : Z)
| ObsStats (rc : Z) (stats : option hb_task_stats)
| ObsNone.

Definition hb_step (g : hb) (op : hb_op) : hb_obs * hb :=
  match op with
  | OpRegister task now =>
      let '(r, g) := heartbeat_register task now g in (ObsRegister r, g)
  | OpUnregister name => let '(rc, g) := heartbeat_unregister name g in (ObsRc rc, g)
  | OpUpdate name p d ctx now =>
      let '(rc, g) := heartbeat_update name p d ctx now g in (ObsRc rc, g)
  | OpGetStats name stats_ok =>
      let '(rc, st, g) := heartbeat_get_stats name stats_ok g in (ObsStats rc st, g)
  | OpCollectDue now =>
      let '(slots, _, _) := hb_collect_due_tasks now (hb_slots g) 0 [] in
      (ObsNone, with_slots slots g)
  | OpCollectAll now =>
      let '(slots, _) := hb_collect_all_active now (hb_slots g) [] in
      (ObsNone, with_slots slots g)
  end.

Definition new_slot (t : hb_task) (now : Z) : hb_slot :=
  {| sl_task := t; sl_next_run := now + ht_initial_delay_sec t; sl_stats := zero_stats;
     sl_active := true |}.

(** A task is run when its time has come. *)
Definition run_due (now : Z) (s : hb_slot) : hb_slot :=
  if (sl_next_run s <=? now)%Z then run_slot now s else s.

Definition table_step (m : table) (op : hb_op) : hb_obs * table :=
  match op with
  | OpRegister (Some t) now =>
      match ht_name t, ht_cb t with
      | Some name, Some _ =>
          if (ht_period_sec t =? 0)%Z then (ObsRegister HB_REGISTER_ERROR, m)
          else if decide (is_Some (m !! name)) then (ObsRegister HB_REGISTER_DUPLICATE, m)
          else if size m <? HB_MAX_TASKS
          then (ObsRegister HB_REGISTER_INSERTED, <[name := new_slot t now]> m)
          else (ObsRegister HB_REGISTER_ERROR, m)
      | _, _ => (ObsRegister HB_REGISTER_ERROR, m)
      end
  | OpRegister None _ => (ObsRegister HB_REGISTER_ERROR, m)
  | OpUnregister (Some name) =>
      if decide (is_Some (m !! name)) then (ObsRc 0, delete name m) else (ObsRc (-1), m)
  | OpUnregister None => (ObsRc (-1), m)
  | OpUpdate (Some name) p d ctx now =>
      match m !! name with
      | Some s => if (p =? 0)%Z then (ObsRc (-1), m)
                  else (ObsRc 0, <[name := reschedule p d ctx now s]> m)
      | None => (ObsRc (-1), m)
      end
  | OpUpdate None _ _ _ _ => (ObsRc (-1), m)
  | OpGetStats (Some name) stats_ok =>
      match m !! name with
      | Some s => if stats_ok then (ObsStats 0 (Some (sl_stats s)), m)
                  else (ObsStats (-1) None, m)
      | None => (ObsStats (-1) None, m)
      end
  | OpGetStats None _ => (ObsStats (-1) None, m)
  | OpCollectDue now => (ObsNone, run_due now <$> m)
  | OpCollectAll now => (ObsNone, drain_slot now <$> m)
  end.

Definition slot_entry (s : hb_slot) : option (bytes * hb_slot) :=
  if sl_active s then option_map (λ n, (n, s)) (ht_name (sl_task s)) else None.

Definition entries (slots : list hb_slot) : list (bytes * hb_slot) := omap slot_entry slots.

Definition table_of (slots : list hb_slot) : table := list_to_map (entries slots).

(** What a registered task looks like. *)
Definition task_ok (t : hb_task) : Prop :=
  ht_name t ≠ None ∧ ht_cb t ≠ None ∧ ht_period_sec t ≠ 0%Z.

Record slots_wf (slots : list hb_slot) : Prop := {
  sw_length : length slots = HB_MAX_TASKS;
  sw_nodup : NoDup (entries slots).*1;
  sw_task : Forall (λ s, sl_active s = true → task_ok (sl_task s)) slots;
}.

(** Before [heartbeat_init] the table is empty. *)
Record hb_wf (g : hb) : Prop := {
  hw_slots : slots_wf (hb_slots g);
  hw_init : hb_initialized g = false → hb_slots g = replicate HB_MAX_TASKS zero_slot;
}.

Lemma slot_entry_Some s n s' :
  slot_entry s = Some (n, s') ↔ s' = s ∧ sl_active s = true ∧ ht_name (sl_task s) = Some n.
Proof.
  unfold slot_entry. destruct (sl_active s), (ht_name (sl_task s)); simpl; naive_solver.
Qed.

Lemma find_slot_spec f slots :
  match find_slot f slots with
  | Some i => ∃ s, slots !! i = Some s ∧ f s = true
  | None => Forall (λ s, f s = false) slots
  end.
Proof.
  induction slots as [|s slots IH]; simpl; [by constructor|].
  destruct (f s) eqn:E; [by exists s|].
  destruct (find_slot f slots); simpl; [done|]. by constructor.
Qed.

Lemma length_entries slots : length (entries slots) ≤ length slots.
Proof.
  unfold entries. induction slots as [|s slots IH]; [done|]. cbn [omap list_omap length].
  destruct (slot_entry s); simpl; lia.
Qed.

(** Replacing a slot replaces its entry. *)
Lemma entries_insert slots i old new :
  slots !! i = Some old →
  ∃ rest, entries slots ≡ₚ option_list (slot_entry old) ++ rest ∧
    entries (<[i := new]> slots) ≡ₚ option_list (slot_entry new) ++ rest.
Proof.
  intros Hi. exists (entries (take i slots ++ drop (S i) slots)). unfold entries.
  rewrite <- (take_drop_middle slots i old Hi) at 1.
  rewrite (insert_take_drop slots i new) by (by eapply lookup_lt_Some).
  rewrite !omap_app. cbn [omap list_omap].
  split; [destruct (slot_entry old)|destruct (slot_entry new)]; simpl;
    [by rewrite Permutation_middle|done|by rewrite Permutation_middle|done].
Qed.

Lemma size_table_of slots : slots_wf slots → size (table_of slots) = length (entries slots).
Proof. intros Hwf. apply map_size_list_to_map, Hwf. Qed.

Lemma named_entry slots i s n :
  slots_wf slots → slots !! i = Some s → slot_named n s = true →
  slot_entry s = Some (n, s) ∧ table_of slots !! n = Some s.
Proof.
  intros Hwf Hi Hn. unfold slot_named in Hn. apply andb_true_iff in Hn as [Ha Hn].
  destruct (ht_name (sl_task s)) as [n'|] eqn:E; [|done]. apply streq_true in Hn as ->.
  assert (slot_entry s = Some (n, s)) as He by by apply slot_entry_Some.
  split; [done|]. apply elem_of_list_to_map; [apply Hwf|].
  unfold entries. apply list_elem_of_omap. exists s. split; [|done].
  by eapply list_elem_of_lookup_2.
Qed.

Lemma find_named slots n :
  slots_wf slots →
  match find_slot (slot_named n) slots with
  | Some i => ∃ s, slots !! i = Some s ∧ slot_entry s = Some (n, s) ∧ table_of slots !! n = Some s
  | None => table_of slots !! n = None
  end.
Proof.
  intros Hwf. pose proof (find_slot_spec (slot_named n) slots) as H.
  destruct (find_slot _ _) as [i|].
  - destruct H as (s & Hi & Hn). exists s. split; [done|]. by eapply named_entry.
  - apply not_elem_of_list_to_map. intros Hin. apply list_elem_of_fmap in Hin as ([n' s] & -> & Hin).
    apply list_elem_of_omap in Hin as (s0 & Hs0 & He). apply slot_entry_Some in He as (-> & Ha & Hn).
    rewrite Forall_forall in H. specialize (H _ Hs0). unfold slot_named in H.
    rewrite Ha, Hn in H. simpl in H. by rewrite streq_refl in H.
Qed.

Lemma find_free slots :
  slots_wf slots →
  match find_slot (λ s, negb (sl_active s)) slots with
  | Some i => ∃ s, slots !! i = Some s ∧ slot_entry s = None ∧
                   size (table_of slots) < HB_MAX_TASKS
  | None => size (table_of slots) = HB_MAX_TASKS
  end.
Proof.
  intros Hwf. pose proof (find_slot_spec (λ s, negb (sl_active s)) slots) as H.
  destruct (find_slot _ _) as [i|].
  - destruct H as (s & Hi & Hn). apply negb_true_iff in Hn.
    assert (slot_entry s = None) as He by (unfold slot_entry; by rewrite Hn).
    exists s. split; [done|]. split; [done|]. rewrite size_table_of by done.
    rewrite <- (sw_length _ Hwf), <- (take_drop_middle slots i s Hi).
    unfold entries. rewrite omap_app, !length_app. cbn [omap list_omap]. rewrite He.
    pose proof (length_entries (take i slots)). pose proof (length_entries (drop (S i) slots)).
    unfold entries in *. cbn [length]. lia.
  - rewrite size_table_of by done. rewrite <- (sw_length _ Hwf). unfold entries.
    pose proof (sw_task _ Hwf) as Ht. clear Hwf.
    induction slots as [|s slots IH]; [done|]. apply Forall_cons in H as [Hs H].
    apply Forall_cons in Ht as [Ht Hts]. apply negb_false_iff in Hs.
    destruct (Ht Hs) as [Hn _]. cbn [omap list_omap]. unfold slot_entry at 1. rewrite Hs.
    destruct (ht_name (sl_task s)); [|done]. simpl. by rewrite IH.
Qed.

Lemma table_of_perm slots l :
  slots_wf slots → entries slots ≡ₚ l → NoDup l.*1 ∧ table_of slots = list_to_map l.
Proof.
  intros Hwf Hp. split; [rewrite <- Hp; apply Hwf|]. apply list_to_map_proper; [apply Hwf|done].
Qed.

Lemma put_slot slots i old new n :
  slots_wf slots → slots !! i = Some old → slot_entry new = Some (n, new) → task_ok (sl_task new) →
  (slot_entry old = Some (n, old) ∨ slot_entry old = None ∧ table_of slots !! n = None) →
  slots_wf (<[i := new]> slots) ∧ table_of (<[i := new]> slots) = <[n := new]> (table_of slots).
Proof.
  intros Hwf Hi Hnew Hok Hold. destruct (entries_insert slots i old new Hi) as (rest & Hp & Hp').
  destruct (table_of_perm _ _ Hwf Hp) as [Hnd Ht]. rewrite Hnew in Hp'. simpl in Hp'.
  assert (n ∉ rest.*1 ∧ NoDup rest.*1 ∧ <[n := new]> (table_of slots) = <[n := new]> (list_to_map rest))
    as (Hn & Hndr & Hm).
  { destruct Hold as [Ho|[Ho Hnone]]; rewrite Ho in *; simpl in *.
    - apply NoDup_cons in Hnd as [? ?]. split_and!; [done|done|]. by rewrite Ht, insert_insert_eq.
    - split_and!; [|done|by rewrite Ht]. rewrite Ht in Hnone. by apply not_elem_of_list_to_map_2 in Hnone. }
  assert (NoDup (entries (<[i := new]> slots)).*1) as Hnd'.
  { rewrite Hp'. simpl. by apply NoDup_cons. }
  split.
  - split; [by rewrite length_insert, (sw_length _ Hwf)|done|].
    apply Forall_insert; [apply Hwf|done].
  - rewrite Hm. unfold table_of. by rewrite (list_to_map_proper _ _ Hnd' Hp').
Qed.

Lemma drop_slot slots i old n :
  slots_wf slots → slots !! i = Some old → slot_entry old = Some (n, old) →
  slots_wf (<[i := zero_slot]> slots) ∧
  table_of (<[i := zero_slot]> slots) = delete n (table_of slots).
Proof.
  intros Hwf Hi Hold. destruct (entries_insert slots i old zero_slot Hi) as (rest & Hp & Hp').
  destruct (table_of_perm _ _ Hwf Hp) as [Hnd Ht]. rewrite Hold in *. simpl in *.
  apply NoDup_cons in Hnd as [Hn Hnd].
  assert (NoDup (entries (<[i := zero_slot]> slots)).*1) as Hnd' by by rewrite Hp'.
  split.
  - split; [by rewrite length_insert, (sw_length _ Hwf)|done|].
    apply Forall_insert; [apply Hwf|done].
  - rewrite Ht, delete_insert_eq. unfold table_of. rewrite (list_to_map_proper _ _ Hnd' Hp').
    symmetry. apply delete_id. by apply not_elem_of_list_to_map.
Qed.

(** Updating every active slot in a way that keeps its task. *)
Lemma map_slots slots f :
  slots_wf slots → (∀ s, sl_task (f s) = sl_task s ∧ sl_active (f s) = sl_active s) →
  let slots' := (λ s, if sl_active s then f s else s) <$> slots in
  slots_wf slots' ∧ table_of slots' = f <$> table_of slots.
Proof.
  intros Hwf Hf slots'.
  assert (entries slots' = prod_map id f <$> entries slots) as He.
  { assert (∀ s, slot_entry (if sl_active s then f s else s) = prod_map id f <$> slot_entry s) as Hs.
    { intros s. unfold slot_entry. destruct (sl_active s) eqn:Ha; [|by rewrite Ha].
      destruct (Hf s) as [Ht ->]. rewrite Ha, Ht. by destruct (ht_name (sl_task s)). }
    unfold slots', entries. clear -Hs. induction slots as [|s slots IH]; [done|].
    cbn [fmap list_fmap omap list_omap]. rewrite Hs. destruct (slot_entry s); simpl; [|exact IH].
    f_equal. exact IH. }
  split.
  - split; [unfold slots'; by rewrite length_fmap, (sw_length _ Hwf)| |].
    + rewrite He, <- list_fmap_compose. apply Hwf.
    + unfold slots'. apply Forall_fmap. eapply Forall_impl; [apply Hwf|]. intros s Hs. simpl.
      destruct (sl_active s) eqn:Ha; [|by rewrite Ha]. intros _. destruct (Hf s) as [-> _]. auto.
  - unfold table_of. rewrite He. apply list_to_map_fmap.
Qed.

(** ** Collecting *)

Definition is_due (now : Z) (s : hb_slot) : bool := sl_active s && (sl_next_run s <=? now)%Z.

Lemma collect_due_eq now slots wake todo :
  length todo + length slots ≤ HB_MAX_TASKS →
  ∃ wake', hb_collect_due_tasks now slots wake todo =
    ((λ s, if sl_active s then run_due now s else s) <$> slots, wake',
     todo ++ (sl_task <$> List.filter (is_due now) slots)).
Proof.
  revert wake todo. induction slots as [|s slots IH]; intros wake todo Hl; simpl in *.
  { eexists. by rewrite app_nil_r. }
  unfold is_due at 1, run_due at 1. destruct (sl_active s); cbn [negb andb]; last first.
  { destruct (IH wake todo ltac:(lia)) as [w ->]. by exists w. }
  destruct (Z.ltb_spec now (sl_next_run s)), (Z.leb_spec (sl_next_run s) now); try lia.
  - edestruct IH as [w ->]; [|by exists w]. lia.
  - unfold hb_batch_push. destruct (Nat.leb_spec HB_MAX_TASKS (length todo)); [lia|].
    edestruct IH as [w ->]; [rewrite length_app; simpl; lia|].
    exists w. rewrite <- app_assoc. done.
Qed.

Lemma collect_all_eq now slots todo :
  length todo + length slots ≤ HB_MAX_TASKS →
  hb_collect_all_active now slots todo =
    ((λ s, if sl_active s then drain_slot now s else s) <$> slots,
     todo ++ (sl_task <$> List.filter sl_active slots)).
Proof.
  revert todo. induction slots as [|s slots IH]; intros todo Hl; simpl in *.
  { by rewrite app_nil_r. }
  destruct (sl_active s); cbn [negb].
  - unfold hb_batch_push. destruct (Nat.leb_spec HB_MAX_TASKS (length todo)); [lia|].
    rewrite IH by (rewrite length_app; simpl; lia). by rewrite <- app_assoc.
  - by rewrite IH by lia.
Qed.

(** ** The refinement *)

Definition hb_rel (g : hb) (m : table) : Prop := hb_wf g ∧ table_of (hb_slots g) = m.

Lemma zero_slots_wf : slots_wf (replicate HB_MAX_TASKS zero_slot).
Proof.
  split; [apply length_replicate|exact (NoDup_nil_2)|]. apply Forall_replicate. done.
Qed.

Lemma hb_static_rel : hb_rel hb_static ∅.
Proof. split; [|done]. split; [apply zero_slots_wf|done]. Qed.

Lemma init_rel g m :
  hb_rel g m → hb_rel (heartbeat_init g) m ∧ hb_initialized (heartbeat_init g) = true.
Proof.
  intros [[Hs Hi] Hm]. unfold heartbeat_init. destruct (hb_initialized g) eqn:E.
  - split; [|done]. split; [|done]. split; [done|congruence].
  - split; [|done]. split; [|rewrite <- Hm, (Hi eq_refl); done]. split; [apply zero_slots_wf|done].
Qed.

Lemma with_slots_rel g slots m :
  hb_initialized g = true → slots_wf slots → table_of slots = m → hb_rel (with_slots slots g) m.
Proof. intros Hi Hwf Hm. split; [|done]. split; simpl; [done|congruence]. Qed.

Lemma register_rel g m task now :
  hb_rel g m →
  let '(r, g') := heartbeat_register task now g in
  (table_step m (OpRegister task now)).1 = ObsRegister r ∧
  hb_rel g' (table_step m (OpRegister task now)).2.
Proof.
  intros Hrel. unfold heartbeat_register, table_step. destruct task as [t|]; [|done].
  destruct (ht_name t) as [name|] eqn:Hname; [|done]. destruct (ht_cb t) eqn:Hcb; [|done].
  destruct (Z.eqb_spec (ht_period_sec t) 0) as [|Hp]; [done|].
  destruct (init_rel _ _ Hrel) as [[Hwf Hm] Hinit]. set (g1 := heartbeat_init g) in *. subst m.
  pose proof (find_named _ name (hw_slots _ Hwf)) as Hn.
  destruct (find_slot (slot_named name) (hb_slots g1)) as [i|].
  { destruct Hn as (s & _ & _ & Hs). case_decide as Hd; [done|]. rewrite Hs in Hd. by destruct Hd. }
  case_decide as Hd; [rewrite Hn in Hd; by destruct Hd|].
  pose proof (find_free _ (hw_slots _ Hwf)) as Hf.
  destruct (find_slot (λ s, negb (sl_active s)) (hb_slots g1)) as [i|]; last first.
  { destruct (Nat.ltb_spec (size (table_of (hb_slots g1))) HB_MAX_TASKS); [lia|done]. }
  destruct Hf as (s & Hi & He & Hsize).
  destruct (Nat.ltb_spec (size (table_of (hb_slots g1))) HB_MAX_TASKS); [|lia].
  split; [done|].
  destruct (put_slot _ i s (new_slot t now) name (hw_slots _ Hwf) Hi) as [Hwf' Ht'].
  - by apply slot_entry_Some.
  - split_and!; simpl; [congruence|congruence|done].
  - by right.
  - by apply with_slots_rel.
Qed.

Lemma unregister_rel g m name :
  hb_rel g m →
  let '(rc, g') := heartbeat_unregister name g in
  (table_step m (OpUnregister name)).1 = ObsRc rc ∧
  hb_rel g' (table_step m (OpUnregister name)).2.
Proof.
  intros Hrel. unfold heartbeat_unregister, table_step. destruct name as [name|]; [|done].
  destruct (init_rel _ _ Hrel) as [[Hwf Hm] Hinit]. set (g1 := heartbeat_init g) in *. subst m.
  pose proof (find_named _ name (hw_slots _ Hwf)) as Hn.
  destruct (find_slot (slot_named name) (hb_slots g1)) as [i|].
  - destruct Hn as (s & Hi & He & Hs). rewrite decide_True by by rewrite Hs.
    destruct (drop_slot _ i s name (hw_slots _ Hwf) Hi He). split; [done|]. by apply with_slots_rel.
  - rewrite decide_False by (rewrite Hn; by intros [? ?]). done.
Qed.

Lemma update_rel g m name p d ctx now :
  hb_rel g m →
  let '(rc, g') := heartbeat_update name p d ctx now g in
  (table_step m (OpUpdate name p d ctx now)).1 = ObsRc rc ∧
  hb_rel g' (table_step m (OpUpdate name p d ctx now)).2.
Proof.
  intros Hrel. unfold heartbeat_update, table_step. destruct name as [name|]; [|done].
  destruct (Z.eqb_spec p 0) as [->|Hp]; [by destruct (m !! name)|].
  destruct (init_rel _ _ Hrel) as [[Hwf Hm] Hinit]. set (g1 := heartbeat_init g) in *. subst m.
  pose proof (find_named _ name (hw_slots _ Hwf)) as Hn.
  destruct (find_slot (slot_named name) (hb_slots g1)) as [i|]; [|by rewrite Hn].
  destruct Hn as (s & Hi & He & Hs). rewrite Hs. split; [done|].
  pose proof (proj1 (slot_entry_Some _ _ _) He) as (_ & Ha & Hname).
  pose proof (sw_task _ (hw_slots _ Hwf)) as Htask. rewrite Forall_forall in Htask.
  destruct (Htask s (list_elem_of_lookup_2 _ _ _ Hi) Ha) as (_ & Hcb & _).
  assert (alter (reschedule p d ctx now) i (hb_slots g1) =
    <[i := reschedule p d ctx now s]> (hb_slots g1)) as ->.
  { apply list_eq. intros j. destruct (decide (j = i)) as [->|Hne].
    - rewrite list_lookup_alter_eq, Hi, list_lookup_insert_eq; [done|by eapply lookup_lt_Some].
    - by rewrite list_lookup_alter_ne, list_lookup_insert_ne. }
  destruct (put_slot _ i s (reschedule p d ctx now s) name (hw_slots _ Hwf) Hi) as [Hwf' Ht'].
  - by apply slot_entry_Some.
  - split_and!; simpl; [congruence|done|done].
  - by left.
  - by apply with_slots_rel.
Qed.

Lemma get_stats_rel g m name stats_ok :
  hb_rel g m →
  let '(rc, st, g') := heartbeat_get_stats name stats_ok g in
  (table_step m (OpGetStats name stats_ok)).1 = ObsStats rc st ∧
  hb_rel g' (table_step m (OpGetStats name stats_ok)).2.
Proof.
  intros Hrel. unfold heartbeat_get_stats, table_step. destruct name as [name|]; [|done].
  destruct stats_ok; [|by destruct (m !! name)]. cbn [negb].
  destruct (init_rel _ _ Hrel) as [[Hwf Hm] Hinit]. set (g1 := heartbeat_init g) in *. subst m.
  pose proof (find_named _ name (hw_slots _ Hwf)) as Hn.
  destruct (find_slot (slot_named name) (hb_slots g1)) as [i|]; [|by rewrite Hn].
  destruct Hn as (s & Hi & He & Hs). by rewrite Hs, Hi.
Qed.

(** A pass over the slots that keeps the tasks. *)
Lemma pass_rel g m f :
  hb_rel g m → (∀ s, sl_task (f s) = sl_task s ∧ sl_active (f s) = sl_active s) →
  hb_rel (with_slots ((λ s, if sl_active s then f s else s) <$> hb_slots g) g) (f <$> m).
Proof.
  intros [[Hs Hi] <-] Hf. destruct (map_slots _ f Hs Hf) as [Hwf Ht].
  split; [|done]. split; simpl; [done|]. intros Hn. rewrite (Hi Hn). by rewrite fmap_replicate.
Qed.

Lemma hb_step_rel g m op :
  hb_rel g m →
  (hb_step g op).1 = (table_step m op).1 ∧ hb_rel (hb_step g op).2 (table_step m op).2.
Proof.
  intros Hrel. pose proof (sw_length _ (hw_slots _ (proj1 Hrel))) as Hlen.
  destruct op as [task now|name|name p d ctx now|name ok|now|now]; cbn [hb_step].
  - pose proof (register_rel g m task now Hrel) as H.
    destruct (heartbeat_register task now g). destruct H as [-> ?]. done.
  - pose proof (unregister_rel g m name Hrel) as H.
    destruct (heartbeat_unregister name g). destruct H as [-> ?]. done.
  - pose proof (update_rel g m name p d ctx now Hrel) as H.
    destruct (heartbeat_update name p d ctx now g). destruct H as [-> ?]. done.
  - pose proof (get_stats_rel g m name ok Hrel) as H.
    destruct (heartbeat_get_stats name ok g) as [[? ?] ?]. destruct H as [-> ?]. done.
  - destruct (collect_due_eq now (hb_slots g) 0 []) as [w ->]; [simpl; lia|]. split; [done|].
    apply pass_rel; [done|]. intros s. unfold run_due. by split_if.
  - rewrite collect_all_eq by (simpl; lia). split; [done|]. by apply pass_rel.
Qed.

Fixpoint run_hb {S} (step : S → hb_op → hb_obs * S) (s : S) (ops : list hb_op)
    : list hb_obs * S :=
  match ops with
  | [] => ([], s)
  | op :: ops' =>
      let '(o, s1) := step s op in let '(os, s2) := run_hb step s1 ops' in (o :: os, s2)
  end.

Lemma run_hb_rel g m ops :
  hb_rel g m →
  (run_hb hb_step g ops).1 = (run_hb table_step m ops).1 ∧
  hb_rel (run_hb hb_step g ops).2 (run_hb table_step m ops).2.
Proof.
  revert g m. induction ops as [|op ops IH]; intros g m Hrel; [done|]. cbn [run_hb].
  destruct (hb_step_rel g m op Hrel) as [Ho Hr].
  destruct (hb_step g op) as [o g1], (table_step m op) as [o' m1]. cbn [fst snd] in *. subst o'.
  destruct (IH _ _ Hr) as [Hos Hr'].
  destruct (run_hb hb_step g1 ops), (run_hb table_step m1 ops). cbn [fst snd] in *. by subst.
Qed.

(** ** Scheduling *)

(** Clock readings and schedules far from the ends of [time_t]. *)
Definition schedulable (s : hb_slot) : Prop :=
  sl_active s = true →
  (0 < sl_next_run s < 2 ^ 62 ∧ 0 < ht_period_sec (sl_task s) < 2 ^ 32)%Z.

Lemma run_slot_spec now s :
  (0 ≤ sl_next_run s ∧ sl_next_run s ≤ now < 2 ^ 62 ∧ 0 < ht_period_sec (sl_task s) < 2 ^ 32)%Z →
  let s' := run_slot now s in
  sl_task s' = sl_task s ∧ last_run (sl_stats s') = now ∧
  ∃ n, (1 ≤ n ∧ sl_next_run s' = sl_next_run s + n * ht_period_sec (sl_task s) ∧
    now < sl_next_run s' ≤ now + ht_period_sec (sl_task s) ∧
    runs (sl_stats s') = wrap64 (runs (sl_stats s) + 1) ∧
    overruns (sl_stats s') = wrap64 (overruns (sl_stats s) + (n - 1)))%Z.
Proof.
  intros (H0 & [Hle Hnow] & Hp). set (p := ht_period_sec (sl_task s)) in *.
  set (e := (now - sl_next_run s)%Z). assert (0 ≤ e < 2 ^ 62)%Z as He by (subst e; lia).
  assert (missed_periods now s = e / p)%Z as Hm.
  { unfold missed_periods. fold p e. destruct (Z.ltb_spec 0 p); [|lia]. cbn [andb].
    destruct (Z.ltb_spec 0 e) as [Hpos|Hz].
    - rewrite Z.quot_div_nonneg by lia. unfold wrap64. apply Z.mod_small.
      pose proof (Z.div_pos e p). pose proof (Z.div_le_upper_bound e p (2 ^ 62)). nia.
    - assert (e = 0)%Z as -> by lia. by rewrite Z.div_0_l by lia. }
  pose proof (Z.div_mod e p ltac:(lia)) as Hdm. pose proof (Z.mod_pos_bound e p ltac:(lia)) as Hmod.
  set (q := (e / p)%Z) in *. assert (0 ≤ q < 2 ^ 62)%Z as Hq by nia.
  assert (0 < (q + 1) * p < 2 ^ 63)%Z as Hqp by nia.
  split; [done|]. split; [done|]. exists (q + 1)%Z. unfold run_slot.
  cbn [sl_next_run sl_stats runs overruns]. rewrite Hm. fold q p.
  assert (time_of_u64 (wrap64 (wrap64 (q + 1) * p)) = (q + 1) * p)%Z as ->.
  { unfold wrap64. rewrite (Z.mod_small (q + 1)) by lia. rewrite Z.mod_small by lia.
    unfold time_of_u64. destruct (Z.ltb_spec ((q + 1) * p) (2 ^ 63)); lia. }
  split_and!; [lia|done| | |done|by replace (q + 1 - 1)%Z with q by lia]; subst e; nia.
Qed.

Lemma collect_due_wake now slots w todo :
  Forall schedulable slots → (0 ≤ w)%Z →
  let w' := (hb_collect_due_tasks now slots w todo).1.2 in
  (0 ≤ w')%Z ∧ (w' = w ∨ ∃ s, s ∈ slots ∧ sl_active s = true ∧ sl_next_run s = w') ∧
  (w ≠ 0 → w' ≤ w)%Z ∧ (∀ s, s ∈ slots → sl_active s = true → 0 < w' ≤ sl_next_run s)%Z ∧
  (w ≠ 0 → w' ≠ 0)%Z.
Proof.
  intros Hs. revert w todo. induction Hs as [|s slots Hsch _ IH]; intros w todo Hw; cbn zeta.
  { simpl. split_and!; [done|by left|lia| |done]. intros s Hin. by apply elem_of_nil in Hin. }
  cbn [hb_collect_due_tasks]. destruct (sl_active s) eqn:Ha; cbn [negb]; last first.
  - specialize (IH w todo Hw). destruct (hb_collect_due_tasks now slots w todo) as [[r w'] b].
    cbn [fst snd] in *. destruct IH as (? & Hex & ? & Hall & ?). split_and!; [done| |done| |done].
    + destruct Hex as [?|(s' & ? & ?)]; [by left|right]. exists s'. set_solver.
    + intros s' [->|Hin]%elem_of_cons Ha'; [congruence|by apply Hall].
  - destruct (Hsch Ha) as [Hn _].
    set (w1 := if (_ || _ : bool) then _ else _).
    assert (0 < w1 ≤ sl_next_run s ∧ (w1 = w ∨ w1 = sl_next_run s) ∧ (w ≠ 0 → w1 ≤ w))%Z as (Hw1 & Hor & Hle).
    { unfold w1. destruct (Z.eqb_spec w 0); simpl; [lia|].
      destruct (Z.ltb_spec (sl_next_run s) w); lia. }
    assert (∀ b, let w' := (hb_collect_due_tasks now slots w1 b).1.2 in
      (0 ≤ w')%Z ∧ (w' = w ∨ ∃ s', s' ∈ s :: slots ∧ sl_active s' = true ∧ sl_next_run s' = w') ∧
      (w ≠ 0 → w' ≤ w)%Z ∧ (∀ s', s' ∈ s :: slots → sl_active s' = true → 0 < w' ≤ sl_next_run s')%Z ∧
      (w ≠ 0 → w' ≠ 0)%Z) as Hgoal.
    { intros b. destruct (IH w1 b ltac:(lia)) as (H0 & Hex & Hle1 & Hall & Hne). cbn zeta.
      split_and!; [done| |lia| |lia].
      - destruct Hex as [->|(s' & ? & ?)]; [|right; exists s'; set_solver].
        destruct Hor as [->|He]; [by left|]. right. exists s. split_and!; [set_solver|done|done].
      - intros s' [->|Hin]%elem_of_cons Ha'; [lia|by apply Hall]. }
    destruct (now <? sl_next_run s)%Z.
    + specialize (Hgoal todo). by destruct (hb_collect_due_tasks now slots w1 todo) as [[r w'] b].
    + specialize (Hgoal (hb_batch_push todo (sl_task s))).
      by destruct (hb_collect_due_tasks now slots w1 (hb_batch_push todo (sl_task s))) as [[r w'] b].
Qed.

(** ** The thread among its callers *)

Record hb_sys := HbSys { hy_g : hb; hy_threads : list pc }.

Inductive hb_sys_step : hb_sys → hb_sys → Prop :=
| hb_sys_api s op :
    hb_sys_step s {| hy_g := (hb_step (hy_g s) op).2; hy_threads := hy_threads s |}
| hb_sys_start s create_ok rc created g :
    heartbeat_start create_ok (hy_g s) = (rc, created, g) →
    hb_sys_step s {| hy_g := g;
                     hy_threads := hy_threads s ++ if created : bool then [PcTop] else [] |}
| hb_sys_shutdown s drain :
    hb_sys_step s {| hy_g := (heartbeat_shutdown drain (hy_g s)).2; hy_threads := hy_threads s |}
| hb_sys_thread s i c c' now calls wait g :
    hy_threads s !! i = Some c → thread_step now c (hy_g s) = (c', calls, wait, g) →
    hb_sys_step s {| hy_g := g; hy_threads := <[i := c']> (hy_threads s) |}.

Definition hb_sys_init : hb_sys := {| hy_g := hb_static; hy_threads := [] |}.

(** A thread that has read the stop flag or is past its last batch. *)
Definition stopping (c : pc) : bool :=
  match c with PcBatch _ should_stop _ => should_stop | PcTop => false | _ => true end.

Record hb_sys_ok (s : hb_sys) : Prop := {
  hk_wf : hb_wf (hy_g s);
  hk_threads :
    (hb_running (hy_g s) = false ∧ hb_stop_requested (hy_g s) = false ∧
     Forall (eq PcGone) (hy_threads s)) ∨
    (hb_running (hy_g s) = true ∧ ∃ i c,
     hy_threads s !! i = Some c ∧ c ≠ PcGone ∧
     (stopping c = true → hb_stop_requested (hy_g s) = true) ∧
     ∀ j c', hy_threads s !! j = Some c' → j ≠ i → c' = PcGone);
}.

Lemma heartbeat_init_flags g :
  hb_running (heartbeat_init g) = hb_running g ∧
  hb_stop_requested (heartbeat_init g) = hb_stop_requested g ∧
  hb_drain_on_stop (heartbeat_init g) = hb_drain_on_stop g.
Proof. unfold heartbeat_init. by destruct (hb_initialized g). Qed.

Lemma hb_step_flags g op :
  let g' := (hb_step g op).2 in
  hb_running g' = hb_running g ∧ hb_stop_requested g' = hb_stop_requested g ∧
  hb_drain_on_stop g' = hb_drain_on_stop g.
Proof.
  pose proof heartbeat_init_flags as Hinit.
  destruct op as [task now|name|name p d ctx now|name ok|now|now]; cbn zeta; cbn [hb_step].
  - unfold heartbeat_register. destruct task as [t|]; [|done].
    destruct (ht_name t), (ht_cb t); try done. destruct (_ =? 0)%Z; [done|].
    destruct (find_slot _ _); [apply Hinit|]. destruct (find_slot _ _); apply Hinit.
  - unfold heartbeat_unregister. destruct name; [|done]. destruct (find_slot _ _); apply Hinit.
  - unfold heartbeat_update. destruct name; [|done]. destruct (_ =? 0)%Z; [done|].
    destruct (find_slot _ _); apply Hinit.
  - unfold heartbeat_get_stats. destruct name; [|done]. destruct ok; [|done]. cbn [negb].
    destruct (find_slot _ _); apply Hinit.
  - by destruct (hb_collect_due_tasks _ _ _ _) as [[? ?] ?].
  - by destruct (hb_collect_all_active _ _ _) as [? ?].
Qed.

Lemma thread_step_wf now c g c' calls wait g' :
  hb_wf g → thread_step now c g = (c', calls, wait, g') → hb_wf g'.
Proof.
  intros Hwf H. pose proof (sw_length _ (hw_slots _ Hwf)) as Hlen.
  pose proof (hb_step_rel g _ (OpCollectDue now) (conj Hwf eq_refl)) as [_ [Hdue _]].
  pose proof (hb_step_rel g _ (OpCollectAll now) (conj Hwf eq_refl)) as [_ [Hall _]].
  cbn [hb_step] in Hdue, Hall. unfold thread_step in H.
  destruct c as [|todo st dr| |final| |]; try by simplify_eq.
  - destruct (hb_collect_due_tasks _ _ _ _) as [[slots w] todo]. cbn [snd] in Hdue.
    destruct (_ && _); by simplify_eq.
  - destruct (hb_collect_all_active _ _ _) as [slots final]. cbn [snd] in Hall. by simplify_eq.
  - simplify_eq. destruct Hwf. by split.
Qed.

(** How a step of the thread moves it and the flags. *)
Lemma thread_step_flags now c g c' calls wait g' :
  thread_step now c g = (c', calls, wait, g') → c ≠ PcGone →
  (stopping c = true → hb_stop_requested g = true) →
  match c with
  | PcMark => c' = PcGone ∧ hb_running g' = false ∧ hb_stop_requested g' = false
  | _ => c' ≠ PcGone ∧ hb_running g' = hb_running g ∧
         hb_stop_requested g' = hb_stop_requested g ∧
         (stopping c' = true → hb_stop_requested g' = true)
  end.
Proof.
  intros H Hc Hst. unfold thread_step in H. destruct c as [|todo st dr| |final| |]; simpl in Hst.
  - destruct (hb_collect_due_tasks _ _ _ _) as [[slots w] todo].
    destruct (_ && _); simplify_eq; split_and!; done.
  - destruct st; [destruct dr|]; simplify_eq; split_and!; auto; done.
  - destruct (hb_collect_all_active _ _ _) as [slots final]. simplify_eq. split_and!; auto; done.
  - simplify_eq. split_and!; auto; done.
  - by simplify_eq.
  - done.
Qed.

Lemma with_flags_wf r st d g : hb_wf g → hb_wf (with_flags r st d g).
Proof. intros []. by split. Qed.

Lemma hb_start_ok s create_ok rc created g :
  hb_sys_ok s → heartbeat_start create_ok (hy_g s) = (rc, created, g) →
  hb_sys_ok {| hy_g := g; hy_threads := hy_threads s ++ if created : bool then [PcTop] else [] |}.
Proof.
  intros [Hwf Hth] Hst. destruct (init_rel _ _ (conj Hwf eq_refl)) as [[Hwf' _] _].
  destruct (heartbeat_init_flags (hy_g s)) as (Hr & Hs & _).
  unfold heartbeat_start in Hst. rewrite Hr in Hst.
  destruct Hth as [(Hrun & Hstop & Hgone)|(Hrun & Hlive)]; rewrite Hrun in Hst; last first.
  { simplify_eq. split; cbn [hy_g hy_threads]; [done|right]. rewrite app_nil_r, Hr, Hs. done. }
  destruct create_ok; cbn [negb] in Hst; simplify_eq;
    (split; [by repeat apply with_flags_wf|]); cbn [hy_g hy_threads].
  - right. split; [done|]. exists (length (hy_threads s)), PcTop. split_and!; [|done|done|].
    + by rewrite list_lookup_middle.
    + intros j c' Hj Hne. rewrite lookup_app_l in Hj.
      * symmetry. by eapply Forall_lookup_1 in Hgone.
      * apply lookup_lt_Some in Hj. rewrite length_app in Hj. simpl in Hj. lia.
  - left. rewrite app_nil_r. done.
Qed.

Lemma hb_shutdown_ok s drain :
  hb_sys_ok s →
  hb_sys_ok {| hy_g := (heartbeat_shutdown drain (hy_g s)).2; hy_threads := hy_threads s |}.
Proof.
  intros [Hwf Hth]. destruct (init_rel _ _ (conj Hwf eq_refl)) as [[Hwf' _] _].
  destruct (heartbeat_init_flags (hy_g s)) as (Hr & Hs & _). unfold heartbeat_shutdown. rewrite Hr.
  destruct Hth as [(Hrun & Hstop & Hgone)|(Hrun & i & c & Hi & Hc & _ & Hoth)]; rewrite Hrun.
  - split; [done|]. cbn [snd hy_g hy_threads]. left. by rewrite Hr, Hs.
  - split; cbn [snd hy_g hy_threads]; [destruct Hwf'; by split|]. right. split; [done|].
    by exists i, c.
Qed.

Lemma hb_thread_ok s i c c' now calls wait g :
  hb_sys_ok s → hy_threads s !! i = Some c → thread_step now c (hy_g s) = (c', calls, wait, g) →
  hb_sys_ok {| hy_g := g; hy_threads := <[i := c']> (hy_threads s) |}.
Proof.
  intros [Hwf Hth] Hi Ht. pose proof (thread_step_wf _ _ _ _ _ _ _ Hwf Ht) as Hwf'.
  split; cbn [hy_g hy_threads]; [done|].
  destruct Hth as [(Hrun & Hstop & Hgone)|(Hrun & j & d & Hj & Hd & Hsd & Hoth)].
  { assert (c = PcGone) as -> by (symmetry; by eapply Forall_lookup_1 in Hgone).
    simpl in Ht. simplify_eq. left. split_and!; [done|done|]. by apply Forall_insert. }
  destruct (decide (i = j)) as [->|Hne]; last first.
  { assert (c = PcGone) as -> by by eapply Hoth. simpl in Ht. simplify_eq. right. split; [done|].
    rewrite list_insert_same by done. by exists j, d. }
  assert (c = d) as -> by congruence.
  pose proof (thread_step_flags _ _ _ _ _ _ _ Ht Hd Hsd) as Hf.
  pose proof (lookup_lt_Some _ _ _ Hj) as Hlt.
  assert (d = PcMark ∨ d ≠ PcMark) as [->|Hnm] by (destruct d; auto).
  - destruct Hf as (-> & Hr & Hs). left. split_and!; [done|done|].
    apply Forall_lookup. intros n x Hx. destruct (decide (n = j)) as [->|Hnj].
    + rewrite list_lookup_insert_eq in Hx by done. congruence.
    + rewrite list_lookup_insert_ne in Hx by done. symmetry. by eapply Hoth.
  - right. assert (c' ≠ PcGone ∧ hb_running g = hb_running (hy_g s) ∧
      hb_stop_requested g = hb_stop_requested (hy_g s) ∧
      (stopping c' = true → hb_stop_requested g = true)) as (Hc' & Hr & _ & Hs')
      by (destruct d; done).
    split; [congruence|]. exists j, c'. split_and!; [by apply list_lookup_insert_eq|done|done|].
    intros n x Hx Hnj. rewrite list_lookup_insert_ne in Hx by done. by eapply Hoth.
Qed.

Lemma hb_sys_step_ok s s' : hb_sys_ok s → hb_sys_step s s' → hb_sys_ok s'.
Proof.
  intros Hok Hstep. destruct Hstep.
  - destruct Hok as [Hwf Hth]. destruct (hb_step_rel _ _ op (conj Hwf eq_refl)) as [_ [Hwf' _]].
    destruct (hb_step_flags (hy_g s) op) as (Hr & Hs & _).
    split; cbn [hy_g hy_threads]; [done|]. by rewrite Hr, Hs.
  - by eapply hb_start_ok.
  - by apply hb_shutdown_ok.
  - by eapply hb_thread_ok.
Qed.

Lemma hb_sys_reachable_ok s : rtc hb_sys_step hb_sys_init s → hb_sys_ok s.
Proof.
  intros Hr. assert (hb_sys_ok hb_sys_init) as H0.
  { split; [apply hb_static_rel|]. left. by split_and!. }
  induction Hr; [done|]. eauto using hb_sys_step_ok.
Qed.

(** The thread running alone for [n] steps. *)
Fixpoint run_thread (clock : nat → Z) (n : nat) (c : pc) (g : hb) : pc * hb :=
  match n with
  | 0 => (c, g)
  | S n' => let '(c', _, _, g') := thread_step (clock n') c g in run_thread clock n' c' g'
  end.

(** Steps left until the thread is gone, once it is asked to stop. *)
Definition rank (c : pc) : nat :=
  match c with
  | PcTop => 5
  | PcBatch _ should_stop _ => if should_stop then 4 else 6
  | PcDrain => 3
  | PcFinal _ => 2
  | PcMark => 1
  | PcGone => 0
  end.

Lemma run_thread_stops clock n c g :
  hb_stop_requested g = true → (c = PcGone → hb_running g = false) → rank c ≤ n →
  (run_thread clock n c g).1 = PcGone ∧
  (c ≠ PcGone → hb_running (run_thread clock n c g).2 = false ∧
   hb_stop_requested (run_thread clock n c g).2 = false).
Proof.
  assert (∀ n g, run_thread clock n PcGone g = (PcGone, g)) as Hgone.
  { induction n0 as [|n0 IH]; intros g0; simpl; auto. }
  revert c g. induction n as [|n IH]; intros c g Hs Hr Hn.
  { assert (c = PcGone) as -> by (destruct c as [|? []| | | |]; simpl in Hn; (done || lia)). done. }
  cbn [run_thread]. destruct c as [|todo st dr| |final| |]; cbn [thread_step] in *.
  - destruct (hb_collect_due_tasks _ _ _ _) as [[slots w] todo].
    cbn [with_slots hb_stop_requested]. rewrite Hs, andb_false_r.
    destruct (IH (PcBatch todo true (hb_drain_on_stop (with_slots slots g))) (with_slots slots g))
      as [? Hend]; [done|done|simpl in *; lia|]. split; [done|]. intros _. by apply Hend.
  - destruct (IH (if st then if dr then PcDrain else PcMark else PcTop) g) as [? Hend];
      [done|by destruct st, dr|destruct st, dr; simpl in *; lia|].
    split; [done|]. intros _. apply Hend. by destruct st, dr.
  - destruct (hb_collect_all_active _ _ _) as [slots final].
    destruct (IH (PcFinal final) (with_slots slots g)) as [? Hend]; [done|done|simpl in *; lia|].
    split; [done|]. intros _. by apply Hend.
  - destruct (IH PcMark g) as [? Hend]; [done|done|simpl in *; lia|].
    split; [done|]. intros _. by apply Hend.
  - by rewrite Hgone.
  - by rewrite Hgone.
Qed.

(** ** Properties *)

(** C32. The task table is a finite map: whatever sequence of calls is made, every result
    is the one of a map from names to tasks with room for 32: a name is registered at
    most once, a registration fails only for an invalid task or a full table, update,
    unregister and get_stats act on the task of that name and on no other, and a pass of
    the scheduler runs the tasks that are due. *)
Theorem heartbeat_refines_map ops :
  (run_hb hb_step hb_static ops).1 = (run_hb table_step ∅ ops).1 ∧
  table_of (hb_slots (run_hb hb_step hb_static ops).2) = (run_hb table_step ∅ ops).2.
Proof. destruct (run_hb_rel _ _ ops hb_static_rel) as [? [_ ?]]. done. Qed.

(** C20. One scheduling pass collects exactly the tasks whose time has come, in slot order,
    each once; a task that has run is next due at the first multiple of its period after
    now, counted from its schedule, with the multiples skipped added to [overruns].  When
    nothing is due the thread sleeps, and exactly until the next task is due (an hour when
    there is no task). *)
Theorem collect_due_spec slots now :
  slots_wf slots → Forall schedulable slots → (0 ≤ now < 2 ^ 62)%Z →
  let '(slots', wake_at, todo) := hb_collect_due_tasks now slots 0 [] in
  todo = sl_task <$> List.filter (is_due now) slots ∧
  Forall2 (λ s s',
    if is_due now s
    then sl_task s' = sl_task s ∧ ∃ n, (1 ≤ n ∧
      sl_next_run s' = sl_next_run s + n * ht_period_sec (sl_task s) ∧
      now < sl_next_run s' ≤ now + ht_period_sec (sl_task s) ∧
      runs (sl_stats s') = wrap64 (runs (sl_stats s) + 1) ∧
      overruns (sl_stats s') = wrap64 (overruns (sl_stats s) + (n - 1)))%Z
    else s' = s) slots slots' ∧
  (todo = [] →
    let wait := hb_wait_for_next_tick now wake_at in
    (0 < wait)%Z ∧
    (∀ s, s ∈ slots → sl_active s = true → now + wait ≤ sl_next_run s)%Z ∧
    ((∃ s, s ∈ slots ∧ sl_active s = true ∧ sl_next_run s = now + wait)%Z ∨
     wait = HB_IDLE_WAIT_SEC ∧ ∀ s, s ∈ slots → sl_active s = false)).
Proof.
  intros Hwf Hsch Hnow. pose proof (sw_length _ Hwf) as Hlen.
  destruct (collect_due_wake now slots 0 [] Hsch) as (Hw0 & Hex & _ & Hall & _); [lia|].
  destruct (collect_due_eq now slots 0 []) as [w Heq]; [simpl; lia|].
  rewrite Heq in *. cbn [fst snd app] in *. split; [done|]. split.
  - apply Forall2_fmap_r, Forall_Forall2_diag. eapply Forall_impl; [exact Hsch|].
    intros s Hs. cbn beta. unfold is_due, run_due. destruct (sl_active s) eqn:Ha; cbn; rewrite ?Ha; [|reflexivity].
    destruct (Z.leb_spec (sl_next_run s) now); [|done]. destruct (Hs Ha) as [? ?].
    destruct (run_slot_spec now s) as (? & _ & ?); [lia|]. done.
  - intros Hnone.
    assert (∀ s, s ∈ slots → sl_active s = true → now < sl_next_run s)%Z as Hlater.
    { intros s Hin Ha. destruct (Z.ltb_spec now (sl_next_run s)) as [|Hle]; [done|].
      apply (f_equal length) in Hnone. rewrite length_fmap in Hnone. apply nil_length_inv in Hnone.
      assert (s ∈ @nil hb_slot) as Hs; [|by apply elem_of_nil in Hs]. rewrite <- Hnone.
      apply list_elem_of_In, filter_In. rewrite <- list_elem_of_In. split; [done|].
      unfold is_due. rewrite Ha. apply Z.leb_le. lia. }
    unfold hb_wait_for_next_tick, HB_IDLE_WAIT_SEC in *.
    destruct Hex as [->|(s & Hin & Ha & <-)].
    + cbn. split_and!; [lia|intros s Hin Ha; specialize (Hall s Hin Ha); lia|].
      right. split; [done|]. intros s Hin. destruct (sl_active s) eqn:Ha; [|done].
      specialize (Hall s Hin Ha). lia.
    + specialize (Hlater s Hin Ha) as Hl. destruct (Z.eqb_spec (sl_next_run s) 0); [lia|].
      destruct (Z.ltb_spec now (sl_next_run s)); [|lia]. cbn [negb andb]. cbn zeta.
      split_and!; [lia|intros s' Hin' Ha'; specialize (Hall s' Hin' Ha'); lia|].
      left. exists s. split_and!; [done|done|lia].
Qed.

(** C34. However the API calls of other threads come between the steps of the scheduler,
    at most one scheduler thread is alive, [g_hb_running] says whether there is one, and
    the table stays well formed. *)
Theorem single_heartbeat_thread s :
  rtc hb_sys_step hb_sys_init s →
  hb_wf (hy_g s) ∧
  (hb_running (hy_g s) = true ↔ ∃ i c, hy_threads s !! i = Some c ∧ c ≠ PcGone) ∧
  (∀ i j c d, hy_threads s !! i = Some c → hy_threads s !! j = Some d →
    c ≠ PcGone → d ≠ PcGone → i = j).
Proof.
  intros Hr. destruct (hb_sys_reachable_ok _ Hr) as [Hwf Hth]. split; [done|].
  destruct Hth as [(Hrun & _ & Hgone)|(Hrun & i & c & Hi & Hc & _ & Hoth)]; rewrite Hrun.
  - split; [split; [done|]|].
    + intros (i & c & Hi & Hc). eapply Forall_lookup_1 in Hgone; [|exact Hi]. congruence.
    + intros i j c d Hi _ Hc. eapply Forall_lookup_1 in Hgone; [|exact Hi]. congruence.
  - split; [split; [|done]|].
    + intros _. by exists i, c.
    + intros j k d e Hj Hk Hd He. destruct (decide (j = i)) as [->|Hj']; [|by destruct Hd; eapply Hoth].
      destruct (decide (k = i)) as [->|Hk']; [done|]. by destruct He; eapply Hoth.
Qed.

(** C33. A stop is never lost: once [g_hb_stop_requested] is set, a [heartbeat_start] returns
    0 and changes nothing, so the request stays, and the scheduler, wherever it is, is gone
    within six of its steps, with [g_hb_running] and the request cleared. *)
Theorem heartbeat_stop_terminates s i c clock :
  rtc hb_sys_step hb_sys_init s → hb_stop_requested (hy_g s) = true →
  hy_threads s !! i = Some c → c ≠ PcGone →
  (∀ create_ok, heartbeat_start create_ok (hy_g s) = (0%Z, false, heartbeat_init (hy_g s)) ∧
     hb_stop_requested (heartbeat_init (hy_g s)) = true) ∧
  let '(c', g') := run_thread clock 6 c (hy_g s) in
  c' = PcGone ∧ hb_running g' = false ∧ hb_stop_requested g' = false.
Proof.
  intros Hr Hs Hi Hc. destruct (hb_sys_reachable_ok _ Hr) as [Hwf Hth].
  destruct Hth as [(_ & Hno & _)|(Hrun & _)]; [congruence|]. split.
  - intros ok. unfold heartbeat_start.
    assert (hb_running (heartbeat_init (hy_g s)) = true ∧
      hb_stop_requested (heartbeat_init (hy_g s)) = true) as [-> ->].
    { unfold heartbeat_init. destruct (hb_initialized (hy_g s)); done. }
    done.
  - destruct (run_thread_stops clock 6 c (hy_g s)) as [H1 H2]; [done|done| |].
    + destruct c as [|? []| | | |]; simpl; lia.
    + destruct (run_thread clock 6 c (hy_g s)) as [c' g']. cbn [fst snd] in *. auto.
Qed.

(** ** Witnesses *)

Definition sample_task : hb_task :=
  {| ht_name := Some (bs "metrics.sample"); ht_period_sec := 5; ht_initial_delay_sec := 0;
     ht_cb := Some 1%Z; ht_ctx := 0 |}.

Definition sample_table : hb := (heartbeat_register (Some sample_task) 100 hb_static).2.

Lemma sample_table_wf : hb_wf sample_table.
Proof.
  pose proof (register_rel _ _ (Some sample_task) 100 hb_static_rel) as H. unfold sample_table.
  destruct (heartbeat_register (Some sample_task) 100 hb_static). by destruct H as [_ [? _]].
Qed.

(** Due at 100 and looked at 12 seconds late: two runs are missed, the next is at 115. *)
Lemma collect_due_spec_witness :
  let '(slots', wake_at, todo) := hb_collect_due_tasks 112 (hb_slots sample_table) 0 [] in
  todo = [sample_task] ∧ (sl_next_run <$> slots' !! 0) = Some 115%Z ∧
  (overruns ∘ sl_stats <$> slots' !! 0) = Some 2%Z.
Proof.
  pose proof (collect_due_spec (hb_slots sample_table) 112 (hw_slots _ sample_table_wf)) as H.
  assert (Forall schedulable (hb_slots sample_table)) as Hs.
  { apply Forall_cons. split; [intros _; vm_compute; split; split; congruence|].
    apply (Forall_replicate schedulable 31 zero_slot). discriminate. }
  specialize (H Hs ltac:(lia)).
  assert ((let '(slots', _, _) := hb_collect_due_tasks 112 (hb_slots sample_table) 0 [] in
    (sl_next_run <$> slots' !! 0, overruns ∘ sl_stats <$> slots' !! 0)) = (Some 115, Some 2)%Z) as Hv
    by (vm_compute; reflexivity).
  destruct (hb_collect_due_tasks 112 (hb_slots sample_table) 0 []) as [[slots' w] todo].
  destruct H as (Ht & _). injection Hv as Hn Ho. split; [|split; [exact Hn|exact Ho]].
  rewrite Ht. vm_compute. reflexivity.
Defined.

Definition started : hb_sys :=
  {| hy_g := (heartbeat_start true sample_table).2; hy_threads := [PcTop] |}.

Definition stop_asked : hb_sys :=
  {| hy_g := (heartbeat_shutdown true (hy_g started)).2; hy_threads := [PcTop] |}.

Lemma started_reachable : rtc hb_sys_step hb_sys_init started.
Proof.
  eapply rtc_l; [apply (hb_sys_api _ (OpRegister (Some sample_task) 100))|].
  apply rtc_once.
  exact (hb_sys_start {| hy_g := sample_table; hy_threads := [] |} true 0%Z true
    (heartbeat_start true sample_table).2 eq_refl).
Qed.

Lemma stop_asked_reachable : rtc hb_sys_step hb_sys_init stop_asked.
Proof. eapply rtc_r; [apply started_reachable|apply (hb_sys_shutdown started true)]. Qed.

Lemma single_heartbeat_thread_witness :
  hb_wf (hy_g started) ∧ ∃ i c, hy_threads started !! i = Some c ∧ c ≠ PcGone.
Proof.
  destruct (single_heartbeat_thread started started_reachable) as (Hwf & Hiff & _).
  split; [exact Hwf|]. apply Hiff. reflexivity.
Defined.

(** A stop with drain runs the task twice on the way out. *)
Lemma heartbeat_stop_terminates_witness :
  let '(c', g') := run_thread (λ _, 112%Z) 6 PcTop (hy_g stop_asked) in
  c' = PcGone ∧ hb_running g' = false ∧
  (runs ∘ sl_stats <$> hb_slots g' !! 0) = Some 2%Z.
Proof.
  pose proof (heartbeat_stop_terminates stop_asked 0 PcTop (λ _, 112%Z) stop_asked_reachable
    eq_refl eq_refl ltac:(discriminate)) as [_ H].
  assert ((let '(_, g') := run_thread (λ _, 112%Z) 6 PcTop (hy_g stop_asked) in
    (runs ∘ sl_stats <$> hb_slots g' !! 0)) = Some 2%Z) as Hv by (vm_compute; reflexivity).
  destruct (run_thread (λ _, 112%Z) 6 PcTop (hy_g stop_asked)) as [c' g'].
  destruct H as (? & ? & _). auto.
Defined.
