(* ===== verification/Template.v ===== *)
(** * Page templates (src/render/template_render.c) and the view handler
      (src/router/route_table.c, src/http/response_helpers.c)

    The templates of one directory are kept in memory and reloaded when they are older than
    [TEMPLATE_CACHE_TTL_SEC]; a page is the base template with four placeholders replaced.
    The functions work in the state monad [M] over the cache; its counter numbers the
    questions put to the allocator and the clock.  The directory is a parameter: what
    readdir lists and what stat and stdio say of a path. *)

From S2P Require Import Prelude Router ResponsePool HttpResponse.

Definition TEMPLATE_CACHE_TTL_SEC : Z := 60.
Definition PATH_MAX : nat := N.to_nat 1024.

(** ** Data *)

Record template_entry := TemplateEntry {
  te_filename : bytes;
  te_content : bytes;
  te_len : nat;
  te_mtime : Z;
}.

Record tstate := TState {
  template_cache : list template_entry;
  template_cache_last_refresh : Z;
  ts_time : nat;
}.

Definition template_static : tstate :=
  {| template_cache := []; template_cache_last_refresh := 0; ts_time := 0 |}.

Record template_data := TemplateData {
  td_title : option bytes;
  td_page_content : option bytes;
  td_extra_head_file : option bytes;
  td_extra_js_file : option bytes;
}.

(** What stdio does with an open file: whether the seeks succeed, what [ftell] says, the
    bytes [fread] can deliver and whether [ferror] is set after a short read. *)
Record file_io := FileIO {
  io_seek_end : bool;
  io_tell : Z;
  io_seek_set : bool;
  io_data : bytes;
  io_error : bool;
}.

(** [dir_stat p]: whether the file is regular, and its [st_mtime]. *)
Record template_dir := TemplateDir {
  dir_list : option (list bytes);
  dir_stat : bytes → option (bool * Z);
  dir_open : bytes → option file_io;
}.

(** ** The monad *)

Abbreviation M := (ST tstate).

Definition tick_t (s : tstate) : tstate :=
  {| template_cache := template_cache s;
     template_cache_last_refresh := template_cache_last_refresh s; ts_time := S (ts_time s) |}.

Definition set_cache (c : list template_entry) : M unit := λ s,
  (tt, {| template_cache := c; template_cache_last_refresh := template_cache_last_refresh s;
          ts_time := ts_time s |}).

Definition set_last_refresh (t : Z) : M unit := λ s,
  (tt, {| template_cache := template_cache s; template_cache_last_refresh := t;
          ts_time := ts_time s |}).

Section template.
Context (alloc : nat → bool) (clock : nat → Z) (dir : template_dir) (templates_dir : bytes).

(** Success of the next malloc, realloc or strdup. *)
Definition malloc : M bool := λ s, (alloc (ts_time s), tick_t s).

(** [time(NULL)] *)
Definition time_null : M Z := λ s, (clock (ts_time s), tick_t s).

Definition strdup (s : bytes) : M (option bytes) :=
  ok ← malloc; mret (if ok : bool then Some s else None).

(** ** The cache *)

(** [None] is -1. *)
Definition read_file_content (path : bytes) : M (option bytes) :=
  match dir_open dir path with
  | None => mret None
  | Some f =>
      if negb (io_seek_end f) then mret None
      else if (io_tell f <? 0)%Z then mret None
      else if negb (io_seek_set f) then mret None
      else
        ok ← malloc;
        if negb ok then mret None
        else
          let file_size := Z.to_nat (io_tell f) in
          let data := take file_size (io_data f) in
          if negb (length data =? file_size) && io_error f then mret None
          else mret (Some data)
  end.

Definition template_cache_cleanup_locked : M unit := set_cache [].

Definition template_cache_cleanup : M unit :=
  _ ← set_cache []; set_last_refresh 0.

Definition add_template_to_cache (filename path : bytes) (mtime : Z) : M Z :=
  content ← read_file_content path;
  match content with
  | None => mret (-1)%Z
  | Some content =>
      ok ← malloc;
      if negb ok then mret (-1)%Z
      else
        name ← strdup filename;
        match name with
        | None => mret (-1)%Z
        | Some name =>
            s ← get;
            _ ← set_cache (template_cache s ++
              [{| te_filename := name; te_content := cstr content;
                  te_len := length (cstr content); te_mtime := mtime |}]);
            mret 0%Z
        end
  end.

(** The readdir loop: [None] is the return of -1 from inside it. *)
Fixpoint reload_loop (names : list bytes) (loaded : bool) : M (option bool) :=
  match names with
  | [] => mret (Some loaded)
  | n :: names' =>
      if streq n (bs ".") || streq n (bs "..") then reload_loop names' loaded
      else
        let path := templates_dir ++ bs "/" ++ n in
        if PATH_MAX <=? length path then
          _ ← template_cache_cleanup_locked; mret None
        else match dir_stat dir path with
        | None => reload_loop names' loaded
        | Some (regular, mtime) =>
            if negb regular then reload_loop names' loaded
            else
              rc ← add_template_to_cache n path mtime;
              if negb (rc =? 0)%Z then _ ← template_cache_cleanup_locked; mret None
              else reload_loop names' true
        end
  end.

Definition template_cache_reload_locked : M Z :=
  _ ← template_cache_cleanup_locked;
  match dir_list dir with
  | None => mret (-1)%Z
  | Some names =>
      r ← reload_loop names false;
      match r with
      | None => mret (-1)%Z
      | Some loaded =>
          now ← time_null;
          _ ← set_last_refresh now;
          mret (if loaded : bool then 0 else -1)%Z
      end
  end.

Definition template_cache_init : M Z := template_cache_reload_locked.

Definition template_cache_refresh_locked : M Z :=
  now ← time_null;
  s ← get;
  if negb (template_cache_last_refresh s =? 0)%Z &&
     (now - template_cache_last_refresh s <? TEMPLATE_CACHE_TTL_SEC)%Z
  then mret 0%Z
  else template_cache_reload_locked.

(** The first entry of that name. *)
Definition find_template (filename : bytes) (c : list template_entry) : option bytes :=
  match list_find (λ e, streq (te_filename e) filename = true) c with
  | Some (_, e) => Some (te_content e)
  | None => None
  end.

(** The copy of the template; [None] is -1. *)
Definition read_template_file (filename : bytes) : M (option bytes) :=
  rc ← template_cache_refresh_locked;
  if negb (rc =? 0)%Z then mret None
  else
    s ← get;
    match find_template filename (template_cache s) with
    | Some content => strdup content
    | None => mret None
    end.

Definition load_template_component (filename : option bytes) : M (option bytes) :=
  match filename with
  | None => mret None
  | Some f => read_template_file f
  end.

(** ** Rendering *)

Definition replace_single (str needle value : bytes) : M (option bytes) :=
  match strstr str needle with
  | None => strdup str
  | Some pos =>
      ok ← malloc;
      mret (if ok : bool then Some (take pos str ++ value ++ drop (pos + length needle) str)
            else None)
  end.

Fixpoint replace_pairs (str : bytes) (pairs : list (bytes * bytes)) : M (option bytes) :=
  match pairs with
  | [] => mret (Some str)
  | (needle, value) :: pairs' =>
      next ← replace_single str needle value;
      match next with
      | None => mret None
      | Some next => replace_pairs next pairs'
      end
  end.

Definition replace_placeholders (template_str : bytes) (pairs : list (bytes * bytes))
    : M (option bytes) :=
  r ← strdup template_str;
  match r with
  | None => mret None
  | Some r => replace_pairs r pairs
  end.

Definition replace_all (template_str title page_content extra_head extra_js : bytes)
    : M (option bytes) :=
  replace_placeholders template_str
    [(bs "{{title}}", title); (bs "{{page_content}}", page_content);
     (bs "{{extra_head}}", extra_head); (bs "{{extra_js}}", extra_js)].

(** Base template, page content and the two optional fragments. *)
Definition load_layout_fragments (page : bytes) (extra_head_file extra_js_file : option bytes)
    : M (option (bytes * bytes * option bytes * option bytes)) :=
  base ← read_template_file (bs "base.html");
  match base with
  | None => mret None
  | Some base =>
      content ← read_template_file page;
      match content with
      | None => mret None
      | Some content =>
          extra_head ← load_template_component extra_head_file;
          extra_js ← load_template_component extra_js_file;
          mret (Some (base, content, extra_head, extra_js))
      end
  end.

Definition compose_layout (title base_template page_content : bytes)
    (extra_head extra_js : option bytes) : M (option bytes) :=
  replace_all base_template title page_content (default [] extra_head) (default [] extra_js).

(** The output when the result is 0; [None] is -1. *)
Definition template_render_with_data (data : option template_data) : M (option bytes) :=
  match data with
  | None => mret None
  | Some d =>
      match td_title d, td_page_content d with
      | Some title, Some page =>
          fragments ← load_layout_fragments page (td_extra_head_file d) (td_extra_js_file d);
          match fragments with
          | None => mret None
          | Some (base, content, extra_head, extra_js) =>
              compose_layout title base content extra_head extra_js
          end
      | _, _ => mret None
      end
  end.

Definition template_render (page : option bytes) : M (option bytes) :=
  template_render_with_data
    (Some {| td_title := Some (bs "MiniWeb"); td_page_content := page;
             td_extra_head_file := None; td_extra_js_file := None |}).
End template.

(** Unfolding a step of the monad. *)
Ltac run_m := run_st; unfold malloc; cbn beta iota.

(** ** Placeholders

    A template is a sequence of texts and placeholders. *)

Inductive slot := STitle | SPageContent | SExtraHead | SExtraJs.

#[export] Instance slot_eq_dec : EqDecision slot.
Proof. solve_decision. Defined.

Definition slots : list slot := [STitle; SPageContent; SExtraHead; SExtraJs].

Definition needle (k : slot) : bytes :=
  match k with
  | STitle => bs "{{title}}"
  | SPageContent => bs "{{page_content}}"
  | SExtraHead => bs "{{extra_head}}"
  | SExtraJs => bs "{{extra_js}}"
  end.

Inductive seg := Text (t : bytes) | Slot (k : slot).

(** The text with the placeholders [v] defines replaced. *)
Definition seg_text (v : slot → option bytes) (g : seg) : bytes :=
  match g with Text t => t | Slot k => default (needle k) (v k) end.

Definition flat (v : slot → option bytes) (segs : list seg) : bytes := segs ≫= seg_text v.

Definition segs_slots (segs : list seg) : list slot :=
  segs ≫= λ g, match g with Text _ => [] | Slot k => [k] end.

(** [n] occurs in [s]. *)
Definition occurs (n s : bytes) : Prop := ∃ i, is_prefix n (drop i s) = true ∧ i ≤ length s.

(** No needle overlaps another one or a shifted copy of itself: at every shift [d] of [m]
    against [n] other than the trivial one some byte differs.  [shift_in] puts the start of
    [n] inside [m], [shift_out] the start of [m] inside [n]. *)
Definition differs (n m : bytes) : bool :=
  existsb (λ p, negb (Ascii.eqb p.1 p.2)) (zip n m).

Definition shift_in (n m : bytes) (d : nat) : bool := differs n (drop d m).
Definition shift_out (n m : bytes) (d : nat) : bool := differs (drop d n) m.

Definition no_overlap (k j : slot) : bool :=
  forallb (λ d, shift_out (needle k) (needle j) d) (seq 1 (length (needle k) - 1)) &&
  forallb (λ d, shift_in (needle k) (needle j) d) (seq 1 (length (needle j) - 1)) &&
  (bool_decide (k = j) || shift_in (needle k) (needle j) 0).

Lemma needles_no_overlap k j : no_overlap k j = true.
Proof. destruct k, j; vm_compute; reflexivity. Qed.

Lemma needle_pos k : 0 < length (needle k).
Proof. destruct k; simpl; vm_compute; lia. Qed.

Lemma differs_spec n m : differs n m = true → ∀ s, is_prefix n (m ++ s) = false.
Proof.
  unfold differs. revert m. induction n as [|c n IH]; intros [|d m] H s; try done.
  cbn [zip zip_with existsb fst snd] in H. cbn [app is_prefix].
  destruct (Ascii.eqb_spec c d) as [->|Hne]; [|done]. by apply IH.
Qed.

Lemma is_prefix_app_l a n s : is_prefix (a ++ n) (a ++ s) = is_prefix n s.
Proof. induction a as [|c a IH]; simpl; [done|]. by rewrite ascii_eqb_refl. Qed.

Lemma is_prefix_drop d n s : is_prefix n s = true → is_prefix (drop d n) (drop d s) = true.
Proof.
  intros [post ->]%is_prefix_spec. rewrite drop_app. apply is_prefix_spec.
  destruct (decide (d ≤ length n)).
  - exists post. by replace (d - length n) with 0 by lia.
  - rewrite (drop_ge n d) by lia. by eexists.
Qed.

Lemma is_prefix_length n s : is_prefix n s = true → length n ≤ length s.
Proof. intros [post ->]%is_prefix_spec. rewrite length_app. lia. Qed.

(** Where a needle can be found around a placeholder that is still there. *)
Lemma occurrence_around k j x y i :
  is_prefix (needle k) (drop i (x ++ needle j ++ y)) = true →
  i + length (needle k) ≤ length x ∨
  (i = length x ∧ k = j) ∨
  length x + length (needle j) ≤ i.
Proof.
  intros H. pose proof (needles_no_overlap k j) as Hno. unfold no_overlap in Hno.
  apply andb_true_iff in Hno as [Hno Hzero]. apply andb_true_iff in Hno as [Hout Hin].
  rewrite forallb_forall in Hout, Hin.
  destruct (decide (i < length x)) as [Hi|Hi].
  - left. destruct (decide (i + length (needle k) ≤ length x)) as [|Hlong]; [done|exfalso].
    assert (is_prefix (drop (length x - i) (needle k)) (needle j ++ y) = true) as H'.
    { apply (is_prefix_drop (length x - i)) in H. rewrite drop_drop in H.
      replace (i + (length x - i)) with (length x) in H by lia. by rewrite drop_app_length in H. }
    specialize (Hout (length x - i)). unfold shift_out in Hout.
    rewrite (differs_spec _ _ (Hout ltac:(apply in_seq; lia))) in H'. done.
  - right. destruct (decide (length x + length (needle j) ≤ i)) as [|Hlt]; [by right|left].
    assert (is_prefix (needle k) (drop (i - length x) (needle j) ++ y) = true) as H'.
    { rewrite drop_app_ge, drop_app_le in H by lia. done. }
    destruct (decide (i = length x)) as [->|Hne].
    + split; [done|]. replace (length x - length x) with 0 in H' by lia.
      destruct (bool_decide_reflect (k = j)); [done|]. simpl in Hzero. unfold shift_in in Hzero.
      rewrite (differs_spec _ _ Hzero) in H'. done.
    + exfalso. specialize (Hin (i - length x)). unfold shift_in in Hin.
      rewrite (differs_spec _ _ (Hin ltac:(apply in_seq; lia))) in H'. done.
Qed.

(** An occurrence of a needle is its placeholder, or is in the finished text. *)
Lemma occurrence_at v vf k segs acc i :
  (∀ j x, v j = Some x → vf j = Some x) → (∀ j, vf j ≠ None) →
  is_prefix (needle k) (drop i (acc ++ flat v segs)) = true → i ≤ length (acc ++ flat v segs) →
  (∃ pre post, segs = pre ++ Slot k :: post ∧ v k = None ∧ i = length acc + length (flat v pre)) ∨
  occurs (needle k) (acc ++ flat vf segs).
Proof.
  intros Hsub Htot. revert acc i. induction segs as [|[t|j] segs IH]; intros acc i H Hi.
  - right. exists i. done.
  - change (flat v (Text t :: segs)) with (t ++ flat v segs) in *.
    change (flat vf (Text t :: segs)) with (t ++ flat vf segs).
    rewrite app_assoc in H, Hi. destruct (IH _ _ H Hi) as [(pre & post & -> & Hv & ->)|Hocc].
    + left. exists (Text t :: pre), post. split_and!; [done|done|].
      change (flat v (Text t :: pre)) with (t ++ flat v pre). rewrite !length_app. lia.
    + right. by rewrite app_assoc.
  - change (flat v (Slot j :: segs)) with (default (needle j) (v j) ++ flat v segs) in *.
    change (flat vf (Slot j :: segs)) with (default (needle j) (vf j) ++ flat vf segs).
    destruct (v j) as [x|] eqn:Hj; cbn [default from_option id] in *.
    + rewrite (Hsub _ _ Hj). cbn [default from_option id].
      rewrite app_assoc in H, Hi. destruct (IH _ _ H Hi) as [(pre & post & -> & Hv & ->)|Hocc].
      * left. exists (Slot j :: pre), post. split_and!; [done|done|].
        change (flat v (Slot j :: pre)) with (default (needle j) (v j) ++ flat v pre).
        rewrite Hj. cbn [default from_option id]. rewrite !length_app. lia.
      * right. by rewrite app_assoc.
    + destruct (occurrence_around k j acc (flat v segs) i H) as [Hin|[[-> ->]|Hout]].
      * right. exists i. rewrite length_app. split; [|lia].
        rewrite drop_app_le in H |- * by lia.
        apply is_prefix_spec in H as [post H]. apply is_prefix_spec.
        assert (needle k = take (length (needle k)) (drop i acc)) as Hn.
        { apply (f_equal (take (length (needle k)))) in H.
          rewrite take_app_length, take_app_le in H; [done|]. rewrite length_drop. lia. }
        exists (drop (length (needle k)) (drop i acc) ++ default (needle j) (vf j) ++ flat vf segs).
        rewrite Hn at 1. by rewrite (app_assoc (take _ _)), take_drop.
      * left. exists [], segs. split_and!; [done|done|]. simpl. lia.
      * rewrite length_app in Hi. rewrite length_app in Hi.
        assert (is_prefix (needle k) (drop (i - length acc - length (needle j)) ([] ++ flat v segs)) = true)
          as H'. { rewrite drop_app_ge, drop_app_ge in H by lia. done. }
        destruct (IH [] _ H' ltac:(simpl; lia)) as [(pre & post & -> & Hv & Hx)|(n & Hn & Hl)].
        -- left. exists (Slot j :: pre), post. split_and!; [done|done|].
           change (flat v (Slot j :: pre)) with (default (needle j) (v j) ++ flat v pre).
           rewrite Hj. cbn [default from_option id]. rewrite length_app. simpl in Hx. lia.
        -- right. exists (length acc + length (default (needle j) (vf j)) + n).
           rewrite drop_app_ge, drop_app_ge by lia.
           replace (_ - _ - _) with n by lia. split; [done|].
           rewrite !length_app. simpl in Hl. lia.
Qed.

Definition upd (v : slot → option bytes) (k : slot) (x : bytes) : slot → option bytes :=
  λ j, if decide (j = k) then Some x else v j.

Lemma flat_app v a b : flat v (a ++ b) = flat v a ++ flat v b.
Proof. apply bind_app. Qed.

Lemma segs_slots_app a b : segs_slots (a ++ b) = segs_slots a ++ segs_slots b.
Proof. apply bind_app. Qed.

Lemma flat_upd v k x segs : k ∉ segs_slots segs → flat (upd v k x) segs = flat v segs.
Proof.
  induction segs as [|[t|j] segs IH]; intros Hk; [done| |].
  - change (t ++ flat (upd v k x) segs = t ++ flat v segs). by rewrite IH.
  - change (default (needle j) (upd v k x j) ++ flat (upd v k x) segs
      = default (needle j) (v j) ++ flat v segs).
    change (k ∉ j :: segs_slots segs) in Hk. apply not_elem_of_cons in Hk as [Hne Hk].
    rewrite IH by done. f_equal. unfold upd. by rewrite decide_False.
Qed.

Lemma slot_occurs v k pre post :
  v k = None → occurs (needle k) (flat v (pre ++ Slot k :: post)).
Proof.
  intros Hv. exists (length (flat v pre)). rewrite flat_app, drop_app_length, length_app.
  change (flat v (Slot k :: post)) with (default (needle k) (v k) ++ flat v post). rewrite Hv.
  split; [apply is_prefix_app|lia].
Qed.

(** One replacement step. *)
Lemma replace_slot alloc v vf k x segs s :
  (∀ j y, v j = Some y → vf j = Some y) → (∀ j, vf j ≠ None) →
  v k = None → NoDup (segs_slots segs) → ¬ occurs (needle k) (flat vf segs) →
  replace_single alloc (flat v segs) (needle k) x s =
    (if alloc (ts_time s) then Some (flat (upd v k x) segs) else None, tick_t s).
Proof.
  intros Hsub Htot Hv Hnd Hno. unfold replace_single.
  destruct (strstr (flat v segs) (needle k)) as [i|] eqn:E.
  - pose proof (proj1 (strstr_Some _ _ _) E) as (Hp & Hi & _).
    destruct (occurrence_at v vf k segs [] i Hsub Htot Hp Hi) as [(pre & post & -> & _ & ->)|Hocc];
      [|done].
    rewrite segs_slots_app in Hnd. change (segs_slots (Slot k :: post)) with (k :: segs_slots post) in Hnd.
    apply NoDup_app in Hnd as (_ & Hpre & Hpost). apply NoDup_cons in Hpost as [Hpost _].
    assert (k ∉ segs_slots pre) as Hpre' by (intros Hin; by apply (Hpre k), elem_of_cons; [|left]).
    rewrite !flat_app, (flat_upd v k x pre) by done.
    change (flat v (Slot k :: post)) with (default (needle k) (v k) ++ flat v post).
    change (flat (upd v k x) (Slot k :: post))
      with (default (needle k) (upd v k x k) ++ flat (upd v k x) post).
    rewrite flat_upd by done. rewrite Hv. unfold upd at 1. rewrite decide_True by done.
    cbn [default from_option id].
    change (length (@nil ascii) + length (flat v pre)) with (length (flat v pre)).
    rewrite take_app_length, drop_app_add, drop_app_length. run_m. by destruct (alloc (ts_time s)).
  - assert (k ∉ segs_slots segs) as Hk.
    { intros Hin. apply list_elem_of_bind in Hin as (g & Hin & Hg).
      destruct g as [t|j]; [by apply elem_of_nil in Hin|]. apply list_elem_of_singleton in Hin as ->.
      apply list_elem_of_split in Hg as (pre & post & ->).
      destruct (slot_occurs v j pre post Hv) as (i & Hp & Hi).
      rewrite strstr_None in E. rewrite (E i Hi) in Hp. done. }
    rewrite flat_upd by done. unfold strdup. run_m. by destruct (alloc (ts_time s)).
Qed.

(** All of them, in any order. *)
Lemma replace_pairs_spec alloc (ks : list (slot * bytes)) v vf segs s :
  (∀ j y, v j = Some y → vf j = Some y) → (∀ j, vf j ≠ None) →
  (∀ j, v j = None → j ∈ ks.*1) → NoDup ks.*1 →
  (∀ k x, (k, x) ∈ ks → v k = None ∧ vf k = Some x) →
  NoDup (segs_slots segs) → (∀ k, ¬ occurs (needle k) (flat vf segs)) →
  let '(r, s') := replace_pairs alloc (flat v segs) (prod_map needle id <$> ks) s in
  (r = None ∨ r = Some (flat vf segs)) ∧
  ((∀ t, alloc t = true) → r = Some (flat vf segs)).
Proof.
  intros Hsub Htot. revert v s Hsub. induction ks as [|[k x] ks IH]; intros v s Hsub Hall Hndk Hks Hnd Hno.
  - assert (flat v segs = flat vf segs) as He.
    { clear -Hsub Hall. induction segs as [|[t|j] segs IH]; [done| |].
      - change (t ++ flat v segs = t ++ flat vf segs). by rewrite IH.
      - change (default (needle j) (v j) ++ flat v segs = default (needle j) (vf j) ++ flat vf segs).
        rewrite IH. f_equal. destruct (v j) as [y|] eqn:E; [by rewrite (Hsub _ _ E)|].
        specialize (Hall j E). by apply elem_of_nil in Hall. }
    cbn. rewrite He. auto.
  - destruct (Hks k x) as [Hvk Hvfk]; [by apply elem_of_cons; left|].
    cbn [fmap list_fmap fst] in Hndk. apply NoDup_cons in Hndk as [Hk Hndk].
    change (prod_map needle id <$> (k, x) :: ks) with ((needle k, x) :: (prod_map needle id <$> ks)).
    cbn [replace_pairs]. run_m.
    rewrite (replace_slot alloc v vf k x segs s) by done.
    destruct (alloc (ts_time s)) eqn:Ea; last first.
    { cbn. split; [by left|]. intros Hal. congruence. }
    apply IH.
    + intros j y. unfold upd. case_decide as E; [subst; congruence|apply Hsub].
    + intros j. unfold upd. case_decide as E; [done|]. intros Hj. specialize (Hall j Hj).
      by apply elem_of_cons in Hall as [?|?].
    + done.
    + intros k' x' Hin. destruct (Hks k' x') as [? ?]; [by apply elem_of_cons; right|].
      split; [|done]. unfold upd. rewrite decide_False; [done|]. intros ->. apply Hk.
      apply list_elem_of_fmap. by exists (k, x').
    + done.
    + done.
Qed.

(** The values of a page. *)
Definition page_values (title content : bytes) (extra_head extra_js : option bytes) (k : slot)
    : option bytes :=
  Some match k with
       | STitle => title
       | SPageContent => content
       | SExtraHead => default [] extra_head
       | SExtraJs => default [] extra_js
       end.

Lemma compose_layout_spec alloc title segs content extra_head extra_js s :
  let page := flat (page_values title content extra_head extra_js) segs in
  NoDup (segs_slots segs) → (∀ k, ¬ occurs (needle k) page) →
  let '(r, _) := compose_layout alloc title (flat (λ _, None) segs) content extra_head extra_js s in
  (r = None ∨ r = Some page) ∧ ((∀ t, alloc t = true) → r = Some page).
Proof.
  intros page Hnd Hno. unfold compose_layout, replace_all, replace_placeholders, strdup.
  run_m.
  destruct (alloc (ts_time s)) eqn:Ea; last first.
  { split; [by left|]. intros Hal. congruence. }
  pose proof (replace_pairs_spec alloc
    [(STitle, title); (SPageContent, content); (SExtraHead, default [] extra_head);
     (SExtraJs, default [] extra_js)] (λ _, None)
    (page_values title content extra_head extra_js) segs (tick_t s)) as H.
  apply H; [done|done| | | |done|done].
  - intros j _. destruct j; set_solver.
  - repeat (apply NoDup_cons; split; [set_solver|]). constructor.
  - intros k x Hin. repeat (apply elem_of_cons in Hin as [[= -> ->]|Hin]; [done|]).
    by apply elem_of_nil in Hin.
Qed.

(** ** The cache and the directory *)

Section cache.
Context (alloc : nat → bool) (clock : nat → Z) (dir : template_dir) (templates_dir : bytes).

(** The names [template_cache_reload_locked] loads. *)
Definition is_template (n : bytes) : bool :=
  negb (streq n (bs ".") || streq n (bs "..")) &&
  match dir_stat dir (templates_dir ++ bs "/" ++ n) with Some (regular, _) => regular | None => false end.

(** An entry that holds what a template file of the directory holds. *)
Definition loaded_from (e : template_entry) : Prop :=
  ∃ names f, dir_list dir = Some names ∧ te_filename e ∈ names ∧ is_template (te_filename e) = true ∧
    let path := templates_dir ++ bs "/" ++ te_filename e in
    length path < PATH_MAX ∧ dir_stat dir path = Some (true, te_mtime e) ∧
    dir_open dir path = Some f ∧
    te_content e = cstr (take (Z.to_nat (io_tell f)) (io_data f)) ∧
    te_len e = length (te_content e).

Definition cache_ok (s : tstate) : Prop := Forall loaded_from (template_cache s).

(** [s'] has the same templates as [s] and is not earlier. *)
Definition same_cache (s s' : tstate) : Prop :=
  template_cache s' = template_cache s ∧
  template_cache_last_refresh s' = template_cache_last_refresh s ∧ ts_time s ≤ ts_time s'.

Lemma read_file_content_spec path s :
  let '(r, s') := read_file_content alloc dir path s in
  same_cache s s' ∧
  ∀ c, r = Some c → ∃ f, dir_open dir path = Some f ∧ c = take (Z.to_nat (io_tell f)) (io_data f).
Proof.
  unfold read_file_content, same_cache. destruct (dir_open dir path) as [f|]; run_m; [|done].
  destruct (io_seek_end f); cbn [negb]; [|done].
  destruct (io_tell f <? 0)%Z; [done|]. destruct (io_seek_set f); cbn [negb]; [|done].
  destruct (alloc (ts_time s)); cbn [negb]; [|split; [split_and!; simpl; (done || lia)|done]].
  destruct (negb _ && _); (split; [split_and!; simpl; (done || lia)|]); [done|].
  intros c [= <-]. by exists f.
Qed.

Lemma add_template_spec filename path mtime s :
  let '(rc, s') := add_template_to_cache alloc dir filename path mtime s in
  template_cache_last_refresh s' = template_cache_last_refresh s ∧ ts_time s ≤ ts_time s' ∧
  ((rc = (-1)%Z ∧ template_cache s' = template_cache s) ∨
   rc = 0%Z ∧ ∃ f, dir_open dir path = Some f ∧
     let c := cstr (take (Z.to_nat (io_tell f)) (io_data f)) in
     template_cache s' = template_cache s ++
       [{| te_filename := filename; te_content := c; te_len := length c; te_mtime := mtime |}]).
Proof.
  unfold add_template_to_cache. pose proof (read_file_content_spec path s) as H. run_m.
  destruct (read_file_content alloc dir path s) as [[c|] s1]; destruct H as [(Hc & Hl & Ht) Hr].
  - destruct (alloc (ts_time s1)); cbn [negb].
    + unfold strdup. run_m. destruct (alloc (ts_time (tick_t s1))); cbn.
      * split_and!; [done|lia|]. right. split; [done|].
        destruct (Hr c eq_refl) as (f & Hf & ->). exists f. split; [done|]. by rewrite Hc.
      * split_and!; [done|lia|]. by left.
    + cbn. split_and!; [done|lia|]. by left.
  - cbn. split_and!; [done|done|]. by left.
Qed.

Lemma reload_loop_spec names loaded s :
  (∀ n, n ∈ names → ∃ all, dir_list dir = Some all ∧ n ∈ all) →
  let '(r, s') := reload_loop alloc dir templates_dir names loaded s in
  template_cache_last_refresh s' = template_cache_last_refresh s ∧ ts_time s ≤ ts_time s' ∧
  match r with
  | None => template_cache s' = []
  | Some l => ∃ es, template_cache s' = template_cache s ++ es ∧ Forall loaded_from es ∧
      te_filename <$> es = List.filter is_template names ∧
      l = loaded || bool_decide (es ≠ [])
  end.
Proof.
  revert loaded s. induction names as [|n names IH]; intros loaded s Hn.
  { cbn. split_and!; [done|done|]. exists []. split_and!; [by rewrite app_nil_r|by constructor|done|].
    by rewrite orb_false_r. }
  assert (∀ n, n ∈ names → ∃ all, dir_list dir = Some all ∧ n ∈ all) as Hn'.
  { intros n' Hin. apply Hn. by apply elem_of_cons; right. }
  cbn [reload_loop List.filter]. unfold is_template at 1.
  destruct (streq n (bs ".") || streq n (bs "..")) eqn:Hdot; cbn [negb andb]; [by apply IH|].
  assert (∀ f mt, dir_stat dir (templates_dir ++ bs "/" ++ n) = Some (true, mt) →
    length (templates_dir ++ bs "/" ++ n) < PATH_MAX →
    dir_open dir (templates_dir ++ bs "/" ++ n) = Some f →
    let c := cstr (take (Z.to_nat (io_tell f)) (io_data f)) in
    loaded_from {| te_filename := n; te_content := c; te_len := length c; te_mtime := mt |}) as Hnew.
  { intros f mt Hst Hlen Hop c. destruct (Hn n) as (all & Hall & Hin); [by apply elem_of_cons; left|].
    exists all, f. cbn [te_filename te_mtime te_content te_len]. cbn zeta.
    split_and!; [done|done| |done|done|done|done|done]. unfold is_template. by rewrite Hdot, Hst. }
  destruct (Nat.leb_spec PATH_MAX (length (templates_dir ++ bs "/" ++ n))) as [|Hlen].
  { by cbn. }
  destruct (dir_stat dir (templates_dir ++ bs "/" ++ n)) as [[regular mtime]|] eqn:Hst; [|by apply IH].
  destruct regular; cbn [negb]; [|by apply IH].
  pose proof (add_template_spec n (templates_dir ++ bs "/" ++ n) mtime s) as Ha. run_m.
  destruct (add_template_to_cache _ _ _ _ _ _) as [rc s1].
  destruct Ha as (Hl1 & Ht1 & [[-> Hc]|[-> (f & Hop & Hc)]]).
  - cbn. by split_and!.
  - cbn [Z.eqb negb]. specialize (IH true s1 Hn'). destruct (reload_loop _ _ _ _ _ _) as [[l|] s2];
      destruct IH as (Hl2 & Ht2 & Hr); (split; [congruence|]); (split; [lia|]); [|done].
    destruct Hr as (es & Hes & Hok & Hf & ->). cbn zeta in Hc.
    eexists (_ :: es). split; [rewrite Hes, Hc; by rewrite <- app_assoc|].
    split; [by apply Forall_cons; split; [apply Hnew|]|]. split; [|by rewrite orb_true_r].
    cbn [fmap list_fmap te_filename]. by rewrite <- Hf.
Qed.

Lemma reload_spec s :
  let '(rc, s') := template_cache_reload_locked alloc clock dir templates_dir s in
  cache_ok s' ∧ ts_time s ≤ ts_time s' ∧
  match rc with
  | 0%Z => (∃ t, ts_time s ≤ t < ts_time s' ∧ template_cache_last_refresh s' = clock t) ∧
      template_cache s' ≠ [] ∧
      ∃ names, dir_list dir = Some names ∧
        te_filename <$> template_cache s' = List.filter is_template names
  | _ => template_cache s' = []
  end.
Proof.
  unfold template_cache_reload_locked, template_cache_cleanup_locked, set_cache. run_m.
  destruct (dir_list dir) as [names|] eqn:Hd; [|cbn; split_and!; [by constructor|done|done]].
  set (s0 := {| template_cache := []; template_cache_last_refresh := _; ts_time := _ |}).
  pose proof (reload_loop_spec names false s0) as H.
  assert (∀ n, n ∈ names → ∃ all, dir_list dir = Some all ∧ n ∈ all) as Hn by eauto.
  specialize (H Hn). destruct (reload_loop _ _ _ _ _ _) as [[l|] s1]; destruct H as (_ & Ht & Hr).
  - destruct Hr as (es & Hes & Hok & Hf & Hl). unfold time_null, set_last_refresh.
    cbn in Hes, Hl, Ht. subst l. cbn. unfold cache_ok. cbn. rewrite Hes.
    split; [done|]. split; [lia|]. destruct es as [|e es]; [done|].
    split; [exists (ts_time s1); split; [lia|done]|]. split; [done|]. exists names. by rewrite <- Hf.
  - cbn in Ht. cbn. unfold cache_ok. rewrite Hr. by split_and!; [constructor|lia|].
Qed.

Lemma refresh_spec s :
  cache_ok s →
  let '(rc, s') := template_cache_refresh_locked alloc clock dir templates_dir s in
  cache_ok s' ∧
  (rc = 0%Z → ∃ t, ts_time s ≤ t < ts_time s' ∧
    (clock t - template_cache_last_refresh s' < TEMPLATE_CACHE_TTL_SEC)%Z).
Proof.
  intros Hok. unfold template_cache_refresh_locked, time_null, get. run_m.
  destruct (negb _ && (_ <? _)%Z) eqn:E.
  - apply andb_true_iff in E as [_ E%Z.ltb_lt]. cbn in E. split; [done|]. intros _.
    exists (ts_time s). cbn. split; [lia|done].
  - pose proof (reload_spec (tick_t s)) as H.
    destruct (template_cache_reload_locked _ _ _ _ _) as [rc s']. destruct H as (Hok' & Ht & Hr).
    split; [done|]. intros ->. destruct Hr as [(t & Ht2 & Hl) _]. exists t. cbn in Ht, Ht2.
    split; [lia|]. rewrite Hl, Z.sub_diag. unfold TEMPLATE_CACHE_TTL_SEC. lia.
Qed.

Lemma read_template_spec filename s :
  cache_ok s →
  let '(r, s') := read_template_file alloc clock dir templates_dir filename s in
  cache_ok s' ∧
  ∀ c, r = Some c →
    (∃ e, loaded_from e ∧ te_filename e = filename ∧ te_content e = c) ∧
    ∃ t, ts_time s ≤ t < ts_time s' ∧
      (clock t - template_cache_last_refresh s' < TEMPLATE_CACHE_TTL_SEC)%Z.
Proof.
  intros Hok. unfold read_template_file. pose proof (refresh_spec s Hok) as H. run_m.
  destruct (template_cache_refresh_locked _ _ _ _ _) as [rc s1]. destruct H as [Hok1 Hfresh].
  destruct (Z.eqb_spec rc 0) as [->|]; cbn [negb]; [|done]. cbn beta iota.
  destruct (Hfresh eq_refl) as (t & Ht & Hage). unfold find_template.
  destruct (list_find _ (template_cache s1)) as [[i e]|] eqn:Hf; [|done].
  apply list_find_Some in Hf as (Hi & Hname & _). apply streq_true in Hname.
  unfold strdup. run_m. split.
  { unfold cache_ok. by destruct (alloc (ts_time s1)). }
  intros c Hc. destruct (alloc (ts_time s1)); [|done]. injection Hc as <-. split.
  - exists e. split_and!; [|done|done]. by eapply Forall_lookup_1.
  - exists t. cbn. split; [lia|done].
Qed.
End cache.

(** ** The view handler *)

Definition HOT_VIEW_CACHE_TTL_SEC : Z := 10.

(** [body] and [created_at]; the paths are constant. *)
Record hot_view_cache_entry := HotView { hv_body : option bytes; hv_created_at : Z }.

Definition hot_view_paths : list bytes :=
  [bs "/"; bs "/docs"; bs "/networking"; bs "/packages"; bs "/apiroot"].

Record vstate := VState {
  vs_world : world;
  vs_templates : tstate;
  vs_hot : list hot_view_cache_entry;
}.

Definition initial_hot : list hot_view_cache_entry :=
  replicate (length hot_view_paths) {| hv_body := None; hv_created_at := 0 |}.

#[export] Instance hot_view_cache_entry_inhabited : Inhabited hot_view_cache_entry :=
  populate {| hv_body := None; hv_created_at := 0 |}.

Definition find_hot_view_cache_entry (path : bytes) : option nat :=
  match list_find (λ p, streq p path = true) hot_view_paths with
  | Some (i, _) => Some i
  | None => None
  end.

(** What the handler answers with. *)
Inductive view_answer :=
| ViewCached (body : bytes)
| ViewRendered (body : bytes)
| ViewError (code : Z) (message : bytes).

Section view.
Context (alloc : nat → bool) (clock : nat → Z) (dir : template_dir) (templates_dir : bytes).

Definition view_data (v : view_route) : template_data :=
  {| td_title := Some (vr_title v); td_page_content := Some (vr_page v);
     td_extra_head_file := Some (vr_extra_head v); td_extra_js_file := Some (vr_extra_js v) |}.

(** Rendering with the fall-back to the page alone. *)
Definition render_view (d : template_data) : M (option bytes) :=
  output ← template_render_with_data alloc clock dir templates_dir (Some d);
  match output with
  | Some o => mret (Some o)
  | None => template_render alloc clock dir templates_dir (td_page_content d)
  end.

(** The fresh entry of the path, if the path can be cached. *)
Definition hot_entry (url : bytes) : option nat :=
  match strchr url "?" with Some _ => None | None => find_hot_view_cache_entry url end.

Definition hot_body (hot : list hot_view_cache_entry) (now : Z) (i : nat) : option bytes :=
  let e := hot !!! i in
  if (now - hv_created_at e <=? HOT_VIEW_CACHE_TTL_SEC)%Z then hv_body e else None.

(** The answer, with the state of the templates and the hot cache after it. *)
Definition view_content (method url : bytes) (now : Z) (hot : list hot_view_cache_entry)
    (t : tstate) : view_answer * list hot_view_cache_entry * tstate :=
  match hot_entry url ≫= hot_body hot now with
  | Some body =>
      let '(cached, t) := strdup alloc body t in
      match cached with
      | None => (ViewError 500 (bs "Out of memory"), hot, t)
      | Some c => (ViewCached c, hot, t)
      end
  | None =>
      match find_view_route method url with
      | None => (ViewError 404 (bs "Not Found"), hot, t)
      | Some v =>
          let '(output, t) := render_view (view_data v) t in
          match output with
          | None => (ViewError 500 (bs "Template rendering failed"), hot, t)
          | Some output =>
              match hot_entry url with
              | None => (ViewRendered output, hot, t)
              | Some i =>
                  let '(copy, t) := strdup alloc output t in
                  match copy with
                  | None => (ViewRendered output, hot, t)
                  | Some copy =>
                      (ViewRendered output,
                       <[i := {| hv_body := Some copy; hv_created_at := now |}]> hot, t)
                  end
              end
          end
      end
  end.

Context (k : kernel) (fuel : nat) (tid : Z) (reg : registry).

Definition view_template_handler (req : http_request) (now : Z) (s : vstate)
    : option (Z * vstate) :=
  let '(answer, hot, t) :=
    view_content (req_method req) (req_url req) now (vs_hot s) (vs_templates s) in
  let r :=
    match answer with
    | ViewCached body => http_send_html k fuel tid req body (vs_world s)
    | ViewRendered output =>
        respond k fuel tid req (λ r, http_response_set_body r (Some output) (length output) true)
          (vs_world s)
    | ViewError code msg => http_send_error k fuel tid reg req code (Some msg) (vs_world s)
    end in
  match r with
  | None => None
  | Some (rc, w) => Some (rc, {| vs_world := w; vs_templates := t; vs_hot := hot |})
  end.
End view.

(** *** What the handler sends *)

Lemma find_hot_path url i :
  hot_entry url = Some i → hot_view_paths !! i = Some url ∧ i < length hot_view_paths.
Proof.
  unfold hot_entry, find_hot_view_cache_entry. destruct (strchr url "?"); [done|].
  destruct (list_find _ hot_view_paths) as [[j p]|] eqn:E; [|done]. intros [= ->].
  apply list_find_Some in E as (Hi & Hp & _). apply streq_true in Hp as ->.
  split; [done|]. by eapply lookup_lt_Some.
Qed.

(** Renderings so far: the URL, the page and the time. *)
Abbreviation renderings := (list (bytes * bytes * Z)).

(** Every page in the hot cache was rendered for its path at the time noted. *)
Definition hot_ok (hist : renderings) (hot : list hot_view_cache_entry) : Prop :=
  length hot = length hot_view_paths ∧
  ∀ i e b, hot !! i = Some e → hv_body e = Some b →
    ∃ p, hot_view_paths !! i = Some p ∧ (p, b, hv_created_at e) ∈ hist.

Definition rendered (url : bytes) (now : Z) (a : view_answer) : renderings :=
  match a with ViewRendered b => [(url, b, now)] | _ => [] end.

Section view_facts.
Context (alloc : nat → bool) (clock : nat → Z) (dir : template_dir) (templates_dir : bytes).

Lemma view_content_spec method url now hot t hist :
  hot_ok hist hot →
  let '(a, hot', _) := view_content alloc clock dir templates_dir method url now hot t in
  hot_ok (rendered url now a ++ hist) hot' ∧
  match a with
  | ViewCached b => ∃ t0, (url, b, t0) ∈ hist ∧ (now - t0 ≤ HOT_VIEW_CACHE_TTL_SEC)%Z
  | ViewRendered b => ∃ v t', find_view_route method url = Some v ∧
      render_view alloc clock dir templates_dir (view_data v) t = (Some b, t')
  | ViewError _ _ => True
  end.
Proof.
  intros [Hlen Hhot]. unfold view_content.
  destruct (hot_entry url ≫= hot_body hot now) as [b|] eqn:Eb.
  - destruct (strdup alloc b t) as [[c|] t1] eqn:Es; [|done]. split; [done|].
    assert (c = b) as ->.
    { unfold strdup in Es. revert Es. run_m. by destruct (alloc (ts_time t)) as [|]; intros [= -> _]. }
    apply bind_Some in Eb as (i & Hi & Hb). apply find_hot_path in Hi as [Hp Hlt].
    unfold hot_body in Hb. destruct (Z.leb_spec (now - hv_created_at (hot !!! i)) HOT_VIEW_CACHE_TTL_SEC);
      [|done].
    destruct (lookup_lt_is_Some_2 hot i) as [e He]; [lia|].
    rewrite (list_lookup_total_correct _ _ _ He) in *.
    destruct (Hhot _ _ _ He Hb) as (p & Hp' & Hin). exists (hv_created_at e). split; [|done].
    congruence.
  - destruct (find_view_route method url) as [v|] eqn:Ev; [|by split].
    destruct (render_view _ _ _ _ _ t) as [[o|] t1] eqn:Er; [|by split].
    assert (hot_ok ((url, o, now) :: hist) hot) as Hmono.
    { split; [done|]. intros i e b Hi Hb. destruct (Hhot i e b Hi Hb) as (p & ? & ?).
      exists p. split; [done|]. by apply elem_of_cons; right. }
    destruct (hot_entry url) as [i|] eqn:Ei; [|by split; [|eauto]].
    destruct (strdup alloc o t1) as [[c|] t2] eqn:Es; [|by split; [|eauto]]. split; [|eauto].
    assert (c = o) as ->.
    { unfold strdup in Es. revert Es. run_m. by destruct (alloc (ts_time t1)) as [|]; intros [= -> _]. }
    apply find_hot_path in Ei as [Hp Hlt]. destruct Hmono as [_ Hmono].
    split; [by rewrite length_insert|]. intros j e b Hj Hb.
    destruct (decide (j = i)) as [->|Hne].
    + rewrite list_lookup_insert_eq in Hj by lia. injection Hj as <-. injection Hb as <-.
      exists url. split; [done|]. by apply elem_of_cons; left.
    + rewrite list_lookup_insert_ne in Hj by done. by apply (Hmono j).
Qed.

(** The requests a server answers one after the other. *)
Fixpoint run_views (reqs : list (bytes * bytes * Z)) (hot : list hot_view_cache_entry)
    (t : tstate) : list view_answer :=
  match reqs with
  | [] => []
  | (method, url, now) :: reqs' =>
      let '(a, hot', t') := view_content alloc clock dir templates_dir method url now hot t in
      a :: run_views reqs' hot' t'
  end.

Definition rendered_by (reqs : list (bytes * bytes * Z)) (answers : list view_answer)
    (url b : bytes) (t0 : Z) : Prop :=
  ∃ j m, reqs !! j = Some (m, url, t0) ∧ answers !! j = Some (ViewRendered b).

Lemma run_views_spec reqs hot t hist i m url now b :
  hot_ok hist hot → reqs !! i = Some (m, url, now) →
  run_views reqs hot t !! i = Some (ViewCached b) →
  ∃ t0, (now - t0 ≤ HOT_VIEW_CACHE_TTL_SEC)%Z ∧
    ((url, b, t0) ∈ hist ∨
     rendered_by (take i reqs) (run_views reqs hot t) url b t0).
Proof.
  revert i hot t hist. induction reqs as [|[[m0 u0] n0] reqs IH]; intros i hot t hist Hok Hi Ha; [done|].
  cbn [run_views] in *. pose proof (view_content_spec m0 u0 n0 hot t hist Hok) as H.
  destruct (view_content _ _ _ _ m0 u0 n0 hot t) as [[a hot'] t']. destruct H as [Hok' Hans].
  destruct i as [|i].
  - injection Hi as -> -> ->. injection Ha as ->. destruct Hans as (t0 & Hin & Hage). eauto.
  - destruct (IH i hot' t' _ Hok' Hi Ha) as (t0 & Hage & [Hin|(j & mj & Hj & Haj)]).
    + exists t0. split; [done|]. apply elem_of_app in Hin as [Hin|Hin]; [|by left].
      right. destruct a as [|o|]; simpl in Hin; try by apply elem_of_nil in Hin.
      apply list_elem_of_singleton in Hin as [= -> -> ->]. by exists 0, m0.
    + exists t0. split; [done|]. right. by exists (S j), mj.
Qed.
End view_facts.

Lemma initial_hot_ok : hot_ok [] initial_hot.
Proof.
  split; [done|]. intros i e b He Hb. apply list_elem_of_lookup_2 in He.
  apply elem_of_replicate in He as [-> _]. done.
Qed.

(** The handler delivers its page and gives the response object back. *)
Lemma view_template_handler_sends alloc clock dir tdir k fuel tid reg req now s rc s' live :
  store_wf live (w_store (vs_world s)) →
  view_template_handler alloc clock dir tdir k fuel tid reg req now s = Some (rc, s') →
  let '(a, hot, t) := view_content alloc clock dir tdir (req_method req) (req_url req) now
                        (vs_hot s) (vs_templates s) in
  vs_hot s' = hot ∧ vs_templates s' = t ∧ store_wf live (w_store (vs_world s')) ∧
  match a with
  | ViewCached b | ViewRendered b =>
      (Z.of_nat (length b) < 10 ^ 20)%Z → delivers live b (vs_world s) rc (vs_world s')
  | ViewError code msg =>
      http_send_error k fuel tid reg req code (Some msg) (vs_world s) = Some (rc, vs_world s')
  end.
Proof.
  intros Hwf H. unfold view_template_handler in H.
  destruct (view_content _ _ _ _ _ _ _ _ _) as [[a hot] t].
  destruct a as [b|b|code msg].
  - destruct (http_send_html _ _ _ _ _ _) as [[rc0 w]|] eqn:E; [|done]. injection H as -> <-.
    cbn [vs_hot vs_templates vs_world]. unfold http_send_html in E. split_and!; [done|done| |].
    + eapply respond_spec in E as [? _]; done.
    + intros Hlen. by eapply http_send_html_delivers.
  - destruct (respond _ _ _ _ _ _) as [[rc0 w]|] eqn:E; [|done]. injection H as -> <-.
    cbn [vs_hot vs_templates vs_world]. split_and!; [done|done| |].
    + eapply respond_spec in E as [? _]; done.
    + intros Hlen. by eapply http_send_html_delivers.
  - destruct (http_send_error _ _ _ _ _ _ _ _) as [[rc0 w]|] eqn:E; [|done]. injection H as -> <-.
    cbn [vs_hot vs_templates vs_world]. split_and!; [done|done| |done].
    unfold http_send_error in E. eapply respond_spec in E as [? _]; [done|apply error_build_shard|done].
Qed.

(** *** http_render_template *)

(** [RenderNullBody] is the call of [strlen] on the output that was never written. *)
Inductive render_reply :=
| RenderReply (rc : Z) (w : world) (t : tstate)
| RenderBlocked
| RenderNullBody.

Definition render_reply_of (r : option (Z * world)) (t : tstate) : render_reply :=
  match r with Some (rc, w) => RenderReply rc w t | None => RenderBlocked end.

Definition http_render_template (alloc : nat → bool) (clock : nat → Z) (dir : template_dir)
    (templates_dir : bytes) (k : kernel) (fuel : nat) (tid : Z) (reg : registry)
    (req : http_request) (data : template_data) (fallback_template : option bytes) (w : world)
    (t : tstate) : render_reply :=
  let '(output, t) := template_render_with_data alloc clock dir templates_dir (Some data) t in
  let '(output, failed, t) :=
    match output, td_page_content data with
    | None, Some page =>
        let '(o, t) := template_render alloc clock dir templates_dir (Some page) t in
        (o, match o with None => true | Some _ => false end, t)
    | _, _ => (output, false, t)
    end in
  if failed then
    render_reply_of
      (http_send_error k fuel tid reg req 500
         (Some (default (bs "Template rendering failed") fallback_template)) w) t
  else match output with
  | Some o =>
      render_reply_of
        (respond k fuel tid req (λ r, http_response_set_body r (Some o) (length o) true) w) t
  | None =>
      match http_response_create tid (k_calloc k (w_time w)) (w_store w) with
      | (None, st) =>
          RenderReply (-1) {| w_store := st; w_time := w_time w; w_wire := w_wire w |} t
      | (Some _, _) => RenderNullBody
      end
  end.

(** With a page name the body is never NULL. *)
Lemma render_template_total alloc clock dir tdir k fuel tid reg req data fallback w t :
  td_page_content data ≠ None →
  http_render_template alloc clock dir tdir k fuel tid reg req data fallback w t ≠ RenderNullBody.
Proof.
  intros Hp. unfold http_render_template.
  destruct (template_render_with_data _ _ _ _ _ _) as [[o|] t1].
  - cbn beta iota. unfold render_reply_of. by destruct (respond _ _ _ _ _ _) as [[? ?]|].
  - destruct (td_page_content data) as [page|]; [|done].
    destruct (template_render _ _ _ _ _ _) as [[o|] t2]; unfold render_reply_of.
    + by destruct (respond _ _ _ _ _ _) as [[? ?]|].
    + by destruct (http_send_error _ _ _ _ _ _ _ _) as [[? ?]|].
Qed.

(** ** Properties *)


(** The template cache is faithful: whatever was read before, a template is answered only
    with the contents of the regular file of that name in the templates directory, as it was
    loaded by a reload that, at the time of the answer, is less than
    [TEMPLATE_CACHE_TTL_SEC] old; and a successful reload has loaded exactly the regular files
    of the directory, in order. *)
Theorem template_cache_faithful alloc clock dir tdir filename s :
  cache_ok dir tdir s →
  (let '(r, s') := read_template_file alloc clock dir tdir filename s in
   cache_ok dir tdir s' ∧
   ∀ c, r = Some c →
     (∃ e, loaded_from dir tdir e ∧ te_filename e = filename ∧ te_content e = c) ∧
     ∃ t, ts_time s ≤ t < ts_time s' ∧
       (clock t - template_cache_last_refresh s' < TEMPLATE_CACHE_TTL_SEC)%Z) ∧
  (let '(rc, s') := template_cache_init alloc clock dir tdir s in
   cache_ok dir tdir s' ∧
   (rc = 0%Z → ∃ names, dir_list dir = Some names ∧
      te_filename <$> template_cache s' = List.filter (is_template dir tdir) names)).
Proof.
  intros Hok. split; [by apply read_template_spec|].
  pose proof (reload_spec alloc clock dir tdir s) as H. unfold template_cache_init.
  destruct (template_cache_reload_locked _ _ _ _ _) as [rc s']. destruct H as (? & _ & H).
  split; [done|]. intros ->. by destruct H as (_ & _ & ?).
Qed.

(** C21. A page answered from the hot-view cache was rendered for the same URL by an earlier
    request and is at most ten seconds old. *)
Theorem hot_view_recent alloc clock dir tdir reqs t i m url now b :
  reqs !! i = Some (m, url, now) →
  run_views alloc clock dir tdir reqs initial_hot t !! i = Some (ViewCached b) →
  ∃ t0, (now - t0 ≤ 10)%Z ∧
    rendered_by (take i reqs) (run_views alloc clock dir tdir reqs initial_hot t) url b t0.
Proof.
  intros Hi Ha. destruct (run_views_spec _ _ _ _ _ _ _ [] _ _ _ _ _ initial_hot_ok Hi Ha)
    as (t0 & Hage & [Hin|Hr]); [by apply elem_of_nil in Hin|]. by exists t0.
Qed.

(** ** Witnesses *)

Definition file_of (data : bytes) : file_io :=
  {| io_seek_end := true; io_tell := Z.of_nat (length data); io_seek_set := true;
     io_data := data; io_error := false |}.

(** Two templates and a subdirectory. *)
Definition small_dir : template_dir :=
  {| dir_list := Some [bs "."; bs "base.html"; bs "old"; bs "docs.html"];
     dir_stat := λ p, Some (negb (streq p (bs "t/old")), 7%Z);
     dir_open := λ p,
       if streq p (bs "t/base.html")
       then Some (file_of (bs "<h>{{title}}</h>{{extra_js}}<p>{{page_content}}</p>"))
       else if streq p (bs "t/docs.html") then Some (file_of (bs "hello")) else None |}.

Definition base_segs : list seg :=
  [Text (bs "<h>"); Slot STitle; Text (bs "</h>"); Slot SExtraJs; Text (bs "<p>");
   Slot SPageContent; Text (bs "</p>")].

Definition docs_data : template_data :=
  {| td_title := Some (bs "Docs"); td_page_content := Some (bs "docs.html");
     td_extra_head_file := None; td_extra_js_file := Some (bs "docs.js") |}.

Lemma strstr_occurs n s : strstr s n = None → ¬ occurs n s.
Proof. rewrite strstr_None. intros H (i & Hp & Hi). by rewrite H in Hp. Qed.


Lemma template_cache_faithful_witness :
  let '(r, s') := read_template_file (λ _, true) (λ _, 100%Z) small_dir (bs "t") (bs "docs.html")
                    template_static in
  r = Some (bs "hello") ∧ cache_ok small_dir (bs "t") s'.
Proof.
  pose proof (template_cache_faithful (λ _, true) (λ _, 100%Z) small_dir (bs "t") (bs "docs.html")
    template_static (Forall_nil_2 _)) as [H _].
  assert ((read_template_file (λ _, true) (λ _, 100%Z) small_dir (bs "t") (bs "docs.html")
    template_static).1 = Some (bs "hello")) as Hv by (vm_compute; reflexivity).
  destruct (read_template_file _ _ _ _ _ _) as [r s']. destruct H as [H _].
  split; [exact Hv|exact H].
Defined.

Definition two_requests : list (bytes * bytes * Z) :=
  [(bs "GET", bs "/docs", 100); (bs "GET", bs "/docs", 109)]%Z.

Lemma hot_view_recent_witness :
  ∃ b t0, (109 - t0 ≤ 10)%Z ∧
    rendered_by [(bs "GET", bs "/docs", 100%Z)]
      (run_views (λ _, true) (λ _, 100%Z) small_dir (bs "t") two_requests initial_hot template_static)
      (bs "/docs") b t0.
Proof.
  exists (bs "<h>MiniWeb - Documentation</h><p>hello</p>").
  apply (hot_view_recent (λ _, true) (λ _, 100%Z) small_dir (bs "t") two_requests template_static 1
    (bs "GET") (bs "/docs") 109 (bs "<h>MiniWeb - Documentation</h><p>hello</p>") eq_refl).
  vm_compute. reflexivity.
Defined.

(** A value is scanned again for the placeholders that come later: a page that mentions one
    has it replaced. *)
Example values_are_scanned :
  (replace_all (λ _, true) (bs "{{page_content}}") [] (bs "use {{extra_js}}") [] (bs "X")
     template_static).1 = Some (bs "use X").
Proof. vm_compute. reflexivity. Qed.
