(* ===== verification/Subprocess.v ===== *)
(** * External programs (src/http/utils_subprocess.c)

    [safe_popen_read_argv] runs a program and returns what it wrote on its standard
    output.  The kernel is a record of parameters; every system call that changes the
    process table or the descriptor table is recorded in order.  [Runner] is what the
    modules that call programs rely on, and [popen_runner] is its implementation. *)

From S2P Require Import Prelude HttpResponse.

(** ** Definitions *)

(** What [poll] says of the read end of the pipe: the [POLLIN] bit and the
    [POLLERR | POLLHUP] bits. *)
Inductive pipe_poll := PipeReady (pollin hup : bool) | PipeTimeout | PipePollErr (e : errno).

Inductive pipe_read := PipeData (d : bytes) | PipeReadErr (e : errno).

Inductive sub_action :=
| SubClose (fd : Z)
| SubKill (pid : Z)
| SubWait (pid : Z).

(** The kernel, the clock and the allocator during one call.  The first argument of
    [sk_now], [sk_poll] and [sk_read] counts the turns of the loop; the position is the
    number of bytes taken from the pipe so far. *)
Record sub_kernel := {
  sk_pipe : option (Z * Z);
  sk_fork : option Z;
  sk_malloc : bool;
  sk_now : nat → Z;
  sk_poll : nat → nat → Z → pipe_poll;
  sk_read : nat → nat → nat → pipe_read
}.

(** The calls of the child, with the descriptor [/dev/null] opens on. *)
Inductive child_call :=
| ChildClose (fd : Z)
| ChildDup2 (from to : Z)
| ChildExec (path : bytes) (argv : list bytes)
| ChildExit (status : Z).

Definition child_process (dup2_ok : bool) (devnull : Z) (r w : Z) (path : bytes)
    (argv : list bytes) : list child_call :=
  [ChildClose r; ChildDup2 w 1] ++
  (if negb dup2_ok then [ChildExit 127]
   else
     [ChildClose w] ++
     (if (0 <=? devnull)%Z then [ChildDup2 devnull 2; ChildClose devnull] else []) ++
     [ChildExec path argv; ChildExit 127]).

(** [(int)((deadline - now) * 1000)], clipped at zero. *)
Definition wait_ms (deadline now : Z) : Z :=
  let ms := to_int32 ((deadline - now) * 1000) in if (0 <? ms)%Z then ms else 0%Z.

(** The loop: the bytes in [buffer], whether the time is up, and [None] while it has not
    ended. *)
Fixpoint read_output (k : sub_kernel) (max_size : nat) (deadline : Z) (fuel t : nat)
    (got : bytes) : option (bytes * bool) :=
  match fuel with
  | 0 => None
  | S fuel =>
      if max_size <=? length got then Some (got, false)
      else
        let now := sk_now k t in
        if (deadline <=? now)%Z then Some (got, true)
        else
          match sk_poll k t (length got) (wait_ms deadline now) with
          | PipeTimeout => Some (got, true)
          | PipePollErr EINTR => read_output k max_size deadline fuel (S t) got
          | PipePollErr _ => Some (got, false)
          | PipeReady true hup =>
              match sk_read k t (length got) (max_size - length got) with
              | PipeReadErr EAGAIN => read_output k max_size deadline fuel (S t) got
              | PipeReadErr _ => Some (got, false)
              | PipeData d =>
                  if length d =? 0 then Some (got, false)
                  else if hup then Some (got ++ d, false)
                  else read_output k max_size deadline fuel (S t) (got ++ d)
              end
          | PipeReady false hup =>
              if hup then Some (got, false)
              else read_output k max_size deadline fuel (S t) got
          end
  end.

Definition deadline_of (now timeout_seconds : Z) : Z :=
  now + (if (0 <? timeout_seconds)%Z then timeout_seconds else 5).

(** The returned buffer with [*out_len] bytes in it, [None] for NULL. *)
Definition safe_popen_read_argv (k : sub_kernel) (fuel : nat) (max_size : nat)
    (timeout_seconds : Z) : option (option bytes * list sub_action) :=
  match sk_pipe k with
  | None => Some (None, [])
  | Some (r, w) =>
      match sk_fork k with
      | None => Some (None, [SubClose r; SubClose w])
      | Some pid =>
          if negb (sk_malloc k) then Some (None, [SubClose w; SubClose r; SubKill pid; SubWait pid])
          else
            match read_output k max_size (deadline_of (sk_now k 0) timeout_seconds) fuel 1 [] with
            | None => None
            | Some (out, timed_out) =>
                Some (if timed_out || (length out =? 0) then None else Some out,
                      [SubClose w; SubClose r] ++ (if timed_out then [SubKill pid] else []) ++
                      [SubWait pid])
            end
      end
  end.

(** The arguments [safe_popen_read] passes on: path, argument vector, timeout. *)
Definition safe_popen_read_args (cmd : bytes) : bytes * list bytes * Z :=
  (bs "/bin/sh", [bs "sh"; bs "-c"; cmd], 5%Z).

(** ** What the callers rely on

    [run t path argv max_size timeout] is the answer to the [t]-th program a process
    starts. *)
Class Runner (run : nat → bytes → list bytes → Z → Z → option bytes) := {
  run_bounded t path argv m s out :
    run t path argv m s = Some out → (0 < Z.of_nat (length out) ≤ m)%Z
}.

(** A kernel for every program started, and fuel for its loop. *)
Definition popen_runner (ks : nat → bytes → list bytes → sub_kernel) (fuel : nat)
    (t : nat) (path : bytes) (argv : list bytes) (m s : Z) : option bytes :=
  match safe_popen_read_argv (ks t path argv) fuel (Z.to_nat m) s with
  | Some (out, _) => out
  | None => None
  end.

(** ** The pipe

    What POSIX promises of a pipe whose other end receives [stream] and is then closed. *)
Record pipe_carries (k : sub_kernel) (stream : bytes) : Prop := {
  read_slice t pos n d :
    sk_read k t pos n = PipeData d → length d ≤ n ∧ d = take (length d) (drop pos stream);
  read_eof t pos n : 0 < n → sk_read k t pos n = PipeData [] → length stream ≤ pos;
  (* a hang-up without data means that the pipe is empty *)
  hup_empty t pos w : sk_poll k t pos w = PipeReady false true → length stream ≤ pos;
  (* after a hang-up, [read] returns all that is left and fits *)
  hup_drains t pos w n d :
    sk_poll k t pos w = PipeReady true true → sk_read k t pos n = PipeData d →
    length d = Nat.min n (length stream - pos)
}.

(** No call fails for another reason than a signal or an empty pipe. *)
Record no_failure (k : sub_kernel) : Prop := {
  poll_works t pos w e : sk_poll k t pos w = PipePollErr e → e = EINTR;
  read_works t pos n e : sk_read k t pos n = PipeReadErr e → e = EAGAIN
}.

Section loop.
Context (k : sub_kernel) (max_size : nat) (deadline : Z).

(** The exits of the loop. *)
Lemma read_output_ind (P : bytes → Prop) (Q : bytes → bool → Prop) :
  (∀ got, P got → max_size ≤ length got → Q got false) →
  (∀ got, P got → Q got true) →
  (∀ got t w e, P got → sk_poll k t (length got) w = PipePollErr e → e ≠ EINTR → Q got false) →
  (∀ got t e, P got → sk_read k t (length got) (max_size - length got) = PipeReadErr e →
     e ≠ EAGAIN → Q got false) →
  (∀ got t, P got → length got < max_size →
     sk_read k t (length got) (max_size - length got) = PipeData [] → Q got false) →
  (∀ got t w, P got → sk_poll k t (length got) w = PipeReady false true → Q got false) →
  (∀ got t d w, P got → length got < max_size → d ≠ [] →
     sk_read k t (length got) (max_size - length got) = PipeData d →
     P (got ++ d) ∧
     (sk_poll k t (length got) w = PipeReady true true → Q (got ++ d) false)) →
  ∀ fuel t got out to, P got →
    read_output k max_size deadline fuel t got = Some (out, to) → Q out to.
Proof.
  intros Hfull Htime Hperr Hrerr Heof Hhup Hdata.
  induction fuel as [|fuel IH]; intros t got out to HP; [done|]. cbn [read_output].
  destruct (max_size <=? length got) eqn:Hm; bool_facts; [intros [= <- <-]; auto|].
  destruct (deadline <=? sk_now k t)%Z eqn:Hd; bool_facts; [intros [= <- <-]; auto|].
  set (w := wait_ms _ _). destruct (sk_poll k t (length got) w) as [[|] hup| |e] eqn:Ep.
  - destruct (sk_read k t (length got) (max_size - length got)) as [d|e] eqn:Er.
    + destruct (length d =? 0) eqn:E0; bool_facts.
      { apply nil_length_inv in E0 as ->. intros [= <- <-]. eauto. }
      assert (d ≠ []) as Hne by (intros ->; done).
      destruct (Hdata got t d w HP Hm Hne Er) as [HP' HQ].
      destruct hup; [intros [= <- <-]; auto | by apply IH].
    + destruct e; [intros [= <- <-]; by eapply Hrerr | by apply IH |
                   intros [= <- <-]; by eapply Hrerr].
  - destruct hup; [intros [= <- <-]; eauto | by apply IH].
  - intros [= <- <-]. auto.
  - destruct e; [by apply IH | intros [= <- <-]; by eapply Hperr ..].
Qed.

Lemma read_output_bound fuel t got out to :
  (∀ t pos n d, sk_read k t pos n = PipeData d → length d ≤ n) →
  length got ≤ max_size → read_output k max_size deadline fuel t got = Some (out, to) →
  length out ≤ max_size.
Proof.
  intros Hr. apply (read_output_ind (λ g, length g ≤ max_size) (λ o _, length o ≤ max_size)); auto.
  intros g t' d w Hg Hlt Hne Hd%Hr. rewrite length_app. split; intros; lia.
Qed.

Lemma read_output_prefix stream fuel t out to :
  pipe_carries k stream →
  read_output k max_size deadline fuel t [] = Some (out, to) →
  out = take (length out) stream ∧ length out ≤ max_size ∧
  (no_failure k → to = false → out = take max_size stream).
Proof.
  intros Hp.
  assert (∀ g, g = take (length g) stream → length stream ≤ length g → length g ≤ max_size →
          g = take max_size stream) as Hwhole.
  { intros g Hg Hl Hm. rewrite Hg. by rewrite !take_ge by lia. }
  apply (read_output_ind (λ g, g = take (length g) stream ∧ length g ≤ max_size)
    (λ o b, o = take (length o) stream ∧ length o ≤ max_size ∧
            (no_failure k → b = false → o = take max_size stream))).
  - intros g [Hg Hl] Hm. split_and!; [done|done|]. intros _ _. rewrite Hg at 1. f_equal. lia.
  - intros g [Hg Hl]. by split_and!.
  - intros g t' w e [Hg Hl] E He. split_and!; [done|done|]. intros Hn. by apply Hn in E.
  - intros g t' e [Hg Hl] E He. split_and!; [done|done|]. intros Hn. by apply Hn in E.
  - intros g t' [Hg Hl] Hlt E. split_and!; [done|done|]. intros _ _.
    apply Hwhole; [done| |done]. eapply read_eof; [done| |exact E]. lia.
  - intros g t' w [Hg Hl] E. split_and!; [done|done|]. intros _ _.
    apply Hwhole; [done| |done]. by eapply hup_empty.
  - intros g t' d w [Hg Hl] Hlt Hne E. pose proof (read_slice _ _ Hp _ _ _ _ E) as [Hd Hs].
    assert (g ++ d = take (length (g ++ d)) stream) as Hgd.
    { rewrite length_app, <- take_take_drop, <- Hg, <- Hs. done. }
    assert (length (g ++ d) ≤ max_size) by (rewrite length_app; lia).
    split; [done|]. intros Ep. split_and!; [done|done|]. intros _ _.
    pose proof (hup_drains _ _ Hp _ _ _ _ _ Ep E) as Hdr. rewrite Hgd.
    rewrite length_app in *. destruct (decide (max_size ≤ length stream)).
    + f_equal. lia.
    + rewrite !take_ge; [done|lia..].
  - split; [by rewrite take_0 | simpl; lia].
Qed.

(** Once the clock has reached the deadline, the loop ends. *)
Lemma read_output_deadline n t got :
  (deadline ≤ sk_now k (t + n))%Z → is_Some (read_output k max_size deadline (S n) t got).
Proof.
  revert t got. induction n as [|n IH]; intros t got Hd.
  - cbn [read_output]. destruct (_ <=? _); [done|].
    rewrite Nat.add_0_r in Hd. by rewrite (proj2 (Z.leb_le _ _) Hd).
  - specialize (λ got, IH (S t) got ltac:(by rewrite Nat.add_succ_comm)) as IH'.
    clear IH Hd. revert IH'. generalize (S n). intros fuel IH'. cbn [read_output].
    repeat (case_match; try done; try apply IH').
Qed.
End loop.

(** ** Properties *)


(** A child that writes ten bytes and closes its end: the first read is interrupted, the
    second takes four bytes, the third the rest after the hang-up. *)
Definition demo_kernel : sub_kernel := {|
  sk_pipe := Some (7, 8)%Z; sk_fork := Some 42%Z; sk_malloc := true; sk_now := λ t, 100%Z;
  sk_poll := λ t pos _, match t with
                        | 1 => PipePollErr EINTR
                        | 2 => PipeReady true false
                        | _ => if decide (pos < 10) then PipeReady true true
                               else PipeReady false true end;
  sk_read := λ t pos n, PipeData (take (if t =? 2 then Nat.min n 4 else n)
                                    (drop pos (bs "0123456789"))) |}.

Lemma demo_kernel_carries : pipe_carries demo_kernel (bs "0123456789").
Proof.
  split; cbn [sk_read sk_poll demo_kernel].
  - intros t pos n d [= <-]. rewrite length_take. split; [destruct (t =? 2); lia|].
    by rewrite <- length_take, take_length_take.
  - intros t pos n Hn [= E]. apply (f_equal length) in E.
    rewrite length_take, length_drop in E. simpl in E. change (length (bs "0123456789")) with 10 in *.
    destruct (t =? 2); lia.
  - intros t pos w E. change (length (bs "0123456789")) with 10.
    destruct t as [|[|[|]]]; try done; case_decide; try done; lia.
  - intros t pos w n d Hp [= <-]. rewrite length_take, length_drop.
    destruct t as [|[|[|]]]; done.
Qed.



(** A child that never writes, under a stream of signals. *)
Definition silent_kernel : sub_kernel := {|
  sk_pipe := Some (7, 8)%Z; sk_fork := Some 42%Z; sk_malloc := true;
  sk_now := λ t, Z.of_nat t; sk_poll := λ _ _ _, PipePollErr EINTR;
  sk_read := λ _ _ _, PipeReadErr EAGAIN |}.


(** The child's standard output is the pipe before the program starts, and nothing runs
    after a failed [execv] but the exit. *)
Lemma child_process_output dup2_ok devnull r w path argv :
  ChildExec path argv ∈ child_process dup2_ok devnull r w path argv ↔ dup2_ok = true.
Proof.
  unfold child_process. destruct dup2_ok; simpl.
  - split; [done|]. intros _. destruct (0 <=? devnull)%Z; set_solver.
  - split; [|done]. rewrite !elem_of_cons, elem_of_nil. naive_solver.
Qed.

(** ** The interface's implementation *)

Lemma popen_runner_laws ks fuel :
  (∀ t path argv u pos n d, sk_read (ks t path argv) u pos n = PipeData d → length d ≤ n) →
  Runner (popen_runner ks fuel).
Proof.
  intros Hr. split. intros t path argv m s out. unfold popen_runner, safe_popen_read_argv.
  destruct (sk_pipe _) as [[r w]|]; [|done]. destruct (sk_fork _); [|done].
  destruct (negb _); [done|].
  destruct (read_output _ _ _ _ _ _) as [[o to]|] eqn:E; [|done].
  apply read_output_bound in E; [|by apply Hr|simpl; lia].
  destruct to; [done|]. simpl. destruct (length o =? 0) eqn:E0; bool_facts; [done|].
  intros [= <-]. lia.
Qed.
