(* ===== verification/Packages.v ===== *)
(** * The package manager module (src/modules/packages/packages_module.c)

    The module answers the /api/packages requests with the output of pkg_info as JSON and
    keeps the answers in a ring of [PKG_RING_CAPACITY] samples.  The functions work in the
    state monad over [pkg_state]: the ring with its ready flag, a counter of the questions
    put to the clock, the allocator and the programs, the programs started so far and the
    faults, that is the accesses to memory the code does not own.

    [run] is [safe_popen_read_argv] (Subprocess.v), [shell] is popen(3): the text a
    command line given to /bin/sh prints, [None] when popen returns NULL. *)

From S2P Require Import Prelude Ring Conf HttpUtils Json JsonBuf QueryString Router ResponsePool HttpResponse Subprocess.

(** ** Constants and data *)

Definition PKG_JSON_MAX : Z := 1024 * 1024.
Definition PKG_CMD_MAX_OUTPUT : Z := 8 * 1024 * 1024.
Definition PKG_WHICH_TIMEOUT : Z := 60.
Definition PKG_CACHE_TTL_SEC : Z := 30.

(** [PKG_RING_BYTES / sizeof(PkgSample)], the size being 304 bytes (LP64). *)
Definition PKG_RING_CAPACITY : nat := N.to_nat (2 * 1024 * 1024 / 304).

Lemma PKG_RING_CAPACITY_val : Z.of_nat PKG_RING_CAPACITY = 6898%Z.
Proof. reflexivity. Qed.

#[global] Opaque PKG_RING_CAPACITY.

Lemma PKG_RING_CAPACITY_pos : 0 < PKG_RING_CAPACITY.
Proof. pose proof PKG_RING_CAPACITY_val. lia. Qed.

Record PkgSample := {
  ps_ts : Z;
  ps_endpoint : bytes;
  ps_key : bytes;
  ps_json : option bytes;
  ps_hits : Z
}.

Definition zero_sample : PkgSample :=
  {| ps_ts := 0; ps_endpoint := []; ps_key := []; ps_json := None; ps_hits := 0 |}.

#[export] Instance PkgSample_inhabited : Inhabited PkgSample := populate zero_sample.

Record PkgRing := {
  pr_buf : option (list PkgSample);
  pr_head : nat;
  pr_count : nat;
  pr_total_hits : Z;
  pr_total_misses : Z;
  pr_last_stats : Z
}.

(** A program started: through [execv], or a command line for the shell. *)
Inductive exec := Exec (path : bytes) (argv : list bytes) | Shell (cmd : bytes).

Inductive fault := HeapOverrun | UseAfterFree.

Record pkg_state := {
  pk_ring : PkgRing;
  pk_ready : bool;
  pk_once : bool;
  pk_time : nat;
  pk_execs : list exec;
  pk_faults : list fault
}.

Definition zero_ring : PkgRing :=
  {| pr_buf := None; pr_head := 0; pr_count := 0; pr_total_hits := 0; pr_total_misses := 0;
     pr_last_stats := 0 |}.

Definition pkg_static : pkg_state :=
  {| pk_ring := zero_ring; pk_ready := false; pk_once := false; pk_time := 0;
     pk_execs := []; pk_faults := [] |}.

Abbreviation PM := (ST pkg_state).

Definition set_ring (r : PkgRing) (s : pkg_state) : pkg_state :=
  {| pk_ring := r; pk_ready := pk_ready s; pk_once := pk_once s; pk_time := pk_time s;
     pk_execs := pk_execs s; pk_faults := pk_faults s |}.

Definition set_flags (ready once : bool) (s : pkg_state) : pkg_state :=
  {| pk_ring := pk_ring s; pk_ready := ready; pk_once := once; pk_time := pk_time s;
     pk_execs := pk_execs s; pk_faults := pk_faults s |}.

Definition pk_tick (s : pkg_state) : pkg_state :=
  {| pk_ring := pk_ring s; pk_ready := pk_ready s; pk_once := pk_once s;
     pk_time := S (pk_time s); pk_execs := pk_execs s; pk_faults := pk_faults s |}.

Definition note_exec (e : exec) (s : pkg_state) : pkg_state :=
  {| pk_ring := pk_ring s; pk_ready := pk_ready s; pk_once := pk_once s;
     pk_time := pk_time s; pk_execs := pk_execs s ++ [e]; pk_faults := pk_faults s |}.

Definition note_faults (f : list fault) (s : pkg_state) : pkg_state :=
  {| pk_ring := pk_ring s; pk_ready := pk_ready s; pk_once := pk_once s;
     pk_time := pk_time s; pk_execs := pk_execs s; pk_faults := pk_faults s ++ f |}.

(** ** Checks on names, paths and queries *)

Definition pkg_name_char (c : ascii) : bool :=
  isalnum c || Ascii.eqb c "." || Ascii.eqb c "_" || Ascii.eqb c "-" || Ascii.eqb c "+".

Definition is_safe_pkg_name (name : bytes) : bool :=
  negb (length name =? 0) && forallb pkg_name_char name.

(** The characters [is_safe_path] refuses. *)
Definition path_char_refused (c : ascii) : bool :=
  (byte_val c <? 32)%Z || (byte_val c =? 127)%Z ||
  bool_decide (c ∈ bs ";|&`$><\'") || Ascii.eqb c dq.

Definition is_safe_path (path : bytes) : bool :=
  match path with
  | [] => false
  | c :: _ => Ascii.eqb c "/" && forallb (λ c, negb (path_char_refused c)) path
  end.

Definition is_blank_char (c : ascii) : bool := Ascii.eqb c space || Ascii.eqb c tab.

(** Drop the trailing bytes that satisfy [f]. *)
Definition drop_trailing (f : ascii → bool) (s : bytes) : bytes :=
  rev (skip_while f (rev s)).

Definition trim_ascii_whitespace (s : bytes) : bytes :=
  drop_trailing is_blank_char (skip_while is_blank_char s).

(** ** Lines *)

(** [line[strcspn(line, "\r")] = '\0'] *)
Definition cut_cr (line : bytes) : bytes := take (strcspn line [cr]) line.

(** The text of a line that goes into the array, [None] for a line left out: in
    [pkg_search_json], [pkg_files_json] and [pkg_list_json]. *)
Definition search_line (line : bytes) : option bytes :=
  let line := trim_ascii_whitespace (cut_cr line) in
  if negb (length line =? 0) && (1 <? length line) then Some line else None.

Definition file_line (line : bytes) : option bytes :=
  let line := cut_cr line in
  match line with c :: _ => if Ascii.eqb c "/" then Some line else None | [] => None end.

Definition list_line (line : bytes) : option bytes :=
  let line := cut_cr line in if negb (length line =? 0) then Some line else None.

Section packages.
Context (alloc : nat → bool) (clock : nat → Z).
Context (run : nat → bytes → list bytes → Z → Z → option bytes).
Context (shell : nat → bytes → option bytes).

Definition malloc : PM bool := λ s, (alloc (pk_time s), pk_tick s).

Definition time_null : PM Z := λ s, (clock (pk_time s), pk_tick s).

Definition strdup (b : bytes) : PM (option bytes) :=
  ok ← malloc; mret (if ok : bool then Some b else None).

(** [json_escape_string] with its allocation. *)
Definition escape (b : bytes) : PM bytes :=
  ok ← malloc; mret (json_escape_string ok (Some b)).

(** [safe_popen_read_argv("/usr/sbin/pkg_info", ...)], read as a C string. *)
Definition pkg_info (argv : list bytes) (timeout : Z) : PM (option bytes) := λ s,
  (cstr <$> run (pk_time s) (bs "/usr/sbin/pkg_info") argv PKG_CMD_MAX_OUTPUT timeout,
   pk_tick (note_exec (Exec (bs "/usr/sbin/pkg_info") argv) s)).

(** ** The ring *)

(** The result says whether it is 0. *)
Definition pkg_ring_init : PM bool :=
  ok ← malloc;
  if negb ok then
    s ← get;
    _ ← modify (set_ring {| pr_buf := None; pr_head := pr_head (pk_ring s);
      pr_count := pr_count (pk_ring s); pr_total_hits := pr_total_hits (pk_ring s);
      pr_total_misses := pr_total_misses (pk_ring s);
      pr_last_stats := pr_last_stats (pk_ring s) |});
    mret false
  else
    now ← time_null;
    _ ← modify (set_ring {| pr_buf := Some (replicate PKG_RING_CAPACITY zero_sample);
      pr_head := 0; pr_count := 0; pr_total_hits := 0; pr_total_misses := 0;
      pr_last_stats := now |});
    mret true.

Definition new_sample (ts : Z) (endpoint key : bytes) (json : option bytes) (old : PkgSample)
    : PkgSample :=
  {| ps_ts := ts; ps_endpoint := strlcpy 16 endpoint; ps_key := strlcpy 256 key;
     ps_json := json; ps_hits := match json with Some _ => 1 | None => ps_hits old end |}.

Definition pkg_ring_push (endpoint key json : bytes) : PM unit :=
  s ← get;
  match pr_buf (pk_ring s) with
  | None => mret tt
  | Some buf =>
      if length json =? 0 then mret tt
      else
        ts ← time_null;
        ok ← malloc;
        let r := pk_ring s in
        modify (set_ring {|
          pr_buf := Some (<[pr_head r := new_sample ts endpoint key
                             (if ok : bool then Some json else None) (buf !!! pr_head r)]> buf);
          pr_head := (pr_head r + 1) mod PKG_RING_CAPACITY;
          pr_count := if pr_count r <? PKG_RING_CAPACITY then S (pr_count r) else pr_count r;
          pr_total_hits := pr_total_hits r; pr_total_misses := pr_total_misses r;
          pr_last_stats := pr_last_stats r |})
  end.

(** The condition on a sample. *)
Definition sample_matches (endpoint key : bytes) (now max_age : Z) (s : PkgSample) : bool :=
  match ps_json s with Some _ => true | None => false end &&
  streq (ps_endpoint s) endpoint && streq (ps_key s) key && (now - ps_ts s <=? max_age)%Z.

(** One turn of the search: [found_idx] and [newest_ts]. *)
Definition find_turn (buf : list PkgSample) (start : nat) (endpoint key : bytes)
    (now max_age : Z) (acc : option nat * Z) (i : nat) : option nat * Z :=
  let idx := (start + PKG_RING_CAPACITY - i) mod PKG_RING_CAPACITY in
  let s := buf !!! idx in
  if sample_matches endpoint key now max_age s && (acc.2 <? ps_ts s)%Z
  then (Some idx, ps_ts s) else acc.

Definition find_index (r : PkgRing) (buf : list PkgSample) (endpoint key : bytes)
    (now max_age : Z) : option nat :=
  let start := (pr_head r + PKG_RING_CAPACITY - 1) mod PKG_RING_CAPACITY in
  (foldl (find_turn buf start endpoint key now max_age) (None, 0%Z) (seq 0 (pr_count r))).1.

Definition sample_hit (s : PkgSample) : PkgSample :=
  {| ps_ts := ps_ts s; ps_endpoint := ps_endpoint s; ps_key := ps_key s; ps_json := ps_json s;
     ps_hits := wrap32 (ps_hits s + 1) |}.

(** The counters after the search, and the statistics line every thousand requests. *)
Definition count_search (r : PkgRing) (buf : list PkgSample) (hit : bool) (now : Z) : PkgRing :=
  let hits := if hit then wrap32 (pr_total_hits r + 1) else pr_total_hits r in
  let misses := if hit then pr_total_misses r else wrap32 (pr_total_misses r + 1) in
  {| pr_buf := Some buf; pr_head := pr_head r; pr_count := pr_count r;
     pr_total_hits := hits; pr_total_misses := misses;
     pr_last_stats :=
       if (wrap32 (hits + misses) mod 1000 =? 0)%Z && (5 <? now - pr_last_stats r)%Z
       then now else pr_last_stats r |}.

(** [pkg_ring_find] before it takes the lock: the time, when there is anything to search. *)
Definition find_start : PM (option Z) :=
  s ← get;
  match pr_buf (pk_ring s) with
  | None => mret None
  | Some _ => if pr_count (pk_ring s) =? 0 then mret None else now ← time_null; mret (Some now)
  end.

(** The search, under the lock. *)
Definition find_locked (endpoint key : bytes) (max_age now : Z) : PM (option bytes) :=
  s ← get;
  let r := pk_ring s in
  match pr_buf r with
  | None => mret None
  | Some buf =>
      match find_index r buf endpoint key now max_age with
      | None => _ ← modify (set_ring (count_search r buf false now)); mret None
      | Some idx =>
          ok ← malloc;
          if ok : bool then
            _ ← modify (set_ring (count_search r (alter sample_hit idx buf) true now));
            mret (ps_json (buf !!! idx))
          else _ ← modify (set_ring (count_search r buf false now)); mret None
      end
  end.

Definition pkg_ring_find (endpoint key : bytes) (max_age : Z) : PM (option bytes) :=
  now ← find_start;
  match now with
  | None => mret None
  | Some now => find_locked endpoint key max_age now
  end.

Definition pkg_ring_free : PM unit :=
  s ← get;
  let r := pk_ring s in
  match pr_buf r with
  | None => mret tt
  | Some _ =>
      modify (set_ring {| pr_buf := None; pr_head := 0; pr_count := 0;
        pr_total_hits := pr_total_hits r; pr_total_misses := pr_total_misses r;
        pr_last_stats := pr_last_stats r |})
  end.

Definition packages_cache_bootstrap : PM unit :=
  ok ← pkg_ring_init;
  s ← get;
  if ok : bool then modify (set_flags true (pk_once s)) else mret tt.

(** [pthread_once(&g_packages_once, packages_cache_bootstrap)] *)
Definition packages_once : PM unit :=
  s ← get;
  if pk_once s then mret tt
  else _ ← modify (set_flags (pk_ready s) true); packages_cache_bootstrap.

Definition packages_cache_cleanup : PM unit := pkg_ring_free.

(** The block every query function starts with: the bootstrap and the ring. *)
Definition cached_answer (endpoint key : bytes) : PM (option bytes) :=
  _ ← packages_once;
  s ← get;
  if pk_ready s then pkg_ring_find endpoint key PKG_CACHE_TTL_SEC else mret None.

(** The block it ends with. *)
Definition keep_answer (endpoint key json : bytes) : PM unit :=
  s ← get;
  if pk_ready s then pkg_ring_push endpoint key json else mret tt.

(** ** Answers *)

Definition raw_trailing (c : ascii) : bool :=
  Ascii.eqb c lf || Ascii.eqb c cr || Ascii.eqb c space || Ascii.eqb c tab.

Definition make_raw_json (output : option bytes) : PM (option bytes) :=
  match output with
  | None | Some [] => strdup (qs "{'raw':'','found':false}")
  | Some o =>
      copy ← strdup o;
      match copy with
      | None => mret None
      | Some copy =>
          esc ← escape (drop_trailing raw_trailing copy);
          ok ← malloc;
          mret (if ok : bool
                then Some (strlcpy (length esc + 32) (qs "{'raw':'" ++ esc ++ qs "','found':true}"))
                else None)
      end
  end.

(** [while (line && offset < PKG_JSON_MAX - 256)], with the filter of the caller. *)
Fixpoint append_lines (keep : bytes → option bytes) (lines : list bytes) (first : bool)
    (b : jbuf) : PM jbuf :=
  match lines with
  | [] => mret b
  | l :: lines' =>
      if (jb_off b <? PKG_JSON_MAX - 256)%Z then
        match keep l with
        | None => append_lines keep lines' first b
        | Some text =>
            escaped ← escape text;
            append_lines keep lines' false (jb_printf PKG_JSON_MAX (json_item first escaped) b)
        end
      else mret b
  end.

(** The array of the kept lines of [output] behind [head], and a fault if a write left
    the buffer. *)
Definition json_array (keep : bytes → option bytes) (head : bytes) (lines : list bytes)
    : PM bytes :=
  b ← append_lines keep lines true (jb_printf PKG_JSON_MAX head empty_jbuf);
  let b := jb_printf PKG_JSON_MAX (bs "]}") b in
  _ ← modify (note_faults (if jb_overrun b then [HeapOverrun] else []));
  mret (jb_text b).

Definition empty_search : bytes := qs "{'query':'','packages':[]}".

(** [output] in [pkg_search_json]: [Dangling] after a [free] that no assignment
    follows. *)
Inductive pointer := PNull | PBytes (b : bytes) | Dangling.

(** [!output || output[0] == '\0'] *)
Definition no_output (p : pointer) : bool :=
  match p with PBytes (_ :: _) => false | _ => true end.

Definition to_pointer (o : option bytes) : pointer :=
  match o with Some b => PBytes b | None => PNull end.

(** The value of [output] after [free(output)]. *)
Definition freed (p : pointer) : pointer := match p with PNull => PNull | _ => Dangling end.

(** Reading through [p] and passing it to [free] again. *)
Definition use_faults (p : pointer) : list fault :=
  match p with Dangling => [UseAfterFree] | _ => [] end.

(** The loop that filters the package list. *)
Definition grep_line (query : bytes) (output line : bytes) : bytes :=
  match strstr line query with
  | None => output
  | Some _ =>
      if (Z.of_nat (length output + length line + 2) <? PKG_CMD_MAX_OUTPUT)%Z then
        let output := if 0 <? length output then strlcat PKG_CMD_MAX_OUTPUT output [lf]
                      else output in
        strlcat PKG_CMD_MAX_OUTPUT output line
      else output
  end.

Definition grep_fallback (query : bytes) (output : pointer) : PM pointer :=
  list_output ← pkg_info [bs "pkg_info"; bs "-q"] 5;
  match list_output with
  | None => mret (freed output)
  | Some o =>
      ok ← malloc;
      mret (if ok : bool then PBytes (foldl (grep_line query) [] (strtok lf o)) else PNull)
  end.

Definition FGETS_SIZE : nat := N.to_nat 1024.

(** [while (fgets(buf, sizeof(buf), fp) && total < PKG_CMD_MAX_OUTPUT - 1)] *)
Fixpoint fgets_loop (fuel : nat) (s output : bytes) : bytes :=
  match fuel, s with
  | S fuel, _ :: _ =>
      let '(buf, rest) := fgets (FGETS_SIZE - 1) s in
      if (Z.of_nat (length output) <? PKG_CMD_MAX_OUTPUT - 1)%Z then
        let buf := cstr buf in
        if (Z.of_nat (length output + length buf) <? PKG_CMD_MAX_OUTPUT - 1)%Z
        then fgets_loop fuel rest (strlcat PKG_CMD_MAX_OUTPUT output buf)
        else fgets_loop fuel rest output
      else output
  | _, _ => output
  end.

Definition popen_command (query : bytes) : bytes :=
  strlcpy 256 (bs "pkg_info -Q " ++ query ++ bs " 2>&1").

Definition popen_fallback (query : bytes) (output : pointer) : PM pointer :=
  s ← get;
  _ ← modify (note_exec (Shell (popen_command query)));
  _ ← modify pk_tick;
  match shell (pk_time s) (popen_command query) with
  | None => mret (freed output)
  | Some text =>
      ok ← malloc;
      mret (if ok : bool then PBytes (fgets_loop (length text) text []) else PNull)
  end.

(** The three ways to obtain [output], with the faults of testing a freed pointer. *)
Definition search_output (query : bytes) : PM pointer :=
  o1 ← (if is_safe_pkg_name query
        then o ← pkg_info [bs "pkg_info"; bs "-Q"; query] 5; mret (to_pointer o)
        else mret PNull);
  o2 ← (if no_output o1 then grep_fallback query o1 else mret o1);
  _ ← modify (note_faults (use_faults o2));
  o3 ← (if no_output o2 then popen_fallback query o2 else mret o2);
  _ ← modify (note_faults (use_faults o3));
  mret o3.

Definition pkg_search_json (query : bytes) : PM (option bytes) :=
  match query with
  | [] => strdup empty_search
  | _ =>
      cached ← cached_answer (bs "search") query;
      match cached with
      | Some json => mret (Some json)
      | None =>
          output ← search_output query;
          match output with
          | PBytes ((_ :: _) as o) =>
              ok ← malloc;
              if negb ok then strdup empty_search
              else
                esc ← escape query;
                json ← json_array search_line
                         (qs "{'query':'" ++ esc ++ qs "','packages':[") (strtok lf o);
                _ ← keep_answer (bs "search") query json;
                mret (Some json)
          | _ => strdup empty_search
          end
      end
  end.

Definition pkg_info_json (package_name : bytes) : PM (option bytes) :=
  if negb (is_safe_pkg_name package_name)
  then strdup (qs "{'found':false,'raw':'invalid package name'}")
  else
    cached ← cached_answer (bs "info") package_name;
    match cached with
    | Some json => mret (Some json)
    | None =>
        output ← pkg_info [bs "pkg_info"; package_name] 5;
        json ← make_raw_json output;
        match json with
        | Some json => _ ← keep_answer (bs "info") package_name json; mret (Some json)
        | None => strdup (qs "{'found':false,'raw':''}")
        end
    end.

Definition pkg_files_json (package_name : bytes) : PM (option bytes) :=
  if negb (is_safe_pkg_name package_name)
  then strdup (qs "{'error':'invalid package name'}")
  else
    cached ← cached_answer (bs "files") package_name;
    match cached with
    | Some json => mret (Some json)
    | None =>
        output ← pkg_info [bs "pkg_info"; bs "-L"; package_name] 5;
        esc ← escape package_name;
        ok ← malloc;
        match output with
        | None =>
            mret (if ok : bool
                  then Some (strlcpy (length esc + 80)
                               (qs "{'package':'" ++ esc ++ qs "','files':[]}"))
                  else None)
        | Some o =>
            if negb ok then mret None
            else
              json ← json_array file_line (qs "{'package':'" ++ esc ++ qs "','files':[")
                       (strtok lf o);
              _ ← keep_answer (bs "files") package_name json;
              mret (Some json)
        end
    end.

Definition pkg_list_json : PM (option bytes) :=
  cached ← cached_answer (bs "list") (bs "all");
  match cached with
  | Some json => mret (Some json)
  | None =>
      output ← pkg_info [bs "pkg_info"; bs "-qmz"] 5;
      ok ← malloc;
      if negb ok then strdup (qs "{'packages':[]}")
      else
        json ← json_array list_line (qs "{'packages':[") (strtok lf (default [] output));
        _ ← keep_answer (bs "list") (bs "all") json;
        mret (Some json)
  end.

Definition packages_json_list : PM (option bytes) := pkg_list_json.

Definition packages_service_search_json (query : bytes) : PM (option bytes) := pkg_search_json query.

Definition pkg_which_json (file_path : bytes) : PM (option bytes) :=
  if negb (is_safe_path file_path)
  then strdup (qs "{'found':false,'raw':'path must be absolute and contain no shell metacharacters'}")
  else
    cached ← cached_answer (bs "which") file_path;
    match cached with
    | Some json => mret (Some json)
    | None =>
        output ← pkg_info [bs "pkg_info"; bs "-W"; file_path] PKG_WHICH_TIMEOUT;
        output ← (match output with
                  | Some (_ :: _) => mret output
                  | _ => pkg_info [bs "pkg_info"; bs "-E"; file_path] PKG_WHICH_TIMEOUT
                  end);
        json ← make_raw_json output;
        match json with
        | Some json => _ ← keep_answer (bs "which") file_path json; mret (Some json)
        | None => strdup (qs "{'found':false,'raw':''}")
        end
    end.

(** ** The handler *)

Inductive pkg_request :=
| Search (q : bytes)
| Info (name : bytes)
| Which (path : bytes)
| Files (name : bytes)
| ListAll.

Definition pkg_answer (r : pkg_request) : PM (option bytes) :=
  match r with
  | Search q => pkg_search_json q
  | Info n => pkg_info_json n
  | Which p => pkg_which_json p
  | Files n => pkg_files_json n
  | ListAll => pkg_list_json
  end.

Definition VALUE_SIZE : nat := N.to_nat 1024.

(** The endpoint and its parameter, or the status and text of the error answer. *)
Definition pkg_route (url : bytes) : pkg_request + Z * bytes :=
  let base := bs "/api/packages" in
  if negb (is_prefix base url) then inr (400%Z, bs "Bad Request")
  else
    let path := drop (length base) url in
    let with_value key err mk :=
      match get_query_value url (bs key) VALUE_SIZE with
      | None => inr (400%Z, bs err)
      | Some value => inl (mk (cstr value))
      end in
    if path_matches_endpoint path (bs "/search")
    then with_value "q"%string "Missing q parameter"%string Search
    else if path_matches_endpoint path (bs "/info")
    then with_value "name"%string "Missing name parameter"%string Info
    else if path_matches_endpoint path (bs "/which")
    then with_value "path"%string "Missing path parameter"%string Which
    else if path_matches_endpoint path (bs "/files")
    then with_value "name"%string "Missing name parameter"%string Files
    else if path_matches_endpoint path (bs "/list") then inl ListAll
    else inr (404%Z, bs "Unknown packages endpoint").

(** The updates of the new response object. *)
Definition pkg_build (json : bytes) (r : http_response) : http_response :=
  let r := set_content_type (http_response_set_status r 200) (bs "application/json") in
  let r := http_response_add_header r (bs "Access-Control-Allow-Origin") (bs "*") in
  http_response_set_body r (Some json) (length json) true.

(** The handler writes through the result of [http_response_create] without a test. *)
Inductive api_outcome := ApiCrash | ApiDone (rc : Z) (w : world).

Section handler.
Context (k : kernel) (fuel : nat) (tid : Z) (reg : registry).

Definition api_done (r : option (Z * world)) : option api_outcome :=
  (λ p, ApiDone p.1 p.2) <$> r.

(** The end of the handler, with a JSON text to send. *)
Definition send_answer (req : http_request) (json : bytes) (w : world) : option api_outcome :=
  match (http_response_create tid (k_calloc k (w_time w)) (w_store w)).1 with
  | None => Some ApiCrash
  | Some _ => api_done (respond k fuel tid req (pkg_build json) w)
  end.

(** [None] while a write is still blocked. *)
Definition pkg_api_handler (req : http_request) (w : world) : PM (option api_outcome) :=
  match pkg_route (req_url req) with
  | inr (code, msg) => mret (api_done (http_send_error k fuel tid reg req code (Some msg) w))
  | inl r =>
      json ← pkg_answer r;
      match json with
      | None => mret (api_done (http_send_error k fuel tid reg req 500
                       (Some (bs "Unable to query package manager")) w))
      | Some json => mret (send_answer req json w)
      end
  end.
End handler.
End packages.

(** ** The ring as a log

    The ring holds the last [PKG_RING_CAPACITY] samples pushed, oldest first, whatever the
    popularity counters say. *)

Definition forget_hits (s : PkgSample) : PkgSample :=
  {| ps_ts := ps_ts s; ps_endpoint := ps_endpoint s; ps_key := ps_key s; ps_json := ps_json s;
     ps_hits := 0 |}.

Record ring_holds (r : PkgRing) (log : list PkgSample) : Prop := {
  rh_count : pr_count r = Nat.min PKG_RING_CAPACITY (length log);
  rh_head : pr_head r < PKG_RING_CAPACITY;
  rh_buf : ∃ buf, pr_buf r = Some buf ∧ length buf = PKG_RING_CAPACITY ∧
    ring_view PKG_RING_CAPACITY (pr_head r + PKG_RING_CAPACITY - pr_count r) (pr_count r)
      (forget_hits <$> buf) = lastn PKG_RING_CAPACITY (forget_hits <$> log)
}.

Lemma forget_lookup (buf : list PkgSample) (i : nat) : (forget_hits <$> buf) !!! i = forget_hits (buf !!! i).
Proof.
  destruct (buf !! i) as [x|] eqn:E.
  - rewrite (list_lookup_total_correct _ _ _ E). apply list_lookup_total_correct.
    by rewrite list_lookup_fmap, E.
  - rewrite !list_lookup_total_alt, list_lookup_fmap, E. done.
Qed.

Lemma ring_init_holds buf0 now :
  ring_holds {| pr_buf := Some (replicate PKG_RING_CAPACITY zero_sample); pr_head := 0;
    pr_count := 0; pr_total_hits := buf0; pr_total_misses := buf0; pr_last_stats := now |} [].
Proof.
  pose proof PKG_RING_CAPACITY_pos. split; cbn [pr_count pr_head pr_buf].
  - by rewrite Nat.min_0_r.
  - done.
  - eexists. split_and!; [reflexivity|apply length_replicate|done].
Qed.

(** The newest match of a window, by its position counted from the newest sample. *)
Record newest_match (endpoint key : bytes) (now max_age : Z) (at_ : nat → PkgSample) (n i : nat)
    : Prop := {
  nm_bound : i < n;
  nm_match : sample_matches endpoint key now max_age (at_ i) = true;
  nm_pos : (0 < ps_ts (at_ i))%Z;
  nm_max j : j < n → sample_matches endpoint key now max_age (at_ j) = true →
    (ps_ts (at_ j) ≤ ps_ts (at_ i))%Z
}.

Section find.
Context (buf : list PkgSample) (start : nat) (endpoint key : bytes) (now max_age : Z).

Let at_ (i : nat) : PkgSample :=
  buf !!! ((start + PKG_RING_CAPACITY - i) mod PKG_RING_CAPACITY).

Lemma find_fold n :
  match foldl (find_turn buf start endpoint key now max_age) (None, 0%Z) (seq 0 n) with
  | (None, ts) => ts = 0%Z ∧
      ∀ j, j < n → sample_matches endpoint key now max_age (at_ j) = true → (ps_ts (at_ j) ≤ 0)%Z
  | (Some idx, ts) => ∃ i, idx = (start + PKG_RING_CAPACITY - i) mod PKG_RING_CAPACITY ∧
      ts = ps_ts (at_ i) ∧ newest_match endpoint key now max_age at_ n i
  end.
Proof.
  induction n as [|n IH]; [simpl; split; [done|lia]|].
  rewrite seq_S, foldl_app. cbn [foldl Nat.add].
  destruct (foldl _ _ _) as [found ts] eqn:Ef. unfold find_turn at 1. fold (at_ n). cbn [snd].
  destruct (sample_matches endpoint key now max_age (at_ n) && (ts <? ps_ts (at_ n))%Z) eqn:Em.
  - bool_facts. exists n. split_and!; [done|done|]. split; [lia|done| |].
    + destruct found as [idx|]; [destruct IH as (i & _ & -> & [_ _ ? _]); lia|].
      destruct IH as [-> _]. lia.
    + intros j Hj Hm. destruct (decide (j = n)) as [->|Hn]; [lia|].
      destruct found as [idx|].
      * destruct IH as (i & _ & -> & [_ _ _ Hmax]).
        pose proof (Hmax j ltac:(lia) Hm). lia.
      * destruct IH as [-> Hmax]. pose proof (Hmax j ltac:(lia) Hm). lia.
  - apply andb_false_iff in Em.
    assert (sample_matches endpoint key now max_age (at_ n) = true → (ps_ts (at_ n) ≤ ts)%Z) as Hn.
    { intros Hm. destruct Em as [Em|Em]; [congruence|]. bool_facts. lia. }
    destruct found as [idx|].
    + destruct IH as (i & -> & -> & [? ? ? Hmax]). exists i. split_and!; [done|done|].
      split; [lia|done|done|]. intros j Hj Hm. destruct (decide (j = n)) as [->|]; [auto|].
      apply Hmax; [lia|done].
    + destruct IH as [-> Hmax]. split; [done|]. intros j Hj Hm.
      destruct (decide (j = n)) as [->|]; [auto|]. apply Hmax; [lia|done].
Qed.
End find.

(** What the search finds in a ring that holds [log]: a match among the last samples with
    the greatest time. *)
Lemma find_index_spec r buf log endpoint key now max_age :
  ring_holds r log → pr_buf r = Some buf →
  match find_index r buf endpoint key now max_age with
  | Some idx => idx < length buf ∧
      forget_hits (buf !!! idx) ∈ lastn PKG_RING_CAPACITY (forget_hits <$> log) ∧
      sample_matches endpoint key now max_age (buf !!! idx) = true ∧
      (∀ s, s ∈ lastn PKG_RING_CAPACITY (forget_hits <$> log) →
        sample_matches endpoint key now max_age s = true → (ps_ts s ≤ ps_ts (buf !!! idx))%Z)
  | None => ∀ s, s ∈ lastn PKG_RING_CAPACITY (forget_hits <$> log) →
      sample_matches endpoint key now max_age s = true → (ps_ts s ≤ 0)%Z
  end.
Proof.
  intros [Hc Hh (buf' & Hb & Hl & Hv)] Hbuf. rewrite Hbuf in Hb. injection Hb as <-.
  pose proof PKG_RING_CAPACITY_pos as Hpos. unfold find_index.
  set (start := (pr_head r + PKG_RING_CAPACITY - 1) mod PKG_RING_CAPACITY).
  set (at_ i := buf !!! ((start + PKG_RING_CAPACITY - i) mod PKG_RING_CAPACITY)).
  (* the window, newest first *)
  assert (∀ s, s ∈ lastn PKG_RING_CAPACITY (forget_hits <$> log) ↔
    ∃ i, i < pr_count r ∧ s = forget_hits (at_ i)) as Hin.
  { intros s. rewrite <- Hv. unfold ring_view. rewrite list_elem_of_fmap.
    assert (∀ i, i < pr_count r →
      (pr_head r + PKG_RING_CAPACITY - pr_count r + (pr_count r - 1 - i)) mod PKG_RING_CAPACITY
      = (start + PKG_RING_CAPACITY - i) mod PKG_RING_CAPACITY) as Hidx.
    { intros i Hi. subst start. revert Hi Hpos Hc. generalize PKG_RING_CAPACITY.
      intros cap Hi Hpos Hc.
      rewrite <- (Nat.add_sub_assoc ((_ + _ - _) mod cap)), Nat.Div0.add_mod_idemp_l by lia.
      replace (pr_head r + cap - 1 + (cap - i))
        with (pr_head r + cap - pr_count r + (pr_count r - 1 - i) + 1 * cap) by lia.
      by rewrite Nat.Div0.mod_add. }
    split.
    - intros (k & -> & Hk%elem_of_seq). exists (pr_count r - 1 - k). split; [lia|].
      unfold at_. rewrite forget_lookup, <- Hidx by lia. do 4 f_equal. lia.
    - intros (i & Hi & ->). exists (pr_count r - 1 - i). split; [|apply elem_of_seq; lia].
      by rewrite forget_lookup, Hidx by lia. }
  pose proof (find_fold buf start endpoint key now max_age (pr_count r)) as H.
  destruct (foldl _ _ _) as [[idx|] ts]; cbn [fst].
  - destruct H as (i & -> & -> & [Hi Hm _ Hmax]). fold (at_ i). split_and!.
    + rewrite Hl. apply mod_lt. exact Hpos.
    + apply Hin. eauto.
    + exact Hm.
    + intros s (j & Hj & ->)%Hin Hs. by apply (Hmax j Hj).
  - destruct H as [_ Hmax]. intros s (j & Hj & ->)%Hin Hs. by apply (Hmax j Hj).
Qed.

(** ** Serving requests *)

(** The ring and the flags are left alone. *)
Definition same_ring (s s' : pkg_state) : Prop :=
  pk_ring s' = pk_ring s ∧ pk_ready s' = pk_ready s ∧ pk_once s' = pk_once s ∧
  pk_time s ≤ pk_time s' ∧ ∃ e, pk_execs s' = pk_execs s ++ e.

#[export] Instance same_ring_preorder : PreOrder same_ring.
Proof.
  split.
  - intros s. split_and!; try done. exists []. by rewrite app_nil_r.
  - intros s1 s2 s3 (? & ? & ? & ? & e1 & He1) (? & ? & ? & ? & e2 & He2).
    split_and!; try congruence; [lia|]. exists (e1 ++ e2). by rewrite He2, He1, app_assoc.
Qed.

Abbreviation quiet := (steps same_ring).

(** [m] is quiet and starts a program. *)
Definition starts {A} (m : PM A) : Prop :=
  quiet m ∧ ∀ s, length (pk_execs s) < length (pk_execs (m s).2).

Lemma starts_bind_l {A B} (m : PM A) (f : A → PM B) :
  starts m → (∀ x, quiet (f x)) → starts (m ≫= f).
Proof.
  intros [Hq Hm] Hf. split; [by apply steps_bind; [apply _|..]|]. intros s. unfold mbind, ST_bind.
  specialize (Hm s). destruct (m s) as [x s1]. destruct (Hf x s1) as (_ & _ & _ & _ & e & ->).
  rewrite length_app. cbn [snd] in Hm. lia.
Qed.

Lemma starts_bind_r {A B} (m : PM A) (f : A → PM B) :
  quiet m → (∀ x, starts (f x)) → starts (m ≫= f).
Proof.
  intros Hm Hf. split; [apply steps_bind; [apply _|done|apply Hf]|]. intros s. unfold mbind, ST_bind.
  destruct (Hm s) as (_ & _ & _ & _ & e & He). destruct (m s) as [x s1].
  pose proof (proj2 (Hf x) s1). cbn [snd] in He. rewrite He, length_app in *. lia.
Qed.

Create HintDb pkg.
#[local] Hint Resolve steps_ret steps_bind steps_get starts_bind_l starts_bind_r : pkg.
#[local] Hint Extern 0 (Reflexive _) => apply _ : pkg.
#[local] Hint Extern 0 (Transitive _) => apply _ : pkg.

Lemma quiet_note_faults f : quiet (modify (note_faults f)).
Proof. intros s. unfold same_ring. cbn. split_and!; try done. exists []. by rewrite app_nil_r. Qed.

#[local] Hint Resolve quiet_note_faults : pkg.

Section quiet.
Context (alloc : nat → bool) (clock : nat → Z).
Context (run : nat → bytes → list bytes → Z → Z → option bytes).
Context (shell : nat → bytes → option bytes).

Lemma quiet_malloc : quiet (malloc alloc).
Proof. intros s. unfold same_ring. cbn. split_and!; try done; [lia|]. exists []. by rewrite app_nil_r. Qed.

Lemma starts_pkg_info argv t : starts (pkg_info run argv t).
Proof.
  split.
  - intros s. unfold same_ring. cbn. split_and!; try done; [lia|]. eauto.
  - intros s. cbn. rewrite length_app. simpl. lia.
Qed.

Lemma quiet_starts {A} (m : PM A) : starts m → quiet m.
Proof. by intros []. Qed.

#[local] Hint Resolve quiet_malloc starts_pkg_info quiet_starts : pkg.

Lemma quiet_strdup b : quiet (strdup alloc b).
Proof. unfold strdup. auto with pkg. Qed.

Lemma quiet_escape b : quiet (escape alloc b).
Proof. unfold escape. auto with pkg. Qed.

#[local] Hint Resolve quiet_strdup quiet_escape : pkg.

Lemma quiet_make_raw_json o : quiet (make_raw_json alloc o).
Proof.
  unfold make_raw_json. destruct o as [[|c o]|]; auto with pkg.
  apply (steps_bind same_ring); [auto with pkg|]. intros [c'|]; auto with pkg.
Qed.

Lemma quiet_append_lines keep lines first b : quiet (append_lines alloc keep lines first b).
Proof.
  revert first b. induction lines as [|l lines IH]; intros first b; simpl; [auto with pkg|].
  destruct (_ <? _)%Z; [|auto with pkg]. destruct (keep l); auto with pkg.
Qed.

#[local] Hint Resolve quiet_make_raw_json quiet_append_lines : pkg.

Lemma quiet_json_array keep head lines : quiet (json_array alloc keep head lines).
Proof. unfold json_array. auto 7 with pkg. Qed.

Lemma starts_grep_fallback q o : starts (grep_fallback alloc run q o).
Proof.
  unfold grep_fallback. apply starts_bind_l; [auto with pkg|]. intros [l|]; auto with pkg.
Qed.

Lemma quiet_popen_fallback q o : quiet (popen_fallback alloc shell q o).
Proof.
  intros s. unfold same_ring, popen_fallback. run_st. destruct (shell _ _); cbn.
  all: split_and!; try done; [lia|]; eauto.
Qed.

#[local] Hint Resolve quiet_json_array starts_grep_fallback quiet_popen_fallback : pkg.

Lemma starts_search_output q : starts (search_output alloc run shell q).
Proof.
  unfold search_output.
  assert (∀ o2, quiet (_ ← modify (note_faults (use_faults o2));
    o3 ← (if no_output o2 then popen_fallback alloc shell q o2 else mret o2);
    _ ← modify (note_faults (use_faults o3)); mret o3)) as Hq.
  { intros o2. apply (steps_bind same_ring); [auto with pkg|]. intros _.
    apply (steps_bind same_ring); [destruct (no_output o2); auto with pkg|]. auto with pkg. }
  destruct (is_safe_pkg_name q).
  - apply starts_bind_l; [auto with pkg|]. intros o1.
    apply (steps_bind same_ring); [destruct (no_output o1); auto with pkg|done].
  - assert (starts (grep_fallback alloc run q PNull ≫= λ o2, _ ← modify (note_faults (use_faults o2));
      o3 ← (if no_output o2 then popen_fallback alloc shell q o2 else mret o2);
      _ ← modify (note_faults (use_faults o3)); mret o3)) as H by auto with pkg.
    exact H.
Qed.

#[local] Hint Resolve starts_search_output : pkg.

(** *** The requests *)

Definition endpoint_of (r : pkg_request) : bytes :=
  match r with
  | Search _ => bs "search" | Info _ => bs "info" | Which _ => bs "which"
  | Files _ => bs "files" | ListAll => bs "list"
  end.

Definition key_of (r : pkg_request) : bytes :=
  match r with Search s | Info s | Which s | Files s => s | ListAll => bs "all" end.

(** The requests answered with a fixed text. *)
Definition rejected (r : pkg_request) : option bytes :=
  match r with
  | Search [] => Some empty_search
  | Search _ | ListAll => None
  | Info n => if is_safe_pkg_name n then None
              else Some (qs "{'found':false,'raw':'invalid package name'}")
  | Files n => if is_safe_pkg_name n then None
               else Some (qs "{'error':'invalid package name'}")
  | Which p => if is_safe_path p then None
               else Some (qs "{'found':false,'raw':'path must be absolute and contain no shell metacharacters'}")
  end.

(** Every other request asks the ring, and on a miss computes an answer, which it may
    store. *)
Definition answer_with (r : pkg_request) (compute : PM (option bytes * bool))
    : PM (option bytes) :=
  cached ← cached_answer alloc clock (endpoint_of r) (key_of r);
  match cached with
  | Some json => mret (Some json)
  | None =>
      x ← compute;
      match x with
      | (Some json, true) => _ ← keep_answer alloc clock (endpoint_of r) (key_of r) json; mret (Some json)
      | (o, _) => mret o
      end
  end.

Lemma answer_rejected r text s :
  rejected r = Some text → pkg_answer alloc clock run shell r s = strdup alloc text s.
Proof.
  destruct r as [[|c q]|n|p|n|]; simpl; try done.
  - by intros [= <-].
  - unfold pkg_info_json. destruct (is_safe_pkg_name n); [done|]. by intros [= <-].
  - unfold pkg_which_json. destruct (is_safe_path p); [done|]. by intros [= <-].
  - unfold pkg_files_json. destruct (is_safe_pkg_name n); [done|]. by intros [= <-].
Qed.

Definition raw_answer (m : PM (option bytes)) : PM (option bytes * bool) :=
  output ← m;
  json ← make_raw_json alloc output;
  match json with
  | Some json => mret (Some json, true)
  | None => o ← strdup alloc (qs "{'found':false,'raw':''}"); mret (o, false)
  end.

Lemma starts_raw_answer m : starts m → starts (raw_answer m).
Proof.
  intros Hm. unfold raw_answer. apply starts_bind_l; [done|]. intros o.
  apply (steps_bind same_ring); [auto with pkg|]. intros [j|]; auto with pkg.
Qed.

Definition which_output (p : bytes) : PM (option bytes) :=
  output ← pkg_info run [bs "pkg_info"; bs "-W"; p] PKG_WHICH_TIMEOUT;
  match output with
  | Some (_ :: _) => mret output
  | _ => pkg_info run [bs "pkg_info"; bs "-E"; p] PKG_WHICH_TIMEOUT
  end.

Definition compute_search (q : bytes) : PM (option bytes * bool) :=
  output ← search_output alloc run shell q;
  match output with
  | PBytes ((_ :: _) as o) =>
      ok ← malloc alloc;
      if negb ok then o ← strdup alloc empty_search; mret (o, false)
      else
        esc ← escape alloc q;
        json ← json_array alloc search_line
                 (qs "{'query':'" ++ esc ++ qs "','packages':[") (strtok lf o);
        mret (Some json, true)
  | _ => o ← strdup alloc empty_search; mret (o, false)
  end.

Definition compute_files (n : bytes) : PM (option bytes * bool) :=
  output ← pkg_info run [bs "pkg_info"; bs "-L"; n] 5;
  esc ← escape alloc n;
  ok ← malloc alloc;
  match output with
  | None =>
      mret (if ok : bool
            then Some (strlcpy (length esc + 80) (qs "{'package':'" ++ esc ++ qs "','files':[]}"))
            else None, false)
  | Some o =>
      if negb ok then mret (None, false)
      else
        json ← json_array alloc file_line (qs "{'package':'" ++ esc ++ qs "','files':[")
                 (strtok lf o);
        mret (Some json, true)
  end.

Definition compute_list : PM (option bytes * bool) :=
  output ← pkg_info run [bs "pkg_info"; bs "-qmz"] 5;
  ok ← malloc alloc;
  if negb ok then o ← strdup alloc (qs "{'packages':[]}"); mret (o, false)
  else
    json ← json_array alloc list_line (qs "{'packages':[") (strtok lf (default [] output));
    mret (Some json, true).

Definition compute (r : pkg_request) : PM (option bytes * bool) :=
  match r with
  | Search q => compute_search q
  | Info n => raw_answer (pkg_info run [bs "pkg_info"; n] 5)
  | Which p => raw_answer (which_output p)
  | Files n => compute_files n
  | ListAll => compute_list
  end.

Lemma starts_compute r : starts (compute r).
Proof.
  destruct r as [q|n|p|n|]; simpl.
  - unfold compute_search. apply starts_bind_l; [auto with pkg|].
    intros [|[|c o]|]; auto with pkg. apply (steps_bind same_ring); [auto with pkg|].
    intros []; cbn [negb]; auto 6 with pkg.
  - apply starts_raw_answer. auto with pkg.
  - apply starts_raw_answer. unfold which_output. apply starts_bind_l; [auto with pkg|].
    intros [[|c o]|]; auto with pkg.
  - unfold compute_files. apply starts_bind_l; [auto with pkg|]. intros o.
    do 2 (apply (steps_bind same_ring); [auto with pkg|]; intros ?).
    destruct o; [|auto with pkg]. destruct (negb _); auto with pkg.
  - unfold compute_list. apply starts_bind_l; [auto with pkg|]. intros o.
    apply (steps_bind same_ring); [auto with pkg|]. intros ok. destruct (negb ok); auto with pkg.
Qed.

(** The end of a request that gives up: a fixed text, not stored. *)
Lemma fixed_text text (s : pkg_state) (f : bytes → PM (option bytes)) :
  strdup alloc text s
  = (let '(x, s') := (let '(o, s1) := strdup alloc text s in ((o, false), s1)) in
     match x with (Some j, true) => f j | (o, _) => mret o end s').
Proof. by destruct (strdup alloc text s) as [[j|] s1]. Qed.

Lemma answer_shape r s :
  rejected r = None → pkg_answer alloc clock run shell r s = answer_with r (compute r) s.
Proof.
  intros Hr. unfold pkg_answer, answer_with.
  destruct r as [[|c q]|n|p|n|]; simpl in Hr; try done; cbn [compute endpoint_of key_of].
  - unfold pkg_search_json, compute_search. run_st.
    destruct (cached_answer _ _ _ _ s) as [[j|] s1]; [done|].
    destruct (search_output _ _ _ _ s1) as [[|[|c' o]|] s2]; try apply fixed_text.
    destruct (malloc alloc s2) as [[] s3]; cbn [negb]; [|apply fixed_text].
    destruct (escape _ _ s3) as [e s4]. by destruct (json_array _ _ _ _ s4) as [j s5].
  - unfold pkg_info_json, raw_answer. destruct (is_safe_pkg_name n); [|done]. cbn [negb]. run_st.
    destruct (cached_answer _ _ _ _ s) as [[j|] s1]; [done|].
    destruct (pkg_info _ _ _ s1) as [o s2]. destruct (make_raw_json _ _ s2) as [[j|] s3]; [done|apply fixed_text].
  - unfold pkg_which_json, raw_answer, which_output. destruct (is_safe_path p); [|done].
    cbn [negb]. run_st. destruct (cached_answer _ _ _ _ s) as [[j|] s1]; [done|].
    destruct (pkg_info _ _ _ s1) as [o s2].
    destruct o as [[|c o]|]; try destruct (pkg_info _ _ _ s2) as [o' s3]; cbn beta iota.
    all: destruct (make_raw_json _ _ _) as [[j|] s4]; [done|apply fixed_text].
  - unfold pkg_files_json, compute_files. destruct (is_safe_pkg_name n); [|done]. cbn [negb]. run_st.
    destruct (cached_answer _ _ _ _ s) as [[j|] s1]; [done|].
    destruct (pkg_info _ _ _ s1) as [o s2]. destruct (escape _ _ s2) as [e s3].
    destruct (malloc alloc s3) as [ok s4]. destruct o as [o|]; [|by destruct ok].
    destruct ok; cbn [negb]; [|done]. by destruct (json_array _ _ _ _ s4) as [j s5].
  - unfold pkg_list_json, compute_list. run_st.
    destruct (cached_answer _ _ _ _ s) as [[j|] s1]; [done|].
    destruct (pkg_info _ _ _ s1) as [o s2]. destruct (malloc alloc s2) as [ok s3].
    destruct ok; cbn [negb]; [|apply fixed_text]. by destruct (json_array _ _ _ _ s3) as [j s4].
Qed.
End quiet.

(** A machine where everything succeeds and pkg_info prints its arguments. *)
Definition echo_run (t : nat) (path : bytes) (argv : list bytes) (m s : Z) : option bytes :=
  Some (concat ((λ a, a ++ [lf]) <$> argv)).

(** ** Programs

    The argument vectors a request may give to pkg_info. *)
Definition allowed (r : pkg_request) : list (list bytes) :=
  match r with
  | Search q => [bs "pkg_info"; bs "-q"] ::
      (if is_safe_pkg_name q then [[bs "pkg_info"; bs "-Q"; q]] else [])
  | Info n => if is_safe_pkg_name n then [[bs "pkg_info"; n]] else []
  | Files n => if is_safe_pkg_name n then [[bs "pkg_info"; bs "-L"; n]] else []
  | Which p => if is_safe_path p
               then [[bs "pkg_info"; bs "-W"; p]; [bs "pkg_info"; bs "-E"; p]] else []
  | ListAll => [[bs "pkg_info"; bs "-qmz"]]
  end.

Definition program_ok (r : pkg_request) (e : exec) : Prop :=
  match e with
  | Exec path argv => path = bs "/usr/sbin/pkg_info" ∧ argv ∈ allowed r
  | Shell cmd => ∃ q, r = Search q ∧ cmd = popen_command q
  end.

(** Only programs that satisfy [P] are started. *)
Definition more_execs (P : exec → Prop) (s s' : pkg_state) : Prop :=
  ∃ es, pk_execs s' = pk_execs s ++ es ∧ Forall P es.

#[export] Instance more_execs_preorder P : PreOrder (more_execs P).
Proof.
  split.
  - intros s. exists []. by rewrite app_nil_r.
  - intros s1 s2 s3 (e1 & He1 & H1) (e2 & He2 & H2). exists (e1 ++ e2).
    rewrite He2, He1, app_assoc. split; [done|]. by apply Forall_app.
Qed.

Abbreviation only P := (steps (more_execs P)).

Lemma only_nothing {A} P (m : PM A) : (∀ s, pk_execs (m s).2 = pk_execs s) → only P m.
Proof. intros H s. exists []. by rewrite app_nil_r, H. Qed.

Lemma bind_keeps {A B} P (m : PM A) (f : A → PM B) e s :
  e ∈ pk_execs (m s).2 → (∀ x, only P (f x)) → e ∈ pk_execs ((m ≫= f) s).2.
Proof.
  intros He Hf. unfold mbind, ST_bind. destruct (m s) as [x s1].
  destruct (Hf x s1) as (es & -> & _). apply elem_of_app. by left.
Qed.

Section programs.
Context (alloc : nat → bool) (clock : nat → Z).
Context (run : nat → bytes → list bytes → Z → Z → option bytes).
Context (shell : nat → bytes → option bytes).
Context (P : exec → Prop).

Lemma only_malloc : only P (malloc alloc).
Proof. by apply only_nothing. Qed.

Lemma only_note_faults f : only P (modify (note_faults f)).
Proof. by apply only_nothing. Qed.

#[local] Hint Resolve only_malloc only_note_faults : pkg.

Lemma only_strdup b : only P (strdup alloc b).
Proof. unfold strdup. auto with pkg. Qed.

Lemma only_escape b : only P (escape alloc b).
Proof. unfold escape. auto with pkg. Qed.

#[local] Hint Resolve only_strdup only_escape : pkg.

Lemma only_append_lines keep lines first b : only P (append_lines alloc keep lines first b).
Proof.
  revert first b. induction lines as [|l lines IH]; intros first b; simpl; [auto with pkg|].
  destruct (_ <? _)%Z; [|auto with pkg]. destruct (keep l); auto with pkg.
Qed.

#[local] Hint Resolve only_append_lines : pkg.

Lemma only_json_array keep head lines : only P (json_array alloc keep head lines).
Proof. unfold json_array. auto 7 with pkg. Qed.

Lemma only_make_raw_json o : only P (make_raw_json alloc o).
Proof.
  unfold make_raw_json. destruct o as [[|c o]|]; auto with pkg.
  apply (steps_bind (more_execs _)); [auto with pkg|]. intros [c'|]; auto with pkg.
Qed.

Lemma only_pkg_info argv t :
  P (Exec (bs "/usr/sbin/pkg_info") argv) → only P (pkg_info run argv t).
Proof. intros HP s. cbn. eexists. split; [reflexivity|]. by constructor. Qed.

Lemma only_cached_answer e k : only P (cached_answer alloc clock e k).
Proof.
  apply only_nothing. intros s. unfold cached_answer, packages_once, packages_cache_bootstrap,
    pkg_ring_init, pkg_ring_find, find_start, find_locked, malloc, time_null. run_st.
  repeat (case_match; simplify_eq/=; try done).
Qed.

Lemma only_keep_answer e k j : only P (keep_answer alloc clock e k j).
Proof.
  apply only_nothing. intros s. unfold keep_answer, pkg_ring_push, malloc, time_null. run_st.
  repeat (case_match; simplify_eq/=; try done).
Qed.

Lemma only_popen q o : P (Shell (popen_command q)) → only P (popen_fallback alloc shell q o).
Proof.
  intros HP s. unfold popen_fallback. run_st. exists [Shell (popen_command q)].
  split; [|by constructor]. destruct (shell _ _); cbn; done.
Qed.
End programs.

#[local] Hint Resolve only_malloc only_note_faults only_strdup only_escape only_json_array
  only_make_raw_json only_pkg_info only_cached_answer only_keep_answer only_popen : pkg.

Lemma only_search_output alloc run shell q :
  only (program_ok (Search q)) (search_output alloc run shell q).
Proof.
  unfold search_output. apply (steps_bind (more_execs _)).
  - destruct (is_safe_pkg_name q) eqn:Hq; [|auto with pkg].
    apply (steps_bind (more_execs _)); [|auto with pkg]. apply only_pkg_info. split; [done|].
    cbn [allowed]. rewrite Hq. set_solver.
  - intros o1. apply (steps_bind (more_execs _)).
    + destruct (no_output o1); [|auto with pkg]. unfold grep_fallback.
      apply (steps_bind (more_execs _)); [|intros [l|]; auto with pkg].
      apply only_pkg_info. split; [done|]. cbn [allowed]. set_solver.
    + intros o2. apply (steps_bind (more_execs _)); [auto with pkg|]. intros _.
      apply (steps_bind (more_execs _)); [|auto with pkg].
      destruct (no_output o2); [|auto with pkg]. apply only_popen. by exists q.
Qed.

#[local] Hint Resolve only_search_output : pkg.

Lemma only_compute alloc run shell r :
  rejected r = None → only (program_ok r) (compute alloc run shell r).
Proof.
  intros Hr. destruct r as [q|n|p|n|]; cbn [compute rejected] in *.
  - unfold compute_search. apply (steps_bind (more_execs _)); [auto with pkg|].
    intros [|[|c o]|]; auto with pkg. apply (steps_bind (more_execs _)); [auto with pkg|].
    intros []; cbn [negb]; auto 6 with pkg.
  - destruct (is_safe_pkg_name n) eqn:Hn; [|done]. unfold raw_answer.
    apply (steps_bind (more_execs _)); [apply only_pkg_info; split; [done|]; cbn [allowed]; rewrite Hn; set_solver|].
    intros o. apply (steps_bind (more_execs _)); [auto with pkg|]. intros [j|]; auto with pkg.
  - destruct (is_safe_path p) eqn:Hp; [|done]. unfold raw_answer, which_output.
    apply (steps_bind (more_execs _)).
    + apply (steps_bind (more_execs _)); [apply only_pkg_info; split; [done|]; cbn [allowed]; rewrite Hp; set_solver|].
      intros o. assert (only (program_ok (Which p))
        (pkg_info run [bs "pkg_info"; bs "-E"; p] PKG_WHICH_TIMEOUT)).
      { apply only_pkg_info. split; [done|]. cbn [allowed]. rewrite Hp. set_solver. }
      destruct o as [[|c o]|]; auto with pkg.
    + intros o. apply (steps_bind (more_execs _)); [auto with pkg|]. intros [j|]; auto with pkg.
  - destruct (is_safe_pkg_name n) eqn:Hn; [|done]. unfold compute_files.
    apply (steps_bind (more_execs _)); [apply only_pkg_info; split; [done|]; cbn [allowed]; rewrite Hn; set_solver|].
    intros o. do 2 (apply (steps_bind (more_execs _)); [auto with pkg|]; intros ?).
    destruct o; [|auto with pkg]. destruct (negb _); auto with pkg.
  - unfold compute_list.
    apply (steps_bind (more_execs _)); [apply only_pkg_info; split; [done|]; cbn [allowed]; set_solver|].
    intros o. apply (steps_bind (more_execs _)); [auto with pkg|]. intros ok. destruct (negb ok); auto with pkg.
Qed.

(** With no pkg_info to run, a search ends at the shell. *)
Lemma search_reaches_shell alloc run shell q s :
  (∀ t path argv m u, run t path argv m u = None) →
  Shell (popen_command q) ∈ pk_execs (search_output alloc run shell q s).2.
Proof.
  intros Hrun.
  assert (∀ argv t s, pkg_info run argv t s
    = (None, pk_tick (note_exec (Exec (bs "/usr/sbin/pkg_info") argv) s))) as Hp.
  { intros argv t s'. unfold pkg_info. by rewrite Hrun. }
  unfold search_output, grep_fallback, popen_fallback, malloc. run_st.
  destruct (is_safe_pkg_name q); cbn [no_output]; rewrite !Hp; cbn [to_pointer no_output].
  all: rewrite ?Hp; cbn [freed use_faults no_output].
  all: destruct (shell _ _); cbn; rewrite elem_of_app, list_elem_of_singleton; auto.
Qed.

(** C26. Every request starts pkg_info alone, by its full path and with an argument that passed
    the check of its endpoint, except a search: when pkg_info finds nothing the query,
    which no check has seen, is put as it is into a command line for the shell. *)
Theorem pkg_programs alloc clock run shell r s :
  (∃ es, pk_execs (pkg_answer alloc clock run shell r s).2 = pk_execs s ++ es ∧
     Forall (program_ok r) es) ∧
  ∀ q, r = Search q → q ≠ [] → (cached_answer alloc clock (bs "search") q s).1 = None →
    (∀ t path argv m u, run t path argv m u = None) →
    Shell (popen_command q) ∈ pk_execs (pkg_answer alloc clock run shell r s).2.
Proof.
  split.
  - destruct (rejected r) as [text|] eqn:Hr.
    { rewrite (answer_rejected _ _ _ _ _ _ _ Hr). apply only_strdup. }
    rewrite answer_shape by done. revert s. change (only (program_ok r) (answer_with alloc clock r (compute alloc run shell r))).
    unfold answer_with. apply (steps_bind (more_execs _)); [auto with pkg|]. intros [j|]; [auto with pkg|].
    apply (steps_bind (more_execs _)); [by apply only_compute|intros [[j|] []]; auto with pkg].
  - intros q -> Hq Hmiss Hrun. destruct q as [|c q]; [done|].
    cbn [pkg_answer]. unfold pkg_search_json. unfold mbind at 1, ST_bind at 1.
    destruct (cached_answer _ _ _ _ s) as [[j|] s1]; [done|].
    apply (bind_keeps (λ _, True)); [by apply search_reaches_shell|].
    intros [|[|c' o]|]; auto with pkg. apply (steps_bind (more_execs _)); [auto with pkg|].
    intros []; cbn [negb]; auto 7 with pkg.
Qed.

Lemma pkg_programs_witness :
  let q := bs ";reboot" in
  Shell (bs "pkg_info -Q ;reboot 2>&1")
    ∈ pk_execs (pkg_answer (λ _, true) (λ _, 0%Z) (λ _ _ _ _ _, None) (λ _ _, None)
                  (Search q) pkg_static).2.
Proof.
  intros q. change (bs "pkg_info -Q ;reboot 2>&1") with (popen_command q).
  apply (pkg_programs (λ _, true) (λ _, 0%Z) (λ _ _ _ _ _, None) (λ _ _, None) (Search q) pkg_static);
    [done|done|vm_compute; reflexivity|done].
Defined.

Definition short_text (t : bytes) : Prop := length (json_escape t) ≤ 250.

(** The texts the loop appends. *)
Definition kept (keep : bytes → option bytes) (lines : list bytes) : list bytes :=
  omap keep lines.

Lemma escape_length ok t : length (json_escape_string ok (Some t)) ≤ length (json_escape t).
Proof.
  destruct ok; [|simpl; lia]. destruct t as [|c t]; [done|]. cbn [json_escape_string].
  destruct (json_escape_loop_spec (length (c :: t) * 6 + 1) (c :: t) []) as (k & -> & _ & _);
    [simpl; lia|].
  cbn [app]. rewrite <- (take_drop k (c :: t)) at 2. unfold json_escape.
  rewrite bind_app, length_app. lia.
Qed.

(** The buffer as long as nothing was cut. *)
Record jb_ok (b : jbuf) : Prop := {
  jo_off : jb_off b = Z.of_nat (length (jb_text b));
  jo_room : (jb_off b < PKG_JSON_MAX - 3)%Z;
  jo_sound : jb_overrun b = false
}.

Section json.
Context (alloc : nat → bool) (keep : bytes → option bytes).

Lemma append_lines_spec lines first b s :
  Forall short_text (kept keep lines) → jb_ok b →
  let b' := (append_lines alloc keep lines first b s).1 in
  jb_ok b' ∧
  ((∀ t, alloc t = true) → Forall plain_line (kept keep lines) →
   ∃ n, jb_text b' = jb_text b ++ array_text first (take n (kept keep lines)) ∧
     (length (kept keep lines) ≤ n ∨ (PKG_JSON_MAX - 256 ≤ jb_off b')%Z)).
Proof.
  revert first b s. induction lines as [|l lines IH]; intros first b s; simpl.
  { intros _ Hb. split; [done|]. intros _ _. exists 0. simpl. rewrite app_nil_r. auto. }
  intros Hshort Hb. destruct (jb_off b <? PKG_JSON_MAX - 256)%Z eqn:Hroom; bool_facts.
  2: { simpl. split; [done|]. intros _ _. exists 0. rewrite take_0. simpl.
       rewrite app_nil_r. auto. }
  destruct (keep l) as [t|] eqn:Hk; [|by apply IH].
  unfold escape, malloc. run_st. apply Forall_cons in Hshort as [Ht Hshort].
  set (e := json_escape_string (alloc (pk_time s)) (Some t)).
  assert (length e ≤ 250) as He by (pose proof (escape_length (alloc (pk_time s)) t);
    unfold short_text, e in *; lia).
  assert (length (json_item first e) ≤ 253) as Hi.
  { unfold json_item. rewrite !length_app. change (length [dq]) with 1.
    destruct first; cbn [length]; lia. }
  destruct Hb as [Hoff Hro Hso].
  rewrite jb_printf_fits by first [done|lia]. set (b1 := Build_jbuf _ _ _).
  assert (jb_ok b1) as Hb1.
  { split; cbn [jb_text jb_off jb_overrun b1]; [rewrite length_app; lia|lia|done]. }
  destruct (IH false b1 (pk_tick s) Hshort Hb1) as [Hb' Htext]. split; [exact Hb'|].
  intros Ha Hp. apply Forall_cons in Hp as [Hpt Hp]. destruct (Htext Ha Hp) as (n & Hn & Hall).
  exists (S n). rewrite Hn. split; [|destruct Hall; [left; simpl; lia|by right]].
  simpl. rewrite <- app_assoc. unfold e. rewrite Ha, escape_plain by done. done.
Qed.

Lemma json_array_spec head lines s :
  (Z.of_nat (length head) < PKG_JSON_MAX - 3)%Z → Forall short_text (kept keep lines) →
  let '(json, s') := json_array alloc keep head lines s in
  pk_faults s' = pk_faults s ∧
  ((∀ t, alloc t = true) → Forall plain_line (kept keep lines) →
   ∃ n, json = head ++ array_text true (take n (kept keep lines)) ++ bs "]}" ∧
     (length (kept keep lines) ≤ n ∨
      (PKG_JSON_MAX - 256 ≤ Z.of_nat (length head + length (array_text true (take n (kept keep lines)))))%Z)).
Proof.
  intros Hhead Hshort. unfold json_array. run_st.
  rewrite jb_printf_fits by first [done|cbn; lia]. cbn [jb_text jb_off empty_jbuf app].
  set (b1 := Build_jbuf _ _ _).
  assert (jb_ok b1) as Hb1 by (split; cbn; first [done|lia]).
  destruct (append_lines_spec lines true b1 s Hshort Hb1) as [[Ho Hr Hs] Htext].
  assert (pk_faults (append_lines alloc keep lines true b1 s).2 = pk_faults s) as Hf.
  { generalize true b1. clear. revert s. induction lines as [|l lines IH]; intros s first b; [done|].
    simpl. destruct (_ <? _)%Z; [|done]. destruct (keep l); [|by apply IH].
    unfold escape, malloc. run_st. by rewrite IH. }
  destruct (append_lines alloc keep lines true b1 s) as [b2 s2]. cbn [fst snd] in *.
  rewrite jb_printf_fits; [|done|done|change (length (bs "]}")) with 2; lia].
  cbn [jb_text jb_overrun]. split; [cbn; by rewrite app_nil_r|].
  intros Ha Hp. destruct (Htext Ha Hp) as (n & Hn & Hall). exists n.
  rewrite Hn in *. cbn [jb_text b1] in *. split; [by rewrite <- app_assoc|].
  destruct Hall; [by left|right]. rewrite <- length_app. lia.
Qed.
End json.

(** The JSON text of a list of lines stays inside its buffer of 1 MiB when no line takes
    more than 250 bytes escaped; a line longer than the buffer is written past its end. *)
Theorem pkg_json_bounds alloc keep head lines s :
  (Z.of_nat (length head) < PKG_JSON_MAX - 256)%Z →
  (Forall short_text (kept keep lines) →
   pk_faults (json_array alloc keep head lines s).2 = pk_faults s) ∧
  (∀ l t, lines = [l] → keep l = Some t → alloc (pk_time s) = true →
   (PKG_JSON_MAX ≤ Z.of_nat (length (json_escape_string true (Some t))))%Z →
   pk_faults (json_array alloc keep head lines s).2 = pk_faults s ++ [HeapOverrun]).
Proof.
  intros Hhead. split.
  - intros Hshort. pose proof (json_array_spec alloc keep head lines s ltac:(lia) Hshort) as H.
    destruct (json_array _ _ _ _ _). apply H.
  - intros l t -> Hk Ha Hlong. unfold json_array. run_st.
    rewrite jb_printf_fits by first [done|cbn; lia]. cbn [jb_text jb_off empty_jbuf app append_lines].
    rewrite (proj2 (Z.ltb_lt _ _)) by lia. rewrite Hk. unfold escape, malloc. run_st. rewrite Ha.
    assert (PKG_JSON_MAX < Z.of_nat (length head) + Z.of_nat (length (json_item true
      (json_escape_string true (Some t)))))%Z as Hover.
    { unfold json_item. rewrite !length_app. change (length [dq]) with 1. cbn [length]. lia. }
    cbn [mret]. rewrite jb_printf_out; [done|].
    rewrite jb_printf_cut by (cbn [jb_off]; lia). cbn [jb_off]. lia.
Qed.

Lemma json_escape_replicate n : json_escape (replicate n "a"%char) = replicate n "a"%char.
Proof.
  induction n as [|n IH]; [done|]. cbn [replicate].
  change (json_escape ("a"%char :: replicate n "a"%char))
    with ("a"%char :: json_escape (replicate n "a"%char)). by rewrite IH.
Qed.

Lemma pkg_json_bounds_witness :
  pk_faults (json_array (λ _, true) list_line (qs "{'packages':[") [bs "vim-9.1"] pkg_static).2 = [] ∧
  pk_faults (json_array (λ _, true) Some (qs "{'packages':[")
    [replicate (Z.to_nat PKG_JSON_MAX) "a"%char] pkg_static).2 = [HeapOverrun].
Proof.
  assert (Z.of_nat (length (qs "{'packages':[")) < PKG_JSON_MAX - 256)%Z as Hh
    by (apply Z.ltb_lt; vm_compute; reflexivity).
  split.
  - apply (pkg_json_bounds (λ _, true) list_line (qs "{'packages':[") [bs "vim-9.1"] pkg_static Hh).
    apply Forall_singleton. apply Nat.leb_le. vm_compute. reflexivity.
  - refine (proj2 (pkg_json_bounds (λ _, true) Some _ _ pkg_static Hh) _ _ eq_refl eq_refl eq_refl _).
    assert (1 < PKG_JSON_MAX)%Z as Hpos by (apply Z.ltb_lt; vm_compute; reflexivity).
    revert Hpos. generalize PKG_JSON_MAX. intros m Hm.
    rewrite escape_plain; [rewrite json_escape_replicate, length_replicate; lia|].
    split; [rewrite length_replicate; lia|]. apply Forall_replicate. left.
    apply Z.leb_le. vm_compute. reflexivity.
Defined.

(** A line of pkg_info's output that survives: at least two bytes, no control character
    but those with a short escape, at most 250 bytes escaped. *)
Definition package_line (l : bytes) : Prop :=
  plain_line l ∧ cr ∉ l ∧ lf ∉ l ∧ nul ∉ l ∧ short_text l.

Lemma cut_cr_id l : cr ∉ l → cut_cr l = l.
Proof.
  intros H. unfold cut_cr. assert (strcspn l [cr] = length l) as ->; [|by rewrite take_ge].
  induction l as [|c l IH]; [done|]. apply not_elem_of_cons in H as [Hc Hl]. simpl.
  rewrite bool_decide_eq_false_2; [by rewrite IH|]. rewrite list_elem_of_singleton. congruence.
Qed.

Lemma kept_lines ls : Forall package_line ls → kept list_line ls = ls.
Proof.
  induction 1 as [|l ls ((Hl & _) & Hcr & _) _ IH]; [done|].
  unfold kept in *. cbn [omap list_omap]. unfold list_line. rewrite cut_cr_id by done.
  destruct (length l =? 0) eqn:E; bool_facts; [lia|]. cbn. by f_equal.
Qed.

Lemma cstr_lines ls :
  Forall package_line ls →
  cstr (concat ((λ l, l ++ [lf]) <$> ls)) = concat ((λ l, l ++ [lf]) <$> ls).
Proof.
  intros H. apply cstr_id. induction H as [|l ls (_ & _ & _ & Hn & _) _ IH];
    [apply not_elem_of_nil|].
  rewrite fmap_cons. simpl. rewrite !elem_of_app, list_elem_of_singleton. naive_solver.
Qed.

(** A fresh package list is a JSON text from which a client reads back the lines pkg_info
    printed, in order: all of them when the text leaves 256 bytes of its buffer, else the
    first ones; and no write leaves the buffer. *)
Theorem pkg_list_roundtrip alloc clock run shell s ls :
  (∀ t, alloc t = true) → (cached_answer alloc clock (bs "list") (bs "all") s).1 = None →
  Forall package_line ls →
  (∀ t argv m u, run t (bs "/usr/sbin/pkg_info") argv m u = Some (concat ((λ l, l ++ [lf]) <$> ls))) →
  let '(ans, s') := pkg_answer alloc clock run shell ListAll s in
  pk_faults s' = pk_faults s ∧
  ∃ json n, ans = Some json ∧ read_json_array (qs "{'packages':[") json = Some (take n ls) ∧
    ((Z.of_nat (length (array_text true ls)) + 13 < PKG_JSON_MAX - 256)%Z → take n ls = ls).
Proof.
  intros Ha Hmiss Hls Hrun. cbn [pkg_answer]. unfold pkg_list_json. run_st.
  assert (pk_faults (cached_answer alloc clock (bs "list") (bs "all") s).2 = pk_faults s) as Hf1.
  { unfold cached_answer, packages_once, packages_cache_bootstrap, pkg_ring_init, pkg_ring_find,
      find_start, find_locked, malloc, time_null. run_st. repeat (case_match; simplify_eq/=; try done). }
  destruct (cached_answer _ _ _ _ s) as [[j|] s1]; [done|]. cbn [snd] in Hf1.
  unfold pkg_info, malloc. run_st. rewrite Hrun, Ha. cbn [negb fmap option_fmap option_map default from_option id].
  rewrite cstr_lines by done.
  assert (Forall (λ l, l ≠ [] ∧ lf ∉ l) ls) as Hne.
  { eapply Forall_impl; [exact Hls|]. intros l ((Hl & _) & _ & Hlf & _). split; [|done].
    intros ->. simpl in Hl. lia. }
  rewrite strtok_lines by done. set (s2 := pk_tick (pk_tick _)).
  pose proof (json_array_spec alloc list_line (qs "{'packages':[") ls s2) as Hj.
  rewrite (kept_lines ls Hls) in Hj.
  assert (pk_faults s2 = pk_faults s) as Hf2 by (unfold s2; exact Hf1).
  destruct (json_array _ _ _ _ s2) as [json s3].
  destruct Hj as [Hf3 Htext]; [apply Z.ltb_lt; vm_compute; reflexivity| |].
  { eapply Forall_impl; [exact Hls|]. by intros l (_ & _ & _ & _ & ?). }
  destruct Htext as (n & -> & Hall); [done| |].
  { eapply Forall_impl; [exact Hls|]. by intros l (? & _). }
  assert (pk_faults (keep_answer alloc clock (bs "list") (bs "all")
    (qs "{'packages':[" ++ array_text true (take n ls) ++ bs "]}") s3).2 = pk_faults s3) as Hf4.
  { unfold keep_answer, pkg_ring_push, malloc, time_null. run_st.
    repeat (case_match; simplify_eq/=; try done). }
  destruct (keep_answer _ _ _ _ _ s3) as [u s4]. cbn [snd] in Hf4. split; [congruence|].
  exists (qs "{'packages':[" ++ array_text true (take n ls) ++ bs "]}"), n.
  split; [done|]. split; [apply read_json_array_text|]. intros Hsmall.
  destruct Hall as [Hall|Hbig]; [by apply take_ge|]. exfalso.
  assert (length (array_text true (take n ls)) ≤ length (array_text true ls)) as Hle.
  { clear. generalize true. revert n. induction ls as [|l ls IH]; intros [|n] b; simpl; try lia.
    rewrite !length_app. specialize (IH n false). lia. }
  change (length (qs "{'packages':[")) with 13 in Hbig. lia.
Qed.

Lemma pkg_list_roundtrip_witness :
  let ls := [bs "bash-5.2"; bs "vim-9.1"] in
  let run := λ _ _ _ _ _, Some (concat ((λ l, l ++ [lf]) <$> ls)) in
  ∃ json, (pkg_answer (λ _, true) (λ _, 5%Z) run (λ _ _, None) ListAll pkg_static).1 = Some json ∧
    read_json_array (qs "{'packages':[") json = Some ls.
Proof.
  intros ls run.
  pose proof (pkg_list_roundtrip (λ _, true) (λ _, 5%Z) run (λ _ _, None) pkg_static ls) as H.
  destruct (pkg_answer _ _ _ _ _ _) as [ans s'].
  destruct H as (_ & json & n & -> & Hread & Hall).
  - reflexivity.
  - vm_compute. reflexivity.
  - repeat constructor; try (by_computation).
    all: first [lia|intros E; apply bool_decide_eq_true in E; vm_compute in E; discriminate E].
  - reflexivity.
  - exists json. split; [reflexivity|]. rewrite Hread, Hall; [reflexivity|].
    apply Z.ltb_lt. vm_compute. reflexivity.
Defined.

(** ** The handler *)

Section handler_facts.
Context (k : kernel) (fuel : nat) (tid : Z) (conf : option miniweb_conf) (reg : registry).
Context (alloc : nat → bool) (clock : nat → Z).
Context (run : nat → bytes → list bytes → Z → Z → option bytes).
Context (shell : nat → bytes → option bytes).

Lemma send_answer_delivers req json w live out :
  store_wf live (w_store w) → (Z.of_nat (length json) < 10 ^ 20)%Z →
  send_answer k fuel tid req json w = Some out →
  match out with
  | ApiCrash => (http_response_create tid (k_calloc k (w_time w)) (w_store w)).1 = None
  | ApiDone rc w' => delivers live json w rc w'
  end.
Proof.
  intros Hwf Hlen. unfold send_answer.
  destruct (http_response_create tid (k_calloc k (w_time w)) (w_store w)).1 eqn:E;
    [|by intros [= <-]].
  destruct (respond _ _ _ _ _ w) as [[rc w']|] eqn:Hr; [|done]. intros [= <-].
  revert Hr. by apply api_answer_delivers; first [done|by apply Nat.leb_le].
Qed.

Lemma pkg_route_error url code msg :
  pkg_route url = inr (code, msg) → (0 ≤ code < 1000)%Z ∧ length msg ≤ 1024.
Proof.
  assert (∀ m : bytes, length m <=? 64 = true → length m ≤ 1024) as Hm
    by (intros m H%Nat.leb_le; lia).
  unfold pkg_route.
  repeat (case_match; [intros E; try discriminate E; injection E as <- <-;
    split; [lia|apply Hm; reflexivity]|] || case_match); try done.
  all: intros E; first [discriminate E|injection E as <- <-; split; [lia|apply Hm; reflexivity]].
Qed.

(** The handler sends the JSON answer of the request its URL names, or the error page of a
    URL it does not serve, of a missing parameter or of a failed query; when no response
    object can be allocated it writes through the null pointer instead of failing. *)
Theorem pkg_api_handler_answers req w s live out s' :
  store_wf live (w_store w) →
  (∀ r json, pkg_route (req_url req) = inl r →
     (pkg_answer alloc clock run shell r s).1 = Some json →
     (Z.of_nat (length json) < 10 ^ 20)%Z) →
  pkg_api_handler alloc clock run shell k fuel tid (init_routes conf reg) req w s
    = (Some out, s') →
  match pkg_route (req_url req) with
  | inr (code, msg) =>
      ∃ rc w', out = ApiDone rc w' ∧ delivers live (error_page code (Some msg)) w rc w'
  | inl r =>
      match (pkg_answer alloc clock run shell r s).1 with
      | None => ∃ rc w', out = ApiDone rc w' ∧
          delivers live (error_page 500 (Some (bs "Unable to query package manager"))) w rc w'
      | Some json =>
          if decide ((http_response_create tid (k_calloc k (w_time w)) (w_store w)).1 = None)
          then out = ApiCrash
          else ∃ rc w', out = ApiDone rc w' ∧ delivers live json w rc w'
      end
  end.
Proof.
  intros Hwf Hlen. unfold pkg_api_handler.
  destruct (pkg_route (req_url req)) as [r|[code msg]] eqn:Hroute.
  - run_st. specialize (λ json, Hlen r json eq_refl).
    destruct (pkg_answer alloc clock run shell r s) as [[json|] s1]; cbn [fst].
    + intros [= H _]. pose proof H as H'.
      eapply send_answer_delivers in H; [|exact Hwf|by apply Hlen].
      destruct out as [|rc w'].
      * by rewrite decide_True by done.
      * rewrite decide_False; [eauto|]. intros E. unfold send_answer in H'. rewrite E in H'. done.
    + intros [= H _]. unfold api_done in H.
      destruct (http_send_error _ _ _ _ _ _ _ _) as [[rc w']|] eqn:E; [|done].
      injection H as <-. exists rc, w'. split; [done|].
      eapply error_delivers; [exact Hwf|lia| |exact E].
      apply Nat.leb_le. vm_compute. reflexivity.
  - intros [= H _]. unfold api_done in H.
    destruct (http_send_error _ _ _ _ _ _ _ _) as [[rc w']|] eqn:E; [|done].
    injection H as <-. exists rc, w'. split; [done|].
    destruct (pkg_route_error _ _ _ Hroute). by eapply error_delivers.
Qed.
End handler_facts.

Definition list_request : http_request :=
  {| req_fd := 7; req_method := bs "GET"; req_url := bs "/api/packages/list?x";
     req_version := bs "HTTP/1.1"; req_keep_alive := true; req_buffer := [];
     req_buffer_len := 0; req_client_addr := None; hdr_scratch := []; ip_scratch := [] |}.

Lemma pkg_api_handler_answers_witness :
  let run := λ _ _ _ _ _, Some (bs "vim-9.1") in
  let out := (pkg_api_handler (λ _, true) (λ _, 5%Z) run (λ _ _, None) eager_kernel 5 3
                (init_routes None empty_registry) list_request test_world pkg_static).1 in
  ∃ rc w', out = Some (ApiDone rc w') ∧
    delivers (λ _, False) (qs "{'packages':['vim-9.1']}") test_world rc w'.
Proof.
  intros run out.
  destruct (pkg_api_handler (λ _, true) (λ _, 5%Z) run (λ _ _, None) eager_kernel 5 3
    (init_routes None empty_registry) list_request test_world pkg_static) as [o s'] eqn:E.
  unfold out. cbn [fst].
  destruct o as [o|].
  2: { apply (f_equal (λ p, match p.1 with Some _ => true | None => false end)) in E.
       vm_compute in E. discriminate E. }
  assert (pkg_route (req_url list_request) = inl ListAll) as Hroute by (vm_compute; reflexivity).
  assert ((pkg_answer (λ _, true) (λ _, 5%Z) run (λ _ _, None) ListAll pkg_static).1
    = Some (qs "{'packages':['vim-9.1']}")) as Hans by (vm_compute; reflexivity).
  pose proof (pkg_api_handler_answers eager_kernel 5 3 None empty_registry (λ _, true) (λ _, 5%Z)
    run (λ _ _, None) list_request test_world pkg_static (λ _, False) o s' initial_store_wf) as H.
  rewrite Hroute in H.
  assert (∀ (r : pkg_request) (json : bytes), @inl pkg_request (Z * bytes) ListAll = inl r →
    (pkg_answer (λ _, true) (λ _, 5%Z) run (λ _ _, None) r pkg_static).1 = Some json →
    (Z.of_nat (length json) < 10 ^ 20)%Z) as Hlen.
  { intros r json [= <-]. rewrite Hans. intros [= <-]. apply Z.ltb_lt. vm_compute. reflexivity. }
  specialize (H Hlen E). rewrite Hans in H.
  rewrite decide_False in H; [|intros Hn; vm_compute in Hn; discriminate Hn].
  destruct H as (rc & w' & -> & Hd). exists rc, w'. split; [reflexivity|exact Hd].
Defined.

(** A search for a package that is not in the list, when popen fails: the freed buffer of
    the list is tested and freed again. *)
Example search_frees_twice :
  pk_faults (pkg_answer (λ _, true) (λ _, 0%Z)
    (λ _ _ argv _ _, if decide (argv = [bs "pkg_info"; bs "-q"]) then Some (bs "bash-5.2") else None)
    (λ _ _, None) (Search (bs "vim")) pkg_static).2 = [UseAfterFree].
Proof. vm_compute. reflexivity. Qed.
