(* ===== verification/PackagesRun.v ===== *)
(** * The package manager module: requests of several workers at once
      (src/modules/packages/packages_module.c)

    What the ring answers was computed, not long ago, for a request it does not tell from
    the one that asks.  First for requests one after the other; then for workers that take
    turns: [pkg_advance] is one turn of a request, up to the lock of the ring, to the end of
    a critical section or to the end of the programs, which run without the lock. *)

From S2P Require Import Prelude Ring Packages.

(** ** The ring, for any property of its samples *)

Section ring.
Context (alloc : nat → bool) (clock : nat → Z) (P : PkgSample → Prop).

(** The ring is free or holds samples with [P]. *)
Definition ring_all (r : PkgRing) : Prop :=
  match pr_buf r with
  | None => True
  | Some _ => ∃ log, ring_holds r log ∧ Forall P log
  end.

(** A call that starts no program. *)
Record silent (s s' : pkg_state) : Prop := {
  sl_execs : pk_execs s' = pk_execs s;
  sl_time : pk_time s ≤ pk_time s'
}.

#[export] Instance silent_preorder : PreOrder silent.
Proof. split; [by intros s|]. intros s1 s2 s3 [] []. split; [congruence|lia]. Qed.

(** The bootstrap. *)
Lemma once_all s :
  ring_all (pk_ring s) →
  let s' := (packages_once alloc clock s).2 in ring_all (pk_ring s') ∧ silent s s'.
Proof.
  intros Hr. unfold packages_once, packages_cache_bootstrap, pkg_ring_init, malloc, time_null.
  run_st. destruct (pk_once s); [by cbn|]. cbn.
  destruct (alloc (pk_time s)); cbn; (split; [|split; cbn; [done|lia]]); try done.
  exists []. split; [|constructor]. apply ring_init_holds.
Qed.

Lemma find_start_all s :
  let '(now, s') := find_start clock s in
  pk_ring s' = pk_ring s ∧ silent s s' ∧
  ∀ n, now = Some n → n = clock (pk_time s) ∧ pk_time s < pk_time s'.
Proof.
  unfold find_start, time_null. run_st. destruct (pr_buf _); [|done].
  destruct (_ =? 0); [done|]. split; [done|]. split; [split; cbn; [done|lia]|].
  intros n [= <-]. split; [done|cbn; lia].
Qed.

(** A hit is a sample of the ring. *)
Lemma find_locked_all s endpoint key max_age now :
  ring_all (pk_ring s) →
  let '(res, s') := find_locked alloc endpoint key max_age now s in
  ring_all (pk_ring s') ∧ silent s s' ∧
  ∀ j, res = Some j → ∃ x, P x ∧ ps_json x = Some j ∧ ps_endpoint x = endpoint ∧ ps_key x = key ∧
    (now - ps_ts x ≤ max_age)%Z.
Proof.
  intros Hr. unfold find_locked, malloc. run_st.
  destruct (pr_buf (pk_ring s)) as [buf|] eqn:Hbuf; [|by cbn].
  unfold ring_all in Hr. rewrite Hbuf in Hr. destruct Hr as (log & Hh & Hlog).
  assert (∀ hit buf', forget_hits <$> buf' = forget_hits <$> buf →
    ring_all (count_search (pk_ring s) buf' hit now)) as Hcount.
  { intros hit buf' Hb. exists log. split; [|done].
    destruct Hh as [? ? (b & Hb' & Hl & Hv)]. rewrite Hbuf in Hb'. injection Hb' as <-.
    split; [done|done|]. exists buf'. cbn. rewrite Hb. split_and!; [done| |done].
    by rewrite <- (length_fmap forget_hits), Hb, length_fmap. }
  pose proof (find_index_spec _ _ _ endpoint key now max_age Hh Hbuf) as Hf.
  destruct (find_index _ _ _ _ _ _) as [idx|].
  2: { cbn. split_and!; [by apply Hcount|by split|done]. }
  destruct Hf as (Hi & Hin & Hm & _).
  destruct (alloc _); cbn.
  2: { split_and!; [by apply Hcount|split; cbn; [done|lia]|done]. }
  split; [|split; [split; cbn; [done|lia]|]].
  - apply Hcount. apply list_eq. intros i. rewrite !list_lookup_fmap.
    destruct (decide (i = idx)) as [->|Hne].
    + rewrite list_lookup_alter_eq. by destruct (buf !! idx).
    + by rewrite list_lookup_alter_ne.
  - intros j Hj. unfold sample_matches in Hm. rewrite Hj in Hm. bool_facts.
    apply streq_true in H2, H1. subst.
    assert (forget_hits (buf !!! idx) ∈ forget_hits <$> log) as Hin'.
    { unfold lastn in Hin. rewrite <- (take_drop (length (forget_hits <$> log) - PKG_RING_CAPACITY)).
      apply elem_of_app. by right. }
    apply list_elem_of_fmap in Hin' as (x & Hx & Hxin). injection Hx as Hts He Hk Hjs.
    rewrite Forall_forall in Hlog. exists x. rewrite <- Hjs, <- He, <- Hk, <- Hts. auto.
Qed.

(** A push. *)
Lemma keep_all s endpoint key json :
  ring_all (pk_ring s) →
  (∀ x, ps_endpoint x = strlcpy 16 endpoint → ps_key x = strlcpy 256 key →
     ps_json x = Some json ∨ ps_json x = None → ps_ts x = clock (pk_time s) →
     pk_time s < pk_time (keep_answer alloc clock endpoint key json s).2 → P x) →
  let s' := (keep_answer alloc clock endpoint key json s).2 in
  ring_all (pk_ring s') ∧ silent s s'.
Proof.
  intros Hr. unfold keep_answer. run_st. destruct (pk_ready s); [|by cbn].
  unfold pkg_ring_push, time_null, malloc. run_st.
  destruct (pr_buf (pk_ring s)) as [buf|] eqn:Hbuf; [|by cbn].
  destruct (length json =? 0); [by cbn|]. cbn. intros Hnew.
  split; [|split; cbn; [done|lia]].
  unfold ring_all in *. rewrite Hbuf in Hr. cbn [pr_buf]. destruct Hr as (log & Hh & Hlog).
  set (x := new_sample _ _ _ _ _). exists (log ++ [x]). split.
  - destruct Hh as [Hcount Hhead (b & Hb & Hl & Hv)]. rewrite Hbuf in Hb. injection Hb as <-.
    destruct (ring_push_view PKG_RING_CAPACITY PKG_RING_CAPACITY_pos (forget_hits <$> buf)
      (forget_hits <$> log) (pr_head (pk_ring s)) (pr_count (pk_ring s)) (forget_hits x)) as [Hc' Hv'];
      [by rewrite length_fmap|done|by rewrite length_fmap|done|].
    rewrite length_fmap in Hc'. split; cbn [pr_count pr_head pr_buf].
    + rewrite length_app, Nat.add_1_r. exact Hc'.
    + apply mod_lt, PKG_RING_CAPACITY_pos.
    + eexists. split; [reflexivity|]. rewrite length_insert. split; [done|].
      rewrite list_fmap_insert, fmap_app. exact Hv'.
  - apply Forall_app. split; [done|]. apply Forall_singleton. apply Hnew; [done..| |done|lia].
    cbn. destruct (alloc _); auto.
Qed.

Lemma cleanup_all s : ring_all (pk_ring s) → ring_all (pk_ring (packages_cache_cleanup s).2).
Proof.
  unfold packages_cache_cleanup, pkg_ring_free. run_st. by destruct (pr_buf (pk_ring s)) eqn:E; cbn.
Qed.
End ring.

Lemma ring_all_mono (P Q : PkgSample → Prop) r : (∀ x, P x → Q x) → ring_all P r → ring_all Q r.
Proof.
  intros HPQ. unfold ring_all. destruct (pr_buf r); [|done]. intros (log & Hh & Hlog). exists log.
  split; [done|]. by eapply Forall_impl.
Qed.

Lemma endpoint_strlcpy r : strlcpy 16 (endpoint_of r) = endpoint_of r.
Proof. by destruct r. Qed.

(** What the ring tells apart. *)
Lemma same_request r r' :
  endpoint_of r' = endpoint_of r → strlcpy 256 (key_of r') = key_of r →
  take 255 (key_of r') = key_of r ∧ (length (key_of r) < 255 → r' = r).
Proof.
  unfold strlcpy. intros He Hk. split; [done|]. intros Hshort.
  rewrite <- Hk, length_take in Hshort. rewrite take_ge in Hk by lia. destruct r, r'; simplify_eq/=; congruence.
Qed.

(** ** Histories

    An entry per answer: the request, the answer, the questions asked during it and the
    programs it started. *)
Record entry := {
  en_req : pkg_request;
  en_json : bytes;
  en_from : nat;
  en_to : nat;
  en_started : list exec
}.

Definition new_entry (r : pkg_request) (j : bytes) (s s' : pkg_state) : entry :=
  {| en_req := r; en_json := j; en_from := pk_time s; en_to := pk_time s';
     en_started := drop (length (pk_execs s)) (pk_execs s') |}.

Section history.
Context (alloc : nat → bool) (clock : nat → Z).
Context (run : nat → bytes → list bytes → Z → Z → option bytes).
Context (shell : nat → bytes → option bytes).

Inductive served : list entry → pkg_state → Prop :=
| served_start : served [] pkg_static
| served_answer h s r ans s' :
    served h s → pkg_answer alloc clock run shell r s = (ans, s') →
    served (match ans with Some j => h ++ [new_entry r j s s'] | None => h end) s'
| served_cleanup h s : served h s → served h (packages_cache_cleanup s).2.

(** The answer [j] was computed, not found in the ring, for a request the ring does not
    tell from one with this endpoint and key, at a moment the clock said [ts]. *)
Definition computed (h : list entry) (endpoint key j : bytes) (ts : Z) : Prop :=
  ∃ en t, en ∈ h ∧ en_json en = j ∧ en_started en ≠ [] ∧ endpoint_of (en_req en) = endpoint ∧
    strlcpy 256 (key_of (en_req en)) = key ∧ en_from en ≤ t < en_to en ∧ ts = clock t.

Definition sample_ok (h : list entry) (x : PkgSample) : Prop :=
  ∀ j, ps_json x = Some j → computed h (ps_endpoint x) (ps_key x) j (ps_ts x).

(** The ring is free or holds samples of past answers. *)
Definition ring_ok (h : list entry) : PkgRing → Prop := ring_all (sample_ok h).

Lemma sample_ok_mono h en x : sample_ok h x → sample_ok (h ++ [en]) x.
Proof.
  intros Hx j Hj. destruct (Hx j Hj) as (en0 & t & Hin & H). exists en0, t. split; [|done].
  apply elem_of_app. by left.
Qed.

Lemma ring_ok_mono h en r : ring_ok h r → ring_ok (h ++ [en]) r.
Proof. apply ring_all_mono, sample_ok_mono. Qed.

Lemma cached_answer_ok h s endpoint key :
  ring_ok h (pk_ring s) →
  let '(res, s') := cached_answer alloc clock endpoint key s in
  ring_ok h (pk_ring s') ∧ silent s s' ∧
  ∀ j, res = Some j → ∃ t ts, computed h endpoint key j ts ∧ pk_time s ≤ t < pk_time s' ∧
    (clock t - ts ≤ PKG_CACHE_TTL_SEC)%Z.
Proof.
  intros Hr. destruct (once_all alloc clock _ s Hr) as [Hr1 Hs1]. unfold cached_answer. run_st.
  destruct (packages_once alloc clock s) as [u s1]. cbn [snd] in *. destruct (pk_ready s1); [|by split_and!].
  unfold pkg_ring_find. run_st. pose proof (find_start_all clock s1) as Hstart.
  destruct (find_start clock s1) as [[now|] s2]; destruct Hstart as (E2 & Hs2 & Hnow).
  2: { rewrite <- E2 in Hr1. split_and!; [done|by etrans|done]. }
  rewrite <- E2 in Hr1. destruct (Hnow now eq_refl) as [-> Hlt].
  pose proof (find_locked_all alloc _ s2 endpoint key PKG_CACHE_TTL_SEC (clock (pk_time s1)) Hr1) as H3.
  destruct (find_locked _ _ _ _ _ s2) as [res s3]. destruct H3 as (Hr3 & Hs3 & Hhit).
  split_and!; [done|by do 2 (etrans; [done|])|]. intros j Hj.
  destruct (Hhit j Hj) as (x & Hx & Hxj & <- & <- & Hage). exists (pk_time s1), (ps_ts x).
  destruct Hs1, Hs3. split_and!; [by apply Hx|lia|lia|done].
Qed.

(** Every answer keeps the ring made of past answers, and one that starts no program is a
    fixed text or a hit. *)
Lemma answer_ok h s r ans s' :
  ring_ok h (pk_ring s) → pkg_answer alloc clock run shell r s = (ans, s') →
  let h' := match ans with Some j => h ++ [new_entry r j s s'] | None => h end in
  ring_ok h' (pk_ring s') ∧ pk_time s ≤ pk_time s' ∧
  (pk_execs s' = pk_execs s → rejected r = None → ∀ j, ans = Some j →
   ∃ t ts, computed h (endpoint_of r) (key_of r) j ts ∧ pk_time s ≤ t < pk_time s' ∧
     (clock t - ts ≤ PKG_CACHE_TTL_SEC)%Z).
Proof.
  intros Hr. destruct (rejected r) as [text|] eqn:Hrej.
  { rewrite (answer_rejected _ _ _ _ _ _ _ Hrej). intros E.
    pose proof (quiet_strdup alloc text s) as (Hq & _ & _ & Ht & _). rewrite E in Hq, Ht.
    cbn [snd] in *. rewrite Hq. split_and!; [|done|done].
    destruct ans; [by apply ring_ok_mono|done]. }
  rewrite answer_shape by done. unfold answer_with. run_st.
  pose proof (cached_answer_ok h s (endpoint_of r) (key_of r) Hr) as Hc.
  destruct (cached_answer _ _ _ _ s) as [[j|] s1]; destruct Hc as (Hr1 & [He1 Ht1] & Hhit).
  { intros [= <- <-]. split_and!; [by apply ring_ok_mono|done|]. intros _ _ j' [= <-]. auto. }
  destruct (starts_compute alloc run shell r) as [Hq Hs]. specialize (Hq s1). specialize (Hs s1).
  destruct (compute _ _ _ r s1) as [[o stored] s2]. cbn [snd] in *.
  destruct Hq as (Hring & _ & _ & Ht2 & e & He2).
  assert (pk_execs s2 ≠ pk_execs s) as Hne. { intros E. rewrite E, He1 in Hs. lia. }
  destruct o as [j|]; [destruct stored|].
  - cbv zeta. pose proof (keep_all alloc clock (λ _, True) s2 (endpoint_of r) (key_of r) j) as Hsilent.
    destruct (keep_answer alloc clock (endpoint_of r) (key_of r) j s2) as [u s3] eqn:Ek.
    intros [= <- <-]. cbn [snd] in Hsilent. destruct Hsilent as [_ [Hes Ht3]]; [|done|].
    { rewrite Hring. by apply (ring_all_mono (sample_ok h)). }
    split_and!; [|lia|intros E; congruence].
    replace s3 with (keep_answer alloc clock (endpoint_of r) (key_of r) j s2).2 at 2 by (by rewrite Ek).
    apply keep_all; [rewrite Hring; by apply ring_ok_mono|]. rewrite Ek. cbn [snd].
    intros x Hxe Hxk Hxj Hxt Hlt j' Hj'. destruct Hxj as [Hxj|Hxj]; [|congruence].
    rewrite Hxj in Hj'. injection Hj' as <-. rewrite Hxe, Hxk, Hxt, endpoint_strlcpy.
    exists (new_entry r j s s3), (pk_time s2). split_and!; try done; cbn; try lia.
    + apply elem_of_app. right. by apply list_elem_of_singleton.
    + rewrite Hes, He2, He1, drop_app_length. intros ->.
      rewrite app_nil_r in He2. rewrite He2 in Hs. lia.
  - intros [= <- <-]. rewrite Hring. split_and!; [by apply ring_ok_mono|lia|]. intros E. congruence.
  - intros [= <- <-]. rewrite Hring. split_and!; [done|lia|done].
Qed.

Lemma served_ring_ok h s : served h s → ring_ok h (pk_ring s).
Proof.
  induction 1 as [|h s r ans s' _ IH E|h s _ IH]; [done| |by apply cleanup_all].
  by apply (answer_ok h s r ans s' IH E).
Qed.

(** A request answered without starting a program gets the text of its rejection or an
    answer computed by programs no more than 30 seconds earlier for a request to the same
    endpoint.  That was the same request if its key is shorter than 255 bytes; a longer
    key is only known by its first 255 bytes. *)
Theorem pkg_cache_faithful h s r j s' :
  served h s → pkg_answer alloc clock run shell r s = (Some j, s') →
  pk_execs s' = pk_execs s →
  rejected r = Some j ∨
  ∃ en t t', en ∈ h ∧ en_json en = j ∧ en_started en ≠ [] ∧
    endpoint_of (en_req en) = endpoint_of r ∧
    take 255 (key_of (en_req en)) = key_of r ∧
    (length (key_of r) < 255 → en_req en = r) ∧
    en_from en ≤ t < en_to en ∧ pk_time s ≤ t' < pk_time s' ∧ (clock t' - clock t ≤ 30)%Z.
Proof.
  intros Hh E Hex. pose proof (served_ring_ok h s Hh) as Hr.
  destruct (rejected r) as [text|] eqn:Hrej.
  { left. rewrite (answer_rejected _ _ _ _ _ _ _ Hrej) in E. unfold strdup, malloc in E.
    revert E. run_st. destruct (alloc _); congruence. }
  right. apply answer_ok with (h := h) in E as (_ & _ & Hhit); [|done].
  destruct (Hhit Hex Hrej j eq_refl) as (t' & ts & (en & t & Hin & Hj & Hst & He & Hk & Ht & ->) & Ht' & Hage).
  exists en, t, t'. destruct (same_request _ _ He Hk). split_and!; first [done|lia].
Qed.
End history.

Lemma pkg_cache_faithful_witness :
  let answer := pkg_answer (λ _, true) (λ t, Z.of_nat t + 1000)%Z echo_run (λ _ _, None)
                  (Info (bs "vim")) in
  ∃ j, (answer (answer pkg_static).2).1 = Some j ∧
    ∃ en, en_json en = j ∧ en_req en = Info (bs "vim") ∧ en_started en ≠ [].
Proof.
  intros answer.
  set (s1 := (answer pkg_static).2).
  assert (∃ j, answer pkg_static = (Some j, s1)) as [j0 E0].
  { unfold s1. destruct (answer pkg_static) as [[j|] s] eqn:E; [by exists j|].
    apply (f_equal fst) in E. vm_compute in E. discriminate E. }
  assert (pk_execs (answer s1).2 = pk_execs s1) as Hex by (vm_compute; reflexivity).
  assert ((answer s1).1 ≠ rejected (Info (bs "vim"))) as Hne
    by (intros E; vm_compute in E; discriminate E).
  destruct (answer s1) as [[j|] s2] eqn:E; [|by destruct (Hne eq_refl)].
  exists j. split; [reflexivity|].
  pose proof (served_answer _ _ _ _ [] pkg_static _ _ _ (served_start _ _ _ _) E0) as Hs.
  destruct (pkg_cache_faithful _ _ _ _ _ _ _ _ _ Hs E Hex)
    as [Hr|(en & t & t' & _ & Hj & Hst & _ & _ & Hreq & _)].
  - exfalso. apply Hne. by rewrite Hr.
  - exists en. split; [exact Hj|]. split; [|exact Hst]. apply Hreq. apply Nat.ltb_lt. reflexivity.
Defined.


(** ** Workers taking turns *)

(** Where an answer comes from: a fixed text for a request that is refused, the programs
    started for the request, or the ring, with the time of the search. *)
Inductive pkg_source := FixedText | OwnPrograms | FromRing (now : Z).

(** What a request does next: find out whether there is a ring to search, search it, run
    the programs, store the answer. *)
Inductive pkg_phase :=
| PAsk (r : pkg_request)
| PSearch (r : pkg_request) (now : Z)
| PCompute (r : pkg_request)
| PKeep (r : pkg_request) (json : bytes)
| PDone (r : pkg_request) (answer : option bytes) (src : pkg_source).

(** A text was put into the ring at a time. *)
Record pkg_kept := { kp_req : pkg_request; kp_json : bytes; kp_stamp : Z }.

Record pkg_threads := {
  pt_state : pkg_state;
  pt_threads : list pkg_phase;
  pt_log : list pkg_kept
}.

Inductive pkg_choice :=
| PkgArrive (r : pkg_request)
| PkgTurn (i : nat)
| PkgCleanUp.

#[export] Instance pkg_request_eq_dec : EqDecision pkg_request.
Proof. solve_decision. Defined.

Definition pkg_is_done (ph : pkg_phase) : bool := match ph with PDone _ _ _ => true | _ => false end.

Section threads.
Context (alloc : nat → bool) (clock : nat → Z).
Context (run : nat → bytes → list bytes → Z → Z → option bytes).
Context (shell : nat → bytes → option bytes).

Definition pkg_advance (ph : pkg_phase) : PM pkg_phase :=
  match ph with
  | PAsk r =>
      match rejected r with
      | Some text => o ← strdup alloc text; mret (PDone r o FixedText)
      | None =>
          _ ← packages_once alloc clock;
          s ← get;
          if pk_ready s then
            now ← find_start clock;
            mret (match now with Some now => PSearch r now | None => PCompute r end)
          else mret (PCompute r)
      end
  | PSearch r now =>
      found ← find_locked alloc (endpoint_of r) (key_of r) PKG_CACHE_TTL_SEC now;
      mret (match found with Some j => PDone r (Some j) (FromRing now) | None => PCompute r end)
  | PCompute r =>
      x ← compute alloc run shell r;
      mret (match x with (Some j, true) => PKeep r j | (o, _) => PDone r o OwnPrograms end)
  | PKeep r j =>
      _ ← keep_answer alloc clock (endpoint_of r) (key_of r) j;
      mret (PDone r (Some j) OwnPrograms)
  | PDone _ _ _ => mret ph
  end.

Definition kept_by (ph : pkg_phase) (s : pkg_state) : list pkg_kept :=
  match ph with
  | PKeep r j => [{| kp_req := r; kp_json := j; kp_stamp := clock (pk_time s) |}]
  | _ => []
  end.

(** The clean-up runs after the workers were joined (app_main.c). *)
Definition pkg_turn (c : pkg_threads) (x : pkg_choice) : pkg_threads :=
  match x with
  | PkgArrive r => {| pt_state := pt_state c; pt_threads := pt_threads c ++ [PAsk r]; pt_log := pt_log c |}
  | PkgTurn i =>
      match pt_threads c !! i with
      | Some ph =>
          let '(ph', s') := pkg_advance ph (pt_state c) in
          {| pt_state := s'; pt_threads := <[i := ph']> (pt_threads c);
             pt_log := pt_log c ++ kept_by ph (pt_state c) |}
      | None => c
      end
  | PkgCleanUp =>
      if forallb pkg_is_done (pt_threads c)
      then {| pt_state := (packages_cache_cleanup (pt_state c)).2; pt_threads := pt_threads c; pt_log := pt_log c |}
      else c
  end.

Definition pkg_schedule (l : list pkg_choice) : pkg_threads :=
  foldl pkg_turn {| pt_state := pkg_static; pt_threads := []; pt_log := [] |} l.

(** *** Every answer has its origin *)

(** Programs started for [r] gave [j]. *)
Definition made (r : pkg_request) (j : bytes) (stored : bool) : Prop :=
  ∃ s, (compute alloc run shell r s).1 = (Some j, stored) ∧
       length (pk_execs s) < length (pk_execs (compute alloc run shell r s).2).

Definition sample_kept (log : list pkg_kept) (x : PkgSample) : Prop :=
  ∀ j, ps_json x = Some j → ∃ k, k ∈ log ∧ kp_json k = j ∧ kp_stamp k = ps_ts x ∧
    endpoint_of (kp_req k) = ps_endpoint x ∧ strlcpy 256 (key_of (kp_req k)) = ps_key x.

(** A text of the ring that serves the request [r] at [now]. *)
Definition kept_for (log : list pkg_kept) (r : pkg_request) (now : Z) (j : bytes) : Prop :=
  ∃ k, k ∈ log ∧ kp_json k = j ∧ endpoint_of (kp_req k) = endpoint_of r ∧
    strlcpy 256 (key_of (kp_req k)) = key_of r ∧ (now - kp_stamp k ≤ PKG_CACHE_TTL_SEC)%Z.

Definition phase_kept (log : list pkg_kept) (ph : pkg_phase) : Prop :=
  match ph with
  | PAsk _ => True
  | PSearch r _ | PCompute r => rejected r = None
  | PKeep r j => rejected r = None ∧ made r j true
  | PDone r (Some j) FixedText => rejected r = Some j
  | PDone r (Some j) OwnPrograms => ∃ stored, made r j stored
  | PDone r (Some j) (FromRing now) => kept_for log r now j
  | PDone _ None _ => True
  end.

Record pkg_threads_ok (c : pkg_threads) : Prop := {
  po_phases : Forall (phase_kept (pt_log c)) (pt_threads c);
  po_ring : ring_all (sample_kept (pt_log c)) (pk_ring (pt_state c));
  po_log : Forall (λ k, made (kp_req k) (kp_json k) true) (pt_log c)
}.

Lemma sample_kept_mono log new x : sample_kept log x → sample_kept (log ++ new) x.
Proof. intros H j Hj. destruct (H j Hj) as (k & Hk & ?). exists k. rewrite elem_of_app. auto. Qed.

Lemma phase_kept_mono log new ph : phase_kept log ph → phase_kept (log ++ new) ph.
Proof.
  destruct ph as [| | | |r [j|] [| |now]]; try done. intros (k & Hk & ?). exists k. rewrite elem_of_app. auto.
Qed.

(** A turn keeps the ring and leaves the request with what it knows. *)
Lemma pkg_advance_ok log ph s :
  phase_kept log ph → ring_all (sample_kept log) (pk_ring s) →
  let r := pkg_advance ph s in
  let log' := log ++ kept_by ph s in
  phase_kept log' r.1 ∧ ring_all (sample_kept log') (pk_ring r.2) ∧
  Forall (λ k, made (kp_req k) (kp_json k) true) (kept_by ph s).
Proof.
  intros Hph Hr. destruct ph as [r|r now|r|r j|r o src]; cbn [kept_by]; cbv zeta; rewrite ?app_nil_r;
    unfold pkg_advance; cbn [phase_kept] in Hph.
  - destruct (rejected r) as [text|] eqn:Hrej.
    + unfold strdup, malloc. run_st. destruct (alloc _); cbn; auto.
    + run_st. destruct (once_all alloc clock _ s Hr) as [Hr1 _].
      destruct (packages_once alloc clock s) as [u s1]. destruct (pk_ready s1); [|done].
      pose proof (find_start_all clock s1) as Hstart.
      destruct (find_start clock s1) as [[now|] s2]; destruct Hstart as (E & _); cbn; by rewrite E.
  - run_st. pose proof (find_locked_all alloc _ s (endpoint_of r) (key_of r) PKG_CACHE_TTL_SEC now Hr) as H.
    destruct (find_locked _ _ _ _ _ s) as [[j|] s1]; destruct H as (Hr1 & _ & Hhit); [|done].
    split; [|done]. destruct (Hhit j eq_refl) as (x & Hx & Hj & He & Hk & Hage).
    destruct (Hx j Hj) as (k & Hin & Hkj & Hstamp & Hke & Hkk). exists k. split_and!; congruence.
  - run_st. destruct (starts_compute alloc run shell r) as [Hq Hs].
    destruct (Hq s) as (Hring & _). specialize (Hs s).
    assert (∀ j stored, (compute alloc run shell r s).1 = (Some j, stored) → made r j stored) as Hmade
      by (intros j stored E; exists s; auto).
    destruct (compute _ _ _ r s) as [[[j|] [|]] s1]; cbn [fst snd phase_kept] in *; rewrite Hring; eauto.
  - run_st. set (k := {| kp_req := r |}). set (log' := log ++ [k]).
    destruct (keep_all alloc clock (sample_kept log') s (endpoint_of r) (key_of r) j) as [Hr1 _].
    + eapply ring_all_mono, Hr. intros x. apply sample_kept_mono.
    + intros x Hxe Hxk Hxj Hxt _ j' Hj'. exists k. rewrite Hxe, Hxk, Hxt, endpoint_strlcpy.
      split_and!; [apply elem_of_app; right; by apply list_elem_of_singleton|..]; try done. cbn. destruct Hxj; congruence.
    + destruct (keep_answer _ _ _ _ _ s) as [u s1]. destruct Hph as [Hrej Hmade].
      split; [by exists true|]. split; [done|]. by apply Forall_singleton.
  - by cbn.
Qed.

Lemma pkg_schedule_ok l : pkg_threads_ok (pkg_schedule l).
Proof.
  unfold pkg_schedule. assert (pkg_threads_ok {| pt_state := pkg_static; pt_threads := []; pt_log := [] |}) as H
    by (split; constructor).
  revert H. generalize (Build_pkg_threads pkg_static [] []).
  induction l as [|x l IH]; intros c Hc; [done|]. cbn [foldl]. apply IH. clear IH. destruct Hc as [H1 H2 H3].
  destruct x as [r|i|]; cbn [pkg_turn].
  - split; cbn; [|done..]. apply Forall_app. split; [done|]. by apply Forall_singleton.
  - destruct (pt_threads c !! i) as [ph|] eqn:Hph; [|done].
    pose proof (pkg_advance_ok (pt_log c) ph (pt_state c) (Forall_lookup_1 _ _ _ _ H1 Hph) H2) as (A & B & C).
    destruct (pkg_advance ph (pt_state c)) as [ph' s']. cbn [fst snd] in *.
    split; cbn [pt_threads pt_log pt_state]; [|done|by apply Forall_app].
    apply Forall_insert; [|done]. eapply Forall_impl; [exact H1|]. intros ?. apply phase_kept_mono.
  - destruct (forallb _ _); [|done]. split; cbn [pt_threads pt_log pt_state]; [done|by apply cleanup_all|done].
Qed.

(** C16. In whatever order requests come and have their turns, an answer is the text of the
    refusal of its request, or what programs started for the request gave, or a text of
    the ring that programs gave for a request to the same endpoint, put there at most 30
    seconds before the search began.  That was the same request if its key is shorter than
    255 bytes; a longer key is only known by its first 255 bytes. *)
Theorem pkg_answers_interleaved l r j src :
  PDone r (Some j) src ∈ pt_threads (pkg_schedule l) →
  match src with
  | FixedText => rejected r = Some j
  | OwnPrograms => ∃ stored, made r j stored
  | FromRing now => ∃ r' stamp,
      {| kp_req := r'; kp_json := j; kp_stamp := stamp |} ∈ pt_log (pkg_schedule l) ∧ made r' j true ∧
      endpoint_of r' = endpoint_of r ∧ take 255 (key_of r') = key_of r ∧
      (length (key_of r) < 255 → r' = r) ∧ (now - stamp ≤ 30)%Z
  end.
Proof.
  intros Hin. destruct (pkg_schedule_ok l) as [H1 _ H3].
  rewrite Forall_forall in H1. apply H1 in Hin. destruct src as [| |now]; [done..|].
  destruct Hin as ([r' j' stamp] & Hk & <- & He & Hkey & Hage). cbn in *. exists r', stamp.
  rewrite Forall_forall in H3. destruct (same_request _ _ He Hkey). split_and!; try done. by apply (H3 _ Hk).
Qed.

(** From [ph] on the request gives the answer and the state of [r]. *)
Definition pkg_does (ph : pkg_phase) (s : pkg_state) (r : option bytes * pkg_state) : Prop :=
  ∃ req src, comes_to pkg_advance ph s (PDone req r.1 src, r.2).

Lemma pkg_does_turn ph s ph' s' r : pkg_advance ph s = (ph', s') → pkg_does ph' s' r → pkg_does ph s r.
Proof. intros E (req & src & H). exists req, src. by eapply comes_to_turn. Qed.

Lemma pkg_does_done req ans src s r : ans = r.1 → r.2 = s → pkg_does (PDone req ans src) s r.
Proof. intros -> <-. exists req, src. apply comes_to_here. Qed.

Lemma pkg_does_compute r s :
  pkg_does (PCompute r) s
    ((x ← compute alloc run shell r;
      match x with
      | (Some json, true) => _ ← keep_answer alloc clock (endpoint_of r) (key_of r) json; mret (Some json)
      | (o, _) => mret o
      end) s).
Proof.
  run_st. destruct (compute alloc run shell r s) as [[[j|] [|]] s1] eqn:E;
    (eapply pkg_does_turn; [unfold pkg_advance; run_st; by rewrite E|]); try by apply pkg_does_done.
  destruct (keep_answer _ _ _ _ j s1) as [u s2] eqn:Ek.
  eapply pkg_does_turn; [unfold pkg_advance; run_st; by rewrite Ek|by apply pkg_does_done].
Qed.

(** The turns of a request that is alone are [pkg_answer]: the same answer from the same
    programs, and the same ring. *)
Theorem pkg_request_alone r s : pkg_does (PAsk r) s (pkg_answer alloc clock run shell r s).
Proof.
  destruct (rejected r) as [text|] eqn:Hrej.
  { rewrite (answer_rejected _ _ _ _ _ _ _ Hrej). destruct (strdup alloc text s) as [o s1] eqn:E.
    eapply pkg_does_turn; [unfold pkg_advance; rewrite Hrej; run_st; by rewrite E|by apply pkg_does_done]. }
  rewrite answer_shape by done. unfold answer_with, cached_answer, pkg_ring_find.
  pose proof (pkg_does_compute r) as Hcompute. revert Hcompute. run_st. intros Hcompute.
  destruct (packages_once alloc clock s) as [u s1] eqn:Eonce. destruct (pk_ready s1) eqn:Eready.
  2: { eapply pkg_does_turn; [unfold pkg_advance; rewrite Hrej; run_st; rewrite Eonce; by rewrite Eready|apply Hcompute]. }
  destruct (find_start clock s1) as [[now|] s2] eqn:Estart;
    (eapply pkg_does_turn; [unfold pkg_advance; rewrite Hrej; run_st; rewrite Eonce, Eready; by rewrite Estart|]);
    [|apply Hcompute].
  destruct (find_locked _ _ _ _ _ s2) as [[j|] s3] eqn:Efind;
    (eapply pkg_does_turn; [unfold pkg_advance; run_st; by rewrite Efind|]); [by apply pkg_does_done|apply Hcompute].
Qed.
End threads.

(** Two requests for the same package at once: both find the ring empty and run pkg_info,
    both answers are kept; a third is served from the ring. *)
Definition busy : list pkg_choice :=
  [PkgArrive (Info (bs "vim")); PkgArrive (Info (bs "vim")); PkgTurn 0; PkgTurn 1; PkgTurn 1; PkgTurn 0;
   PkgTurn 0; PkgTurn 1; PkgArrive (Info (bs "vim")); PkgTurn 2; PkgTurn 2].

Abbreviation busy_run :=
  (pkg_schedule (λ _, true) (λ t, Z.of_nat t + 1000)%Z echo_run (λ _ _, None) busy).

Lemma from_ring (o : option pkg_phase) :
  match o with Some (PDone r (Some _) (FromRing _)) => bool_decide (r = Info (bs "vim")) | _ => false end = true →
  ∃ j now, o = Some (PDone (Info (bs "vim")) (Some j) (FromRing now)).
Proof. destruct o as [[| | | |r [j|] [| |now]]|]; try done. intros ->%bool_decide_eq_true. by eexists _, _. Qed.

Lemma pkg_answers_interleaved_witness :
  length (pk_execs (pt_state busy_run)) = 2 ∧ length (pt_log busy_run) = 2 ∧
  ∃ j now stamp, pt_threads busy_run !! 2 = Some (PDone (Info (bs "vim")) (Some j) (FromRing now)) ∧
    {| kp_req := Info (bs "vim"); kp_json := j; kp_stamp := stamp |} ∈ pt_log busy_run ∧ (now - stamp ≤ 30)%Z.
Proof.
  split; [vm_compute; reflexivity|]. split; [vm_compute; reflexivity|].
  destruct (from_ring (pt_threads busy_run !! 2)) as (j & now & E); [vm_compute; reflexivity|]. exists j, now.
  destruct (pkg_answers_interleaved (λ _, true) (λ t, Z.of_nat t + 1000)%Z echo_run (λ _ _, None) busy
    (Info (bs "vim")) j (FromRing now) (list_elem_of_lookup_2 _ 2 _ E)) as (r' & stamp & Hin & _ & _ & _ & Hr & Hage).
  assert (r' = Info (bs "vim")) as -> by (apply Hr; apply Nat.ltb_lt; vm_compute; reflexivity).
  exists stamp. auto.
Defined.
