(* ===== verification/Man.v ===== *)
(** * The manual pages: queries and index (src/modules/man/man_query.c, man_index.c)

    Tokens and sections of the URLs, the lookup of a page with man(1), the page lists and
    the search.  The functions work in the state monad over [man_state], the state of the
    whole module: the render cache in memory and on disk (ManRender.v), a counter of the
    questions put to the clock, the allocator, the file system and the programs, and the
    programs started and directories made so far. *)

From stdpp Require Import sorting.
From S2P Require Import Prelude HttpUtils Json QueryString Subprocess.

(** ** State *)

Record man_slot := {
  ms_key : bytes;
  ms_body : option bytes;
  ms_inserted : Z
}.

(** A file of the disk cache, with its modification time. *)
Record disk_file := { df_data : bytes; df_mtime : Z }.

Record man_state := {
  mn_cache : list (list man_slot);
  mn_cache_initialized : bool;
  mn_disk : gmap bytes disk_file;
  mn_time : nat;
  mn_execs : list (bytes * list bytes);
  mn_mkdirs : list bytes
}.

Abbreviation MM := (ST man_state).

Definition mn_tick (s : man_state) : man_state :=
  {| mn_cache := mn_cache s; mn_cache_initialized := mn_cache_initialized s;
     mn_disk := mn_disk s; mn_time := S (mn_time s); mn_execs := mn_execs s;
     mn_mkdirs := mn_mkdirs s |}.

Definition mn_exec (path : bytes) (argv : list bytes) (s : man_state) : man_state :=
  {| mn_cache := mn_cache s; mn_cache_initialized := mn_cache_initialized s;
     mn_disk := mn_disk s; mn_time := mn_time s; mn_execs := mn_execs s ++ [(path, argv)];
     mn_mkdirs := mn_mkdirs s |}.

(** ** man_query.c *)

Definition man_is_valid_token (s : bytes) : bool :=
  negb (length s =? 0) && forallb safe_name_char s.

Definition man_is_valid_section (section : bytes) : bool :=
  match section with
  | [] => false
  | c :: rest => negb (8 <? length section) && isdigit c && forallb islower rest
  end.

Definition compressed_suffixes : list bytes := [bs ".gz"; bs ".bz2"; bs ".xz"; bs ".zst"].

(** [tlen > slen && strcmp(tmp + tlen - slen, suffix) == 0] *)
Definition has_suffix (tmp suffix : bytes) : bool :=
  (length suffix <? length tmp) && streq (drop (length tmp - length suffix) tmp) suffix.

(** The loop over the suffixes: the first one found is cut off. *)
Fixpoint strip_suffix (suffixes : list bytes) (tmp : bytes) : bytes :=
  match suffixes with
  | [] => tmp
  | x :: suffixes' =>
      if has_suffix tmp x then take (length tmp - length x) tmp else strip_suffix suffixes' tmp
  end.

(** The text in [section_out] when the result is 1. *)
Definition man_parse_section_from_filename (filename : bytes) (section_out_len : nat)
    : option bytes :=
  if section_out_len =? 0 then None
  else
    let tmp := strip_suffix compressed_suffixes (strlcpy 256 filename) in
    match strrchr tmp "." with
    | None => None
    | Some dot =>
        let section := drop (S dot) tmp in
        if man_is_valid_section section then Some (strlcpy section_out_len section) else None
    end.

Definition man_area_from_path (filepath : bytes) : bytes :=
  if is_prefix (bs "/usr/X11R6/") filepath then bs "x11"
  else if is_prefix (bs "/usr/local/") filepath then bs "packages"
  else bs "system".

(** ** man_index.c *)

Definition MAN_MAX_JSON_SIZE : Z := 256 * 1024.
Definition MAN_MAX_OUTPUT_SIZE : Z := 10 * 1024 * 1024.

(** The loop over the blank-separated tokens. *)
Fixpoint select_token (readable : bytes → bool) (toks : list bytes) (selected : option bytes)
    : option bytes :=
  match toks with
  | [] => selected
  | t :: toks' =>
      if is_prefix (bs "/") t then
        if readable t then Some t
        else select_token readable toks' (match selected with None => Some t | _ => selected end)
      else select_token readable toks' selected
  end.

Definition blank_out (s : bytes) : bytes :=
  (λ c, if Ascii.eqb c lf || Ascii.eqb c cr || Ascii.eqb c tab then space else c) <$> s.

(** [strcmp(a, b) <= 0] *)
Fixpoint strcmp_le (a b : bytes) : bool :=
  match a, b with
  | [], _ => true
  | _ :: _, [] => false
  | x :: a', y :: b' =>
      (byte_val x <? byte_val y)%Z || ((byte_val x =? byte_val y)%Z && strcmp_le a' b')
  end.

Definition strcmp_order (a b : bytes) : Prop := strcmp_le a b = true.

#[export] Instance strcmp_order_dec : RelDecision strcmp_order.
Proof. intros a b. unfold strcmp_order. apply _. Defined.

(** A directory entry: its name and whether its type is [DT_DIR]. *)
Definition dirent : Type := bytes * bool.

(** The body of the readdir loop: the name an entry contributes. *)
Definition page_name (section : bytes) (de : dirent) : option bytes :=
  let '(d_name, is_dir) := de in
  if is_prefix (bs ".") d_name || is_dir then None
  else
    match man_parse_section_from_filename d_name 16 with
    | None => None
    | Some resolved_section =>
        if negb (streq resolved_section section) then None
        else
          let name := strlcpy 128 d_name in
          Some (match strrchr name "." with Some dot => take dot name | None => name end)
    end.

(** The text of [man_get_sections_json]. *)
Definition man_sections_text : bytes :=
  qs "{'system':{" ++
  qs "'name':'OpenBSD Base System'," ++
  qs "'path':'/usr/share/man'," ++
  qs "'sections':[" ++
  qs "{'id':'1','name':'General Commands'}," ++
  qs "{'id':'2','name':'System Calls'}," ++
  qs "{'id':'3','name':'Library Functions'}," ++
  qs "{'id':'3p','name':'Perl Library'}," ++
  qs "{'id':'4','name':'Device Drivers'}," ++
  qs "{'id':'5','name':'File Formats'}," ++
  qs "{'id':'6','name':'Games'}," ++
  qs "{'id':'7','name':'Miscellaneous'}," ++
  qs "{'id':'8','name':'System Administration'}," ++
  qs "{'id':'9','name':'Kernel Internals'}" ++
  qs "]}," ++
  qs "'x11':{" ++
  qs "'name':'X11 Window System'," ++
  qs "'path':'/usr/X11R6/man'," ++
  qs "'sections':[" ++
  qs "{'id':'1','name':'X11 Commands'}," ++
  qs "{'id':'3','name':'X11 Library'}," ++
  qs "{'id':'4','name':'X11 Drivers'}," ++
  qs "{'id':'5','name':'X11 Formats'}," ++
  qs "{'id':'7','name':'X11 Misc'}" ++
  qs "]}," ++
  qs "'packages':{" ++
  qs "'name':'Local Packages'," ++
  qs "'path':'/usr/local/man'," ++
  qs "'sections':[" ++
  qs "{'id':'1','name':'Pkg General'}," ++
  qs "{'id':'2','name':'Pkg Calls'}," ++
  qs "{'id':'3','name':'Pkg Lib'}," ++
  qs "{'id':'3p','name':'Pkg Perl'}," ++
  qs "{'id':'4','name':'Pkg Drivers'}," ++
  qs "{'id':'5','name':'Pkg Formats'}," ++
  qs "{'id':'6','name':'Pkg Games'}," ++
  qs "{'id':'7','name':'Pkg Misc'}," ++
  qs "{'id':'8','name':'Pkg Admin'}," ++
  qs "{'id':'9','name':'Pkg Kernel'}" ++
  qs "]}}".

Definition MAX_PAGES : nat := N.to_nat 8192.

Lemma MAX_PAGES_val : Z.of_nat MAX_PAGES = 8192%Z.
Proof. reflexivity. Qed.

#[global] Opaque MAX_PAGES.

Definition JSON_CLOSE_RESERVE : Z := 4.

(** The loop that writes the names; [json] is the text so far, whose length is [used]. *)
Fixpoint append_pages (pages : list bytes) (first : bool) (json : bytes) : bytes :=
  match pages with
  | [] => json
  | p :: pages' =>
      let entry_len := ((if first then 0 else 1) + 1 + length p + 1)%nat in
      if (MAN_MAX_JSON_SIZE <=? Z.of_nat (length json + entry_len) + JSON_CLOSE_RESERVE)%Z
      then append_pages pages' first json
      else append_pages pages' false (json ++ (if first then [] else [","%char]) ++ [dq] ++ p ++ [dq])
  end.

Definition section_dir (area section : bytes) : bytes :=
  let base := if streq area (bs "packages") then bs "/usr/local/man"
              else if streq area (bs "x11") then bs "/usr/X11R6/man"
              else bs "/usr/share/man" in
  strlcpy 256 (base ++ bs "/man" ++ section).

Definition no_pages : bytes := qs "{'pages':[]}".

Definition MANPATH : bytes := bs "/usr/share/man:/usr/local/man:/usr/X11R6/man".

Section index.
Context (alloc : nat → bool) (run : nat → bytes → list bytes → Z → Z → option bytes).
Context (readable : bytes → bool) (readdir : bytes → option (list dirent)).

Definition malloc : MM bool := λ s, (alloc (mn_time s), mn_tick s).

Definition strdup (b : bytes) : MM (option bytes) :=
  ok ← malloc; mret (if ok : bool then Some b else None).

(** [safe_popen_read_argv]: the bytes read, [*out_len] of them. *)
Definition run_program (path : bytes) (argv : list bytes) (max_size timeout : Z)
    : MM (option bytes) := λ s,
  (run (mn_time s) path argv max_size timeout, mn_tick (mn_exec path argv s)).

Definition select_resolved_man_path (raw_output : option bytes) : MM (option bytes) :=
  match raw_output with
  | None => mret None
  | Some raw =>
      match select_token readable (strtok space (blank_out (cstr raw))) None with
      | Some ((_ :: _) as selected) => strdup selected
      | _ => mret None
      end
  end.

Definition man_resolve_path (name section : bytes) : MM (option bytes) :=
  if negb (man_is_valid_token name) || negb (man_is_valid_section section) then mret None
  else
    raw ← run_program (bs "/usr/bin/man")
            [bs "man"; bs "-M"; MANPATH; bs "-w"; section; name] 2048 5;
    select_resolved_man_path raw.

Definition man_get_sections_json : MM (option bytes) := strdup man_sections_text.

Definition man_json_sections : MM (option bytes) := man_get_sections_json.

(** The copies of the names; the array has [MAX_PAGES] places. *)
Fixpoint collect_pages (section : bytes) (entries : list dirent) (pages : list bytes)
    : MM (list bytes) :=
  match entries with
  | [] => mret pages
  | de :: entries' =>
      match page_name section de with
      | None => collect_pages section entries' pages
      | Some name =>
          if length pages <? MAX_PAGES then
            copy ← strdup name;
            collect_pages section entries'
              (match copy with Some c => pages ++ [c] | None => pages end)
          else collect_pages section entries' pages
      end
  end.

Definition man_get_section_pages_json (area section : bytes) : MM (option bytes) :=
  match readdir (section_dir area section) with
  | None => strdup no_pages
  | Some entries =>
      ok ← malloc;
      if negb ok then mret None
      else
        pages ← collect_pages section entries [];
        let sorted := if 1 <? length pages then merge_sort strcmp_order pages else pages in
        mret (Some (append_pages sorted true (qs "{'pages':[") ++ bs "]}"))
  end.

Definition man_get_page_metadata_json (area section name : bytes) : MM (option bytes) :=
  filepath ← man_resolve_path name section;
  match filepath with
  | None => strdup (qs "{'error':'Not found'}")
  | Some filepath =>
      ok ← malloc;
      if negb ok then strdup (qs "{'error':'OOM'}")
      else mret (Some (strlcpy 1024 (qs "{'name':'" ++ name ++ qs "','section':'" ++ section ++
             qs "','area':'" ++ area ++ qs "','path':'" ++ filepath ++ qs "'}")))
  end.

Definition apropos (query : bytes) (max_size : Z) : MM (option bytes) :=
  output ← run_program (bs "/usr/bin/apropos") [bs "apropos"; bs "-M"; MANPATH; query] max_size 5;
  match output with
  | None => strdup []
  | Some o => mret (Some (cstr o))
  end.

Definition man_api_search (query : bytes) : MM (option bytes) :=
  if negb (man_is_valid_token query) then strdup [] else apropos query MAN_MAX_OUTPUT_SIZE.

Definition man_service_search_json (query : bytes) : MM (option bytes) := man_api_search query.

(** The component behind the last slash. *)
Definition basename (filepath : bytes) : bytes :=
  match strrchr filepath "/" with Some i => drop (S i) filepath | None => filepath end.

(** [None] also stands for the crash when the copy of the empty string fails. *)
Definition man_api_search_raw (query : bytes) : MM (option bytes) :=
  if (length query <? 2) || negb (man_is_valid_token query) then strdup []
  else
    output ← apropos query (1024 * 1024);
    match output with
    | Some [] =>
        filepath ← man_resolve_path query (bs "1");
        filepath ← (match filepath with
                    | None => man_resolve_path query (bs "8")
                    | Some _ => mret filepath
                    end);
        match filepath with
        | Some ((_ :: _) as f) =>
            let section := default (bs "?") (man_parse_section_from_filename (basename f) 16) in
            let line := strlcpy 256 (query ++ bs " (" ++ section ++ bs ") - manual page") in
            o ← strdup line;
            match o with Some o => mret (Some o) | None => strdup [] end
        | _ => mret output
        end
    | _ => mret output
    end.
End index.

(** ** The page list *)

Lemma strcmp_le_total a b : strcmp_le a b = true ∨ strcmp_le b a = true.
Proof.
  revert b. induction a as [|x a IH]; intros [|y b]; simpl; auto.
  rewrite !orb_true_iff, !andb_true_iff, !Z.ltb_lt, !Z.eqb_eq.
  destruct (IH b); destruct (Z.lt_total (byte_val x) (byte_val y)) as [|[|]]; auto.
Qed.

Lemma strcmp_le_trans a b c :
  strcmp_le a b = true → strcmp_le b c = true → strcmp_le a c = true.
Proof.
  revert b c. induction a as [|x a IH]; intros [|y b] [|z c]; simpl; try done.
  rewrite !orb_true_iff, !andb_true_iff, !Z.ltb_lt, !Z.eqb_eq.
  intros [?|[? ?]] [?|[? ?]]; [left; lia..|right]. split; [lia|]. by eapply IH.
Qed.

#[export] Instance strcmp_order_total : Total strcmp_order.
Proof. intros a b. apply strcmp_le_total. Qed.

#[export] Instance strcmp_order_trans : Transitive strcmp_order.
Proof. intros a b c. apply strcmp_le_trans. Qed.

Lemma sublist_Forall {A} (P : A → Prop) l k : l `sublist_of` k → Forall P k → Forall P l.
Proof. induction 1; rewrite ?Forall_cons; naive_solver. Qed.

Lemma StronglySorted_sublist {A} (R : relation A) l k :
  l `sublist_of` k → StronglySorted R k → StronglySorted R l.
Proof.
  induction 1 as [|x l k Hsub IH|x l k Hsub IH]; [done|intros H; inversion_clear H..].
  - constructor; [by apply IH|]. by eapply sublist_Forall.
  - by apply IH.
Qed.

Lemma length_concat_Permutation (l k : list bytes) :
  l ≡ₚ k → length (concat l) = length (concat k).
Proof. induction 1; simpl; rewrite ?length_app; lia. Qed.

(** A name that needs no escape in JSON. *)
Definition json_plain (s : bytes) : Prop := json_escape s = s.

Lemma array_text_false texts x :
  array_text false (x :: texts) = ","%char :: array_text true (x :: texts).
Proof. reflexivity. Qed.

Lemma array_text_snoc texts x b :
  array_text b (texts ++ [x])
  = array_text b texts ++ json_item (match texts with [] => b | _ => false end) (json_escape x).
Proof.
  revert b. induction texts as [|y texts IH]; intros b; simpl; [by rewrite app_nil_r|].
  rewrite IH, <- app_assoc. by destruct texts.
Qed.

(** The names the loop writes: a part of [pages] in its order, all of them when there is
    room. *)
Lemma append_pages_spec head pages done json :
  Forall json_plain pages → Forall json_plain done →
  json = head ++ array_text true done →
  ∃ l, append_pages pages (match done with [] => true | _ => false end) json
       = head ++ array_text true (done ++ l) ∧ l `sublist_of` pages ∧
    ((Z.of_nat (length json + length (concat pages) + 3 * length pages) + JSON_CLOSE_RESERVE
        < MAN_MAX_JSON_SIZE)%Z → l = pages).
Proof.
  intros Hp. revert done json. induction Hp as [|p pages Hp Hps IH]; intros done json Hd ->.
  { exists []. by rewrite app_nil_r. }
  cbn [append_pages]. set (first := match done with [] => true | _ => false end).
  destruct (MAN_MAX_JSON_SIZE <=? _)%Z eqn:Hroom; bool_facts.
  - destruct (IH done _ Hd eq_refl) as (l & Hl & Hsub & _). exists l.
    split; [exact Hl|]. split; [by constructor|]. intros Hsmall. exfalso. revert Hroom Hsmall.
    rewrite concat_cons, !length_app. cbn [length]. destruct first; lia.
  - destruct (IH (done ++ [p]) (head ++ array_text true (done ++ [p]))) as (l & Hl & Hsub & Hall);
      [by apply Forall_app; split; [|constructor]|done|].
    assert ((head ++ array_text true done) ++ (if first then [] else [","%char]) ++ [dq] ++ p ++ [dq]
            = head ++ array_text true (done ++ [p])) as ->.
    { rewrite array_text_snoc, <- app_assoc. do 2 f_equal. rewrite Hp. unfold json_item, first.
      by destruct done. }
    assert (match done ++ [p] with [] => true | _ => false end = false) as Hf by (by destruct done).
    rewrite Hf in Hl. exists (p :: l). rewrite Hl, <- app_assoc. split; [done|].
    split; [by constructor|]. intros Hsmall. f_equal. apply Hall. revert Hsmall.
    rewrite array_text_snoc, Hp, concat_cons, !length_app. unfold json_item.
    rewrite !length_app. cbn [length]. destruct done; cbn [length]; lia.
Qed.

Lemma append_pages_bound pages first json :
  (Z.of_nat (length json) + 3 ≤ MAN_MAX_JSON_SIZE)%Z →
  (Z.of_nat (length (append_pages pages first json)) + 3 ≤ MAN_MAX_JSON_SIZE)%Z.
Proof.
  revert first json. induction pages as [|p pages IH]; intros first json Hj; [done|].
  cbn [append_pages]. destruct (MAN_MAX_JSON_SIZE <=? _)%Z eqn:Hroom; bool_facts; [by apply IH|].
  apply IH. unfold JSON_CLOSE_RESERVE in Hroom. rewrite !length_app. cbn [length].
  destruct first; cbn [length]; lia.
Qed.

Section pages.
Context (alloc : nat → bool) (readdir : bytes → option (list dirent)).

Lemma collect_pages_spec section entries pages s :
  let pages' := (collect_pages alloc section entries pages s).1 in
  (∃ l, l `sublist_of` omap (page_name section) entries ∧ pages' = pages ++ l) ∧
  ((∀ t, alloc t = true) →
   length pages + length (omap (page_name section) entries) ≤ MAX_PAGES →
   pages' = pages ++ omap (page_name section) entries).
Proof.
  revert pages s. induction entries as [|de entries IH]; intros pages s; simpl.
  { split; [exists []; by rewrite app_nil_r|]. by rewrite app_nil_r. }
  destruct (page_name section de) as [name|]; [|by apply IH].
  destruct (length pages <? MAX_PAGES) eqn:Hl; bool_facts.
  - unfold strdup, malloc. run_st. destruct (alloc (mn_time s)) eqn:Ha.
    + destruct (IH (pages ++ [name]) (mn_tick s)) as [(l & Hsub & Heq) Hall]. split.
      * exists (name :: l). rewrite Heq, <- app_assoc. split; [by constructor|done].
      * intros Hal Hlen. rewrite (Hall Hal), <- app_assoc; [done|].
        rewrite length_app, <- Nat.add_assoc. exact Hlen.
    + destruct (IH pages (mn_tick s)) as [(l & Hsub & Heq) _]. split.
      * exists l. split; [by constructor|done].
      * intros Hal. by rewrite Hal in Ha.
  - destruct (IH pages s) as [(l & Hsub & Heq) _]. split.
    + exists l. split; [by constructor|done].
    + cbn [length]. lia.
Qed.

(** The list of the pages of a section always fits its buffer of 256 KiB.  If no file name
    needs an escape a client reads from it names of the section's files in strcmp order,
    each as often as it occurs in the directory at most, and all of them when there are at
    most 8192, memory suffices and the text is not too long. *)
Theorem man_pages_json area section s json entries :
  readdir (section_dir area section) = Some entries →
  (man_get_section_pages_json alloc readdir area section s).1 = Some json →
  (Z.of_nat (length json) < MAN_MAX_JSON_SIZE)%Z ∧
  let names := omap (page_name section) entries in
  (Forall json_plain names →
   ∃ l, read_json_array (qs "{'pages':[") json = Some l ∧
     StronglySorted strcmp_order l ∧ l ⊆+ names ∧
     ((∀ t, alloc t = true) → length names ≤ MAX_PAGES →
      (Z.of_nat (length (concat names) + 3 * length names) + 16 < MAN_MAX_JSON_SIZE)%Z →
      l ≡ₚ names)).
Proof.
  intros Hdir. unfold man_get_section_pages_json. rewrite Hdir. unfold malloc. run_st.
  destruct (alloc (mn_time s)); cbn [negb]; [|done].
  destruct (collect_pages_spec section entries [] (mn_tick s)) as [(l0 & Hsub0 & Heq) Hall].
  destruct (collect_pages _ _ _ _ _) as [pages s1]. cbn [fst app] in *. subst l0.
  set (sorted := if 1 <? length pages then _ else _).
  assert (sorted ≡ₚ pages ∧ StronglySorted strcmp_order sorted) as [Hperm Hsort].
  { unfold sorted. destruct (1 <? length pages) eqn:H1; bool_facts.
    - split; [apply merge_sort_Permutation|by apply StronglySorted_merge_sort; apply _].
    - split; [done|]. destruct pages as [|p [|]]; simpl in H1; try lia; repeat constructor. }
  clearbody sorted. intros [= <-].
  change (length (qs "{'pages':[")) with 10.
  assert (Z.of_nat (length (qs "{'pages':[")) + 3 ≤ MAN_MAX_JSON_SIZE)%Z as Hh
    by (apply Z.leb_le; vm_compute; reflexivity).
  split.
  { pose proof (append_pages_bound sorted true _ Hh) as Hb.
    rewrite length_app. change (length (bs "]}")) with 2. lia. }
  set (names := omap (page_name section) entries) in *. intros Hplain.
  assert (Forall json_plain sorted) as Hps.
  { rewrite Hperm. eapply sublist_Forall; [exact Hsub0|exact Hplain]. }
  destruct (append_pages_spec (qs "{'pages':[") sorted [] (qs "{'pages':[") Hps) as (l & Hl & Hsub & Hfull);
    [done|by rewrite app_nil_r|].
  exists l. rewrite Hl, <- app_assoc. split; [apply read_json_array_text|]. split_and!.
  - eapply StronglySorted_sublist; [exact Hsub|exact Hsort].
  - rewrite <- (sublist_submseteq _ _ Hsub0), <- Hperm. by apply sublist_submseteq.
  - intros Ha Hmax Hlen. rewrite Hfull.
    + rewrite Hperm. rewrite (Hall Ha Hmax). done.
    + rewrite (Hall Ha Hmax) in Hperm.
      change (length (qs "{'pages':[")) with 10. unfold JSON_CLOSE_RESERVE.
      rewrite (length_concat_Permutation _ _ Hperm), (Permutation_length Hperm).
      fold names. lia.
Qed.
End pages.

Definition sample_dir (path : bytes) : option (list dirent) :=
  if streq path (bs "/usr/share/man/man1")
  then Some [(bs ".", true); (bs "ls.1", false); (bs "printf.3", false); (bs "cat.1", false);
             (bs "sparc64", true); (bs "X.conf.1", false)]
  else None.

Lemma man_pages_json_witness :
  ∃ json l, (man_get_section_pages_json (λ _, true) sample_dir (bs "system") (bs "1")
      {| mn_cache := []; mn_cache_initialized := false; mn_disk := ∅; mn_time := 0;
         mn_execs := []; mn_mkdirs := [] |}).1 = Some json ∧
    read_json_array (qs "{'pages':[") json = Some l ∧
    l ≡ₚ [bs "ls"; bs "cat"; bs "X.conf"] ∧ StronglySorted strcmp_order l.
Proof.
  destruct (man_get_section_pages_json _ _ _ _ _).1 as [json|] eqn:E;
    [|vm_compute in E; discriminate E].
  destruct (man_pages_json (λ _, true) sample_dir (bs "system") (bs "1") _ _
    [(bs ".", true); (bs "ls.1", false); (bs "printf.3", false); (bs "cat.1", false);
     (bs "sparc64", true); (bs "X.conf.1", false)] eq_refl E) as (_ & H).
  destruct H as (l & Hread & Hsort & _ & Hall).
  { repeat constructor. }
  exists json, l. split; [reflexivity|]. split; [exact Hread|]. split; [|exact Hsort].
  apply Hall; [reflexivity| |apply Z.ltb_lt; vm_compute; reflexivity].
  pose proof MAX_PAGES_val. change (length _) with 3. lia.
Defined.

(** A compressed page keeps its section in the name. *)
Example compressed_page_name :
  page_name (bs "1") (bs "grep.1.gz", false) = Some (bs "grep.1").
Proof. vm_compute. reflexivity. Qed.

Lemma valid_section_length s : man_is_valid_section s = true → 0 < length s ≤ 8.
Proof.
  unfold man_is_valid_section. destruct s as [|c s]; [done|]. intros H.
  apply andb_true_iff in H as [H _]. bool_facts. simpl in *. lia.
Qed.

Lemma parse_section_valid filename r :
  man_parse_section_from_filename filename 16 = Some r → man_is_valid_section r = true.
Proof.
  unfold man_parse_section_from_filename. set (tmp := strip_suffix _ _). clearbody tmp.
  change (16 =? 0) with false. cbv iota zeta. destruct (strrchr tmp ".") as [dot|]; [|done].
  destruct (man_is_valid_section (drop (S dot) tmp)) eqn:Hv; [|done]. intros [= <-].
  pose proof (valid_section_length _ Hv). by rewrite strlcpy_id by lia.
Qed.

(** The section of a query string reaches the path of the directory unchecked, but a
    directory reached through a section that is not valid yields no page. *)
Lemma invalid_section_lists_nothing section entries :
  man_is_valid_section section = false → omap (page_name section) entries = [].
Proof.
  intros Hs. induction entries as [|[d is_dir] entries IH]; [done|].
  cbn [omap list_omap]. assert (page_name section (d, is_dir) = None) as ->; [|done].
  unfold page_name. destruct (is_prefix (bs ".") d || is_dir); [done|].
  destruct (man_parse_section_from_filename d 16) as [r|] eqn:E; [|done].
  destruct (streq r section) eqn:Er; [|done]. apply streq_true in Er as ->.
  apply parse_section_valid in E. congruence.
Qed.
