(* ===== verification/ManRender.v ===== *)
(** * The manual pages: rendering and handlers (src/modules/man/man_render.c)

    A page is rendered by mandoc(1) and kept twice: in a table of eight shards in memory for
    [MAN_RENDER_CACHE_TTL] seconds and in a file below the static directory that is used
    for [MAN_FS_CACHE_TTL_SEC] seconds.  A handler is written as one function;
    ManRun.v cuts it into its turns.  What the kernel answers to its file-system calls is a
    parameter ([io], [wr]), the contents and times of the cached files are part of the
    state.  The semaphore that bounds the number of mandoc
    processes has its initial value between requests; [sem] says whether a wait for it
    succeeds. *)

From S2P Require Import Prelude Conf HttpUtils QueryString Router ResponsePool HttpResponse Subprocess Man.

(** ** Constants and data *)

Definition MAN_RENDER_CACHE_SHARDS : nat := 8.
Definition MAN_RENDER_CACHE_SLOTS : nat := 64.
Definition MAN_RENDER_CACHE_TTL : Z := 600.
Definition MAN_FS_CACHE_TTL_SEC : Z := 300.

Definition zero_man_slot : man_slot := {| ms_key := []; ms_body := None; ms_inserted := 0 |}.

#[export] Instance man_slot_inhabited : Inhabited man_slot := populate zero_man_slot.

Definition zero_shard : list man_slot := replicate MAN_RENDER_CACHE_SLOTS zero_man_slot.

Definition man_static : man_state :=
  {| mn_cache := replicate MAN_RENDER_CACHE_SHARDS zero_shard; mn_cache_initialized := false;
     mn_disk := ∅; mn_time := 0; mn_execs := []; mn_mkdirs := [] |}.

Definition set_cache (c : list (list man_slot)) (s : man_state) : man_state :=
  {| mn_cache := c; mn_cache_initialized := mn_cache_initialized s; mn_disk := mn_disk s;
     mn_time := mn_time s; mn_execs := mn_execs s; mn_mkdirs := mn_mkdirs s |}.

(** [pthread_once(&g_man_cache_once, man_render_cache_init)] *)
Definition man_render_cache_init (s : man_state) : man_state :=
  {| mn_cache := mn_cache s; mn_cache_initialized := true; mn_disk := mn_disk s;
     mn_time := mn_time s; mn_execs := mn_execs s; mn_mkdirs := mn_mkdirs s |}.

Definition set_disk (d : gmap bytes disk_file) (s : man_state) : man_state :=
  {| mn_cache := mn_cache s; mn_cache_initialized := mn_cache_initialized s; mn_disk := d;
     mn_time := mn_time s; mn_execs := mn_execs s; mn_mkdirs := mn_mkdirs s |}.

Definition note_mkdir (p : bytes) (s : man_state) : man_state :=
  {| mn_cache := mn_cache s; mn_cache_initialized := mn_cache_initialized s;
     mn_disk := mn_disk s; mn_time := mn_time s; mn_execs := mn_execs s;
     mn_mkdirs := mn_mkdirs s ++ [p] |}.

(** Area, section, page and format of a request. *)
Record man_page := ManPage {
  mp_area : bytes;
  mp_section : bytes;
  mp_page : bytes;
  mp_format : bytes
}.

(** ** The cache in memory *)

Definition man_render_cache_key (p : man_page) : bytes :=
  strlcpy 192 (mp_area p ++ bs "/" ++ mp_section p ++ bs "/" ++ mp_page p ++ bs "." ++ mp_format p).

Definition man_render_cache_shard (key : bytes) : nat :=
  Z.to_nat (foldl (λ h c, wrap64 (Z.lxor h (byte_val c) * 1099511628211))
              14695981039346656037 key mod Z.of_nat MAN_RENDER_CACHE_SHARDS)%Z.

(** [s->body && strcmp(s->key, key) == 0] *)
Definition slot_has (key : bytes) (s : man_slot) : bool :=
  match ms_body s with Some _ => streq (ms_key s) key | None => false end.

Fixpoint slot_index (key : bytes) (slots : list man_slot) : option nat :=
  match slots with
  | [] => None
  | s :: slots' => if slot_has key s then Some 0 else S <$> slot_index key slots'
  end.

Definition drop_body (s : man_slot) : man_slot :=
  {| ms_key := ms_key s; ms_body := None; ms_inserted := ms_inserted s |}.

(** Where the scan of [man_render_cache_put] ends: on the slot of the key, or with
    [target]. *)
Inductive put_place := PutUpdate (i : nat) | PutTarget (target : option nat).

Fixpoint put_scan (key : bytes) (slots : list man_slot) (i : nat) (target : option nat)
    (oldest : Z) : put_place :=
  match slots with
  | [] => PutTarget target
  | s :: slots' =>
      if slot_has key s then PutUpdate i
      else
        match ms_body s with
        | None => PutTarget (Some i)
        | Some _ =>
            if (ms_inserted s <? oldest)%Z
            then put_scan key slots' (S i) (Some i) (ms_inserted s)
            else put_scan key slots' (S i) target oldest
        end
  end.

(** ** Text and paths *)

(** The loop of [man_strip_overstrike_ascii] on the rest of the text. *)
Fixpoint strip_overstrike (text : bytes) : bytes :=
  match text with
  | [] => []
  | c :: t1 =>
      if Ascii.eqb c nul then []
      else
        match t1 with
        | b :: d :: t3 => if Ascii.eqb b "008" then d :: strip_overstrike t3
                          else c :: strip_overstrike t1
        | _ => c :: strip_overstrike t1
        end
  end.

Definition man_strip_overstrike_ascii (text : bytes) : bytes := strip_overstrike text.

Definition rel_path (p : man_page) : bytes :=
  bs "/static/man/" ++ mp_area p ++ bs "/" ++ mp_section p ++ bs "/" ++ mp_page p ++ bs "." ++
  mp_format p.

Definition abs_path (static_dir : bytes) (p : man_page) : bytes :=
  static_dir ++ bs "/man/" ++ mp_area p ++ bs "/" ++ mp_section p ++ bs "/" ++ mp_page p ++
  bs "." ++ mp_format p.

(** The two paths when they fit buffers of [rel_len] and [abs_len] bytes. *)
Definition build_cache_paths (static_dir : bytes) (p : man_page) (rel_len abs_len : nat)
    : option (bytes * bytes) :=
  if rel_len <=? length (rel_path p) then None
  else if abs_len <=? length (abs_path static_dir p) then None
  else Some (rel_path p, abs_path static_dir p).

Definition man_mime_for_format (format : bytes) : bytes :=
  if streq format (bs "pdf") then bs "application/pdf"
  else if streq format (bs "ps") then bs "application/postscript"
  else if streq format (bs "md") then bs "text/markdown; charset=utf-8"
  else if streq format (bs "txt") then bs "text/plain; charset=utf-8"
  else bs "text/html; charset=utf-8".

Definition man_add_content_disposition_for_format (r : http_response) (format page : bytes)
    : http_response :=
  if streq format (bs "pdf") then
    http_response_add_header r (bs "Content-Disposition")
      (strlcpy 256 (qs "inline; filename='" ++ page ++ qs ".pdf'"))
  else if streq format (bs "md") || streq format (bs "txt") then
    http_response_add_header r (bs "Content-Disposition") (bs "inline")
  else if streq format (bs "ps") then
    http_response_add_header r (bs "Content-Disposition")
      (strlcpy 256 (qs "attachment; filename='" ++ page ++ qs ".ps'"))
  else r.

(** ** The URL of a page *)

Definition known_format (f : bytes) : bool :=
  streq f (bs "html") || streq f (bs "pdf") || streq f (bs "ps") || streq f (bs "md") ||
  streq f (bs "txt").

(** Page, format and perhaps another section from the third token. *)
Definition parse_page_token (area section token : bytes) : man_page :=
  match strrchr token "." with
  | Some ((S _) as dot) =>
      let possible_format := drop (S dot) token in
      if known_format possible_format then
        ManPage area section (strlcpy 64 (take dot token)) (strlcpy 16 possible_format)
      else if man_is_valid_section possible_format then
        ManPage area (strlcpy 16 possible_format) (strlcpy 64 (take dot token)) (bs "html")
      else ManPage area section (strlcpy 64 token) (bs "html")
  | _ => ManPage area section (strlcpy 64 token) (bs "html")
  end.

(** [char *qs = strchr(path_copy, '?'); if (qs) *qs = '\0';] *)
Definition cut_query (s : bytes) : bytes :=
  match strchr s "?" with Some i => take i s | None => s end.

(** The rest of the URL behind [/man/]. *)
Definition parse_man_path (p : bytes) : man_page :=
  let path_copy := cut_query (strlcpy 256 p) in
  let toks := strtok "/" path_copy in
  let area := match toks with t :: _ => strlcpy 32 t | [] => bs "system" end in
  let section := match toks with _ :: t :: _ => strlcpy 16 t | _ => [] end in
  match toks with
  | _ :: _ :: t :: _ => parse_page_token area section t
  | _ => ManPage area section [] (bs "html")
  end.

(** The checks of [man_render_handler]: the page, or the text of the 400 answer. *)
Definition man_route (url : bytes) : man_page + bytes :=
  if negb (is_prefix (bs "/man/") url) then inr (bs "Invalid URL")
  else
    let p := parse_man_path (drop 5 url) in
    if (length (mp_page p) =? 0) || (length (mp_section p) =? 0)
    then inr (bs "Missing section or page name")
    else if negb (known_format (mp_format p)) then inr (bs "Unsupported format")
    else if negb (man_is_valid_token (mp_page p)) || negb (man_is_valid_section (mp_section p))
    then inr (bs "Invalid section or page name")
    else inl p.

Definition probe_sections : list bytes :=
  [bs "1"; bs "8"; bs "2"; bs "3"; bs "5"; bs "7"; bs "6"; bs "4"; bs "9"; bs "3p"].

Definition mandoc_type (format : bytes) : bytes :=
  if streq format (bs "pdf") then bs "pdf"
  else if streq format (bs "ps") then bs "ps"
  else if streq format (bs "md") then bs "markdown"
  else if streq format (bs "txt") then bs "ascii"
  else bs "html".

Definition with_section (p : man_page) (section : bytes) : man_page :=
  ManPage (mp_area p) section (mp_page p) (mp_format p).

Section render.
Context (alloc : nat → bool) (run : nat → bytes → list bytes → Z → Z → option bytes).
Context (readable : bytes → bool) (readdir : bytes → option (list dirent)).
Context (clock : nat → Z) (sem : nat → bool) (static_dir : bytes).
(** Does the next file-system call succeed?  [wr t n]: the bytes a write of [n] takes, 0
    for an error. *)
Context (io : nat → bool) (wr : nat → nat → nat).

Abbreviation malloc := (Man.malloc alloc).
Abbreviation resolve := (man_resolve_path alloc run readable).

Definition time_null : MM Z := λ s, (clock (mn_time s), mn_tick s).
Definition io_ok : MM bool := λ s, (io (mn_time s), mn_tick s).
Definition sem_wait : MM bool := λ s, (sem (mn_time s), mn_tick s).

(** *** Memory *)

Definition man_render_cache_get (p : man_page) : MM (option bytes) :=
  let key := man_render_cache_key p in
  let si := man_render_cache_shard key in
  _ ← modify man_render_cache_init;
  now ← time_null;
  s ← get;
  let shard := mn_cache s !!! si in
  match slot_index key shard with
  | None => mret None
  | Some i =>
      if (MAN_RENDER_CACHE_TTL <? now - ms_inserted (shard !!! i))%Z then
        _ ← modify (set_cache (<[si := alter drop_body i shard]> (mn_cache s)));
        mret None
      else
        ok ← malloc;
        mret (if ok : bool then ms_body (shard !!! i) else None)
  end.

(** The slot rewritten in place, or a new entry; without memory the slot is left empty. *)
Definition update_slot (ok : bool) (body : bytes) (now : Z) (s : man_slot) : man_slot :=
  if ok then {| ms_key := ms_key s; ms_body := Some body; ms_inserted := now |}
  else drop_body s.

Definition fill_slot (ok : bool) (key body : bytes) (now : Z) (s : man_slot) : man_slot :=
  if ok then {| ms_key := strlcpy 192 key; ms_body := Some body; ms_inserted := now |}
  else drop_body s.

Definition man_render_cache_put (p : man_page) (body : bytes) : MM unit :=
  if length body =? 0 then mret tt
  else
    let key := man_render_cache_key p in
    let si := man_render_cache_shard key in
    _ ← modify man_render_cache_init;
    now ← time_null;
    s ← get;
    let shard := mn_cache s !!! si in
    match put_scan key shard 0 None (now + 1) with
    | PutUpdate i =>
        ok ← malloc;
        modify (set_cache (<[si := alter (update_slot ok body now) i shard]> (mn_cache s)))
    | PutTarget (Some i) =>
        ok ← malloc;
        modify (set_cache (<[si := alter (fill_slot ok key body now) i shard]> (mn_cache s)))
    | PutTarget None => mret tt
    end.

Definition man_render_cache_cleanup : MM unit :=
  s ← get;
  if mn_cache_initialized s
  then modify (set_cache (fmap (M := list) (fmap (M := list)
         (λ sl, {| ms_key := []; ms_body := None; ms_inserted := ms_inserted sl |})) (mn_cache s)))
  else mret tt.

Definition man_module_cleanup : MM unit := man_render_cache_cleanup.

(** *** Disk *)

(** [mkdir(tmp, 0755) < 0 && errno != EEXIST] does not hold. *)
Definition mkdir (p : bytes) : MM bool :=
  _ ← modify (note_mkdir p); io_ok.

(** The loop of [mkdir_p] with [done] in front of [p]. *)
Fixpoint mkdir_loop (done p : bytes) : MM bool :=
  match p with
  | [] => mkdir done
  | c :: p' =>
      if Ascii.eqb c "/" then
        ok ← mkdir done;
        if negb ok then mret false else mkdir_loop (done ++ [c]) p'
      else mkdir_loop (done ++ [c]) p'
  end.

(** The bytes of [tmp] before [start]. *)
Definition mkdir_start (tmp base_dir : bytes) : nat :=
  if negb (length base_dir =? 0) && is_prefix base_dir tmp then
    match drop (length base_dir) tmp with
    | c :: _ => if Ascii.eqb c "/" then S (length base_dir) else length base_dir
    | [] => length base_dir
    end
  else 0.

Definition mkdir_p (dir base_dir : bytes) : MM bool :=
  if length dir =? 0 then mret false
  else
    let tmp := strlcpy 512 dir in
    let start := mkdir_start tmp base_dir in
    mkdir_loop (take start tmp) (drop start tmp).

(** What a file holds after [chunk] was written at offset [off] of it: a gap reads as
    zeros. *)
Definition write_at (off : nat) (chunk data : bytes) : bytes :=
  resize off nul data ++ chunk ++ drop (off + length chunk) data.

Definition file_data (path : bytes) (s : man_state) : bytes :=
  default [] (df_data <$> mn_disk s !! path).

Definition put_file (path data : bytes) (now : Z) (s : man_state) : man_state :=
  set_disk (<[path := {| df_data := data; df_mtime := now |}]> (mn_disk s)) s.

(** [open(path, O_CREAT | O_TRUNC | O_WRONLY, 0644)] does not fail; the kernel notes the
    time of a change in the file. *)
Definition open_trunc (path : bytes) : MM bool :=
  ok ← io_ok;
  if negb ok then mret false
  else
    now ← time_null;
    _ ← modify (put_file path [] now);
    mret true.

(** One [write] of the rest of [buf]: the bytes it took, never more than there are. *)
Definition write_some (path : bytes) (off : nat) (buf : bytes) : MM nat :=
  w ← (λ s, (Nat.min (length buf - off) (wr (mn_time s) (length buf - off)), mn_tick s));
  if w =? 0 then mret 0
  else
    now ← time_null;
    s ← get;
    _ ← modify (put_file path (write_at off (take w (drop off buf)) (file_data path s)) now);
    mret w.

(** The write loop: the offset reached, and whether all was written. *)
Fixpoint write_loop (fuel : nat) (path : bytes) (off : nat) (buf : bytes) : MM (nat * bool) :=
  match fuel with
  | 0 => mret (off, true)
  | S fuel =>
      if off <? length buf then
        w ← write_some path off buf;
        if w =? 0 then mret (off, false) else write_loop fuel path (off + w) buf
      else mret (off, true)
  end.

Definition write_file_binary (path buf : bytes) : MM bool :=
  if length buf =? 0 then mret false
  else
    ok ← open_trunc path;
    if negb ok then mret false
    else r ← write_loop (length buf) path 0 buf; mret r.2.

(** [stat] finds a file that is not empty and recent enough: the time now and the time of
    the file. *)
Definition stat_recent (path : bytes) : MM (option (Z * Z)) :=
  ok ← io_ok;
  s ← get;
  match mn_disk s !! path with
  | None => mret None
  | Some f =>
      if negb ok || (length (df_data f) =? 0) then mret None
      else
        now ← time_null;
        mret (if (MAN_FS_CACHE_TTL_SEC <? now - df_mtime f)%Z then None else Some (now, df_mtime f))
  end.

(** [fstat(fd, &st) == 0 && st.st_size > 0] *)
Definition fstat_size (path : bytes) : MM (option nat) :=
  ok ← io_ok;
  s ← get;
  let n := length (file_data path s) in
  mret (if negb ok || (n =? 0) then None else Some n).

(** A buffer and one [read], which must fill it. *)
Definition read_whole (path : bytes) (n : nat) : MM (option bytes) :=
  ok ← malloc;
  if negb ok then mret None
  else
    read_ok ← io_ok;
    s ← get;
    let data := take n (file_data path s) in
    mret (if read_ok && (length data =? n) then Some data else None).

(** The file of the page, when it is recent enough and read whole. *)
Definition read_disk (path : bytes) : MM (option bytes) :=
  age ← stat_recent path;
  match age with
  | None => mret None
  | Some _ =>
      opened ← io_ok;
      if negb opened then mret None
      else
        size ← fstat_size path;
        match size with
        | None => mret None
        | Some n => read_whole path n
        end
  end.

(** *** Rendering *)

Definition mandoc_argv (t_arg filepath : bytes) : list bytes :=
  [bs "mandoc"; bs "-T"; t_arg] ++
  (if streq t_arg (bs "html") then [bs "-Ostyle=/static/css/custom.css"] else []) ++ [filepath].

Definition mandoc (argv : list bytes) : MM (option bytes) :=
  run_program run (bs "/usr/bin/mandoc") argv MAN_MAX_OUTPUT_SIZE 10.

Definition man_render_page (section page format : bytes) : MM (option bytes) :=
  filepath ← (if man_is_valid_section section then resolve page section else mret None);
  match filepath with
  | Some filepath =>
      if negb (is_prefix (bs "/") filepath) then mret None
      else
        waited ← sem_wait;
        if negb waited then mret None
        else
          output ← mandoc (mandoc_argv (mandoc_type format) filepath);
          match output with
          | Some o =>
              mret (Some (if streq format (bs "txt") && (0 <? length o)
                          then man_strip_overstrike_ascii o else o))
          | None =>
              if negb (streq format (bs "md")) then mret None
              else
                waited ← sem_wait;
                if negb waited then mret None
                else
                  output ← mandoc [bs "mandoc"; bs "-T"; bs "ascii"; filepath];
                  mret (match output with
                        | Some o => Some (if 0 <? length o then man_strip_overstrike_ascii o else o)
                        | None => None
                        end)
          end
  | None => mret None
  end.

(** The first of the common sections, other than [section], that has the page. *)
Fixpoint probe (page section : bytes) (sections : list bytes) : MM (option bytes) :=
  match sections with
  | [] => mret None
  | x :: sections' =>
      if streq x section then probe page section sections'
      else
        test_path ← resolve page x;
        match test_path with
        | Some _ => mret (Some (strlcpy 16 x))
        | None => probe page section sections'
        end
  end.

Definition REL_SIZE : nat := 256.
Definition ABS_SIZE : nat := 512.

(** The body of a page that passed the checks: from memory, from disk or rendered.
    [None] is the 404 answer. *)
Definition page_body (p : man_page) : MM (option bytes) :=
  let paths := build_cache_paths static_dir p REL_SIZE ABS_SIZE in
  cached ← man_render_cache_get p;
  match cached with
  | Some body => mret (Some body)
  | None =>
      stored ← (match paths with Some (_, abs) => read_disk abs | None => mret None end);
      match stored with
      | Some body => _ ← man_render_cache_put p body; mret (Some body)
      | None =>
          test_path ← resolve (mp_page p) (mp_section p);
          section ← (match test_path with
                     | Some _ => mret (Some (mp_section p))
                     | None => probe (mp_page p) (mp_section p) probe_sections
                     end);
          match section with
          | None => mret None
          | Some section =>
              body ← man_render_page section (mp_page p) (mp_format p);
              match body with
              | None => mret None
              | Some body =>
                  _ ← man_render_cache_put (with_section p section) body;
                  _ ← (match paths with
                       | Some (_, abs) =>
                           let cache_dir := strlcpy 512 abs in
                           match strrchr cache_dir "/" with
                           | Some i =>
                               ok ← mkdir_p (take i cache_dir) static_dir;
                               if ok : bool then write_file_binary abs body else mret false
                           | None => mret false
                           end
                       | None => mret false
                       end);
                  mret (Some body)
              end
          end
      end
  end.

Definition man_build (p : man_page) (body : bytes) (r : http_response) : http_response :=
  let r := set_content_type r (man_mime_for_format (mp_format p)) in
  let r := http_response_add_header r (bs "Cache-Control") (bs "public, max-age=300") in
  let r := man_add_content_disposition_for_format r (mp_format p) (mp_page p) in
  http_response_set_body r (Some body) (length body) true.

Section handler.
Context (k : kernel) (fuel : nat) (tid : Z) (reg : registry).

(** [None] while a write is still blocked. *)
Definition man_render_handler (req : http_request) (w : world) : MM (option (Z * world)) :=
  match man_route (req_url req) with
  | inr msg => mret (http_send_error k fuel tid reg req 400 (Some msg) w)
  | inl p =>
      body ← page_body p;
      match body with
      | None => mret (http_send_error k fuel tid reg req 404 (Some (bs "Manual page not found")) w)
      | Some body => mret (respond k fuel tid req (man_build p body) w)
      end
  end.
End handler.

(** *** The API *)

(** [sscanf(path_tmp, "/%31[^/]/%15s", area, section) == 2] *)
Definition scan_area_section (s : bytes) : option (bytes * bytes) :=
  match s with
  | c :: r =>
      if negb (Ascii.eqb c "/") then None
      else
        let area := take 31 (take (strcspn r (bs "/")) r) in
        match area, drop (length area) r with
        | _ :: _, c2 :: r2 =>
            if negb (Ascii.eqb c2 "/") then None
            else
              let r3 := skip_while isspace r2 in
              let section := take 15 (take (strcspn r3 [space; tab; lf; cr; "011"%char; "012"%char]) r3) in
              match section with [] => None | _ => Some (area, section) end
        | _, _ => None
        end
  | [] => None
  end.

Definition api_error (msg : string) : bytes := qs "{'error':'" ++ bs msg ++ qs "'}".

(** The first of the sections that has the page, with its path. *)
Fixpoint probe_path (name : bytes) (sections : list bytes) : MM (option (bytes * bytes)) :=
  match sections with
  | [] => mret None
  | x :: sections' =>
      f ← resolve name x;
      match f with
      | Some f => mret (Some (f, strlcpy 16 x))
      | None => probe_path name sections'
      end
  end.

(** [/resolve]: the page of that name, in the given section or the first common one. *)
Definition resolve_json (name section : bytes) : MM (option bytes) :=
  if (length name =? 0) || negb (man_is_valid_token name) ||
     (negb (length section =? 0) && negb (man_is_valid_section section))
  then strdup alloc (api_error "name parameter required")
  else
    found ← (if negb (length section =? 0) then
               f ← resolve name section;
               mret ((λ f, (f, section)) <$> f)
             else probe_path name probe_sections);
    match found with
    | Some ((_ :: _) as filepath, section) =>
        let sec_out := default section (man_parse_section_from_filename (basename filepath) 16) in
        esc_ok ← malloc;
        ok ← malloc;
        mret (if ok : bool
              then Some (qs "{'name':'" ++ name ++ qs "','section':'" ++ sec_out ++
                     qs "','area':'" ++ man_area_from_path filepath ++ qs "','path':'" ++
                     json_escape_string esc_ok (Some filepath) ++ qs "'}")
              else None)
    | _ => strdup alloc (api_error "not found")
    end.

Definition query_of_search (url path : bytes) : option bytes :=
  match drop 7 path with
  | c :: query => if Ascii.eqb c "/" then Some query
                  else cstr <$> man_get_query_value url (bs "q") 256
  | [] => cstr <$> man_get_query_value url (bs "q") 256
  end.

(** The text of the answer; [path] is the URL behind [/api/man]. *)
Definition man_api_text (url path : bytes) : MM (option bytes) :=
  if path_matches_endpoint path (bs "/sections") then man_get_sections_json alloc
  else if path_matches_endpoint path (bs "/pages") then
    match man_get_query_value url (bs "section") 16 with
    | Some section =>
        let area := man_query_buffer url (bs "area") 16 (bs "system") in
        man_get_section_pages_json alloc readdir area (cstr section)
    | None => strdup alloc (api_error "Missing section parameter")
    end
  else if path_matches_endpoint path (bs "/resolve") then
    resolve_json (man_query_buffer url (bs "name") 64 []) (man_query_buffer url (bs "section") 16 [])
  else if is_prefix (bs "/search") path then
    match query_of_search url path with
    | Some ((_ :: _) as query) => man_api_search_raw alloc run readable query
    | _ => strdup alloc []
    end
  else
    let path_len := default (length path) (strchr path "?") in
    json ← (if path_len <? 64 then
              match scan_area_section (take path_len path) with
              | Some (area, section) => man_get_section_pages_json alloc readdir area section
              | None => mret None
              end
            else mret None);
    match json with
    | Some json => mret (Some json)
    | None => strdup alloc (api_error "Unknown API endpoint or malformed path")
    end.

Definition man_api_build (path json : bytes) (r : http_response) : http_response :=
  let r := http_response_set_status r 200 in
  let r := set_content_type r
             (match strstr path (bs "/search") with
              | Some _ => bs "text/plain; charset=utf-8"
              | None => bs "application/json"
              end) in
  let r := http_response_add_header r (bs "Access-Control-Allow-Origin") (bs "*") in
  http_response_set_body r (Some json) (length json) true.

Section api.
Context (k : kernel) (fuel : nat) (tid : Z) (reg : registry).

Definition man_api_handler (req : http_request) (w : world) : MM (option (Z * world)) :=
  match strstr (req_url req) (bs "/api/man") with
  | None => mret (http_send_error k fuel tid reg req 400 (Some (bs "Bad Request")) w)
  | Some i =>
      let path := drop (i + 8) (req_url req) in
      json ← man_api_text (req_url req) path;
      match json with
      | None =>
          mret (http_send_error k fuel tid reg req 500 (Some (bs "Internal Server Error")) w)
      | Some json =>
          let '(resp, st) := http_response_create tid (k_calloc k (w_time w)) (w_store w) in
          match resp with
          | None =>
              mret (http_send_error k fuel tid reg req 500 (Some (bs "Internal Server Error"))
                {| w_store := st; w_time := S (w_time w); w_wire := w_wire w |})
          | Some _ => mret (respond k fuel tid req (man_api_build path json) w)
          end
      end
  end.
End api.
End render.

(** ** Overstrike

    mandoc prints a bold character as itself, a backspace and itself again, an underlined
    one as an underscore, a backspace and the character. *)

Inductive style := Plain | Bold | Underlined.

Definition backspace : ascii := "008"%char.

Definition styled (c : ascii * style) : bytes :=
  match c.2 with
  | Plain => [c.1]
  | Bold => [c.1; backspace; c.1]
  | Underlined => ["_"%char; backspace; c.1]
  end.

Lemma strip_overstrike_length t : length (strip_overstrike t) ≤ length t.
Proof.
  remember (length t) as n eqn:Hn. revert t Hn.
  induction (lt_wf n) as [n _ IH]. intros t ->.
  destruct t as [|c t]; [done|]. cbn [strip_overstrike].
  destruct (Ascii.eqb c nul); [simpl; lia|]. destruct t as [|b [|d t]]; [simpl; lia| |].
  - cbn [strip_overstrike]. destruct (Ascii.eqb b nul); simpl; lia.
  - destruct (Ascii.eqb b "008").
    + pose proof (IH (length t) ltac:(simpl; lia) t eq_refl). simpl. lia.
    + pose proof (IH (length (b :: d :: t)) ltac:(simpl; lia) (b :: d :: t) eq_refl).
      cbn [length] in *. lia.
Qed.

(** Stripping a text of styled characters leaves the characters, and it never lengthens a
    text, so that it can be done in place. *)
Theorem man_strip_overstrike_spec (cs : list (ascii * style)) :
  Forall (λ c, c.1 ≠ nul ∧ c.1 ≠ backspace) cs →
  man_strip_overstrike_ascii (cs ≫= styled) = cs.*1 ∧
  ∀ t, length (man_strip_overstrike_ascii t) ≤ length t.
Proof.
  intros Hcs. split; [|apply strip_overstrike_length].
  unfold man_strip_overstrike_ascii.
  induction Hcs as [|[c st] cs [Hn Hb] Hcs IH]; [done|]. cbn [fst] in *.
  assert (∀ x y t, x ≠ nul → strip_overstrike (x :: backspace :: y :: t) = y :: strip_overstrike t)
    as Hover.
  { intros x y t Hx. cbn [strip_overstrike]. by rewrite (proj2 (ascii_eqb_false x nul)). }
  change (((c, st) :: cs) ≫= styled) with (styled (c, st) ++ (cs ≫= styled)).
  rewrite fmap_cons. cbn [fst]. rewrite <- IH. destruct st; cbn [styled fst snd app].
  - cbn [strip_overstrike]. rewrite (proj2 (ascii_eqb_false c nul)) by done.
    destruct (cs ≫= styled) as [|b [|d t]] eqn:E; [done|done|].
    rewrite (proj2 (ascii_eqb_false b "008")); [done|]. intros ->.
    destruct cs as [|[c' st'] cs]; [done|]. apply Forall_cons in Hcs as [[_ Hb'] _].
    cbn in E. destruct st'; simplify_eq/=; done.
  - by apply Hover.
  - by apply Hover.
Qed.

Lemma man_strip_overstrike_spec_witness :
  let cs := [("l"%char, Bold); ("s"%char, Bold); (space, Plain); ("f"%char, Underlined)] in
  man_strip_overstrike_ascii (cs ≫= styled) = bs "ls f".
Proof.
  intros cs. apply (man_strip_overstrike_spec cs).
  repeat constructor; intros E; vm_compute in E; discriminate E.
Defined.

(** ** The URL of a page *)

Record page_ok (p : man_page) : Prop := {
  po_area : "/"%char ∉ mp_area p ∧ 0 < length (mp_area p) ≤ 31;
  po_section : man_is_valid_section (mp_section p) = true;
  po_page : man_is_valid_token (mp_page p) = true ∧ length (mp_page p) ≤ 63;
  po_format : known_format (mp_format p) = true
}.

Lemma valid_token_chars s c :
  man_is_valid_token s = true → c ∈ s → safe_name_char c = true.
Proof.
  intros H Hc. apply andb_true_iff in H as [_ H].
  rewrite forallb_forall in H. apply H. by apply list_elem_of_In.
Qed.

Lemma valid_token_no_slash s : man_is_valid_token s = true → "/"%char ∉ s.
Proof. intros H Hc. by apply (valid_token_chars _ _ H) in Hc. Qed.

Lemma valid_section_chars s c :
  man_is_valid_section s = true → c ∈ s → isdigit c || islower c = true.
Proof.
  unfold man_is_valid_section. destruct s as [|d s]; [done|]. intros H.
  apply andb_true_iff in H as [H Hl]. apply andb_true_iff in H as [_ Hd].
  rewrite elem_of_cons. intros [->|Hc]; [by rewrite Hd|].
  rewrite forallb_forall in Hl. apply list_elem_of_In in Hc. by rewrite (Hl _ Hc), orb_true_r.
Qed.

Lemma valid_section_no_slash s : man_is_valid_section s = true → "/"%char ∉ s.
Proof. intros H Hc. by apply (valid_section_chars _ _ H) in Hc. Qed.

Lemma known_format_cases f :
  known_format f = true → f ∈ [bs "html"; bs "pdf"; bs "ps"; bs "md"; bs "txt"].
Proof.
  unfold known_format. rewrite !orb_true_iff, !streq_true, !elem_of_cons, elem_of_nil. tauto.
Qed.

Lemma known_format_dot f : known_format f = true → "."%char ∉ f ∧ 0 < length f ≤ 4.
Proof.
  intros H%known_format_cases. rewrite !elem_of_cons, elem_of_nil in H.
  destruct H as [->|[->|[->|[->|[->|[]]]]]]; (split; [|vm_compute; lia]);
    by_computation.
Qed.

(** Every page that passes the checks. *)
Lemma man_route_ok url p : man_route url = inl p → page_ok p.
Proof.
  unfold man_route. destruct (negb (is_prefix (bs "/man/") url)); [done|].
  set (q := parse_man_path _).
  destruct ((length (mp_page q) =? 0) || (length (mp_section q) =? 0)) eqn:Hlen; [done|].
  destruct (negb (known_format (mp_format q))) eqn:Hf; [done|].
  destruct (negb (man_is_valid_token _) || _) eqn:Hv; [done|]. intros E. injection E as <-.
  apply orb_false_iff in Hlen as [Hl _], Hv as [Hv1 Hv2].
  apply negb_false_iff in Hf, Hv1, Hv2. split; [|done| |done].
  - revert Hl. clear. unfold q, parse_man_path.
    set (path := cut_query _).
    pose proof (strtok_spec "/" path) as Ht. destruct (strtok "/" path) as [|a [|s [|t toks]]]; try done.
    intros _. apply Forall_cons in Ht as [[Ha Has] _].
    assert (mp_area (parse_page_token (strlcpy 32 a) (strlcpy 16 s) t) = strlcpy 32 a) as ->.
    { unfold parse_page_token. destruct (strrchr t ".") as [[|d]|]; [done| |done].
      destruct (known_format _); [done|]. by destruct (man_is_valid_section _). }
    split; [by apply not_elem_of_take|]. unfold strlcpy. rewrite length_take.
    destruct a; [done|]. cbn [length]. lia.
  - split; [done|]. clear. unfold q, parse_man_path.
    set (path := cut_query _).
    assert (∀ a s t, length (mp_page (parse_page_token a s t)) ≤ 63) as Hp.
    { intros a s t. assert (∀ x, length (strlcpy 64 x) ≤ 63) as H64.
      { intros x. pose proof (length_strlcpy 64 x ltac:(lia)). lia. }
      unfold parse_page_token. destruct (strrchr t ".") as [[|d]|]; [apply H64| |apply H64].
      destruct (known_format _); [apply H64|]. destruct (man_is_valid_section _); apply H64. }
    destruct (strtok "/" path) as [|a [|s [|t toks]]]; try (simpl; lia). apply Hp.
Qed.

Lemma strrchr_last a c b : c ∉ b → strrchr (a ++ c :: b) c = Some (length a).
Proof.
  intros Hb. induction a as [|x a IH]; simpl.
  - assert (strrchr b c = None) as ->.
    { induction b as [|y b IHb]; [done|]. apply not_elem_of_cons in Hb as [Hy Hb]. simpl.
      rewrite IHb by done. by rewrite (proj2 (ascii_eqb_false y c)) by congruence. }
    by rewrite ascii_eqb_refl.
  - by rewrite IH.
Qed.

Lemma known_format_no c f : c = "?"%char ∨ c = "/"%char → known_format f = true → c ∉ f.
Proof.
  intros Hc Hf%known_format_cases. rewrite !elem_of_cons, elem_of_nil in Hf.
  destruct Hc as [->| ->]; destruct Hf as [->|[->|[->|[->|[->|[]]]]]]; by_computation.
Qed.

(** A path that fits the handler's buffer is what is left of it before the query. *)
Lemma cut_query_path path q :
  "?"%char ∉ path → length path ≤ 255 → (q = [] ∨ ∃ q', q = "?"%char :: q') →
  cut_query (strlcpy 256 (path ++ q)) = path.
Proof.
  intros Hnq Hl Hq. unfold cut_query, strlcpy. change (256 - 1) with 255. destruct Hq as [->|[q' ->]].
  - rewrite app_nil_r, take_ge by lia. by rewrite (proj2 (strchr_None _ _) Hnq).
  - rewrite take_app_ge by lia. destruct (255 - length path) as [|n].
    + rewrite take_0, app_nil_r. by rewrite (proj2 (strchr_None _ _) Hnq).
    + cbn [take]. rewrite strchr_app_sep by done. by rewrite take_app_length.
Qed.

Lemma strtok_three d a b c :
  a ≠ [] → b ≠ [] → c ≠ [] → d ∉ a → d ∉ b → d ∉ c →
  strtok d (a ++ [d] ++ b ++ [d] ++ c) = [a; b; c].
Proof.
  intros. unfold strtok. cbn [app].
  rewrite (strtok_go_token d []), (strtok_go_token d []), (strtok_go_last d []) by done. done.
Qed.

(** The name and the format of a page come apart at the last dot. *)
Lemma parse_page_token_page area section page format :
  known_format format = true → 0 < length page ≤ 63 →
  parse_page_token area section (page ++ bs "." ++ format) = ManPage area section page format.
Proof.
  intros Hf [Hpos Hpl]. destruct (known_format_dot _ Hf) as [Hdot Hfl].
  unfold parse_page_token. change (bs "." ++ format) with ("."%char :: format).
  rewrite strrchr_last by done. destruct (length page) as [|n] eqn:Hn; [lia|].
  rewrite drop_app_ge by lia. replace (S (S n) - length page) with 1 by lia.
  cbn [drop]. rewrite drop_0, Hf. rewrite take_app_ge by lia.
  rewrite Hn, Nat.sub_diag, take_0, app_nil_r.
  by rewrite (strlcpy_id 64 page), (strlcpy_id 16 format) by lia.
Qed.

(** Every page of valid parts is what its URL is parsed to, with or without a query. *)
Theorem man_route_roundtrip p q :
  page_ok p → "?"%char ∉ mp_area p →
  length (mp_area p) + length (mp_section p) + length (mp_page p) + length (mp_format p) ≤ 200 →
  (q = [] ∨ ∃ q', q = "?"%char :: q') →
  man_route (bs "/man/" ++ mp_area p ++ bs "/" ++ mp_section p ++ bs "/" ++ mp_page p ++
             bs "." ++ mp_format p ++ q) = inl p.
Proof.
  intros [[Has Hal] Hs [Hp Hpl] Hf] Haq Hlen Hq. destruct p as [area section page format]. cbn in *.
  destruct (known_format_dot _ Hf) as [_ Hfl]. pose proof (valid_section_length _ Hs) as Hsl.
  assert (0 < length page) as Hpos.
  { unfold man_is_valid_token in Hp. bool_facts. lia. }
  set (token := page ++ bs "." ++ format).
  set (path := area ++ bs "/" ++ section ++ bs "/" ++ token).
  assert ("?"%char ∉ path) as Hnq.
  { unfold path, token. rewrite !elem_of_app. intros H.
    assert ("?"%char ∉ section) as H1 by (intros H1; by apply (valid_section_chars _ _ Hs) in H1).
    assert ("?"%char ∉ page) as H2 by (intros H2; by apply (valid_token_chars _ _ Hp) in H2).
    pose proof (known_format_no "?" _ (or_introl eq_refl) Hf) as H3.
    assert ("?"%char ∉ bs "/" ∧ "?"%char ∉ bs ".") as [H4 H5] by (split; by_computation).
    naive_solver. }
  assert ("/"%char ∉ token) as Htk.
  { unfold token. rewrite !elem_of_app. pose proof (valid_token_no_slash _ Hp) as H1.
    pose proof (known_format_no "/" _ (or_intror eq_refl) Hf) as H2.
    assert ("/"%char ∉ bs ".") as H3 by by_computation. naive_solver. }
  assert (length path ≤ 255) as Hpath.
  { unfold path, token. rewrite !length_app. change (length (bs "/")) with 1.
    change (length (bs ".")) with 1. lia. }
  assert (parse_man_path (path ++ q) = ManPage area section page format) as Hparse.
  { unfold parse_man_path. rewrite (cut_query_path path q Hnq Hpath Hq). unfold path.
    change (bs "/") with ["/"%char]. pose proof (valid_section_no_slash _ Hs).
    rewrite strtok_three;
      [|by intros ->; simpl in Hal; lia|by intros ->; simpl in Hsl; lia
       |unfold token; by destruct page; [simpl in Hpos; lia|]|done..].
    rewrite (strlcpy_id 32 area), (strlcpy_id 16 section) by lia.
    by apply parse_page_token_page. }
  replace (bs "/man/" ++ area ++ bs "/" ++ section ++ bs "/" ++ page ++ bs "." ++ format ++ q)
    with (bs "/man/" ++ path ++ q) by (unfold path, token; by rewrite <- !app_assoc).
  unfold man_route. rewrite is_prefix_app. change (drop 5 (bs "/man/" ++ path ++ q)) with (path ++ q).
  rewrite Hparse. cbn [negb mp_page mp_section mp_format].
  rewrite (proj2 (Nat.eqb_neq _ _)), (proj2 (Nat.eqb_neq (length section) _)) by lia.
  by rewrite Hf, Hp, Hs.
Qed.

Lemma man_route_roundtrip_witness :
  man_route (bs "/man/system/5/httpd.conf.html?x=1")
  = inl (ManPage (bs "system") (bs "5") (bs "httpd.conf") (bs "html")).
Proof.
  apply (man_route_roundtrip (ManPage (bs "system") (bs "5") (bs "httpd.conf") (bs "html")) (bs "?x=1")).
  - split; cbn [mp_area mp_section mp_page mp_format].
    + split; [by_computation|vm_compute; lia].
    + reflexivity.
    + split; [reflexivity|vm_compute; lia].
    + reflexivity.
  - by_computation.
  - vm_compute. lia.
  - right. by eexists.
Defined.

(** ** Keys and paths name one page *)

Lemma app_sep_inj (c : ascii) (a b x y : bytes) :
  c ∉ a → c ∉ b → a ++ c :: x = b ++ c :: y → a = b ∧ x = y.
Proof.
  intros Ha Hb E. assert (length a = length b) as Hl.
  { pose proof (strchr_app_sep a c x Ha) as H1. pose proof (strchr_app_sep b c y Hb) as H2.
    rewrite E, H2 in H1. by injection H1 as ->. }
  apply app_inj_1 in E as [-> [= ->]]; auto.
Qed.

Lemma app_last_sep_inj (c : ascii) (a b x y : bytes) :
  c ∉ x → c ∉ y → a ++ c :: x = b ++ c :: y → a = b ∧ x = y.
Proof.
  intros Hx Hy E. assert (length a = length b) as Hl.
  { pose proof (strrchr_last a c x Hx) as H1. pose proof (strrchr_last b c y Hy) as H2.
    rewrite E, H2 in H1. by injection H1 as ->. }
  apply app_inj_1 in E as [-> [= ->]]; auto.
Qed.

(** What keys and paths have in common. *)
Definition page_text (p : man_page) : bytes :=
  mp_area p ++ bs "/" ++ mp_section p ++ bs "/" ++ mp_page p ++ bs "." ++ mp_format p.

Lemma page_text_inj p q : page_ok p → page_ok q → page_text p = page_text q → p = q.
Proof.
  intros [[Ha _] Hs [Hp _] Hf] [[Ha' _] Hs' [Hp' _] Hf'] E. unfold page_text in E.
  apply app_sep_inj in E as [E1 E]; [|done..].
  apply app_sep_inj in E as [E2 E]; [|by apply valid_section_no_slash..].
  apply app_last_sep_inj in E as [E3 E4]; [|by apply known_format_dot..].
  destruct p, q; cbn in *; congruence.
Qed.

Lemma cache_key_text p : page_ok p → man_render_cache_key p = page_text p.
Proof.
  intros [[_ Ha] Hs [_ Hp] Hf]. unfold man_render_cache_key. apply strlcpy_id.
  unfold page_text. rewrite !length_app.
  pose proof (valid_section_length _ Hs). destruct (known_format_dot _ Hf) as [_ ?].
  change (length (bs "/")) with 1. change (length (bs ".")) with 1. lia.
Qed.

Lemma cache_key_inj p q :
  page_ok p → page_ok q → man_render_cache_key p = man_render_cache_key q → p = q.
Proof. intros Hp Hq. rewrite !cache_key_text by done. by apply page_text_inj. Qed.

Lemma abs_path_text dir p : abs_path dir p = dir ++ bs "/man/" ++ page_text p.
Proof. done. Qed.

Lemma abs_path_inj dir p q : page_ok p → page_ok q → abs_path dir p = abs_path dir q → p = q.
Proof.
  intros Hp Hq. rewrite !abs_path_text. intros E%app_inv_head%app_inv_head.
  by apply page_text_inj.
Qed.

(** The directory of the file of a page. *)
Definition page_dir (dir : bytes) (p : man_page) : bytes :=
  dir ++ bs "/man/" ++ mp_area p ++ bs "/" ++ mp_section p.

Lemma abs_path_dir dir p :
  page_ok p → strrchr (abs_path dir p) "/" = Some (length (page_dir dir p)) ∧
  take (length (page_dir dir p)) (abs_path dir p) = page_dir dir p.
Proof.
  intros [_ _ [Hp _] Hf].
  assert (abs_path dir p = page_dir dir p ++ "/"%char :: (mp_page p ++ bs "." ++ mp_format p)) as ->.
  { unfold abs_path, page_dir. by rewrite <- !app_assoc. }
  split; [|by rewrite take_app_length]. apply strrchr_last. rewrite !elem_of_app.
  intros [H|[H|H]].
  - by apply valid_token_no_slash in H.
  - revert H. by_computation.
  - apply known_format_cases in Hf. rewrite !elem_of_cons, elem_of_nil in Hf.
    destruct Hf as [E|[E|[E|[E|[E|[]]]]]]; rewrite E in H; revert H;
      by_computation.
Qed.

(** ** Programs, directories and files *)

Inductive program_ok : bytes * list bytes → Prop :=
| man_ok section name :
    man_is_valid_section section = true → man_is_valid_token name = true →
    program_ok (bs "/usr/bin/man", [bs "man"; bs "-M"; MANPATH; bs "-w"; section; name])
| mandoc_ok t file :
    is_prefix (bs "/") file = true → t ∈ [bs "html"; bs "pdf"; bs "ps"; bs "markdown"; bs "ascii"] →
    program_ok (bs "/usr/bin/mandoc", mandoc_argv t file)
| apropos_ok query :
    man_is_valid_token query = true →
    program_ok (bs "/usr/bin/apropos", [bs "apropos"; bs "-M"; MANPATH; query]).

(** The directories on the way to the file of a page. *)
Inductive dir_ok (dir : bytes) : bytes → Prop :=
| dir_man : dir_ok dir (dir ++ bs "/man")
| dir_area area : "/"%char ∉ area → dir_ok dir (dir ++ bs "/man/" ++ area)
| dir_section area section :
    "/"%char ∉ area → man_is_valid_section section = true →
    dir_ok dir (dir ++ bs "/man/" ++ area ++ bs "/" ++ section).

Record confined (dir : bytes) (s : man_state) : Prop := {
  cf_execs : Forall program_ok (mn_execs s);
  cf_mkdirs : Forall (dir_ok dir) (mn_mkdirs s);
  cf_disk path : is_Some (mn_disk s !! path) → ∃ p, page_ok p ∧ path = abs_path dir p
}.

(** A step that starts programs of the allowed kinds and touches neither the cache nor the
    file system. *)
Record bare (s s' : man_state) : Prop := {
  br_cache : mn_cache s' = mn_cache s;
  br_disk : mn_disk s' = mn_disk s;
  br_mkdirs : mn_mkdirs s' = mn_mkdirs s;
  br_time : mn_time s ≤ mn_time s';
  br_execs : ∃ l, mn_execs s' = mn_execs s ++ l ∧ Forall program_ok l
}.

#[export] Instance bare_preorder : PreOrder bare.
Proof.
  split.
  - intros s. split; [done..|exists []; by rewrite app_nil_r].
  - intros s1 s2 s3 [C1 D1 M1 H1 (l1 & E1 & F1)] [C2 D2 M2 H2 (l2 & E2 & F2)].
    split; [congruence..|lia|]. exists (l1 ++ l2). rewrite E2, E1, app_assoc. by rewrite Forall_app.
Qed.

Definition confines (dir : bytes) (s s' : man_state) : Prop := confined dir s → confined dir s'.

#[export] Instance confines_preorder dir : PreOrder (confines dir).
Proof. split; [by intros s H|]. intros s1 s2 s3 H1 H2 H. by apply H2, H1. Qed.

Lemma bare_confines dir {A} (m : MM A) : steps bare m → steps (confines dir) m.
Proof.
  intros Hm s. destruct (Hm s) as [_ Hd Hk _ (l & He & Hl)]. intros [H1 H2 H3].
  split; [by rewrite He; apply Forall_app|by rewrite Hk|by rewrite Hd].
Qed.

Create HintDb man.
#[export] Hint Resolve steps_ret steps_bind steps_get | 1 : man.
#[export] Hint Resolve bare_confines | 5 : man.
#[export] Hint Extern 0 (Reflexive _) => apply _ : man.
#[export] Hint Extern 0 (Transitive _) => apply _ : man.

(** A step of the clock only. *)
Lemma bare_same s s' :
  mn_cache s' = mn_cache s → mn_disk s' = mn_disk s → mn_mkdirs s' = mn_mkdirs s →
  mn_execs s' = mn_execs s → mn_time s ≤ mn_time s' → bare s s'.
Proof. split; [done..|]. exists []. by rewrite app_nil_r. Qed.

Section bare.
Context (alloc : nat → bool) (run : nat → bytes → list bytes → Z → Z → option bytes).
Context (readable : bytes → bool) (readdir : bytes → option (list dirent)).
Context (clock : nat → Z) (sem io : nat → bool).

Abbreviation quiet := (steps bare).

Ltac one_tick := intros s; apply bare_same; cbn; try done; lia.

Lemma bare_malloc : quiet (malloc alloc).
Proof. one_tick. Qed.

Lemma bare_io : quiet (io_ok io).
Proof. one_tick. Qed.

Lemma bare_time : quiet (time_null clock).
Proof. one_tick. Qed.

Lemma bare_sem : quiet (sem_wait sem).
Proof. one_tick. Qed.

#[local] Hint Resolve bare_malloc bare_io bare_time bare_sem : man.

Lemma bare_strdup b : quiet (strdup alloc b).
Proof. unfold strdup. auto with man. Qed.

Lemma bare_run path argv m t : program_ok (path, argv) → quiet (run_program run path argv m t).
Proof.
  intros Hp s. split; [done..|cbn; lia|]. exists [(path, argv)]. by split; [|repeat constructor].
Qed.

#[local] Hint Resolve bare_strdup bare_run : man.

Lemma bare_resolve name section : quiet (man_resolve_path alloc run readable name section).
Proof.
  unfold man_resolve_path.
  destruct (man_is_valid_token name) eqn:Hn, (man_is_valid_section section) eqn:Hs;
    cbn [negb orb]; [|auto with man..].
  apply steps_bind; [apply _|apply bare_run; by constructor|]. intros raw.
  unfold select_resolved_man_path. destruct raw as [raw|]; [|auto with man].
  destruct (select_token _ _ _) as [[|]|]; auto with man.
Qed.

#[local] Hint Resolve bare_resolve : man.

Lemma bare_stat path : quiet (stat_recent clock io path).
Proof.
  intros s. unfold stat_recent, io_ok, time_null. run_st. cbn [mn_tick mn_disk].
  repeat case_match; apply bare_same; cbn; try done; lia.
Qed.

Lemma bare_fstat path : quiet (fstat_size io path).
Proof. intros s. unfold fstat_size, io_ok. run_st. apply bare_same; cbn; first [done|lia]. Qed.

Lemma bare_read path n : quiet (read_whole alloc io path n).
Proof.
  intros s. unfold read_whole, malloc, io_ok. run_st.
  destruct (negb _); apply bare_same; cbn; first [done|lia].
Qed.

#[local] Hint Resolve bare_stat bare_fstat bare_read : man.

Lemma bare_read_disk path : quiet (read_disk alloc clock io path).
Proof.
  unfold read_disk. apply steps_bind; [apply _|apply bare_stat|]. intros [age|]; [|auto with man].
  apply steps_bind; [apply _|apply bare_io|]. intros opened. destruct (negb opened); [auto with man|].
  apply steps_bind; [apply _|auto with man|]. intros [n|]; auto with man.
Qed.

Lemma bare_render_page section page format :
  quiet (man_render_page alloc run readable sem section page format).
Proof.
  unfold man_render_page. apply steps_bind; [apply _|destruct (man_is_valid_section _); auto with man|].
  intros [file|]; [|auto with man].
  destruct (is_prefix (bs "/") file) eqn:Hf; cbn [negb]; [|auto with man].
  assert (∀ t, t ∈ [bs "html"; bs "pdf"; bs "ps"; bs "markdown"; bs "ascii"] →
    quiet (mandoc run (mandoc_argv t file))) as Hmandoc.
  { intros t Ht. apply bare_run. by constructor. }
  apply steps_bind; [apply _|auto with man|]. intros waited. destruct (negb waited); [auto with man|].
  apply steps_bind; [apply _| |].
  { apply Hmandoc. unfold mandoc_type. rewrite !elem_of_cons. repeat case_match; auto 10. }
  intros [o|]; [auto with man|]. destruct (negb _); [auto with man|].
  apply steps_bind; [apply _|auto with man|]. intros waited2. destruct (negb waited2); [auto with man|].
  apply steps_bind; [apply _| |auto with man].
  apply (Hmandoc (bs "ascii")). by_computation.
Qed.

Lemma bare_probe page section sections : quiet (probe alloc run readable page section sections).
Proof.
  induction sections as [|x l IH]; cbn [probe]; [auto with man|].
  destruct (streq x section); [done|]. apply steps_bind; [apply _|auto with man|].
  intros [?|]; auto with man.
Qed.

Lemma bare_collect_pages section entries pages : quiet (collect_pages alloc section entries pages).
Proof.
  revert pages. induction entries as [|de l IH]; intros pages; cbn [collect_pages]; [auto with man|].
  destruct (page_name section de) as [name|]; [|done]. destruct (length pages <? MAX_PAGES); [|done].
  auto with man.
Qed.

#[local] Hint Resolve bare_collect_pages : man.

Lemma bare_section_pages area section : quiet (man_get_section_pages_json alloc readdir area section).
Proof.
  unfold man_get_section_pages_json. destruct (readdir _); [|auto with man].
  apply steps_bind; [apply _|auto with man|]. intros [|]; cbn [negb]; auto with man.
Qed.

Lemma bare_probe_path name sections : quiet (probe_path alloc run readable name sections).
Proof.
  induction sections as [|x l IH]; cbn [probe_path]; [auto with man|].
  apply steps_bind; [apply _|auto with man|]. intros [?|]; auto with man.
Qed.

#[local] Hint Resolve bare_section_pages bare_probe_path : man.

Lemma bare_resolve_json name section : quiet (resolve_json alloc run readable name section).
Proof.
  unfold resolve_json. destruct (_ || _ || _); [auto with man|].
  apply steps_bind; [apply _|destruct (negb _); auto with man|].
  intros [[[|] ?]|]; auto with man.
Qed.

Lemma bare_search query : quiet (man_api_search_raw alloc run readable query).
Proof.
  unfold man_api_search_raw. destruct (man_is_valid_token query) eqn:Hq;
    [|rewrite orb_true_r; auto with man].
  destruct (_ || _); [auto with man|]. apply steps_bind; [apply _| |].
  { unfold apropos. apply steps_bind; [apply _|apply bare_run; by constructor|].
    intros [o|]; auto with man. }
  intros [[|]|]; [|auto with man..].
  apply steps_bind; [apply _|auto with man|]. intros file.
  apply steps_bind; [apply _|destruct file; auto with man|].
  intros [[|]|]; [auto with man| |auto with man].
  apply steps_bind; [apply _|auto with man|]. intros [o|]; auto with man.
Qed.

#[local] Hint Resolve bare_resolve_json bare_search : man.

Lemma bare_man_api_text url path : quiet (man_api_text alloc run readable readdir url path).
Proof.
  unfold man_api_text. destruct (path_matches_endpoint _ _); [apply bare_strdup|].
  destruct (path_matches_endpoint _ _); [destruct (man_get_query_value _ _ _); auto with man|].
  destruct (path_matches_endpoint _ _); [auto with man|].
  destruct (is_prefix _ path); [destruct (query_of_search _ _) as [[|]|]; auto with man|].
  apply steps_bind; [apply _| |].
  - destruct (_ <? 64); [|auto with man]. destruct (scan_area_section _) as [[? ?]|]; auto with man.
  - intros [json|]; auto with man.
Qed.
End bare.

#[export] Hint Resolve bare_malloc bare_io bare_time bare_sem bare_strdup bare_run bare_resolve
  bare_stat bare_fstat bare_read bare_read_disk bare_render_page bare_probe bare_man_api_text : man.

(** A step that starts no program and touches no directory or file. *)
Lemma confines_same dir s s' :
  mn_execs s' = mn_execs s → mn_mkdirs s' = mn_mkdirs s → mn_disk s' = mn_disk s →
  confines dir s s'.
Proof. intros He Hm Hd [H1 H2 H3]. split; [by rewrite He|by rewrite Hm|by rewrite Hd]. Qed.

Section confined.
Context (alloc : nat → bool) (run : nat → bytes → list bytes → Z → Z → option bytes).
Context (readable : bytes → bool) (readdir : bytes → option (list dirent)).
Context (clock : nat → Z) (sem : nat → bool) (static_dir : bytes).
Context (io : nat → bool) (wr : nat → nat → nat).

Abbreviation ok := (steps (confines static_dir)).

Lemma ok_cache_get p : ok (man_render_cache_get alloc clock p).
Proof.
  intros s. unfold man_render_cache_get, time_null, malloc. run_st.
  destruct (slot_index _ _); [|by apply confines_same].
  destruct (_ <? _)%Z; by apply confines_same.
Qed.

Lemma ok_cache_put p body : ok (man_render_cache_put alloc clock p body).
Proof.
  intros s. unfold man_render_cache_put, time_null, malloc. run_st.
  destruct (length body =? 0); [by apply confines_same|].
  destruct (put_scan _ _ _ _ _) as [i|[i|]]; by apply confines_same.
Qed.

Lemma ok_cleanup : ok man_render_cache_cleanup.
Proof.
  intros s. unfold man_render_cache_cleanup. run_st.
  destruct (mn_cache_initialized s); by apply confines_same.
Qed.

#[local] Hint Resolve ok_cache_get ok_cache_put : man.

(** One component of the path. *)
Lemma mkdir_loop_component done seg rest :
  "/"%char ∉ seg →
  mkdir_loop io done (seg ++ "/"%char :: rest)
  = (created ← mkdir io (done ++ seg);
     if negb created then mret false else mkdir_loop io (done ++ seg ++ ["/"%char]) rest).
Proof.
  revert done. induction seg as [|c seg IH]; intros done; [by rewrite !app_nil_r|].
  intros [Hc Hs]%not_elem_of_cons. cbn [app mkdir_loop].
  rewrite (proj2 (ascii_eqb_false c "/")) by congruence.
  rewrite IH by done. by rewrite <- !app_assoc.
Qed.

Lemma mkdir_loop_last done seg : "/"%char ∉ seg → mkdir_loop io done seg = mkdir io (done ++ seg).
Proof.
  revert done. induction seg as [|c seg IH]; intros done; [by rewrite app_nil_r|].
  intros [Hc Hs]%not_elem_of_cons. cbn [mkdir_loop].
  rewrite (proj2 (ascii_eqb_false c "/")) by congruence.
  rewrite IH by done. by rewrite <- app_assoc.
Qed.

Lemma ok_mkdir d : dir_ok static_dir d → ok (mkdir io d).
Proof.
  intros Hd. unfold mkdir. apply steps_bind; [apply _| |auto with man].
  intros s [H1 H2 H3]. split; [done| |done]. cbn. apply Forall_app. by split; [|constructor].
Qed.

Lemma ok_mkdir_p p :
  static_dir ≠ [] → page_ok p → length (page_dir static_dir p) < 512 →
  ok (mkdir_p io (page_dir static_dir p) static_dir).
Proof.
  intros Hne [[Ha _] Hs _ _] Hl. unfold mkdir_p.
  destruct (length (page_dir static_dir p) =? 0); [auto with man|].
  rewrite strlcpy_id by done.
  assert (mkdir_start (page_dir static_dir p) static_dir = S (length static_dir)) as ->.
  { unfold mkdir_start, page_dir. rewrite is_prefix_app, drop_app_length.
    by destruct static_dir. }
  assert (page_dir static_dir p = (static_dir ++ ["/"%char]) ++ bs "man" ++
    "/"%char :: mp_area p ++ "/"%char :: mp_section p) as ->.
  { unfold page_dir. by rewrite <- !app_assoc. }
  assert (length (static_dir ++ ["/"%char]) = S (length static_dir)) as <-
    by (rewrite length_app; simpl; lia).
  rewrite take_app_length, drop_app_length.
  rewrite mkdir_loop_component by (by_computation).
  apply steps_bind; [apply _| |].
  { apply ok_mkdir. rewrite <- app_assoc. apply dir_man. }
  intros c1. destruct (negb c1); [auto with man|].
  rewrite mkdir_loop_component by done. apply steps_bind; [apply _| |].
  { apply ok_mkdir.
    replace (((static_dir ++ ["/"%char]) ++ bs "man" ++ ["/"%char]) ++ mp_area p)
      with (static_dir ++ bs "/man/" ++ mp_area p) by (by rewrite <- !app_assoc).
    by apply dir_area. }
  intros c2. destruct (negb c2); [auto with man|].
  rewrite mkdir_loop_last by (by apply valid_section_no_slash). apply ok_mkdir.
  replace ((((static_dir ++ ["/"%char]) ++ bs "man" ++ ["/"%char]) ++ mp_area p ++ ["/"%char]) ++ mp_section p)
    with (static_dir ++ bs "/man/" ++ mp_area p ++ bs "/" ++ mp_section p) by (by rewrite <- !app_assoc).
  by apply dir_section.
Qed.

#[local] Hint Resolve ok_mkdir_p : man.

Lemma confined_put_file p data now s :
  page_ok p → confined static_dir s → confined static_dir (put_file (abs_path static_dir p) data now s).
Proof.
  intros Hp [H1 H2 H3]. split; [done|done|]. cbn. intros path.
  destruct (decide (path = abs_path static_dir p)) as [->|Hne]; [eauto|].
  rewrite lookup_insert_ne by done. apply H3.
Qed.

Lemma ok_open_trunc p : page_ok p → ok (open_trunc clock io (abs_path static_dir p)).
Proof.
  intros Hp. unfold open_trunc. apply steps_bind; [apply _|auto with man|].
  intros opened. destruct (negb opened); [auto with man|].
  apply steps_bind; [apply _|auto with man|]. intros now s Hs. run_st. by apply confined_put_file.
Qed.

Lemma ok_write_some p off buf : page_ok p → ok (write_some clock wr (abs_path static_dir p) off buf).
Proof.
  intros Hp. unfold write_some. apply steps_bind; [apply _|intros s; by apply confines_same|].
  intros w. destruct (w =? 0); [auto with man|].
  apply steps_bind; [apply _|auto with man|]. intros now s Hs. run_st. by apply confined_put_file.
Qed.

#[local] Hint Resolve ok_open_trunc ok_write_some : man.

Lemma ok_write_loop p n off buf :
  page_ok p → ok (write_loop clock wr n (abs_path static_dir p) off buf).
Proof.
  intros Hp. revert off. induction n as [|n IH]; intros off; cbn [write_loop]; [auto with man|].
  destruct (off <? length buf); [|auto with man].
  apply steps_bind; [apply _|auto with man|]. intros x. destruct (x =? 0); auto with man.
Qed.

#[local] Hint Resolve ok_write_loop : man.

Lemma ok_write_file p buf : page_ok p → ok (write_file_binary clock io wr (abs_path static_dir p) buf).
Proof.
  intros Hp. unfold write_file_binary. destruct (length buf =? 0); [auto with man|].
  apply steps_bind; [apply _|auto with man|]. intros opened. destruct (negb opened); auto with man.
Qed.

#[local] Hint Resolve ok_write_file : man.

Lemma ok_save p body :
  static_dir ≠ [] → page_ok p → length (abs_path static_dir p) < 512 →
  ok (let cache_dir := strlcpy 512 (abs_path static_dir p) in
      match strrchr cache_dir "/" with
      | Some i =>
          created ← mkdir_p io (take i cache_dir) static_dir;
          if created : bool then write_file_binary clock io wr (abs_path static_dir p) body
          else mret false
      | None => mret false
      end).
Proof.
  intros Hne Hp Hl. cbv zeta. rewrite strlcpy_id by done.
  destruct (abs_path_dir static_dir p Hp) as [-> Hdir]. rewrite Hdir.
  assert (length (page_dir static_dir p) ≤ length (abs_path static_dir p)).
  { rewrite <- Hdir, length_take. lia. }
  apply steps_bind; [apply _|apply ok_mkdir_p; [done..|lia]|].
  intros [|]; auto with man.
Qed.

Lemma ok_page_body p :
  static_dir ≠ [] → page_ok p →
  ok (page_body alloc run readable clock sem static_dir io wr p).
Proof.
  intros Hne Hp. unfold page_body. apply steps_bind; [apply _|auto with man|].
  intros [body|]; [auto with man|].
  apply steps_bind; [apply _|destruct (build_cache_paths _ _ _ _) as [[? ?]|]; auto with man|].
  intros [body|]; [auto with man|].
  apply steps_bind; [apply _|auto with man|]. intros test_path.
  apply steps_bind; [apply _|destruct test_path; auto with man|].
  intros [section|]; [|auto with man].
  apply steps_bind; [apply _|auto with man|]. intros [body|]; [|auto with man].
  apply steps_bind; [apply _|auto with man|]. intros _.
  apply steps_bind; [apply _| |auto with man].
  unfold build_cache_paths. destruct (REL_SIZE <=? _); [auto with man|].
  destruct (ABS_SIZE <=? length (abs_path static_dir p)) eqn:Hl; bool_facts; [auto with man|].
  by apply ok_save.
Qed.

End confined.

(** ** Sequences of requests *)

(** A page request, with the ticks between which it was served. *)
Record man_request := Request { rq_page : man_page; rq_from : nat; rq_to : nat }.

Definition during (r : man_request) (t : nat) : Prop := rq_from r ≤ t ≤ rq_to r.

Section runs.
Context (alloc : nat → bool) (run : nat → bytes → list bytes → Z → Z → option bytes).
Context (readable : bytes → bool) (readdir : bytes → option (list dirent)).
Context (clock : nat → Z) (sem : nat → bool) (static_dir : bytes).
Context (io : nat → bool) (wr : nat → nat → nat).

Abbreviation serve := (page_body alloc run readable clock sem static_dir io wr).
Abbreviation render := (man_render_page alloc run readable sem).

(** The requests served so far, oldest first, and the state they lead to. *)
Inductive man_run : list man_request → man_state → Prop :=
| run_start : man_run [] man_static
| run_page h s url p :
    man_run h s → man_route url = inl p →
    man_run (h ++ [Request p (mn_time s) (mn_time (serve p s).2)]) (serve p s).2
| run_api h s url path :
    man_run h s → man_run h (man_api_text alloc run readable readdir url path s).2
| run_cleanup h s : man_run h s → man_run h (man_render_cache_cleanup s).2.

(** However requests are made, the only programs started are man, mandoc and apropos, with
    a checked name and section and an absolute file name; directories are made only at
    [static_dir]/man, an area below it (a name without a slash) and a section below that;
    and every file written is the file of a checked page. *)
Theorem man_requests_confined h s : static_dir ≠ [] → man_run h s → confined static_dir s.
Proof.
  intros Hne. induction 1 as [|h s url p _ IH Hp|h s url path _ IH|h s _ IH].
  - split; [constructor..|]. intros path [f Hf]. cbn in Hf. by rewrite lookup_empty in Hf.
  - apply ok_page_body; [done| |done]. by apply man_route_ok in Hp.
  - revert IH. by apply (bare_confines static_dir), bare_man_api_text.
  - revert IH. apply ok_cleanup.
Qed.
End runs.

(** man finds every page below /usr/share/man, mandoc prints a line. *)
Definition sample_run (t : nat) (path : bytes) (argv : list bytes) (size timeout : Z) : option bytes :=
  if streq path (bs "/usr/bin/man") then Some (bs "/usr/share/man/man1/ls.1" ++ [lf]) else Some (bs "LS(1)").

Definition sample_page : man_page := ManPage (bs "system") (bs "1") (bs "ls") (bs "html").

Definition sample_serve : man_page → MM (option bytes) :=
  page_body (λ _, true) sample_run (λ _, true) Z.of_nat (λ _, true) (bs "static")
    (λ _, true) (λ _ n, n).

Lemma man_requests_confined_witness :
  let s := (sample_serve sample_page man_static).2 in
  confined (bs "static") s ∧ length (mn_execs s) = 3 ∧
  mn_mkdirs s = [bs "static/man"; bs "static/man/system"; bs "static/man/system/1"] ∧
  df_data <$> mn_disk s !! bs "static/man/system/1/ls.html" = Some (bs "LS(1)").
Proof.
  cbv zeta. split; [|vm_compute; auto].
  eapply (man_requests_confined (λ _, true) sample_run (λ _, true) (λ _, None) Z.of_nat
    (λ _, true) (bs "static") (λ _, true) (λ _ n, n)); [done|].
  apply (run_page _ _ _ _ _ _ _ _ _ [] man_static (bs "/man/system/1/ls.html")); [constructor|].
  vm_compute. reflexivity.
Defined.
