(* ===== verification/ManCache.v ===== *)
(** * The manual pages: what is served from the caches (src/modules/man/man_render.c)

    A text taken from memory or from disk was rendered by an earlier request, for the same
    page, and not too long ago.  The proof follows [page_body] call by call with an
    invariant of the cached texts. *)

From S2P Require Import Prelude Man ManRender.

(** ** What a cached text is *)

Definition later (s s' : man_state) : Prop := mn_time s ≤ mn_time s'.

#[export] Instance later_preorder : PreOrder later.
Proof. split; [by intros s; red|]. intros s1 s2 s3. unfold later. lia. Qed.

Lemma bare_later {A} (m : MM A) : steps bare m → steps later m.
Proof. intros Hm s. by destruct (Hm s). Qed.

#[export] Hint Resolve bare_later | 5 : man.

(** The section a request can be rendered for: its own, or one of the common ones. *)
Definition section_of (p : man_page) (section : bytes) : Prop :=
  section = mp_section p ∨ section ∈ probe_sections.

Lemma with_section_ok p section : page_ok p → section_of p section → page_ok (with_section p section).
Proof.
  intros [Ha Hs Hp Hf] Hsec. split; cbn; try done. destruct Hsec as [->|Hsec]; [done|].
  unfold probe_sections in Hsec. rewrite !elem_of_cons, elem_of_nil in Hsec.
  by destruct_or! Hsec; subst.
Qed.

(** ** The table in memory, for any property of its slots *)

Lemma slot_index_Some key slots i :
  slot_index key slots = Some i → ∃ sl, slots !! i = Some sl ∧ slot_has key sl = true.
Proof.
  revert i. induction slots as [|sl l IH]; intros i; [done|]. cbn [slot_index].
  destruct (slot_has key sl) eqn:E; [intros [= <-]; eauto|].
  destruct (slot_index key l) as [j|]; [|done]. intros [= <-]. by apply IH.
Qed.

Lemma slot_has_key key sl : slot_has key sl = true → ms_key sl = key.
Proof. unfold slot_has. destruct (ms_body sl); [apply streq_true|done]. Qed.

(** A scan that updates stops on the slot of the key. *)
Lemma put_scan_update key slots i target oldest j :
  put_scan key slots i target oldest = PutUpdate j →
  i ≤ j ∧ ∃ sl, slots !! (j - i) = Some sl ∧ ms_key sl = key.
Proof.
  revert i target oldest. induction slots as [|sl l IH]; intros i target oldest; [done|].
  cbn [put_scan]. destruct (slot_has key sl) eqn:E.
  { intros [= <-]. rewrite Nat.sub_diag. split; [done|]. exists sl. auto using slot_has_key. }
  destruct (ms_body sl); [|done].
  destruct (ms_inserted sl <? oldest)%Z; intros [H1 (s2 & H2 & H3)]%IH;
    (split; [lia|]; exists s2; by replace (j - i) with (S (j - S i)) by lia).
Qed.

Lemma strlcpy_key p : strlcpy 192 (man_render_cache_key p) = man_render_cache_key p.
Proof. unfold man_render_cache_key, strlcpy. by rewrite take_take, Nat.min_id. Qed.

(** A call that leaves the files, the programs and the directories alone. *)
Record memory_only (s s' : man_state) : Prop := {
  mo_disk : mn_disk s' = mn_disk s;
  mo_execs : mn_execs s' = mn_execs s;
  mo_mkdirs : mn_mkdirs s' = mn_mkdirs s;
  mo_time : later s s'
}.

Section table.
Context (alloc : nat → bool) (clock : nat → Z).
Lemma later_get p : steps later (man_render_cache_get alloc clock p).
Proof.
  intros s. unfold man_render_cache_get, time_null, malloc, later. run_st.
  destruct (slot_index _ _); [|cbn; lia]. destruct (_ <? _)%Z; cbn; lia.
Qed.

Lemma later_put p body : steps later (man_render_cache_put alloc clock p body).
Proof.
  intros s. unfold man_render_cache_put, time_null, malloc, later. run_st.
  destruct (length body =? 0); [done|]. destruct (put_scan _ _ _ _ _) as [i|[i|]]; cbn; lia.
Qed.

Context (P : man_slot → Prop) (P_empty : ∀ sl, ms_body sl = None → P sl).

Abbreviation all := (Forall (Forall P)).

Lemma all_slot c si i sl : all c → c !!! si !! i = Some sl → P sl.
Proof.
  intros Hc. rewrite list_lookup_total_alt. destruct (c !! si) as [shard|] eqn:E; [|done]. cbn.
  intros Hsl. eapply Forall_lookup_1, Hsl. by eapply Forall_lookup_1, E.
Qed.

(** Rewriting one slot of one shard. *)
Lemma all_alter c si i f :
  all c → (∀ sl, c !!! si !! i = Some sl → P sl → P (f sl)) → all (<[si := alter f i (c !!! si)]> c).
Proof.
  intros Hc Hf. apply Forall_insert; [done|]. apply Forall_lookup. intros j sl.
  rewrite list_lookup_alter. case_decide; [subst j|by apply all_slot].
  destruct (_ !! i) as [sl0|] eqn:E; [|done]. intros [= <-]. apply Hf; [done|]. by eapply all_slot.
Qed.

Lemma cache_get_spec p s :
  all (mn_cache s) →
  let r := man_render_cache_get alloc clock p s in
  all (mn_cache r.2) ∧ memory_only s r.2 ∧
  (∀ body, r.1 = Some body → S (mn_time s) ≤ mn_time r.2 ∧
     ∃ sl, P sl ∧ ms_key sl = man_render_cache_key p ∧ ms_body sl = Some body ∧
           (clock (mn_time s) - ms_inserted sl ≤ MAN_RENDER_CACHE_TTL)%Z).
Proof.
  intros Hs. unfold man_render_cache_get, time_null, malloc. run_st.
  cbn [man_render_cache_init mn_tick mn_cache mn_time].
  destruct (slot_index _ _) as [i|] eqn:Hi; cbn [fst snd].
  2: { split_and!; [done|by split; [..|unfold later; cbn; lia]|done]. }
  apply slot_index_Some in Hi as (sl & Hsl & Hhas).
  rewrite (list_lookup_total_correct _ _ _ Hsl).
  destruct (MAN_RENDER_CACHE_TTL <? _)%Z eqn:Hage; cbn [fst snd mn_tick set_cache mn_time mn_cache].
  - split_and!; [|by split; [..|unfold later; cbn; lia]|done].
    apply all_alter; [done|]. intros sl' _ _. by apply P_empty.
  - split_and!; [done|by split; [..|unfold later; cbn; lia]|].
    destruct (alloc _); [|done]. intros body Hbody. split; [cbn; lia|]. bool_facts. exists sl.
    split_and!; [by eapply all_slot|by apply slot_has_key|done|done].
Qed.

Lemma cache_put_spec p body s :
  all (mn_cache s) →
  (∀ sl, ms_key sl = man_render_cache_key p → ms_body sl = Some body →
         ms_inserted sl = clock (mn_time s) → P sl) →
  let r := man_render_cache_put alloc clock p body s in
  all (mn_cache r.2) ∧ memory_only s r.2.
Proof.
  intros Hs Hnew. unfold man_render_cache_put, time_null, malloc.
  destruct (length body =? 0); [by run_st; split; [|split]|]. run_st.
  cbn [man_render_cache_init mn_tick mn_cache mn_time].
  set (si := man_render_cache_shard _). set (shard := mn_cache s !!! si).
  assert (∀ ok sl,
    (ms_key sl = man_render_cache_key p → P (update_slot ok body (clock (mn_time s)) sl)) ∧
    P (fill_slot ok (man_render_cache_key p) body (clock (mn_time s)) sl)) as Hslot.
  { intros ok sl. unfold update_slot, fill_slot. destruct ok; [|by split; intros; apply P_empty].
    split; intros; apply Hnew; cbn; try done. apply strlcpy_key. }
  destruct (put_scan _ shard _ _ _) as [i|[i|]] eqn:Hscan; cbn [fst snd mn_tick set_cache mn_time mn_cache];
    (split; [|by split; [..|unfold later; cbn; lia]]); [| |done].
  - apply put_scan_update in Hscan as (_ & sl & Hsl & Hkey). rewrite Nat.sub_0_r in Hsl.
    apply all_alter; [done|]. intros sl' Hsl' _. fold shard in Hsl'. simplify_eq. by apply Hslot.
  - apply all_alter; [done|]. intros sl' _ _. apply Hslot.
Qed.

Lemma cache_cleanup_spec s :
  all (mn_cache s) →
  let r := man_render_cache_cleanup s in all (mn_cache r.2) ∧ memory_only s r.2.
Proof.
  intros Hs. unfold man_render_cache_cleanup. run_st.
  destruct (mn_cache_initialized s); [|by split; [|split]]. split; [|by split; [..|unfold later]]. cbn.
  apply Forall_fmap, Forall_true. intros shard. apply Forall_fmap, Forall_true. intros sl.
  by apply P_empty.
Qed.
End table.

Section faithful.
Context (alloc : nat → bool) (run : nat → bytes → list bytes → Z → Z → option bytes).
Context (readable : bytes → bool) (readdir : bytes → option (list dirent)).
Context (clock : nat → Z) (sem : nat → bool) (static_dir : bytes).
Context (io : nat → bool) (wr : nat → nat → nat).

Abbreviation render := (man_render_page alloc run readable sem).

(** While [r] was served its page was rendered as [text], from the page of [section]. *)
Definition rendered (r : man_request) (section text : bytes) : Prop :=
  section_of (rq_page r) section ∧
  ∃ s, during r (mn_time s) ∧
       (render section (mp_page (rq_page r)) (mp_format (rq_page r)) s).1 = Some text.

(** [body] is the text that the request [r] of [h] rendered, or the part of it that was
    written to disk before a write failed; [q] is what [r] asked for, or the same page in
    the section it was found in. *)
Definition origin (h : list man_request) (q : man_page) (body : bytes) (r : man_request) : Prop :=
  ∃ section text n, r ∈ h ∧ rendered r section text ∧
    (q = rq_page r ∨ q = with_section (rq_page r) section) ∧
    body = take n text ∧ ((∀ t n, 0 < n → 0 < wr t n) → body = text).

(** The times at which a text of [r] was put into memory: when it was rendered, or when a
    later request found it on disk. *)
Inductive kept (h : list man_request) (r : man_request) : Z → Prop :=
| kept_rendered t : during r t → kept h r (clock t)
| kept_copied r' t t1 t2 :
    r' ∈ h → during r t → during r' t1 → during r' t2 →
    (clock t1 - clock t ≤ MAN_FS_CACHE_TTL_SEC)%Z → kept h r (clock t2).

Definition from_memory (h : list man_request) (r now : man_request) : Prop :=
  ∃ t stamp, during now t ∧ kept h r stamp ∧ (clock t - stamp ≤ MAN_RENDER_CACHE_TTL)%Z.

Definition from_disk (r now : man_request) : Prop :=
  ∃ t0 t, during r t0 ∧ during now t ∧ (clock t - clock t0 ≤ MAN_FS_CACHE_TTL_SEC)%Z.

Definition slot_good (h : list man_request) (sl : man_slot) : Prop :=
  ∀ body, ms_body sl = Some body →
    ∃ q r, page_ok q ∧ ms_key sl = man_render_cache_key q ∧ origin h q body r ∧
           kept h r (ms_inserted sl).

Definition file_good (h : list man_request) (path : bytes) (f : disk_file) : Prop :=
  ∃ r t, page_ok (rq_page r) ∧ path = abs_path static_dir (rq_page r) ∧
         origin h (rq_page r) (df_data f) r ∧ during r t ∧ df_mtime f = clock t.

Record cached_good (h : list man_request) (s : man_state) : Prop := {
  cg_slots : Forall (Forall (slot_good h)) (mn_cache s);
  cg_files : map_Forall (file_good h) (mn_disk s)
}.

(** More requests change nothing. *)
Lemma origin_mono h r0 q body r : origin h q body r → origin (h ++ [r0]) q body r.
Proof.
  intros (section & text & n & Hr & H). exists section, text, n.
  split; [apply elem_of_app; by left|done].
Qed.

Lemma kept_mono h r0 r stamp : kept h r stamp → kept (h ++ [r0]) r stamp.
Proof.
  destruct 1 as [t|r' t t1 t2 Hr']; [by constructor|].
  apply (kept_copied _ _ r' t t1 t2); [apply elem_of_app; by left|done..].
Qed.

Lemma slot_good_mono h r0 sl : slot_good h sl → slot_good (h ++ [r0]) sl.
Proof.
  intros H body Hb. destruct (H body Hb) as (q & r & ? & ? & ? & ?).
  exists q, r. auto using origin_mono, kept_mono.
Qed.

Lemma cached_good_mono h r0 s : cached_good h s → cached_good (h ++ [r0]) s.
Proof.
  intros [H1 H2]. split.
  - eapply Forall_impl; [exact H1|]. intros shard Hs. eapply Forall_impl; [exact Hs|].
    apply slot_good_mono.
  - eapply map_Forall_impl; [exact H2|]. intros path f (r & t & ? & ? & ? & ? & ?).
    exists r, t. auto using origin_mono.
Qed.

Lemma cached_good_same h s s' :
  mn_cache s' = mn_cache s → mn_disk s' = mn_disk s → cached_good h s → cached_good h s'.
Proof. intros Hc Hd [H1 H2]. split; [by rewrite Hc|by rewrite Hd]. Qed.

(** ** One request *)

Section request.
Context (h : list man_request) (now : man_request).
Hypothesis Hnow : now ∈ h.

Abbreviation good := (cached_good h).

(** [m] run while [now] is served. *)
Definition triple {A} (P : man_state → Prop) (m : MM A) (Q : A → man_state → Prop) : Prop :=
  ∀ s, rq_from now ≤ mn_time s → mn_time (m s).2 ≤ rq_to now → P s → Q (m s).1 (m s).2.

Lemma triple_bind {A B} P Q R (m : MM A) (f : A → MM B) :
  steps later m → (∀ x, steps later (f x)) →
  triple P m Q → (∀ x, triple (Q x) (f x) R) → triple P (m ≫= f) R.
Proof.
  intros Lm Lf Hm Hf s Hs. unfold mbind, ST_bind. specialize (Lm s). specialize (Hm s Hs).
  destruct (m s) as [x s1]. cbn in *. unfold later in Lm. intros Ht HP.
  pose proof (Lf x s1) as L1. unfold later in L1. apply Hf; [lia|done|]. apply Hm; [lia|done].
Qed.

Lemma triple_ret {A} (P : man_state → Prop) (x : A) (Q : A → man_state → Prop) :
  (∀ s, P s → Q x s) → triple P (mret x) Q.
Proof. intros HQ s _ _. apply HQ. Qed.

Lemma triple_bare {A} (m : MM A) : steps bare m → triple good m (λ _, good).
Proof. intros Hm s _ _. destruct (Hm s) as [Hc Hd _ _ _]. by apply cached_good_same. Qed.

Lemma slot_good_empty sl : ms_body sl = None → slot_good h sl.
Proof. intros Hb body. by rewrite Hb. Qed.

Abbreviation at_rest E := (λ s, good s ∧ mn_execs s = E).

Lemma triple_get p E : page_ok p →
  triple (at_rest E) (man_render_cache_get alloc clock p)
    (λ c s, at_rest E s ∧ ∀ body, c = Some body →
       ∃ r, origin h p body r ∧ from_memory h r now).
Proof.
  intros Hp s Hfrom Hto [[H1 H2] HE].
  destruct (cache_get_spec alloc clock _ slot_good_empty p s H1) as (Hc & [Hd He _ _] & Hget).
  split; [split; [by split; [|rewrite Hd]|congruence]|].
  intros body (Ht & sl & Hgood & Hkey & Hbody & Hage)%Hget.
  destruct (Hgood body Hbody) as (q & r & Hq & Hkey' & Horigin & Hkept).
  rewrite Hkey' in Hkey. apply cache_key_inj in Hkey as ->; [|done..]. exists r. split; [done|].
  exists (mn_time s), (ms_inserted sl). split; [split; lia|done].
Qed.

(** A text may be put into memory by the request that rendered it, or by one that found it
    on disk. *)
Lemma triple_put q body E :
  page_ok q → (∃ r, origin h q body r ∧ (r = now ∨ from_disk r now)) →
  triple (at_rest E) (man_render_cache_put alloc clock q body) (λ _, at_rest E).
Proof.
  intros Hq (r & Horigin & Hr) s Hfrom Hto [[H1 H2] HE].
  destruct (cache_put_spec alloc clock _ slot_good_empty q body s H1) as (Hc & [Hd He _ _]).
  2: { split; [by split; [|rewrite Hd]|congruence]. }
  intros sl Hk Hb Hi body' Hb'. rewrite Hb in Hb'. injection Hb' as <-.
  exists q, r. rewrite Hi. split_and!; [done..|].
  assert (during now (mn_time s)).
  { pose proof (later_put alloc clock q body s) as Hl. unfold later in Hl. split; lia. }
  destruct Hr as [->|(t0 & t & Ht0 & Ht & Hage)]; [by constructor|].
  by apply (kept_copied h r now t0 t).
Qed.

Lemma triple_put_good q body :
  page_ok q → (∃ r, origin h q body r ∧ (r = now ∨ from_disk r now)) →
  triple good (man_render_cache_put alloc clock q body) (λ _, good).
Proof.
  intros Hq Hr s H1 H2 Hs. by apply (triple_put q body (mn_execs s) Hq Hr s).
Qed.

(** What reading the file of a page gives. *)
Lemma read_disk_spec path s body :
  (read_disk alloc clock io path s).1 = Some body →
  ∃ f, mn_disk s !! path = Some f ∧ body = df_data f ∧
    (clock (S (mn_time s)) - df_mtime f ≤ MAN_FS_CACHE_TTL_SEC)%Z ∧
    S (mn_time s) ≤ mn_time (read_disk alloc clock io path s).2.
Proof.
  unfold read_disk, stat_recent, fstat_size, read_whole, io_ok, time_null, malloc, file_data. run_st.
  cbn [mn_tick mn_disk mn_time]. destruct (mn_disk s !! path) as [f|] eqn:Hf; [|done].
  destruct (_ || (length (df_data f) =? 0)); [done|].
  destruct (MAN_FS_CACHE_TTL_SEC <? _)%Z eqn:Hage; [done|]. bool_facts.
  destruct (negb _); [done|]. cbn [mn_tick mn_disk mn_time]. rewrite Hf. cbn [fmap option_fmap option_map default].
  destruct (_ || _); [done|]. destruct (negb _); [done|].
  cbn [mn_tick mn_disk mn_time]. rewrite Hf. cbn [fmap option_fmap option_map default].
  rewrite firstn_all, Nat.eqb_refl. destruct (io _); cbn [andb fst snd mn_tick mn_time]; [|done].
  intros [= <-]. exists f. split_and!; [done|done|exact Hage|lia].
Qed.

Lemma triple_read p E : page_ok p →
  triple (at_rest E) (read_disk alloc clock io (abs_path static_dir p))
    (λ c s, at_rest E s ∧ ∀ body, c = Some body → ∃ r, origin h p body r ∧ from_disk r now).
Proof.
  intros Hp s Hfrom Hto [Hs HE].
  destruct (bare_read_disk alloc clock io (abs_path static_dir p) s) as [Hc Hd _ _ _].
  assert (mn_execs (read_disk alloc clock io (abs_path static_dir p) s).2 = mn_execs s) as He.
  { unfold read_disk, stat_recent, fstat_size, read_whole, io_ok, time_null, malloc. run_st.
    by repeat (case_match; simplify_eq/=). }
  split; [split; [by apply (cached_good_same h s)|congruence]|].
  intros body (f & Hf & -> & Hage & Ht)%read_disk_spec.
  destruct Hs as [_ Hs]. destruct (Hs _ _ Hf) as (r & t & Hr & Hpath & Horigin & Hrt & Hm).
  apply abs_path_inj in Hpath as ->; [|done|done]. exists r. split; [done|].
  rewrite Hm in Hage. exists t, (S (mn_time s)). split; [done|]. split; [split; lia|done].
Qed.

Lemma write_at_next off w (buf : bytes) :
  off ≤ length buf → write_at off (take w (drop off buf)) (take off buf) = take (off + w) buf.
Proof.
  intros Hoff. unfold write_at. assert (length (take off buf) = off) as Hl by (rewrite length_take; lia).
  rewrite <- Hl at 1. rewrite resize_all, (drop_ge (take off buf)) by lia.
  by rewrite app_nil_r, take_take_drop.
Qed.

(** A write loop alone with its file leaves the text up to the offset it reaches. *)
Lemma write_loop_spec n path off buf t0 s :
  off ≤ length buf → t0 ≤ mn_time s →
  mn_disk s !! path = Some {| df_data := take off buf; df_mtime := clock t0 |} →
  let r := write_loop clock wr n path off buf s in
  mn_cache r.2 = mn_cache s ∧ later s r.2 ∧
  (∃ m t, t0 ≤ t ≤ mn_time r.2 ∧
    mn_disk r.2 = <[path := {| df_data := take m buf; df_mtime := clock t |}]> (mn_disk s) ∧
    ((∀ t n, 0 < n → 0 < wr t n) → length buf ≤ n + off → length buf ≤ m)).
Proof.
  unfold later. revert off t0 s. induction n as [|n IH]; intros off t0 s Hoff Ht0 Hf; cbn [write_loop].
  { split_and!; [done..|]. exists off, t0. split_and!; try done; try lia. by rewrite insert_id. }
  destruct (off <? length buf) eqn:Hlt; bool_facts.
  2: { split_and!; [done..|]. exists off, t0. split_and!; try done; try lia. by rewrite insert_id. }
  unfold write_some, time_null. run_st. set (w := Nat.min _ _).
  destruct (w =? 0) eqn:Hw; bool_facts; cbn [mn_tick mn_time mn_disk mn_cache fst snd].
  { cbn [Nat.eqb fst snd mn_tick mn_time mn_disk mn_cache].
    split_and!; [done|lia|]. exists off, t0. split_and!; try lia; [by rewrite insert_id|].
    intros Hwr _. specialize (Hwr (mn_time s) (length buf - off) ltac:(lia)). unfold w in Hw. lia. }
  rewrite (proj2 (Nat.eqb_neq w 0)) by done. unfold file_data. cbn [mn_tick mn_disk]. rewrite Hf.
  cbn [fmap option_fmap option_map default df_data]. rewrite write_at_next by lia.
  set (s1 := put_file path _ _ _).
  destruct (IH (off + w) (S (mn_time s)) s1) as (Hc & Ht & m & t & Ht' & Hd & Hall);
    [unfold w; lia|cbn; lia|apply lookup_insert_eq|]. cbn in Ht, Hd.
  split_and!; [by rewrite Hc|cbn in *; lia|]. exists m, t. split_and!; [lia|lia| |].
  - by rewrite Hd, insert_insert_eq.
  - intros Hwr Hl. apply Hall; [done|lia].
Qed.

Lemma write_spec path buf s :
  let r := write_file_binary clock io wr path buf s in
  mn_cache r.2 = mn_cache s ∧ later s r.2 ∧
  (mn_disk r.2 = mn_disk s ∨
   ∃ m t, mn_time s ≤ t ≤ mn_time r.2 ∧
     mn_disk r.2 = <[path := {| df_data := take m buf; df_mtime := clock t |}]> (mn_disk s) ∧
     ((∀ t n, 0 < n → 0 < wr t n) → length buf ≤ m)).
Proof.
  unfold write_file_binary, open_trunc, io_ok, time_null, later. run_st.
  destruct (length buf =? 0); [by split_and!; [| |left]|]. destruct (negb (io _)); cbn [negb].
  { split_and!; [done|cbn; lia|by left]. }
  set (s1 := put_file path _ _ _).
  destruct (write_loop_spec (length buf) path 0 buf (S (mn_time s)) s1) as (Hc & Ht & m & t & Ht' & Hd & Hall);
    [lia|cbn; lia|apply lookup_insert_eq|]. destruct (write_loop _ _ _ _ _ _ s1) as [r s2].
  unfold later in Ht. cbn in *. split_and!; [by rewrite Hc|lia|]. right. exists m, t. split_and!; [lia|lia| |].
  - by rewrite Hd, insert_insert_eq.
  - intros Hwr. apply Hall; [done|lia].
Qed.

Lemma later_write path buf : steps later (write_file_binary clock io wr path buf).
Proof. intros s. apply write_spec. Qed.

(** The request that rendered a text may write it to its file. *)
Lemma triple_write section text :
  page_ok (rq_page now) → rendered now section text →
  triple good (write_file_binary clock io wr (abs_path static_dir (rq_page now)) text) (λ _, good).
Proof.
  intros Hp Hr s Hfrom Hto [H1 H2].
  destruct (write_spec (abs_path static_dir (rq_page now)) text s) as (Hc & _ & [Hd|(m & t & Ht & Hd & Hall)]).
  { by apply (cached_good_same h s). }
  split; [by rewrite Hc|]. rewrite Hd. apply map_Forall_insert_2; [|done]. exists now, t.
  split_and!; try done; [|split; lia]. exists section, text, m.
  split_and!; [done|done|by left|done|]. intros Hwr. by apply take_ge, Hall.
Qed.

(** [mkdir_p] touches neither the cache nor a file. *)
Definition same_texts (s s' : man_state) : Prop :=
  mn_cache s' = mn_cache s ∧ mn_disk s' = mn_disk s ∧ later s s'.

#[local] Instance same_texts_preorder : PreOrder same_texts.
Proof.
  split; [by intros s|]. intros s1 s2 s3 (H1 & H2 & H3) (H4 & H5 & H6).
  split_and!; [congruence..|]. by etrans.
Qed.

Lemma texts_mkdir d : steps same_texts (mkdir io d).
Proof. intros s. unfold mkdir, io_ok. run_st. split_and!; [done..|]. unfold later. cbn. lia. Qed.

Lemma texts_mkdir_loop d q : steps same_texts (mkdir_loop io d q).
Proof.
  revert d. induction q as [|c q IH]; intros d; cbn [mkdir_loop]; [apply texts_mkdir|].
  destruct (Ascii.eqb c "/"); [|done]. apply steps_bind; [apply _|apply texts_mkdir|].
  intros created. destruct (negb created); [apply steps_ret; apply _|done].
Qed.

Lemma texts_mkdir_p dir base : steps same_texts (mkdir_p io dir base).
Proof.
  unfold mkdir_p. destruct (length dir =? 0); [apply steps_ret; apply _|apply texts_mkdir_loop].
Qed.

Lemma triple_mkdir_p dir base : triple good (mkdir_p io dir base) (λ _, good).
Proof.
  intros s _ _. destruct (texts_mkdir_p dir base s) as (Hc & Hd & _). by apply cached_good_same.
Qed.

Lemma later_mkdir_p dir base : steps later (mkdir_p io dir base).
Proof. intros s. by destruct (texts_mkdir_p dir base s) as (_ & _ & Ht). Qed.

#[local] Hint Resolve later_get later_put later_write later_mkdir_p : man.

(** [steps later] of a composed operation. *)
Ltac is_later :=
  repeat (intros; first [solve [auto with man] | apply steps_bind; [apply _| |] | case_match]).

Lemma triple_render section :
  section_of (rq_page now) section →
  triple good (render section (mp_page (rq_page now)) (mp_format (rq_page now)))
    (λ c s, good s ∧ ∀ text, c = Some text → rendered now section text).
Proof.
  intros Hsec s Hfrom Hto Hs.
  destruct (bare_render_page alloc run readable sem section (mp_page (rq_page now))
    (mp_format (rq_page now)) s) as [Hc Hd _ Ht _].
  split; [by apply (cached_good_same h s)|]. intros text Htext. split; [done|].
  exists s. split; [split; lia|done].
Qed.

Lemma probe_result page section sections s x :
  Forall (λ y, length y < 16) sections →
  (probe alloc run readable page section sections s).1 = Some x → x ∈ sections.
Proof.
  intros Hl. revert s. induction Hl as [|y l Hy Hl IH]; intros s; [done|]. cbn [probe].
  destruct (streq y section); [intros H%IH; by right|].
  run_st. destruct (man_resolve_path _ _ _ page y s) as [[f|] s1]; [|intros H%IH; by right].
  cbn [fst]. rewrite strlcpy_id by done. intros [= <-]. by left.
Qed.

(** The section a page is found in. *)
Lemma triple_section p (found : option bytes) :
  triple good (match found with
               | Some _ => mret (Some (mp_section p))
               | None => probe alloc run readable (mp_page p) (mp_section p) probe_sections
               end) (λ c s, good s ∧ ∀ section, c = Some section → section_of p section).
Proof.
  destruct found as [f|].
  - apply triple_ret. intros s Hs. split; [done|]. intros section [= <-]. by left.
  - intros s Hfrom Hto Hs. split.
    + revert Hs. apply (triple_bare (probe alloc run readable (mp_page p) (mp_section p) probe_sections));
        [auto with man|done..].
    + intros section Hsec. right. eapply probe_result, Hsec.
      by_computation.
Qed.

Lemma triple_weaken {A} (P P' : man_state → Prop) (m : MM A) (Q Q' : A → man_state → Prop) :
  (∀ s, P s → P' s) → (∀ x s, Q' x s → Q x s) → triple P' m Q' → triple P m Q.
Proof. intros HP HQ Hm s H1 H2 H3. by apply HQ, Hm; [| |apply HP]. Qed.

(** A fact of the request alone is available throughout. *)
Lemma triple_pure {A} (φ : Prop) (P : man_state → Prop) (m : MM A) (Q : A → man_state → Prop) :
  (φ → triple P m Q) → triple (λ s, P s ∧ φ) m Q.
Proof. intros Hm s H1 H2 [H3 H4]. by apply Hm. Qed.

Lemma triple_save section text :
  page_ok (rq_page now) → rendered now section text →
  triple good
    (match build_cache_paths static_dir (rq_page now) REL_SIZE ABS_SIZE with
     | Some (_, abs) =>
         let cache_dir := strlcpy 512 abs in
         match strrchr cache_dir "/" with
         | Some i =>
             created ← mkdir_p io (take i cache_dir) static_dir;
             if created : bool then write_file_binary clock io wr abs text else mret false
         | None => mret false
         end
     | None => mret false
     end) (λ _, good).
Proof.
  intros Hp Hr. unfold build_cache_paths. destruct (_ <=? _); [by apply triple_ret|].
  destruct (_ <=? _); [by apply triple_ret|]. cbv zeta.
  destruct (strrchr _ _); [|by apply triple_ret].
  eapply triple_bind; [auto with man|is_later|apply triple_mkdir_p|].
  intros [|]; [by eapply triple_write|by apply triple_ret].
Qed.

(** The file of the page, when its path fits. *)
Lemma triple_stored E :
  page_ok (rq_page now) →
  triple (at_rest E)
    (match build_cache_paths static_dir (rq_page now) REL_SIZE ABS_SIZE with
     | Some (_, abs) => read_disk alloc clock io abs
     | None => mret None
     end)
    (λ c s, at_rest E s ∧ ∀ body, c = Some body →
       ∃ r, origin h (rq_page now) body r ∧ from_disk r now).
Proof.
  intros Hp. unfold build_cache_paths. destruct (_ <=? _); [by apply triple_ret|].
  destruct (_ <=? _); [by apply triple_ret|]. by apply triple_read.
Qed.

Lemma triple_page_body E :
  page_ok (rq_page now) →
  triple (at_rest E) (page_body alloc run readable clock sem static_dir io wr (rq_page now))
    (λ c s, good s ∧ ∀ body, c = Some body → ∃ r, origin h (rq_page now) body r ∧
       (r = now ∨ mn_execs s = E ∧ (from_memory h r now ∨ from_disk r now))).
Proof.
  intros Hp. unfold page_body.
  eapply triple_bind; [is_later..|by apply triple_get|]. intros [body|].
  { apply triple_ret. intros s [[Hs HE] Hb]. split; [done|]. intros body' [= <-].
    destruct (Hb body eq_refl) as (r & H1 & H2). exists r. auto. }
  eapply (triple_bind _ _ _ _ _); [is_later..| |].
  { eapply triple_weaken; [|intros x s H; exact H|by apply triple_stored]. by intros s [H _]. }
  intros [body|]; cbv beta.
  { apply triple_pure. intros Hb. destruct (Hb body eq_refl) as (r & H1 & H2).
    eapply triple_bind; [is_later..| |].
    { apply triple_put; [done|]. exists r. auto. }
    intros []. apply triple_ret. intros s [Hs HE]. split; [done|]. intros body' [= <-].
    exists r. auto. }
  eapply triple_weaken; [intros s [[H _] _]; exact H|intros x s H; exact H|].
  eapply triple_bind; [is_later..|by apply triple_bare; auto with man|]. intros found.
  eapply triple_bind; [is_later..|apply triple_section|]. intros [section|]; cbv beta.
  2: { apply triple_ret. by intros s [Hs _]. }
  apply triple_pure. intros Hsec. specialize (Hsec section eq_refl).
  eapply triple_bind; [is_later..|by apply triple_render|]. intros [text|]; cbv beta.
  2: { apply triple_ret. by intros s [Hs _]. }
  apply triple_pure. intros Hr. specialize (Hr text eq_refl).
  assert (∀ q, q = rq_page now ∨ q = with_section (rq_page now) section → origin h q text now)
    as Horigin.
  { intros q Hq. exists section, text, (length text). by rewrite take_ge. }
  eapply triple_bind; [is_later..| |].
  { apply triple_put_good; [by apply with_section_ok|]. exists now. auto. }
  intros []. eapply triple_bind; [is_later..|by eapply triple_save|].
  intros saved. apply triple_ret. intros s Hs. split; [done|]. intros body' [= <-].
  exists now. auto.
Qed.
End request.

(** ** All requests *)

Abbreviation serve := (page_body alloc run readable clock sem static_dir io wr).
Abbreviation requests := (man_run alloc run readable readdir clock sem static_dir io wr).

(** The request being served from [s]. *)
Definition now_serving (p : man_page) (s : man_state) : man_request :=
  Request p (mn_time s) (mn_time (serve p s).2).

Lemma serve_good h p s :
  page_ok p → cached_good h s →
  let now := now_serving p s in
  cached_good (h ++ [now]) (serve p s).2 ∧
  ∀ body, (serve p s).1 = Some body → ∃ r, origin (h ++ [now]) p body r ∧
    (r = now ∨ mn_execs (serve p s).2 = mn_execs s ∧
               (from_memory (h ++ [now]) r now ∨ from_disk r now)).
Proof.
  intros Hp Hs now. apply (triple_page_body (h ++ [now]) now); [|done|done|done|].
  - apply elem_of_app. right. by apply list_elem_of_singleton.
  - split; [by apply cached_good_mono|done].
Qed.

Lemma requests_good h s : requests h s → cached_good h s.
Proof.
  induction 1 as [|h s url p _ IH Hp|h s url path _ IH|h s _ IH].
  - split; [|apply map_Forall_empty]. apply Forall_replicate, Forall_replicate. by intros body.
  - apply man_route_ok in Hp. by apply serve_good.
  - assert (steps bare (man_api_text alloc run readable readdir url path)) as Hbare by auto with man.
    destruct (Hbare s) as [Hc Hd _ _ _].
    by apply (cached_good_same h s).
  - destruct IH as [H1 H2].
    destruct (cache_cleanup_spec _ (slot_good_empty h) s H1) as (Hc & [Hd _ _ _]).
    by split; [|rewrite Hd].
Qed.

(** What is served for a page is the text that mandoc made for that page, in the format and
    the section asked for or the section it was looked up in: now; or, without running
    any program, at most [MAN_FS_CACHE_TTL_SEC] seconds ago from the file, or from memory at
    most [MAN_RENDER_CACHE_TTL] seconds after it was put there.  Unless a write failed it
    is the whole text. *)
Theorem man_page_faithful h s url p body :
  requests h s → man_route url = inl p → (serve p s).1 = Some body →
  let now := now_serving p s in
  ∃ r, origin (h ++ [now]) p body r ∧
    (r = now ∨ mn_execs (serve p s).2 = mn_execs s ∧
               (from_memory (h ++ [now]) r now ∨ from_disk r now)).
Proof.
  intros Hs Hp%man_route_ok Hbody. apply (serve_good h p s Hp); [by apply requests_good|done].
Qed.
End faithful.

(** The second request for a page is answered with the first one's text. *)
Lemma man_page_faithful_witness :
  let s := (sample_serve sample_page man_static).2 in
  let serve := page_body (λ _, true) sample_run (λ _, true) Z.of_nat (λ _, true) (bs "static")
                 (λ _, true) (λ _ n, n) in
  let now := now_serving (λ _, true) sample_run (λ _, true) Z.of_nat (λ _, true) (bs "static")
               (λ _, true) (λ _ n, n) sample_page s in
  mn_execs (serve sample_page s).2 = mn_execs s ∧
  ∃ r, origin (λ _, true) sample_run (λ _, true) (λ _, true) (λ _ n, n)
         ([Request sample_page 0 (mn_time s)] ++ [now]) sample_page (bs "LS(1)") r.
Proof.
  cbv zeta. split; [vm_compute; reflexivity|].
  destruct (man_page_faithful (λ _, true) sample_run (λ _, true) (λ _, None) Z.of_nat (λ _, true)
    (bs "static") (λ _, true) (λ _ n, n)
    [Request sample_page 0 (mn_time (sample_serve sample_page man_static).2)]
    (sample_serve sample_page man_static).2 (bs "/man/system/1/ls.html") sample_page (bs "LS(1)"))
    as (r & Hr & _); [|vm_compute; reflexivity..|].
  - apply (run_page _ _ _ _ _ _ _ _ _ [] man_static (bs "/man/system/1/ls.html")); [constructor|].
    vm_compute. reflexivity.
  - by exists r.
Defined.

(** A page asked for in section 1 that is found in section 8 is kept in memory under
    section 8 only; its file was cut short by a full disk, and the next request is answered
    with what is there. *)
Example truncated_page_served :
  let run t path argv size timeout :=
    if decide (argv = [bs "man"; bs "-M"; MANPATH; bs "-w"; bs "1"; bs "halt"]) then None
    else sample_run t path argv size timeout in
  let serve := page_body (λ _, true) run (λ _, true) Z.of_nat (λ _, true) (bs "static")
                 (λ _, true) (λ _ n, if n =? 5 then 2 else 0) in
  let p := ManPage (bs "system") (bs "1") (bs "halt") (bs "html") in
  (serve p man_static).1 = Some (bs "LS(1)") ∧
  (serve p (serve p man_static).2).1 = Some (bs "LS").
Proof. vm_compute. split; reflexivity. Qed.

(** ** Accepted URLs *)


