(* ===== verification/ManRun.v ===== *)
(** * The manual pages: requests of several workers at once (src/modules/man/man_render.c)

    [man_render_handler] holds the lock of a shard only inside the two functions of the
    cache in memory, and writes and reads the files of the pages without one.  [advance] is
    one turn of a request, up to the end of a critical section or of a system call on a
    file; [man_turn] gives turns to the requests in any order.  A request that is alone
    does what [page_body] does; requests that overlap can find a file that another one is
    still writing. *)

From S2P Require Import Prelude Conf Router Subprocess Man ManRender ManCache.

(** ** One request, turn by turn *)

(** Where a text comes from: rendered for the request, from a file (with the time it was
    looked at and the time in the file), or from memory (with the time of the lookup). *)
Inductive man_source :=
| Rendered
| FromFile (now mtime : Z)
| FromMemory (now : Z).

(** What a request does next; [age] is what [stat_recent] found. *)
Inductive man_phase :=
| MGet (p : man_page)
| MStat (p : man_page)
| MOpen (p : man_page) (age : Z * Z)
| MFstat (p : man_page) (age : Z * Z)
| MRead (p : man_page) (age : Z * Z) (n : nat)
| MCopy (p : man_page) (age : Z * Z) (body : bytes)
| MResolve (p : man_page)
| MRender (p : man_page) (section : bytes)
| MPut (p : man_page) (section text : bytes)
| MMkdir (p : man_page) (text : bytes)
| MTrunc (p : man_page) (text : bytes)
| MWrite (p : man_page) (text : bytes) (off : nat)
| MDone (p : man_page) (answer : option (bytes * man_source)).

Definition rendered_answer (p : man_page) (text : bytes) : man_phase := MDone p (Some (text, Rendered)).

Section turns.
Context (alloc : nat → bool) (run : nat → bytes → list bytes → Z → Z → option bytes).
Context (readable : bytes → bool) (readdir : bytes → option (list dirent)).
Context (clock : nat → Z) (sem : nat → bool) (static_dir : bytes).
Context (io : nat → bool) (wr : nat → nat → nat).

Abbreviation paths p := (build_cache_paths static_dir p REL_SIZE ABS_SIZE).
Abbreviation file p := (abs_path static_dir p).

Definition advance (ph : man_phase) : MM man_phase :=
  match ph with
  | MGet p =>
      s ← get;
      cached ← man_render_cache_get alloc clock p;
      mret (match cached with
            | Some body => MDone p (Some (body, FromMemory (clock (mn_time s))))
            | None => MStat p
            end)
  | MStat p =>
      match paths p with
      | None => mret (MResolve p)
      | Some (_, abs) =>
          age ← stat_recent clock io abs;
          mret (match age with Some age => MOpen p age | None => MResolve p end)
      end
  | MOpen p age => ok ← io_ok io; mret (if ok : bool then MFstat p age else MResolve p)
  | MFstat p age =>
      size ← fstat_size io (file p);
      mret (match size with Some n => MRead p age n | None => MResolve p end)
  | MRead p age n =>
      body ← read_whole alloc io (file p) n;
      mret (match body with Some body => MCopy p age body | None => MResolve p end)
  | MCopy p age body =>
      _ ← man_render_cache_put alloc clock p body;
      mret (MDone p (Some (body, FromFile age.1 age.2)))
  | MResolve p =>
      test_path ← man_resolve_path alloc run readable (mp_page p) (mp_section p);
      section ← (match test_path with
                 | Some _ => mret (Some (mp_section p))
                 | None => probe alloc run readable (mp_page p) (mp_section p) probe_sections
                 end);
      mret (match section with Some section => MRender p section | None => MDone p None end)
  | MRender p section =>
      text ← man_render_page alloc run readable sem section (mp_page p) (mp_format p);
      mret (match text with Some text => MPut p section text | None => MDone p None end)
  | MPut p section text =>
      _ ← man_render_cache_put alloc clock (with_section p section) text;
      mret (MMkdir p text)
  | MMkdir p text =>
      match paths p with
      | None => mret (rendered_answer p text)
      | Some (_, abs) =>
          let cache_dir := strlcpy 512 abs in
          match strrchr cache_dir "/" with
          | None => mret (rendered_answer p text)
          | Some i =>
              ok ← mkdir_p io (take i cache_dir) static_dir;
              mret (if (ok : bool) && negb (length text =? 0) then MTrunc p text
                    else rendered_answer p text)
          end
      end
  | MTrunc p text =>
      ok ← open_trunc clock io (file p);
      mret (if ok : bool then MWrite p text 0 else rendered_answer p text)
  | MWrite p text off =>
      if off <? length text then
        w ← write_some clock wr (file p) off text;
        mret (if w =? 0 then rendered_answer p text else MWrite p text (off + w))
      else mret (rendered_answer p text)
  | MDone _ _ => mret ph
  end.

(** ** Requests together *)

(** What happened so far: a text was rendered; a file was emptied or written to and had
    this time then; a text was put into memory. *)
Inductive man_event :=
| EvText (p : man_page) (section text : bytes)
| EvWrite (p : man_page) (mtime : Z)
| EvPut (q : man_page) (body : bytes) (stamp : Z) (src : man_source).

Record man_threads := {
  mj_state : man_state;
  mj_threads : list man_phase;
  mj_log : list man_event
}.

Definition write_events (p : man_page) (s : man_state) : list man_event :=
  match mn_disk s !! file p with Some f => [EvWrite p (df_mtime f)] | None => [] end.

(** The events of a turn from [ph] in [s] to [ph'] in [s']. *)
Definition events (ph : man_phase) (s : man_state) (ph' : man_phase) (s' : man_state)
    : list man_event :=
  match ph, ph' with
  | MRender p section, MPut _ _ text => [EvText p section text]
  | MTrunc p _, MWrite _ _ _ => write_events p s'
  | MWrite p text off, _ => if off <? length text then write_events p s' else []
  | MCopy p age body, _ => [EvPut p body (clock (mn_time s)) (FromFile age.1 age.2)]
  | MPut p section text, _ => [EvPut (with_section p section) text (clock (mn_time s)) Rendered]
  | _, _ => []
  end.

(** A page is asked for, something is asked of the API, a request has a turn, the module is
    cleaned up. *)
Inductive man_choice :=
| Arrive (url : bytes)
| Api (url path : bytes)
| Turn (i : nat)
| CleanUp.

Definition is_done (ph : man_phase) : bool := match ph with MDone _ _ => true | _ => false end.

(** The clean-up runs after the workers were joined (app_main.c). *)
Definition man_turn (c : man_threads) (x : man_choice) : man_threads :=
  match x with
  | Arrive url =>
      match man_route url with
      | inl p => {| mj_state := mj_state c; mj_threads := mj_threads c ++ [MGet p]; mj_log := mj_log c |}
      | inr _ => c
      end
  | Api url path =>
      {| mj_state := (man_api_text alloc run readable readdir url path (mj_state c)).2;
         mj_threads := mj_threads c; mj_log := mj_log c |}
  | Turn i =>
      match mj_threads c !! i with
      | Some ph =>
          let '(ph', s') := advance ph (mj_state c) in
          {| mj_state := s'; mj_threads := <[i := ph']> (mj_threads c);
             mj_log := mj_log c ++ events ph (mj_state c) ph' s' |}
      | None => c
      end
  | CleanUp =>
      if forallb is_done (mj_threads c)
      then {| mj_state := (man_module_cleanup (mj_state c)).2; mj_threads := mj_threads c; mj_log := mj_log c |}
      else c
  end.

Definition man_threads_start : man_threads :=
  {| mj_state := man_static; mj_threads := []; mj_log := [] |}.

Definition man_schedule (l : list man_choice) : man_threads := foldl man_turn man_threads_start l.
End turns.

(** ** What the requests are answered with *)

Section answers.
Context (alloc : nat → bool) (run : nat → bytes → list bytes → Z → Z → option bytes).
Context (readable : bytes → bool) (readdir : bytes → option (list dirent)).
Context (clock : nat → Z) (sem : nat → bool) (static_dir : bytes).
Context (io : nat → bool) (wr : nat → nat → nat).

Abbreviation render := (man_render_page alloc run readable sem).
Abbreviation schedule := (man_schedule alloc run readable readdir clock sem static_dir io wr).
Abbreviation adv := (advance alloc run readable clock sem static_dir io wr).
Abbreviation file p := (abs_path static_dir p).

(** [t] was rendered for the page [q]: by a request for [q], or by one for the same page
    that found it in the section of [q]. *)
Definition text_for (log : list man_event) (q : man_page) (t : bytes) : Prop :=
  ∃ p section, EvText p section t ∈ log ∧ (q = p ∨ q = with_section p section).

(** Each byte of [body] is the byte that a text of [q] has there, or zero, and [body] is not
    longer than all of them. *)
Record patched (log : list man_event) (q : man_page) (body : bytes) : Prop := {
  pt_length : ∃ t, text_for log q t ∧ length body ≤ length t;
  pt_byte i b : body !! i = Some b → b = nul ∨ ∃ t, text_for log q t ∧ t !! i = Some b
}.

Definition source_ok (log : list man_event) (q : man_page) (body : bytes) (src : man_source) : Prop :=
  match src with
  | Rendered => text_for log q body
  | FromFile now mtime => EvWrite q mtime ∈ log ∧ (now - mtime ≤ MAN_FS_CACHE_TTL_SEC)%Z
  | FromMemory now => ∃ stamp src', EvPut q body stamp src' ∈ log ∧ (now - stamp ≤ MAN_RENDER_CACHE_TTL)%Z
  end.

Definition served_ok (log : list man_event) (q : man_page) (body : bytes) (src : man_source) : Prop :=
  patched log q body ∧ source_ok log q body src.

Definition event_ok (log : list man_event) (e : man_event) : Prop :=
  match e with
  | EvText p section t =>
      section_of p section ∧ ∃ s, (render section (mp_page p) (mp_format p) s).1 = Some t
  | EvPut q body _ src => served_ok log q body src ∧ ∀ now, src ≠ FromMemory now
  | _ => True
  end.

Definition slot_kept (log : list man_event) (sl : man_slot) : Prop :=
  ∀ body, ms_body sl = Some body →
    ∃ q src, page_ok q ∧ ms_key sl = man_render_cache_key q ∧ EvPut q body (ms_inserted sl) src ∈ log.

Definition file_kept (log : list man_event) (path : bytes) (f : disk_file) : Prop :=
  ∃ p, page_ok p ∧ path = file p ∧ patched log p (df_data f) ∧ EvWrite p (df_mtime f) ∈ log.

Record texts_kept (log : list man_event) (s : man_state) : Prop := {
  tk_slots : Forall (Forall (slot_kept log)) (mn_cache s);
  tk_files : map_Forall (file_kept log) (mn_disk s)
}.

Definition page_of (ph : man_phase) : man_page :=
  match ph with
  | MGet p | MStat p | MOpen p _ | MFstat p _ | MRead p _ _ | MCopy p _ _ | MResolve p
  | MRender p _ | MPut p _ _ | MMkdir p _ | MTrunc p _ | MWrite p _ _ | MDone p _ => p
  end.

Definition carries (log : list man_event) (ph : man_phase) : Prop :=
  match ph with
  | MOpen p age | MFstat p age => source_ok log p [] (FromFile age.1 age.2)
  | MRead p age n => source_ok log p [] (FromFile age.1 age.2) ∧ 0 < n
  | MCopy p age body => served_ok log p body (FromFile age.1 age.2)
  | MRender p section => section_of p section
  | MPut p section text => section_of p section ∧ EvText p section text ∈ log
  | MMkdir p text | MTrunc p text => text_for log p text
  | MWrite p text off => text_for log p text ∧ off ≤ length text
  | MDone p (Some (body, src)) => served_ok log p body src
  | _ => True
  end.

Definition phase_ok (log : list man_event) (ph : man_phase) : Prop := page_ok (page_of ph) ∧ carries log ph.

Record threads_ok (c : man_threads) : Prop := {
  to_phases : Forall (phase_ok (mj_log c)) (mj_threads c);
  to_texts : texts_kept (mj_log c) (mj_state c);
  to_events : Forall (event_ok (mj_log c)) (mj_log c)
}.

(** *** More events change nothing *)

Section mono.
Context (log log' : list man_event) (Hsub : log ⊆ log').

Lemma text_for_mono q t : text_for log q t → text_for log' q t.
Proof. intros (p & section & H & E). exists p, section. auto. Qed.

Lemma patched_mono q body : patched log q body → patched log' q body.
Proof.
  intros [(t & Ht & Hl) Hb]. split; [exists t; auto using text_for_mono|].
  intros i b [->|(u & Hu & Hi)]%Hb; [by left|right; exists u; auto using text_for_mono].
Qed.

Lemma source_ok_mono q body src : source_ok log q body src → source_ok log' q body src.
Proof.
  destruct src as [|now mtime|now]; cbn [source_ok]; [apply text_for_mono|by intros [H ?]; auto|].
  intros (stamp & src' & H & ?). exists stamp, src'. auto.
Qed.

Lemma served_ok_mono q body src : served_ok log q body src → served_ok log' q body src.
Proof. intros [H1 H2]. split; [by apply patched_mono|by apply source_ok_mono]. Qed.

Lemma event_ok_mono e : event_ok log e → event_ok log' e.
Proof. destruct e; cbn [event_ok]; [done..|]. intros [H1 H2]. split; [by apply served_ok_mono|done]. Qed.

Lemma carries_mono ph : carries log ph → carries log' ph.
Proof.
  destruct ph as [| |p age|p age|p age n|p age body|p|p section|p section text|p text|p text|p text off|p [[body src]|]];
    cbn [carries]; try done; try apply text_for_mono; try apply served_ok_mono;
    try apply (source_ok_mono p []); intros [H1 H2];
    split; first [done|by apply Hsub|by apply text_for_mono|by apply (source_ok_mono p [])].
Qed.

Lemma phase_ok_mono ph : phase_ok log ph → phase_ok log' ph.
Proof. intros [H1 H2]. split; [done|by apply carries_mono]. Qed.

Lemma slot_kept_mono sl : slot_kept log sl → slot_kept log' sl.
Proof. intros H body Hb. destruct (H body Hb) as (q & src & ? & ? & ?). exists q, src. auto. Qed.

Lemma file_kept_mono path f : file_kept log path f → file_kept log' path f.
Proof. intros (p & ? & ? & H & ?). exists p. split_and!; auto using patched_mono. Qed.

Lemma texts_kept_mono s : texts_kept log s → texts_kept log' s.
Proof.
  intros [H1 H2]. split.
  - eapply Forall_impl; [exact H1|]. intros shard H. eapply Forall_impl; [exact H|]. apply slot_kept_mono.
  - eapply map_Forall_impl; [exact H2|]. apply file_kept_mono.
Qed.
End mono.

(** *** One turn *)

Lemma length_write_at off chunk data :
  length (write_at off chunk data) = Nat.max (length data) (off + length chunk).
Proof. unfold write_at. rewrite !length_app, length_resize, length_drop. lia. Qed.

Lemma write_at_byte off chunk data i b :
  write_at off chunk data !! i = Some b →
  b = nul ∨ data !! i = Some b ∨ off ≤ i ∧ chunk !! (i - off) = Some b.
Proof.
  unfold write_at. intros [H|[Hi H]]%lookup_app_Some.
  - pose proof (lookup_lt_Some _ _ _ H) as Hlt. rewrite length_resize in Hlt.
    destruct (decide (i < length data)).
    + rewrite lookup_resize in H by lia. auto.
    + rewrite lookup_resize_new in H by lia. left. congruence.
  - rewrite length_resize in *. apply lookup_app_Some in H as [H|[Hi' H]]; [auto|].
    rewrite lookup_drop in H. right. left. rewrite <- H. f_equal. lia.
Qed.

Section turn.
Context (log : list man_event).

Lemma patched_text q t : text_for log q t → patched log q t.
Proof. intros Ht. split; [by exists t|]. intros i b Hi. right. by exists t. Qed.

Lemma patched_nil q t : text_for log q t → patched log q [].
Proof. intros Ht. split; [exists t; split; [done|simpl; lia]|done]. Qed.

Lemma patched_take q n body : patched log q body → patched log q (take n body).
Proof.
  intros [(t & Ht & Hl) Hb]. split; [exists t; split; [done|rewrite length_take; lia]|].
  intros i b Hi. apply (Hb i). apply lookup_take_Some in Hi as [Hi _]. done.
Qed.

Lemma patched_write q off w t data :
  text_for log q t → off ≤ length t → patched log q data →
  patched log q (write_at off (take w (drop off t)) data).
Proof.
  intros Ht Hoff [(u & Hu & Hl) Hb]. split.
  - rewrite length_write_at, length_take, length_drop.
    destruct (decide (length u ≤ length t)); [exists t|exists u]; (split; [done|lia]).
  - intros i b [->|[H|[Hi H]]]%write_at_byte; [by left|by apply Hb|].
    apply lookup_take_Some in H as [H _]. rewrite lookup_drop in H.
    replace (off + (i - off)) with i in H by lia. right. by exists t.
Qed.

Lemma texts_kept_same s s' :
  mn_cache s' = mn_cache s → mn_disk s' = mn_disk s → texts_kept log s → texts_kept log s'.
Proof. intros Hc Hd [H1 H2]. split; [by rewrite Hc|by rewrite Hd]. Qed.

Lemma texts_kept_bare {A} (m : MM A) s : steps bare m → texts_kept log s → texts_kept log (m s).2.
Proof. intros Hm. destruct (Hm s) as [Hc Hd _ _ _]. by apply texts_kept_same. Qed.

Lemma slot_kept_empty sl : ms_body sl = None → slot_kept log sl.
Proof. intros Hb body. by rewrite Hb. Qed.

Lemma texts_kept_get p s :
  texts_kept log s → texts_kept log (man_render_cache_get alloc clock p s).2.
Proof.
  intros [H1 H2]. destruct (cache_get_spec alloc clock _ slot_kept_empty p s H1) as (Hc & [Hd _ _ _] & _).
  by split; [|rewrite Hd].
Qed.

Lemma texts_kept_put q body src s :
  page_ok q → EvPut q body (clock (mn_time s)) src ∈ log →
  texts_kept log s → texts_kept log (man_render_cache_put alloc clock q body s).2.
Proof.
  intros Hq Hin [H1 H2].
  destruct (cache_put_spec alloc clock _ slot_kept_empty q body s H1) as (Hc & [Hd _ _ _]).
  - intros sl Hk Hb Hi body' Hb'. rewrite Hb in Hb'. injection Hb' as <-.
    exists q, src. by rewrite Hi.
  - by split; [|rewrite Hd].
Qed.

Lemma texts_kept_file p data now s :
  page_ok p → patched log p data → EvWrite p now ∈ log →
  texts_kept log s → texts_kept log (put_file (file p) data now s).
Proof.
  intros Hp Hd Hin [H1 H2]. split; [done|]. apply map_Forall_insert_2; [|done].
  exists p. split_and!; done.
Qed.

Lemma file_of_page p s f :
  page_ok p → texts_kept log s → mn_disk s !! file p = Some f →
  patched log p (df_data f) ∧ EvWrite p (df_mtime f) ∈ log.
Proof.
  intros Hp [_ H2] Hf. destruct (H2 _ _ Hf) as (q & Hq & Hpath & H). apply abs_path_inj in Hpath as <-; done.
Qed.

(** Reading what another request may be writing. *)
Lemma stat_result p s age :
  page_ok p → texts_kept log s → (stat_recent clock io (file p) s).1 = Some age →
  source_ok log p [] (FromFile age.1 age.2).
Proof.
  intros Hp Hs. unfold stat_recent, io_ok, time_null. run_st. cbn [mn_tick mn_disk mn_time].
  destruct (mn_disk s !! _) as [f|] eqn:Hf; [|done]. destruct (_ || _); [done|].
  destruct (_ <? _)%Z eqn:Hage; [done|]. bool_facts. intros [= <-]. cbn [source_ok fst snd].
  split; [by eapply file_of_page|exact Hage].
Qed.

Lemma read_result p n s body :
  page_ok p → texts_kept log s → (read_whole alloc io (file p) n s).1 = Some body →
  0 < n → patched log p body.
Proof.
  intros Hp Hs. unfold read_whole, malloc, io_ok, file_data. run_st. cbn [mn_tick mn_disk mn_time].
  destruct (negb _); [done|]. cbn [fst snd mn_tick mn_disk].
  destruct (_ && _) eqn:E; [|done]. bool_facts. intros [= <-] Hn.
  destruct (mn_disk s !! _) as [f|] eqn:Hf; cbn [fmap option_fmap option_map default] in *.
  - apply patched_take. by eapply file_of_page.
  - rewrite take_nil in *. simpl in *. lia.
Qed.
End turn.

(** What a turn must establish. *)
Definition turn_ok (log : list man_event) (ph : man_phase) (s : man_state)
    (r : man_phase * man_state) : Prop :=
  let new := events clock static_dir ph s r.1 r.2 in
  phase_ok (log ++ new) r.1 ∧ texts_kept (log ++ new) r.2 ∧ Forall (event_ok (log ++ new)) new.

Lemma quiet_turn log ph s r :
  events clock static_dir ph s r.1 r.2 = [] → phase_ok log r.1 → texts_kept log r.2 → turn_ok log ph s r.
Proof. intros E H1 H2. unfold turn_ok. rewrite E, app_nil_r. by split_and!. Qed.

Lemma write_some_result p off buf s :
  (write_some clock wr (file p) off buf s).1 ≤ length buf - off.
Proof.
  unfold write_some, time_null. run_st. set (w := Nat.min _ _). destruct (w =? 0); cbn; lia.
Qed.

(** A write keeps what is known of the file, for the events it leaves. *)
Lemma write_turn log p off text s :
  page_ok p → text_for log p text → off ≤ length text → texts_kept log s →
  let r := write_some clock wr (file p) off text s in
  texts_kept (log ++ write_events static_dir p r.2) r.2.
Proof.
  intros Hp Ht Hoff Hs r. subst r. set (r := write_some _ _ _ _ _ _).
  assert (log ⊆ log ++ write_events static_dir p r.2) as Hsub by set_solver.
  revert Hsub. subst r. unfold write_some, time_null. run_st. set (w := Nat.min _ _).
  destruct (w =? 0); cbn [snd]; intros Hsub; apply (texts_kept_mono _ _ Hsub) in Hs.
  { by eapply texts_kept_same, Hs. }
  revert Hs Hsub. unfold write_events. cbn [put_file set_disk mn_disk mn_tick]. rewrite lookup_insert_eq.
  cbn [df_mtime]. set (log' := log ++ _). intros Hs Hsub.
  apply texts_kept_file; [done| |set_solver|by eapply texts_kept_same, Hs].
  apply patched_write; [by eapply text_for_mono|done|]. unfold file_data. cbn [mn_disk mn_tick].
  destruct (mn_disk s !! _) as [f|] eqn:Hf; cbn [fmap option_fmap option_map default].
  - by apply (file_of_page log' p s f).
  - eapply patched_nil, text_for_mono, Ht. done.
Qed.

Lemma trunc_turn log p text s :
  page_ok p → text_for log p text → texts_kept log s →
  turn_ok log (MTrunc p text) s (adv (MTrunc p text) s).
Proof.
  intros Hp Ht Hs. unfold advance, open_trunc, io_ok, time_null. run_st.
  destruct (negb (io _)) eqn:E; cbn [negb].
  { apply quiet_turn; [done| |by eapply texts_kept_same, Hs].
    split; [done|]. split; [by apply patched_text|done]. }
  unfold turn_ok. cbn [fst snd events]. unfold write_events. cbn [put_file set_disk mn_disk mn_tick].
  rewrite lookup_insert_eq. cbn [df_mtime]. set (log' := log ++ _).
  assert (log ⊆ log') as Hsub by set_solver.
  assert (text_for log' p text) as Ht' by by eapply text_for_mono.
  split; [split; [done|split; [done|lia]]|]. split; [|by repeat constructor].
  apply texts_kept_file; [done|by eapply patched_nil|set_solver|].
  eapply texts_kept_mono, texts_kept_same, Hs; done.
Qed.

(** Turns that render or look: nothing of the cache changes. *)
Lemma looking_turn log ph s :
  phase_ok log ph → texts_kept log s →
  match ph with
  | MStat _ | MOpen _ _ | MFstat _ _ | MRead _ _ _ | MResolve _ => turn_ok log ph s (adv ph s)
  | _ => True
  end.
Proof.
  intros [Hp Hc] Hs.
  destruct ph as [| |p age|p age|p age n| |p| | | | | |]; cbn [page_of carries] in Hp, Hc; try done;
    unfold advance.
  - unfold build_cache_paths. destruct (_ <=? _); [by apply quiet_turn|].
    destruct (_ <=? _); [by apply quiet_turn|].
    pose proof (stat_result log p s) as Hage. pose proof (texts_kept_bare log _ s (bare_stat clock io (file p)) Hs).
    run_st. destruct (stat_recent _ _ _ s) as [[age|] s1]; apply quiet_turn; try done.
    split; [done|]. by apply Hage.
  - run_st. unfold io_ok. destruct (io _); apply quiet_turn; try done; by eapply texts_kept_same, Hs.
  - pose proof (texts_kept_bare log _ s (bare_fstat io (file p)) Hs). run_st.
    destruct (fstat_size _ _ s) as [[n|] s1] eqn:E; apply quiet_turn; try done.
    split; [done|]. split; [done|]. revert E. unfold fstat_size, io_ok. run_st. intros [= E _].
    destruct (_ || _) eqn:Hn; [done|]. bool_facts. injection E as <-. lia.
  - pose proof (texts_kept_bare log _ s (bare_read alloc io (file p) n) Hs). run_st.
    pose proof (read_result log p n s) as Hr.
    destruct (read_whole _ _ _ _ s) as [[body|] s1]; apply quiet_turn; try done.
    destruct Hc as [Hc Hn]. split; [done|]. split; [by apply Hr|done].
  - assert (steps bare (man_resolve_path alloc run readable (mp_page p) (mp_section p))) as Hb by auto with man.
    pose proof (texts_kept_bare log _ s Hb Hs) as Hs1. run_st.
    destruct (man_resolve_path _ _ _ _ _ s) as [[f|] s1]; [by apply quiet_turn; [|split; [|left]|]|].
    assert (steps bare (probe alloc run readable (mp_page p) (mp_section p) probe_sections)) as Hb' by auto with man.
    pose proof (texts_kept_bare log _ s1 Hb' Hs1).
    pose proof (probe_result alloc run readable (mp_page p) (mp_section p) probe_sections s1) as Hres.
    destruct (probe _ _ _ _ _ _ s1) as [[section|] s2]; apply quiet_turn; try done.
    split; [done|]. right. apply Hres; [|done]. by_computation.
Qed.

(** A hit in memory was put there by some request. *)
Lemma memory_turn log p s :
  page_ok p → Forall (event_ok log) log → texts_kept log s → turn_ok log (MGet p) s (adv (MGet p) s).
Proof.
  intros Hp Hlog Hs. pose proof (texts_kept_get log p s Hs) as Hs1. destruct Hs as [H1 _].
  destruct (cache_get_spec alloc clock _ (slot_kept_empty log) p s H1) as (_ & _ & Hget).
  unfold advance. run_st. destruct (man_render_cache_get _ _ _ s) as [[body|] s1]; apply quiet_turn; try done.
  destruct (Hget body eq_refl) as (_ & sl & Hsl & Hkey & Hbody & Hage).
  destruct (Hsl body Hbody) as (q & src & Hq & Hkey' & Hin). rewrite Hkey' in Hkey.
  apply cache_key_inj in Hkey as ->; [|done..]. split; [done|]. split; [|by eexists _, _].
  rewrite Forall_forall in Hlog. by apply Hlog in Hin as [[H _] _].
Qed.

(** A text goes into memory. *)
Lemma put_turn log ph s q body src ph' :
  events clock static_dir ph s ph' (man_render_cache_put alloc clock q body s).2
    = [EvPut q body (clock (mn_time s)) src] →
  page_ok q → served_ok log q body src → (∀ now, src ≠ FromMemory now) →
  phase_ok log ph' → texts_kept log s →
  turn_ok log ph s (ph', (man_render_cache_put alloc clock q body s).2).
Proof.
  intros E Hq Hserved Hsrc Hph Hs. unfold turn_ok. cbn [fst snd]. rewrite E. set (log' := log ++ _).
  assert (log ⊆ log') as Hsub by set_solver.
  split; [by eapply phase_ok_mono|]. split.
  - apply texts_kept_put with (src := src); [done|set_solver|by eapply texts_kept_mono].
  - apply Forall_singleton. split; [by eapply served_ok_mono|done].
Qed.

Lemma advance_ok log ph s :
  phase_ok log ph → Forall (event_ok log) log → texts_kept log s → turn_ok log ph s (adv ph s).
Proof.
  intros Hph Hlog Hs. pose proof (looking_turn log ph s Hph Hs) as Hlook. destruct Hph as [Hp Hc].
  destruct ph as [p|p|p age|p age|p age n|p age body|p|p section|p section text|p text|p text|p text off|p ans];
    cbn [page_of carries] in Hp, Hc; try exact Hlook; clear Hlook.
  - by apply memory_turn.
  - unfold advance. run_st.
    pose proof (put_turn log (MCopy p age body) s p body (FromFile age.1 age.2)
      (MDone p (Some (body, FromFile age.1 age.2))) eq_refl Hp Hc ltac:(done) ltac:(done) Hs) as H.
    destruct (man_render_cache_put _ _ _ _ s) as [[] s1]. exact H.
  - pose proof (texts_kept_bare log _ s (bare_render_page alloc run readable sem section (mp_page p) (mp_format p)) Hs) as Hs1.
    unfold advance. run_st. destruct (render _ _ _ s) as [[text|] s1] eqn:E; [|by apply quiet_turn].
    unfold turn_ok. cbn [fst snd events]. set (log' := log ++ _). assert (log ⊆ log') by set_solver.
    split; [split; [done|]; split; [done|set_solver]|]. split; [by eapply texts_kept_mono|].
    apply Forall_singleton. split; [done|]. exists s. by rewrite E.
  - destruct Hc as [Hsec Hin].
    assert (text_for log p text) as Ht by (exists p, section; auto).
    assert (text_for log (with_section p section) text) as Ht' by (exists p, section; auto).
    pose proof (put_turn log (MPut p section text) s (with_section p section) text Rendered (MMkdir p text)
      eq_refl (with_section_ok _ _ Hp Hsec) (conj (patched_text _ _ _ Ht') Ht') ltac:(done) (conj Hp Ht) Hs) as H.
    unfold advance. run_st. destruct (man_render_cache_put _ _ _ _ s) as [[] s1]. exact H.
  - assert (phase_ok log (rendered_answer p text)) as Hd by (split; [done|]; split; [by apply patched_text|done]).
    unfold advance, build_cache_paths. destruct (_ <=? _); [by apply quiet_turn|].
    destruct (_ <=? _); [by apply quiet_turn|]. cbv zeta. destruct (strrchr _ _) as [d|]; [|by apply quiet_turn].
    run_st. pose proof (texts_mkdir_p io (take d (strlcpy 512 (file p))) static_dir s) as (Hc' & Hd' & _).
    destruct (mkdir_p _ _ _ s) as [ok s1]. cbn [snd] in Hc', Hd'.
    pose proof (texts_kept_same log s s1 Hc' Hd' Hs). destruct (_ && _); by apply quiet_turn.
  - by apply trunc_turn.
  - destruct Hc as [Ht Hoff].
    assert (phase_ok log (rendered_answer p text)) as Hd by (split; [done|]; split; [by apply patched_text|done]).
    unfold advance. destruct (off <? length text) eqn:Hlt.
    2: { apply quiet_turn; [by cbn [events fst]; rewrite Hlt|done..]. }
    run_st.
    pose proof (write_turn log p off text s Hp Ht Hoff Hs) as Hw.
    pose proof (write_some_result p off text s) as Hn.
    destruct (write_some _ _ _ _ _ s) as [w s1]. cbn [fst snd] in Hw, Hn. unfold turn_ok. cbn [fst snd events]. rewrite Hlt.
    assert (log ⊆ log ++ write_events static_dir p s1) as Hsub by set_solver.
    split; [|split; [done|]].
    + apply (phase_ok_mono _ _ Hsub). destruct (w =? 0); [done|]. split; [done|]. split; [done|lia].
    + unfold write_events. destruct (mn_disk s1 !! _); by repeat constructor.
  - by apply quiet_turn.
Qed.

(** *** All turns *)

Lemma turn_keeps c x : threads_ok c → threads_ok (man_turn alloc run readable readdir clock sem static_dir io wr c x).
Proof.
  intros [H1 H2 H3]. destruct x as [url|url path|i|]; cbn [man_turn].
  - destruct (man_route url) as [p|] eqn:E; [|done]. split; cbn; [|done..].
    apply Forall_app. split; [done|]. apply Forall_singleton. split; [by eapply man_route_ok|done].
  - split; cbn; [done| |done]. apply texts_kept_bare; [|done]. auto with man.
  - destruct (mj_threads c !! i) as [ph|] eqn:Hph; [|done].
    pose proof (advance_ok (mj_log c) ph (mj_state c)) as Hturn.
    destruct Hturn as (A & B & C); [by eapply Forall_lookup_1|done..|].
    destruct (adv ph (mj_state c)) as [ph' s']. cbn [fst snd] in *.
    assert (mj_log c ⊆ mj_log c ++ events clock static_dir ph (mj_state c) ph' s') as Hsub by set_solver.
    split; cbn [mj_threads mj_log mj_state]; [|done|].
    + apply Forall_insert; [|done]. eapply Forall_impl; [exact H1|]. intros ?. by apply phase_ok_mono.
    + apply Forall_app. split; [|done]. eapply Forall_impl; [exact H3|]. intros ?. by apply event_ok_mono.
  - destruct (forallb _ _); [|done]. split; cbn [mj_threads mj_log mj_state]; [done| |done]. destruct H2 as [H2 H4].
    destruct (cache_cleanup_spec _ (slot_kept_empty (mj_log c)) (mj_state c) H2) as (Hc & [Hd _ _ _]).
    unfold man_module_cleanup. by split; [|rewrite Hd].
Qed.

Lemma schedule_ok l : threads_ok (schedule l).
Proof.
  unfold man_schedule. assert (threads_ok man_threads_start) as H.
  { split; [constructor| |constructor]. split; [|apply map_Forall_empty].
    apply Forall_replicate, Forall_replicate. by intros body. }
  revert H. generalize man_threads_start. induction l as [|x l IH]; intros c Hc; [done|].
  cbn [foldl]. apply IH, turn_keeps, Hc.
Qed.

(** C9. Whatever the order in which requests come and have their turns: each byte of an answer
    is the byte of a text that was rendered for that page, or zero where a file had a gap,
    and the answer is not longer than such a text.  It is a whole text when the request
    rendered it.  Otherwise it is from a file that was written at most
    [MAN_FS_CACHE_TTL_SEC] seconds before it was looked at, or was put into memory at most
    [MAN_RENDER_CACHE_TTL] seconds ago by a request that had rendered it or had it from a
    file in the same way. *)
Theorem man_pages_interleaved l p body src :
  let log := mj_log (schedule l) in
  MDone p (Some (body, src)) ∈ mj_threads (schedule l) →
  patched log p body ∧
  match src with
  | Rendered => text_for log p body
  | FromFile now mtime => EvWrite p mtime ∈ log ∧ (now - mtime ≤ MAN_FS_CACHE_TTL_SEC)%Z
  | FromMemory now => ∃ stamp src', EvPut p body stamp src' ∈ log ∧
      (now - stamp ≤ MAN_RENDER_CACHE_TTL)%Z ∧
      match src' with
      | Rendered => text_for log p body
      | FromFile now' mtime => EvWrite p mtime ∈ log ∧ (now' - mtime ≤ MAN_FS_CACHE_TTL_SEC)%Z
      | FromMemory _ => False
      end
  end ∧
  ∀ q section t, EvText q section t ∈ log → section_of q section ∧
    ∃ s, (render section (mp_page q) (mp_format q) s).1 = Some t.
Proof.
  intros log Hin. destruct (schedule_ok l) as [H1 _ H3]. fold log in H1, H3. rewrite Forall_forall in H1. rewrite Forall_forall in H3.
  apply H1 in Hin as [_ [Hbody Hsrc]]. split; [done|]. split; [|intros q section t; apply H3].
  destruct src as [|now mtime|now]; [done..|]. destruct Hsrc as (stamp & src' & Hput & Hage).
  exists stamp, src'. split; [done|]. split; [done|]. apply H3 in Hput as [[_ Hput] Hmem].
  by destruct src' as [| |now']; [..|destruct (Hmem now')].
Qed.

Lemma ok_advance ph : static_dir ≠ [] → page_ok (page_of ph) → steps (confines static_dir) (adv ph).
Proof.
  intros Hne Hp.
  destruct ph as [p|p|p age|p age|p age n|p age body|p|p section|p section text|p text|p text|p text off|p ans];
    cbn [page_of] in Hp; unfold advance.
  - apply steps_bind; [apply _|auto with man|]. intros s. apply steps_bind; [apply _|apply ok_cache_get|auto with man].
  - destruct (build_cache_paths _ _ _ _) as [[rel abs]|]; auto with man.
  - auto with man.
  - auto with man.
  - auto with man.
  - apply steps_bind; [apply _|apply ok_cache_put|auto with man].
  - apply steps_bind; [apply _|auto with man|]. intros found.
    apply steps_bind; [apply _|destruct found; auto with man|auto with man].
  - auto with man.
  - apply steps_bind; [apply _|apply ok_cache_put|auto with man].
  - unfold build_cache_paths. destruct (_ <=? _); [auto with man|].
    destruct (ABS_SIZE <=? length (file p)) eqn:Hl; bool_facts; [auto with man|].
    cbv zeta. rewrite strlcpy_id by done. destruct (abs_path_dir static_dir p Hp) as [-> Hdir]. rewrite Hdir.
    assert (length (page_dir static_dir p) ≤ length (file p)) by (rewrite <- Hdir, length_take; lia).
    apply steps_bind; [apply _|apply ok_mkdir_p; [done..|unfold ABS_SIZE in Hl; lia]|auto with man].
  - apply steps_bind; [apply _|by apply ok_open_trunc|auto with man].
  - destruct (_ <? _); [|auto with man]. apply steps_bind; [apply _|by apply ok_write_some|auto with man].
  - auto with man.
Qed.


(** *** A file whose writers have finished *)

Section settled.
Context (Hwr : ∀ t n, 0 < n → 0 < wr t n) (p : man_page) (T : bytes).

(** The first [k] bytes are those of [T]. *)
Definition agrees (k : nat) (data : bytes) : Prop := ∀ i, i < k → data !! i = T !! i.

Lemma write_at_lookup off chunk data i :
  off ≤ length data →
  write_at off chunk data !! i
  = if decide (off ≤ i < off + length chunk) then chunk !! (i - off) else data !! i.
Proof.
  intros Hoff. unfold write_at. rewrite resize_le by done.
  assert (length (take off data) = off) as Hl by (rewrite length_take; lia).
  destruct (decide (i < off)).
  - rewrite lookup_app_l, lookup_take_lt by lia. by rewrite decide_False by lia.
  - rewrite lookup_app_r, Hl by lia. destruct (decide (i < off + length chunk)).
    + rewrite decide_True by lia. by rewrite lookup_app_l by lia.
    + rewrite decide_False, lookup_app_r, lookup_drop by lia. f_equal. lia.
Qed.

Lemma agrees_length k data : k ≤ length T → agrees k data → k ≤ length data.
Proof.
  intros Hk Ha. destruct (decide (k ≤ length data)); [done|]. exfalso.
  specialize (Ha (length data) ltac:(lia)). rewrite lookup_ge_None_2 in Ha by lia.
  symmetry in Ha. apply lookup_ge_None in Ha. lia.
Qed.

(** Writing a piece of [T] where it belongs spoils nothing. *)
Lemma agrees_write k off w data :
  k ≤ length T → agrees k data → agrees k (write_at off (take w (drop off T)) data).
Proof.
  intros Hk Ha i Hi. pose proof (agrees_length k data Hk Ha).
  destruct (decide (off ≤ length data)) as [Hoff|Hoff].
  - rewrite write_at_lookup by done. case_decide as Hd; [|by apply Ha].
    rewrite lookup_take_lt, lookup_drop by (rewrite length_take in Hd; lia). f_equal. lia.
  - unfold write_at. rewrite lookup_app_l by (rewrite length_resize; lia).
    rewrite lookup_resize by lia. by apply Ha.
Qed.

Lemma agrees_next off w data :
  off ≤ length T → agrees off data → agrees (off + w `min` (length T - off)) (write_at off (take w (drop off T)) data).
Proof.
  intros Hoff Ha i Hi. pose proof (agrees_length off data Hoff Ha).
  destruct (decide (i < off)) as [Hlt|Hge]; [by apply (agrees_write off off w data)|].
  rewrite write_at_lookup by done. rewrite length_take, length_drop.
  rewrite decide_True by lia. rewrite lookup_take_lt, lookup_drop by lia. f_equal. lia.
Qed.

Lemma agrees_all data : length data ≤ length T → agrees (length T) data → data = T.
Proof.
  intros Hl Ha. apply list_eq. intros i. destruct (decide (i < length T)); [by apply Ha|].
  rewrite !lookup_ge_None_2 by lia. done.
Qed.

(** The file of [p], if there is one, is being written by a request that has put the first
    bytes of [T] there, or it is [T]; and who writes it has it. *)
Record on_the_way (threads : list man_phase) (s : man_state) : Prop := {
  ow_file f : mn_disk s !! file p = Some f →
    length (df_data f) ≤ length T ∧
    ((∃ i text off, threads !! i = Some (MWrite p text off) ∧ off ≤ length T ∧ agrees off (df_data f)) ∨
     df_data f = T);
  ow_writers i text off : threads !! i = Some (MWrite p text off) → is_Some (mn_disk s !! file p)
}.

Lemma memory_get_disk q s : mn_disk (man_render_cache_get alloc clock q s).2 = mn_disk s.
Proof.
  destruct (cache_get_spec alloc clock (λ _, True) ltac:(done) q s) as (_ & [Hd _ _ _] & _); [|done].
  by apply Forall_true; intros; apply Forall_true.
Qed.

Lemma memory_put_disk q body s : mn_disk (man_render_cache_put alloc clock q body s).2 = mn_disk s.
Proof.
  destruct (cache_put_spec alloc clock (λ _, True) ltac:(done) q body s) as (_ & [Hd _ _ _]); [|done..].
  by apply Forall_true; intros; apply Forall_true.
Qed.

(** Only two phases touch a file, and only one of them starts to write. *)
Lemma advance_disk ph s :
  match ph with
  | MTrunc _ _ | MWrite _ _ _ => True
  | _ => mn_disk (adv ph s).2 = mn_disk s ∧ ∀ q text off, (adv ph s).1 ≠ MWrite q text off
  end.
Proof.
  assert (∀ {A} (m : MM A), steps bare m → mn_disk (m s).2 = mn_disk s) as Hbare.
  { intros A m Hm. by destruct (Hm s). }
  destruct ph as [q|q|q age|q age|q age n|q age body|q|q section|q section text|q text|q text|q text off|q ans];
    try done; unfold advance; run_st.
  - pose proof (memory_get_disk q s). by destruct (man_render_cache_get _ _ _ s) as [[body|] s1].
  - destruct (build_cache_paths _ _ _ _) as [[rel abs]|]; [|done].
    pose proof (Hbare _ _ (bare_stat clock io abs)). by destruct (stat_recent _ _ _ s) as [[age|] s1].
  - unfold io_ok. by destruct (io _).
  - pose proof (Hbare _ _ (bare_fstat io (file q))). by destruct (fstat_size _ _ s) as [[n|] s1].
  - pose proof (Hbare _ _ (bare_read alloc io (file q) n)). by destruct (read_whole _ _ _ _ s) as [[body|] s1].
  - pose proof (memory_put_disk q body s). by destruct (man_render_cache_put _ _ _ _ s).
  - assert (steps bare (man_resolve_path alloc run readable (mp_page q) (mp_section q))) as Hb by auto with man.
    apply Hbare in Hb. destruct (man_resolve_path _ _ _ _ _ s) as [[f|] s1]; [done|]. cbn [snd] in Hb.
    assert (steps bare (probe alloc run readable (mp_page q) (mp_section q) probe_sections)) as Hb' by auto with man.
    destruct (Hb' s1) as [_ Hd _ _ _]. destruct (probe _ _ _ _ _ _ s1) as [[section|] s2]; cbn in *; by rewrite Hd.
  - pose proof (Hbare _ _ (bare_render_page alloc run readable sem section (mp_page q) (mp_format q))).
    by destruct (render _ _ _ s) as [[text|] s1].
  - pose proof (memory_put_disk (with_section q section) text s). by destruct (man_render_cache_put _ _ _ _ s).
  - destruct (build_cache_paths _ _ _ _) as [[rel abs]|]; [|done]. cbv zeta. destruct (strrchr _ _) as [d|]; [|done].
    pose proof (texts_mkdir_p io (take d (strlcpy 512 abs)) static_dir s) as (_ & Hd & _).
    destruct (mkdir_p _ _ _ s) as [ok s1]. cbn in *. by destruct (_ && _).
Qed.

Context (Hp : page_ok p).

(** A turn of a request that does not write the file. *)
Lemma other_turn threads s i ph ph' s' :
  on_the_way threads s → threads !! i = Some ph →
  (∀ text off, ph ≠ MWrite p text off) → (∀ text off, ph' ≠ MWrite p text off) →
  mn_disk s' !! file p = mn_disk s !! file p → on_the_way (<[i := ph']> threads) s'.
Proof.
  intros [H1 H2] Hi Hph Hph' Hd. split.
  - intros f. rewrite Hd. intros Hf. destruct (H1 f Hf) as [Hl [(j & text & off & Hj & Hoff & Ha)|HT]]; [|auto].
    split; [done|]. left. exists j, text, off. rewrite list_lookup_insert_ne; [done|]. intros ->.
    rewrite Hj in Hi. injection Hi as <-. by eapply Hph.
  - intros j text off. rewrite Hd. destruct (decide (i = j)) as [<-|Hne]; [|rewrite list_lookup_insert_ne by done; apply H2].
    rewrite list_lookup_insert_eq by (by eapply lookup_lt_Some). intros [= ->]. by destruct (Hph' text off).
Qed.

Lemma trunc_on_the_way threads s i text :
  on_the_way threads s → threads !! i = Some (MTrunc p text) →
  let r := adv (MTrunc p text) s in on_the_way (<[i := r.1]> threads) r.2.
Proof.
  intros How Hi. unfold advance, open_trunc, io_ok, time_null. run_st.
  destruct (negb _); cbn [fst snd]; [by eapply other_turn|].
  split; cbn [put_file set_disk mn_disk]; rewrite lookup_insert_eq.
  - intros f [= <-]. split; [cbn; lia|]. left. exists i, text, 0.
    split; [apply list_lookup_insert_eq; by eapply lookup_lt_Some|]. split; [lia|intros ? ?; lia].
  - by eexists.
Qed.

(** The write that finds nothing left to do. *)
Lemma last_write threads s i :
  on_the_way threads s → threads !! i = Some (MWrite p T (length T)) →
  on_the_way (<[i := rendered_answer p T]> threads) s.
Proof.
  intros [H1 H2] Hi. pose proof (lookup_lt_Some _ _ _ Hi) as Hlt. split.
  - intros f Hf. destruct (H1 f Hf) as [Hl [(j & text & off & Hj & Hoff & Ha)|]]; [|auto].
    split; [done|]. destruct (decide (i = j)) as [<-|Hne].
    + rewrite Hi in Hj. injection Hj as <- <-. right. by apply agrees_all.
    + left. exists j, text, off. by rewrite list_lookup_insert_ne.
  - intros j text off. destruct (decide (i = j)) as [<-|Hne]; [by rewrite list_lookup_insert_eq|].
    rewrite list_lookup_insert_ne by done. apply H2.
Qed.

Lemma write_on_the_way threads s i off :
  on_the_way threads s → threads !! i = Some (MWrite p T off) → off ≤ length T →
  let r := adv (MWrite p T off) s in on_the_way (<[i := r.1]> threads) r.2.
Proof.
  intros How Hi Hoff. unfold advance. destruct (Nat.ltb_spec off (length T)) as [Hmore|Hall].
  2: { assert (off = length T) as -> by lia. by apply last_write. }
  destruct How as [H1 H2]. pose proof (lookup_lt_Some _ _ _ Hi) as Hlt.
  destruct (H2 _ _ _ Hi) as [f Hf]. destruct (H1 f Hf) as [Hl Hstate].
  unfold write_some, time_null. run_st. set (w := Nat.min _ _).
  assert (0 < w ≤ length T - off) as Hw.
  { unfold w. specialize (Hwr (mn_time s) (length T - off) ltac:(lia)). lia. }
  clearbody w. rewrite (proj2 (Nat.eqb_neq w 0)) by lia. cbn [fst snd].
  rewrite (proj2 (Nat.eqb_neq w 0)) by lia. unfold file_data. cbn [put_file set_disk mn_disk mn_tick].
  rewrite Hf. cbn [fmap option_fmap option_map default id].
  set (data := write_at _ _ _). split; cbn [put_file set_disk mn_disk mn_tick]; rewrite lookup_insert_eq.
  2: { intros; by eexists. }
  intros f' [= <-]. cbn [df_data]. split.
  { unfold data. rewrite length_write_at, length_take, length_drop. lia. }
  destruct Hstate as [(j & text & off' & Hj & Hoff' & Ha)|HT].
  2: { right. unfold data. rewrite HT. apply agrees_all; [rewrite length_write_at, length_take, length_drop; lia|].
       by apply agrees_write. }
  left. destruct (decide (i = j)) as [<-|Hne].
  - rewrite Hi in Hj. injection Hj as <- <-. exists i, T, (off + w).
    rewrite list_lookup_insert_eq by done. split; [done|]. split; [lia|].
    pose proof (agrees_next off w (df_data f) Hoff Ha) as H.
    by replace (w `min` (length T - off)) with w in H by lia.
  - exists j, text, off'. rewrite list_lookup_insert_ne by done. split; [done|]. split; [done|]. by apply agrees_write.
Qed.

(** Another page has another file. *)
Lemma elsewhere_turn ph s :
  page_ok (page_of ph) → page_of ph ≠ p → mn_disk (adv ph s).2 !! file p = mn_disk s !! file p.
Proof.
  intros Hq Hne. pose proof (advance_disk ph s) as H.
  destruct ph as [q|q|q age|q age|q age n|q age body|q|q section|q section text|q text|q text|q text off|q ans];
    try (by destruct H as [-> _]); clear H; cbn [page_of] in *;
    assert (file q ≠ file p) as Hfile by (intros E; by apply abs_path_inj in E).
  - unfold advance, open_trunc, io_ok, time_null. run_st. destruct (negb _); cbn; [done|].
    by rewrite lookup_insert_ne.
  - unfold advance. destruct (_ <? _); [|done]. unfold write_some, time_null. run_st.
    destruct (_ =? 0); cbn; [done|]. by rewrite lookup_insert_ne.
Qed.

Lemma elsewhere_phase ph s text off : page_of ph ≠ p → (adv ph s).1 ≠ MWrite p text off.
Proof.
  intros Hne. pose proof (advance_disk ph s) as H.
  destruct ph as [q|q|q age|q age|q age n|q age body|q|q section|q section text'|q text'|q text'|q text' off'|q ans];
    try (destruct H as [_ H]; apply H); clear H; cbn [page_of] in Hne; unfold advance.
  - unfold open_trunc, io_ok, time_null. run_st. destruct (negb _); cbn; by intros [= ->].
  - destruct (_ <? _); [|done]. unfold write_some, time_null. run_st.
    destruct (_ =? 0) eqn:E; cbn [fst]; [done|]. rewrite E. by intros [= ->].
Qed.

Lemma turn_on_the_way threads s i ph :
  (∀ text off, ph = MWrite p text off → text = T ∧ off ≤ length T) →
  page_ok (page_of ph) → on_the_way threads s → threads !! i = Some ph →
  on_the_way (<[i := (adv ph s).1]> threads) (adv ph s).2.
Proof.
  intros HT Hq How Hi. destruct ph as [| | | | | | | | | |q text|q text off|] eqn:E.
  all: try (pose proof (advance_disk ph s) as H; rewrite E in H; destruct H as [Hd Hph];
    eapply other_turn; [done|exact Hi|done|intros; apply Hph|by rewrite Hd]).
  all: cbn [page_of] in Hq.
  - destruct (decide (page_text q = page_text p)) as [Heq|Hne].
    + apply page_text_inj in Heq as ->; [|done..]. by apply trunc_on_the_way.
    + assert (q ≠ p) by congruence.
      eapply other_turn; [done|exact Hi|done|intros; by apply elsewhere_phase|by apply elsewhere_turn].
  - destruct (decide (page_text q = page_text p)) as [Heq|Hne].
    + apply page_text_inj in Heq as ->; [|done..]. destruct (HT _ _ eq_refl) as [-> Hoff].
      by apply write_on_the_way.
    + assert (q ≠ p) by congruence.
      eapply other_turn; [done|exact Hi|congruence|intros; by apply elsewhere_phase|by apply elsewhere_turn].
Qed.

Lemma schedule_on_the_way l :
  (∀ t, text_for (mj_log (schedule l)) p t → t = T) →
  on_the_way (mj_threads (schedule l)) (mj_state (schedule l)).
Proof.
  induction l as [|x l IH] using rev_ind; intros HT.
  { split; cbn; [intros f; by rewrite lookup_empty|done]. }
  pose proof (schedule_ok l) as [Hphases _ _]. revert HT IH.
  unfold man_schedule. rewrite foldl_app. cbn [foldl]. fold (schedule l). set (c := schedule l) in *.
  destruct x as [url|url path|i|]; cbn [man_turn].
  - destruct (man_route url) as [q|] eqn:Hq; [|auto]. cbn. intros HT IH. destruct (IH HT) as [H1 H2]. split.
    + intros f Hf. destruct (H1 f Hf) as [Hl [(j & text & off & Hj & H)|]]; [|auto]. split; [done|].
      left. exists j, text, off. split; [|done]. by apply lookup_app_l_Some.
    + intros j text off [Hj|[_ Hj]]%lookup_app_Some; [by eapply H2|]. by apply list_lookup_singleton_Some in Hj as [_ ?].
  - cbn. intros HT IH. destruct (IH HT) as [H1 H2].
    assert (steps bare (man_api_text alloc run readable readdir url path)) as Hb by auto with man.
    destruct (Hb (mj_state c)) as [_ Hd _ _ _]. split; rewrite Hd; done.
  - destruct (mj_threads c !! i) as [ph|] eqn:Hph; [|auto].
    pose proof (Forall_lookup_1 _ _ _ _ Hphases Hph) as [Hq Hcarries].
    pose proof (turn_on_the_way (mj_threads c) (mj_state c) i ph) as Hturn.
    destruct (adv ph (mj_state c)) as [ph' s']. cbn [mj_log mj_threads mj_state fst snd] in *. intros HT IH.
    assert (∀ t, text_for (mj_log c) p t → t = T) as HT'.
    { intros t Ht. apply HT. eapply text_for_mono, Ht. set_solver. }
    apply Hturn; auto. intros text off ->. destruct Hcarries as [Ht Hoff]. apply HT' in Ht as ->. done.
  - destruct (forallb _ _); [|auto]. cbn. intros HT IH. destruct (IH HT) as [H1 H2].
    destruct (cache_cleanup_spec (λ _, True) ltac:(done) (mj_state c)) as (_ & [Hd _ _ _]);
      [by apply Forall_true; intros; apply Forall_true|].
    unfold man_module_cleanup. split; rewrite Hd; done.
Qed.
End settled.

(** C10. A file that no request is writing is whole: if [mandoc] has always given the same text
    for a page and every write takes at least one byte, the file of the page is this text
    whenever it is there and no request is between opening and finishing it, however many
    have written it and whatever they did to each other meanwhile. *)
Theorem man_file_settles l p T f :
  page_ok p → (∀ t n, 0 < n → 0 < wr t n) →
  (∀ t, text_for (mj_log (schedule l)) p t → t = T) →
  (∀ text off, MWrite p text off ∉ mj_threads (schedule l)) →
  mn_disk (mj_state (schedule l)) !! file p = Some f → df_data f = T.
Proof.
  intros Hp Hwr HT Hno Hf. destruct (schedule_on_the_way Hwr p T Hp l HT) as [H1 _].
  destruct (H1 f Hf) as [_ [(i & text & off & Hi & _)|]]; [|done].
  exfalso. eapply Hno, list_elem_of_lookup_2, Hi.
Qed.
End answers.

(** ** A request that is alone *)

Section alone.
Context (alloc : nat → bool) (run : nat → bytes → list bytes → Z → Z → option bytes).
Context (readable : bytes → bool) (readdir : bytes → option (list dirent)).
Context (clock : nat → Z) (sem : nat → bool) (static_dir : bytes).
Context (io : nat → bool) (wr : nat → nat → nat).

Abbreviation adv := (advance alloc run readable clock sem static_dir io wr).

(** From [ph] on the request gives the answer and the state of [r]. *)
Definition does (ph : man_phase) (s : man_state) (r : option bytes * man_state) : Prop :=
  ∃ p ans, comes_to adv ph s (MDone p ans, r.2) ∧ fst <$> ans = r.1.

Lemma does_turn ph s ph' s' r : adv ph s = (ph', s') → does ph' s' r → does ph s r.
Proof. intros E (p & ans & H & Ha). exists p, ans. split; [by eapply comes_to_turn|done]. Qed.

Lemma does_done p ans s r : fst <$> ans = r.1 → r.2 = s → does (MDone p ans) s r.
Proof. intros Ha <-. exists p, ans. split; [apply comes_to_here|done]. Qed.

Lemma does_write p text n off s :
  length text ≤ n + off →
  does (MWrite p text off) s (Some text, (write_loop clock wr n (abs_path static_dir p) off text s).2).
Proof.
  revert off s. induction n as [|n IH]; intros off s Hn.
  { eapply does_turn; [unfold advance; by rewrite (proj2 (Nat.ltb_ge off _)) by lia|by apply does_done]. }
  cbn [write_loop]. destruct (off <? length text) eqn:Hlt.
  2: { eapply does_turn; [unfold advance; by rewrite Hlt|by apply does_done]. }
  run_st. destruct (write_some clock wr (abs_path static_dir p) off text s) as [w s1] eqn:E.
  eapply does_turn; [unfold advance; rewrite Hlt; run_st; by rewrite E|].
  destruct (w =? 0) eqn:Hw; bool_facts; [by apply does_done|]. apply IH. lia.
Qed.

Lemma does_save p text s :
  does (MMkdir p text) s (Some text,
    (match build_cache_paths static_dir p REL_SIZE ABS_SIZE with
     | Some (_, abs) =>
         let cache_dir := strlcpy 512 abs in
         match strrchr cache_dir "/" with
         | Some i =>
             ok ← mkdir_p io (take i cache_dir) static_dir;
             if ok : bool then write_file_binary clock io wr abs text else mret false
         | None => mret false
         end
     | None => mret false
     end s).2).
Proof.
  destruct (build_cache_paths static_dir p REL_SIZE ABS_SIZE) as [[rel abs]|] eqn:Hpaths.
  2: { eapply does_turn; [unfold advance; by rewrite Hpaths|by apply does_done]. }
  assert (abs = abs_path static_dir p) as ->.
  { revert Hpaths. unfold build_cache_paths. destruct (_ <=? _); [done|]. destruct (_ <=? _); [done|].
    by intros [= _ <-]. }
  cbv zeta. destruct (strrchr _ _) as [i|] eqn:Hi.
  2: { eapply does_turn; [unfold advance; rewrite Hpaths; cbv zeta; by rewrite Hi|by apply does_done]. }
  run_st. destruct (mkdir_p io _ static_dir s) as [ok s1] eqn:Hm.
  eapply does_turn; [unfold advance; rewrite Hpaths; cbv zeta; rewrite Hi; run_st; by rewrite Hm|].
  destruct ok; cbn [andb]; [|by apply does_done]. unfold write_file_binary.
  destruct (length text =? 0); cbn [negb]; [by apply does_done|]. run_st.
  destruct (open_trunc clock io (abs_path static_dir p) s1) as [ok s2] eqn:Ho.
  eapply does_turn; [unfold advance; run_st; by rewrite Ho|].
  destruct ok; cbn [negb]; [|by apply does_done].
  pose proof (does_write p text (length text) 0 s2 ltac:(lia)) as H.
  destruct (write_loop _ _ _ _ _ _ s2) as [[off ok] s3]. exact H.
Qed.

Lemma does_render p s :
  does (MResolve p) s
    ((test_path ← man_resolve_path alloc run readable (mp_page p) (mp_section p);
      section ← (match test_path with
                 | Some _ => mret (Some (mp_section p))
                 | None => probe alloc run readable (mp_page p) (mp_section p) probe_sections
                 end);
      match section with
      | None => mret None
      | Some section =>
          body ← man_render_page alloc run readable sem section (mp_page p) (mp_format p);
          match body with
          | None => mret None
          | Some body =>
              _ ← man_render_cache_put alloc clock (with_section p section) body;
              _ ← (match build_cache_paths static_dir p REL_SIZE ABS_SIZE with
                   | Some (_, abs) =>
                       let cache_dir := strlcpy 512 abs in
                       match strrchr cache_dir "/" with
                       | Some i =>
                           ok ← mkdir_p io (take i cache_dir) static_dir;
                           if ok : bool then write_file_binary clock io wr abs body else mret false
                       | None => mret false
                       end
                   | None => mret false
                   end);
              mret (Some body)
          end
      end) s).
Proof.
  pose proof (does_save p) as Hsave. revert Hsave. run_st. intros Hsave.
  destruct (man_resolve_path _ _ _ _ _ s) as [found s1] eqn:Hr.
  set (look := match found with Some _ => _ | None => _ end).
  destruct (look s1) as [sec s2] eqn:Hl.
  eapply does_turn; [unfold advance; run_st; rewrite Hr; fold look; by rewrite Hl|].
  destruct sec as [section|]; [|by apply does_done].
  destruct (man_render_page _ _ _ _ section _ _ s2) as [[text|] s3] eqn:Ht;
    (eapply does_turn; [unfold advance; run_st; by rewrite Ht|]); [|by apply does_done].
  destruct (man_render_cache_put _ _ _ _ s3) as [u s4] eqn:Hput.
  eapply does_turn; [unfold advance; run_st; by rewrite Hput|].
  specialize (Hsave text s4). destruct (_ s4) as [ok s5]. exact Hsave.
Qed.

(** Reading the file, and going on to render when that gives nothing. *)
Lemma does_read p s (rest : option bytes → MM (option bytes)) :
  (∀ s, does (MResolve p) s (rest None s)) →
  (∀ body, rest (Some body) = (_ ← man_render_cache_put alloc clock p body; mret (Some body))) →
  does (MStat p) s
    ((stored ← (match build_cache_paths static_dir p REL_SIZE ABS_SIZE with
                | Some (_, abs) => read_disk alloc clock io abs
                | None => mret None
                end); rest stored) s).
Proof.
  intros Hnone Hsome.
  destruct (build_cache_paths static_dir p REL_SIZE ABS_SIZE) as [[rel abs]|] eqn:Hpaths.
  2: { eapply does_turn; [unfold advance; by rewrite Hpaths|apply Hnone]. }
  assert (abs = abs_path static_dir p) as ->.
  { revert Hpaths. unfold build_cache_paths. destruct (_ <=? _); [done|]. destruct (_ <=? _); [done|].
    by intros [= _ <-]. }
  unfold read_disk. run_st. destruct (stat_recent _ _ _ s) as [[age|] s1] eqn:Hstat;
    (eapply does_turn; [unfold advance; rewrite Hpaths; run_st; by rewrite Hstat|]); [|apply Hnone].
  destruct (io_ok io s1) as [opened s2] eqn:Hopen.
  eapply does_turn; [unfold advance; run_st; by rewrite Hopen|]. destruct opened; cbn [negb]; [|apply Hnone].
  destruct (fstat_size _ _ s2) as [[n|] s3] eqn:Hsize;
    (eapply does_turn; [unfold advance; run_st; by rewrite Hsize|]); [|apply Hnone].
  destruct (read_whole _ _ _ _ s3) as [[body|] s4] eqn:Hread;
    (eapply does_turn; [unfold advance; run_st; by rewrite Hread|]); [|apply Hnone].
  rewrite Hsome. run_st. destruct (man_render_cache_put _ _ _ _ s4) as [u s5] eqn:Hput.
  eapply does_turn; [unfold advance; run_st; by rewrite Hput|by apply does_done].
Qed.

(** The turns of a request that is alone are [page_body]: the same answer from the same
    programs, calls and writes. *)
Theorem page_request_alone p s :
  does (MGet p) s (page_body alloc run readable clock sem static_dir io wr p s).
Proof.
  unfold page_body. cbv zeta. unfold mbind at 1, ST_bind.
  destruct (man_render_cache_get alloc clock p s) as [[body|] s1] eqn:Hget;
    (eapply does_turn; [unfold advance; run_st; by rewrite Hget|]); [by apply does_done|].
  apply does_read; [|done]. intros s2. apply does_render.
Qed.
End alone.

(** ** Requests that overlap

    Writes take three bytes at a time.  Two requests for the same page come at once.  The
    second looks at the file when the first has written three of the five bytes; it
    answers with these, and puts them into memory, where the third request finds them
    although the file is complete by then. *)
Definition overlap : list man_choice :=
  [Arrive (bs "/man/system/1/ls.html"); Arrive (bs "/man/system/1/ls.html"); Turn 0; Turn 1] ++
  replicate 7 (Turn 0) ++ replicate 5 (Turn 1) ++ replicate 3 (Turn 0) ++
  [Arrive (bs "/man/system/1/ls.html"); Turn 2].

Abbreviation sample_schedule :=
  (man_schedule (λ _, true) sample_run (λ _, true) (λ _, None) Z.of_nat (λ _, true) (bs "static")
    (λ _, true) (λ _ n, Nat.min 3 n)).
Abbreviation overlap_run := (sample_schedule overlap).

Example overlap_answers :
  (λ ph, match ph with MDone _ (Some (body, _)) => Some body | _ => None end) <$> mj_threads overlap_run
  = [Some (bs "LS(1)"); Some (bs "LS("); Some (bs "LS(")] ∧
  df_data <$> mn_disk (mj_state overlap_run) !! bs "static/man/system/1/ls.html" = Some (bs "LS(1)").
Proof. vm_compute. split; reflexivity. Qed.

Lemma man_pages_interleaved_witness :
  mj_threads overlap_run !! 1 = Some (MDone sample_page (Some (bs "LS(", FromFile 19 17))) ∧
  patched (mj_log overlap_run) sample_page (bs "LS(") ∧ EvWrite sample_page 17 ∈ mj_log overlap_run.
Proof.
  assert (mj_threads overlap_run !! 1 = Some (MDone sample_page (Some (bs "LS(", FromFile 19 17)))) as E
    by (vm_compute; reflexivity).
  pose proof (man_pages_interleaved (λ _, true) sample_run (λ _, true) (λ _, None) Z.of_nat (λ _, true) (bs "static")
    (λ _, true) (λ _ n, Nat.min 3 n) overlap sample_page (bs "LS(") (FromFile 19 17)) as H.
  cbv zeta in H.
  destruct (H (list_elem_of_lookup_2 _ 1 _ E)) as (Hbody & [Hwritten _] & _). auto.
Defined.

Lemma all_done_no_writer threads p text off : forallb is_done threads = true → MWrite p text off ∉ threads.
Proof. intros H Hin. rewrite forallb_forall in H. apply list_elem_of_In, H in Hin. done. Qed.

Lemma same_texts_only log T p section t :
  forallb (λ e, match e with EvText _ _ t => streq t T | _ => true end) log = true →
  EvText p section t ∈ log → t = T.
Proof.
  intros H Hin. rewrite forallb_forall in H. apply list_elem_of_In, H in Hin. by apply streq_true.
Qed.

(** All three are done and the file is whole. *)
Lemma man_file_settles_witness :
  ∃ f, mn_disk (mj_state overlap_run) !! bs "static/man/system/1/ls.html" = Some f ∧ df_data f = bs "LS(1)".
Proof.
  assert (is_Some (mn_disk (mj_state overlap_run) !! bs "static/man/system/1/ls.html")) as [f Hf]
    by (vm_compute; by eexists).
  exists f. split; [exact Hf|].
  pose proof (man_file_settles (λ _, true) sample_run (λ _, true) (λ _, None) Z.of_nat (λ _, true) (bs "static")
    (λ _, true) (λ _ n, Nat.min 3 n) overlap sample_page (bs "LS(1)") f) as H.
  apply H; [by apply (man_route_ok (bs "/man/system/1/ls.html"))|lia| | |exact Hf].
  - intros t (p & section & Hin & _). eapply same_texts_only, Hin. vm_compute. reflexivity.
  - intros text off. apply all_done_no_writer. vm_compute. reflexivity.
Defined.


(** The first request has written three bytes when the second one empties the file and the
    first goes on behind a gap; a third, which missed in memory before, reads the gap. *)
Definition overlap_gap : list man_choice :=
  replicate 3 (Arrive (bs "/man/system/1/ls.html")) ++ [Turn 0; Turn 1; Turn 2; Turn 1] ++
  replicate 7 (Turn 0) ++ replicate 5 (Turn 1) ++ [Turn 0] ++ replicate 5 (Turn 2).

Example overlap_gap_answer :
  let c := sample_schedule overlap_gap in
  (λ ph, match ph with MDone _ (Some (body, _)) => Some body | _ => None end) <$> mj_threads c !! 2
  = Some (Some ([nul; nul; nul] ++ bs "1)")).
Proof. vm_compute. reflexivity. Qed.
