(* ===== verification/ManHandlers.v ===== *)
(** * The manual pages: the answers of the two handlers (src/modules/man/man_render.c)

    [man_render_handler] and [man_api_handler] send what [page_body] and [man_api_text]
    computed, or an error page. *)

From S2P Require Import Prelude Conf HttpUtils Router ResponsePool HttpResponse Subprocess Man ManRender.

(** The value of the Content-Disposition header, for the formats that have one. *)
Definition disposition (p : man_page) : option bytes :=
  if streq (mp_format p) (bs "pdf")
  then Some (strlcpy 256 (qs "inline; filename='" ++ mp_page p ++ qs ".pdf'"))
  else if streq (mp_format p) (bs "md") || streq (mp_format p) (bs "txt") then Some (bs "inline")
  else if streq (mp_format p) (bs "ps")
  then Some (strlcpy 256 (qs "attachment; filename='" ++ mp_page p ++ qs ".ps'"))
  else None.

Lemma valid_token_no_cr s : man_is_valid_token s = true → cr ∉ s.
Proof. intros H Hc. by apply (valid_token_chars _ _ H) in Hc. Qed.

Lemma disposition_ok p v :
  page_ok p → disposition p = Some v → cr ∉ v ∧ length v ≤ 255.
Proof.
  intros [_ _ [Hp%valid_token_no_cr _] _]. unfold disposition.
  assert (∀ a c, no_cr a = true → no_cr c = true → cr ∉ strlcpy 256 (a ++ mp_page p ++ c)) as Hcr.
  { intros a c Ha%no_cr_spec Hc%no_cr_spec H. apply elem_of_take in H as (i & H & _).
    apply list_elem_of_lookup_2 in H. rewrite !elem_of_app in H. naive_solver. }
  assert (∀ b, length (strlcpy 256 b) ≤ 255) as Hl.
  { intros b. unfold strlcpy. rewrite length_take. lia. }
  destruct (streq _ _); [intros <-%(inj Some); split; [by apply Hcr|apply Hl]|].
  destruct (_ || _); [intros [= <-]; split; [by apply no_cr_spec|simpl; lia]|].
  destruct (streq _ _); [intros <-%(inj Some); split; [by apply Hcr|apply Hl]|done].
Qed.

(** The headers of a page. *)
Definition page_headers (p : man_page) : list bytes :=
  bs "Cache-Control: public, max-age=300" ::
  match disposition p with Some v => [bs "Content-Disposition: " ++ v] | None => [] end.

Lemma page_headers_ok p :
  page_ok p → Forall (λ l, cr ∉ l ∧ l ≠ [] ∧ is_prefix (bs "Content-Length: ") l = false) (page_headers p)
              ∧ length (text_lines (page_headers p)) < HEADERS_SIZE.
Proof.
  intros Hp. pose proof HEADERS_SIZE_val. unfold page_headers.
  assert (no_cr (bs "Cache-Control: public, max-age=300") = true) as H1%no_cr_spec by reflexivity.
  assert (no_cr (bs "Content-Disposition: ") = true) as H2%no_cr_spec by reflexivity.
  destruct (disposition p) as [v|] eqn:Hv.
  - destruct (disposition_ok p v Hp Hv) as [Hcr Hl]. split.
    + repeat constructor; try done. rewrite elem_of_app. by intros [?|?].
    + unfold text_lines. cbn [fmap list_fmap concat]. rewrite !length_app.
      change (length (bs "Cache-Control: public, max-age=300")) with 34.
      change (length (bs "Content-Disposition: ")) with 21. change (length crlf) with 2. simpl. lia.
  - split; [by repeat constructor|]. change (length _) with 36. lia.
Qed.

Lemma disposition_header p r :
  man_add_content_disposition_for_format r (mp_format p) (mp_page p)
  = match disposition p with
    | Some v => http_response_add_header r (bs "Content-Disposition") v
    | None => r
    end.
Proof.
  unfold man_add_content_disposition_for_format, disposition. by repeat case_match.
Qed.

Lemma man_build_headers p body r :
  page_ok p → headers r = [] →
  man_build p body r = http_response_set_body
    (set_headers (set_content_type r (man_mime_for_format (mp_format p))) (text_lines (page_headers p)))
    (Some body) (length body) true.
Proof.
  intros Hp Hr. destruct (page_headers_ok p Hp) as [_ Hl]. pose proof HEADERS_SIZE_val.
  unfold man_build. rewrite (add_header_fits _ _ _ []); [|done|change (length _) with 36; lia].
  rewrite disposition_header. unfold page_headers in *. destruct (disposition p) as [v|]; [|done].
  by rewrite (add_header_fits _ (bs "Content-Disposition") v [bs "Cache-Control: public, max-age=300"]).
Qed.

Lemma man_build_shard p body r : pool_shard_idx (man_build p body r) = pool_shard_idx r.
Proof.
  unfold man_build. rewrite disposition_header. cbn [http_response_set_body pool_shard_idx].
  destruct (disposition p); by rewrite ?add_header_shard, ?add_header_shard.
Qed.

Lemma mime_ok f : no_cr (man_mime_for_format f) = true ∧ length (man_mime_for_format f) ≤ 64.
Proof. unfold man_mime_for_format. repeat case_match; (split; [done|by apply Nat.leb_le]). Qed.

Section handlers.
Context (alloc : nat → bool) (run : nat → bytes → list bytes → Z → Z → option bytes).
Context (readable : bytes → bool) (readdir : bytes → option (list dirent)).
Context (clock : nat → Z) (sem : nat → bool) (static_dir : bytes).
Context (io : nat → bool) (wr : nat → nat → nat).
Context (k : kernel) (fuel : nat) (tid : Z) (conf : option miniweb_conf) (reg : registry).

Abbreviation body_of := (page_body alloc run readable clock sem static_dir io wr).
Abbreviation api_text := (man_api_text alloc run readable readdir).

(** The page handler sends the text of the page whole, the 404 page when there is none, and
    the 400 page with the reason for a URL that names no page. *)
Theorem man_render_handler_answers req w s live rc w' s' :
  store_wf live (w_store w) →
  (∀ p text, man_route (req_url req) = inl p → (body_of p s).1 = Some text →
   (Z.of_nat (length text) < 10 ^ 20)%Z) →
  man_render_handler alloc run readable clock sem static_dir io wr k fuel tid (init_routes conf reg)
    req w s = (Some (rc, w'), s') →
  match man_route (req_url req) with
  | inr msg => delivers live (error_page 400 (Some msg)) w rc w' ∧ s' = s
  | inl p =>
      s' = (body_of p s).2 ∧
      match (body_of p s).1 with
      | None => delivers live (error_page 404 (Some (bs "Manual page not found"))) w rc w'
      | Some text => delivers live text w rc w'
      end
  end.
Proof.
  intros Hwf Hlen. unfold man_render_handler.
  destruct (man_route (req_url req)) as [p|msg] eqn:Hroute.
  - specialize (λ text, Hlen p text eq_refl). apply man_route_ok in Hroute. run_st.
    destruct (body_of p s) as [[text|] s1]; cbn [fst snd] in *; intros [= H <-]; (split; [done|]).
    + revert H. destruct (page_headers_ok p Hroute) as [Hok Hl].
      apply (respond_delivers_with _ _ _ _ _ (man_mime_for_format (mp_format p)) _ (page_headers p));
        [apply man_build_shard| |done..].
      intros sh. cbv zeta. rewrite man_build_headers by done. destruct (mime_ok (mp_format p)).
      split; [|done]. specialize (Hlen text eq_refl). split; [simpl; lia|done..].
    + revert H. by apply error_delivers; [|lia|apply Nat.leb_le].
  - run_st. intros [= H <-]. split; [|done]. revert H. apply error_delivers; [done|lia|].
    revert Hroute. unfold man_route.
    repeat (case_match; [intros [= <-]; apply Nat.leb_le; vm_compute; reflexivity|]). done.
Qed.

Lemma man_api_build_delivers req path text w rc w' live :
  store_wf live (w_store w) → (Z.of_nat (length text) < 10 ^ 20)%Z →
  respond k fuel tid req (man_api_build path text) w = Some (rc, w') → delivers live text w rc w'.
Proof.
  intros Hwf Hlen. unfold man_api_build.
  destruct (strstr path (bs "/search")); apply api_answer_delivers; first [done|by apply Nat.leb_le].
Qed.

(** The API handler sends the text of the request; without memory for the text or for the
    response it sends the 500 page, and to a URL without [/api/man] the 400 page. *)
Theorem man_api_handler_answers req w s live rc w' s' :
  store_wf live (w_store w) →
  (∀ i text, strstr (req_url req) (bs "/api/man") = Some i →
   (api_text (req_url req) (drop (i + 8) (req_url req)) s).1 = Some text →
   (Z.of_nat (length text) < 10 ^ 20)%Z) →
  man_api_handler alloc run readable readdir k fuel tid (init_routes conf reg) req w s
    = (Some (rc, w'), s') →
  match strstr (req_url req) (bs "/api/man") with
  | None => delivers live (error_page 400 (Some (bs "Bad Request"))) w rc w' ∧ s' = s
  | Some i =>
      let answer := api_text (req_url req) (drop (i + 8) (req_url req)) s in
      s' = answer.2 ∧
      match answer.1 with
      | Some text =>
          if decide ((http_response_create tid (k_calloc k (w_time w)) (w_store w)).1 = None)
          then delivers live (error_page 500 (Some (bs "Internal Server Error"))) w rc w'
          else delivers live text w rc w'
      | None => delivers live (error_page 500 (Some (bs "Internal Server Error"))) w rc w'
      end
  end.
Proof.
  intros Hwf Hlen. unfold man_api_handler.
  destruct (strstr (req_url req) (bs "/api/man")) as [i|].
  2: { run_st. intros [= H <-]. split; [|done]. sends_error w H. }
  cbv zeta. run_st. specialize (λ text, Hlen i text eq_refl).
  destruct (api_text _ _ s) as [[text|] s1]; cbn [fst snd] in *.
  2: { intros [= H <-]. split; [done|]. sends_error w H. }
  pose proof (create_spec live (w_store w) tid (k_calloc k (w_time w)) Hwf) as Hcreate.
  destruct (http_response_create tid _ _) as [[q|] st]; cbn [fst].
  - rewrite decide_False by done. intros [= H <-]. split; [done|].
    eapply man_api_build_delivers, H; auto.
  - rewrite decide_True by done. intros [= H <-]. split; [done|].
    destruct Hcreate as (_ & _ & Hst & _).
    sends_error w H.
Qed.
End handlers.

Definition get_request (url : bytes) : http_request :=
  {| req_fd := 7; req_method := bs "GET"; req_url := url; req_version := bs "HTTP/1.1";
     req_keep_alive := true; req_buffer := []; req_buffer_len := 0; req_client_addr := None;
     hdr_scratch := []; ip_scratch := [] |}.

(** The answer to the request of a page that exists, and to one of a page name with a
    forbidden character. *)
Lemma man_render_handler_answers_witness :
  let serve url := man_render_handler (λ _, true) sample_run (λ _, true) Z.of_nat (λ _, true)
    (bs "static") (λ _, true) (λ _ n, n) eager_kernel 5 3 (init_routes None empty_registry)
    (get_request url) test_world man_static in
  (∃ rc w', (serve (bs "/man/system/1/ls.pdf")).1 = Some (rc, w') ∧
     delivers (λ _, False) (bs "LS(1)") test_world rc w') ∧
  (∃ rc w', (serve (bs "/man/system/1/l;s.html")).1 = Some (rc, w') ∧
     delivers (λ _, False) (error_page 400 (Some (bs "Invalid section or page name"))) test_world rc w').
Proof.
  intros serve.
  assert (∀ url, match (serve url).1 with Some _ => true | None => false end = true →
    ∃ rc w' s', serve url = (Some (rc, w'), s')) as Hrun.
  { intros url. destruct (serve url) as [[[rc w']|] s']; [eauto|done]. }
  assert (man_route (req_url (get_request (bs "/man/system/1/ls.pdf")))
    = inl (ManPage (bs "system") (bs "1") (bs "ls") (bs "pdf"))) as H1 by (vm_compute; reflexivity).
  assert (man_route (req_url (get_request (bs "/man/system/1/l;s.html")))
    = inr (bs "Invalid section or page name")) as H2 by (vm_compute; reflexivity).
  assert ((sample_serve (ManPage (bs "system") (bs "1") (bs "ls") (bs "pdf")) man_static).1
    = Some (bs "LS(1)")) as H3 by (vm_compute; reflexivity).
  split.
  - destruct (Hrun (bs "/man/system/1/ls.pdf")) as (rc & w' & s' & E); [vm_compute; reflexivity|].
    exists rc, w'. rewrite E. split; [reflexivity|].
    apply (man_render_handler_answers _ _ _ _ _ _ _ _ _ _ _ _ _ (get_request (bs "/man/system/1/ls.pdf"))
      test_world man_static (λ _, False) rc w' s' initial_store_wf) in E.
    + rewrite H1 in E. destruct E as [_ E]. unfold sample_serve in H3. rewrite H3 in E. exact E.
    + intros p text. rewrite H1. intros [= <-]. unfold sample_serve in H3. rewrite H3. by intros [= <-].
  - destruct (Hrun (bs "/man/system/1/l;s.html")) as (rc & w' & s' & E); [vm_compute; reflexivity|].
    exists rc, w'. rewrite E. split; [reflexivity|].
    apply (man_render_handler_answers _ _ _ _ _ _ _ _ _ _ _ _ _ (get_request (bs "/man/system/1/l;s.html"))
      test_world man_static (λ _, False) rc w' s' initial_store_wf) in E.
    + rewrite H2 in E. apply E.
    + intros p text. rewrite H2. discriminate.
Defined.

Lemma man_api_handler_answers_witness :
  let url := bs "/api/man/pages?section=1" in
  let out := man_api_handler (λ _, true) sample_run (λ _, true) sample_dir eager_kernel 5 3
    (init_routes None empty_registry) (get_request url) test_world man_static in
  ∃ rc w', out.1 = Some (rc, w') ∧
    delivers (λ _, False) (qs "{'pages':['X.conf','cat','ls']}") test_world rc w'.
Proof.
  intros url out. assert (match out.1 with Some _ => true | None => false end = true) as Hrun
    by (vm_compute; reflexivity).
  destruct out as [[[rc w']|] s'] eqn:E; [|discriminate Hrun]. exists rc, w'. split; [reflexivity|].
  assert (strstr (req_url (get_request url)) (bs "/api/man") = Some 0) as H1 by (vm_compute; reflexivity).
  assert ((man_api_text (λ _, true) sample_run (λ _, true) sample_dir (req_url (get_request url))
      (drop (0 + 8) (req_url (get_request url))) man_static).1
    = Some (qs "{'pages':['X.conf','cat','ls']}")) as H2 by (vm_compute; reflexivity).
  assert ((http_response_create 3 (k_calloc eager_kernel (w_time test_world)) (w_store test_world)).1
    <> None) as H3 by (intros H; vm_compute in H; discriminate H).
  pose proof (man_api_handler_answers (λ _, true) sample_run (λ _, true) sample_dir eager_kernel 5 3
    None empty_registry (get_request url) test_world man_static (λ _, False) rc w' s' initial_store_wf)
    as H.
  rewrite H1 in H. cbv zeta in H. rewrite H2, decide_False in H by exact H3. apply H; [|exact E].
  intros i text [= <-]. rewrite H2. intros [= <-]. apply Z.ltb_lt. vm_compute. reflexivity.
Defined.
