(* ===== verification/Networking.v ===== *)
(** * The networking module (src/modules/networking/networking_module.c)

    Routes, resolver configuration and interface counters are collected into a sample, once
    a second by a heartbeat task; samples go into a ring and the JSON text of the last one
    is kept for the requests.  The kernel's tables, the resolver file, the allocator, the
    clock and the time zone are the record [net_env]; questions to them are numbered in the
    state.  The routing table is the list of its messages (their lengths are positive), an
    address is what inet_ntop makes of it.  Log lines have no model. *)

From S2P Require Import Prelude Ring Conf HttpUtils Json JsonValue Router ResponsePool HttpResponse Heartbeat.

(** ** Data *)

Record RouteEntry := {
  rt_destination : bytes;
  rt_gateway : bytes;
  rt_netmask : bytes;
  rt_interface : bytes;
  rt_flags : Z;
  rt_flags_str : bytes
}.

(** [nameserver_count] is the length of the list. *)
Record DnsConfig := {
  dns_nameservers : list bytes;
  dns_domain : bytes;
  dns_search : bytes
}.

Record NetStats := {
  ns_interface : bytes;
  ns_ipv4 : bytes;
  ns_rx_packets : Z;
  ns_rx_bytes : Z;
  ns_rx_errors : Z;
  ns_rx_dropped : Z;
  ns_tx_packets : Z;
  ns_tx_bytes : Z;
  ns_tx_errors : Z;
  ns_tx_dropped : Z
}.

(** The counts are the lengths of the lists. *)
Record NetworkingSample := {
  sm_ts : Z;
  sm_routes : list RouteEntry;
  sm_dns : DnsConfig;
  sm_interfaces : list NetStats
}.

Definition zero_dns : DnsConfig := {| dns_nameservers := []; dns_domain := []; dns_search := [] |}.

#[export] Instance networking_sample_inhabited : Inhabited NetworkingSample :=
  populate {| sm_ts := 0; sm_routes := []; sm_dns := zero_dns; sm_interfaces := [] |}.

Definition NETWORK_JSON_BUFFER_SIZE : Z := 65536.
Definition NETWORK_RING_BYTES : Z := 1024 * 1024.

(** Members and padding of the sample: time, routes and count, resolver, interfaces and
    count. *)
Definition sizeof_NetworkingSample : Z :=
  8 + (50 * (3 * 64 + 16 + 4 + 32) + 4) + (8 * 46 + 4 + 256 + 512) + (10 * (16 + 16 + 8 * 8) + 8).

Definition NETWORK_RING_CAPACITY : nat := Z.to_nat (NETWORK_RING_BYTES / sizeof_NetworkingSample).

Record NetworkingRing := {
  nr_buf : option (list NetworkingSample);
  nr_head : nat;
  nr_count : nat;
  nr_cached_json : option bytes;
  nr_cached_json_len : nat;
  nr_cached_json_ts : Z
}.

(** [ng_crash]: a sample was stored through the NULL buffer. *)
Record net_state := {
  ng_ring : NetworkingRing;
  ng_once : bool;
  ng_hb : hb;
  ng_time : nat;
  ng_crash : bool
}.

Abbreviation NM := (ST net_state).

Definition zero_net_ring : NetworkingRing :=
  {| nr_buf := None; nr_head := 0; nr_count := 0; nr_cached_json := None;
     nr_cached_json_len := 0; nr_cached_json_ts := 0 |}.

Definition net_static : net_state :=
  {| ng_ring := zero_net_ring; ng_once := false; ng_hb := hb_static; ng_time := 0; ng_crash := false |}.

Definition ng_tick (s : net_state) : net_state :=
  {| ng_ring := ng_ring s; ng_once := ng_once s; ng_hb := ng_hb s; ng_time := S (ng_time s);
     ng_crash := ng_crash s |}.

Definition set_ring (r : NetworkingRing) (s : net_state) : net_state :=
  {| ng_ring := r; ng_once := ng_once s; ng_hb := ng_hb s; ng_time := ng_time s;
     ng_crash := ng_crash s |}.

Definition set_hb (g : hb) (s : net_state) : net_state :=
  {| ng_ring := ng_ring s; ng_once := ng_once s; ng_hb := g; ng_time := ng_time s;
     ng_crash := ng_crash s |}.

Definition set_once (s : net_state) : net_state :=
  {| ng_ring := ng_ring s; ng_once := true; ng_hb := ng_hb s; ng_time := ng_time s;
     ng_crash := ng_crash s |}.

Definition crash (s : net_state) : net_state :=
  {| ng_ring := ng_ring s; ng_once := ng_once s; ng_hb := ng_hb s; ng_time := ng_time s;
     ng_crash := true |}.

(** ** The routing table *)

Inductive sa_family := AF_INET | AF_INET6 | AF_LINK | AF_OTHER.

Record sockaddr := { sa_len : nat; sa_fam : sa_family; sa_text : bytes }.

(** [rtm_sockaddr off]: what lies [off] bytes behind the header. *)
Record rt_msghdr := {
  rtm_version : Z;
  rtm_type : Z;
  rtm_addrs : Z;
  rtm_flags : Z;
  rtm_index : Z;
  rtm_sockaddr : nat → sockaddr
}.

(** The constants of net/route.h. *)
Definition RTM_VERSION : Z := 5.
Definition RTM_ADD : Z := 1.
Definition RTM_GET : Z := 4.
Definition RTA_DST : Z := 1.
Definition RTA_GATEWAY : Z := 2.
Definition RTA_NETMASK : Z := 4.
Definition RTF_UP : Z := 1.
Definition RTF_GATEWAY : Z := 2.
Definition RTF_HOST : Z := 4.
Definition RTF_DYNAMIC : Z := 16.
Definition RTF_STATIC : Z := 2048.

(** [flags & mask] *)
Definition has_flag (flags mask : Z) : bool := negb (Z.land flags mask =? 0)%Z.

Definition SA_SIZE (sa : sockaddr) : nat := if sa_len sa =? 0 then 16 else sa_len sa.

Definition destination_text (sa : sockaddr) : bytes :=
  match sa_fam sa with AF_INET | AF_INET6 => sa_text sa | _ => bs "-" end.

Definition gateway_text (sa : sockaddr) : bytes :=
  match sa_fam sa with
  | AF_INET | AF_INET6 => sa_text sa
  | AF_LINK => bs "link#"
  | AF_OTHER => bs "-"
  end.

Definition netmask_text (sa : sockaddr) : bytes :=
  match sa_fam sa with AF_INET => sa_text sa | _ => bs "-" end.

(** The text of the next address and where the one behind it begins. *)
Definition next_addr (m : rt_msghdr) (flag : Z) (text : sockaddr → bytes) (off : nat)
    : bytes * nat :=
  if has_flag (rtm_addrs m) flag
  then (text (rtm_sockaddr m off), off + SA_SIZE (rtm_sockaddr m off)) else ([], off).

Definition flags_text (flags : Z) : bytes :=
  (if has_flag flags RTF_UP then bs "U" else []) ++
  (if has_flag flags RTF_GATEWAY then bs "G" else []) ++
  (if has_flag flags RTF_HOST then bs "H" else []) ++
  (if has_flag flags RTF_STATIC then bs "S" else []) ++
  (if has_flag flags RTF_DYNAMIC then bs "D" else []).

(** The entry of a message, in a zeroed slot. *)
Definition route_of (ifname : Z → option bytes) (m : rt_msghdr) : RouteEntry :=
  let '(destination, off) := next_addr m RTA_DST destination_text 0 in
  let '(gateway, off) := next_addr m RTA_GATEWAY gateway_text off in
  let '(netmask, _) := next_addr m RTA_NETMASK netmask_text off in
  {| rt_destination := destination; rt_gateway := gateway; rt_netmask := netmask;
     rt_interface := if (0 <? rtm_index m)%Z then default [] (ifname (rtm_index m)) else [];
     rt_flags := rtm_flags m; rt_flags_str := strlcpy 32 (flags_text (rtm_flags m)) |}.

Definition route_wanted (m : rt_msghdr) : bool :=
  (rtm_version m =? RTM_VERSION)%Z && ((rtm_type m =? RTM_GET)%Z || (rtm_type m =? RTM_ADD)%Z).

Fixpoint routes_loop (ifname : Z → option bytes) (msgs : list rt_msghdr) (max_routes : nat)
    (routes : list RouteEntry) : list RouteEntry :=
  match msgs with
  | [] => routes
  | m :: msgs' =>
      if length routes <? max_routes then
        if route_wanted m then routes_loop ifname msgs' max_routes (routes ++ [route_of ifname m])
        else routes_loop ifname msgs' max_routes routes
      else routes
  end.

(** ** The resolver configuration *)

Definition blank_char (c : ascii) : bool := Ascii.eqb c space || Ascii.eqb c tab.

(** The rest of a line behind a keyword: blanks skipped, cut at the newline. *)
Definition dns_value (p : bytes) : bytes :=
  let p := skip_while blank_char p in
  match strchr p lf with Some i => take i p | None => p end.

(** One line of the file. *)
Definition dns_line (config : DnsConfig) (line : bytes) : DnsConfig :=
  let p := skip_while blank_char line in
  match p with
  | [] => config
  | c :: _ =>
      if Ascii.eqb c "#" || Ascii.eqb c lf then config
      else if is_prefix (bs "nameserver") p then
        {| dns_nameservers := dns_nameservers config ++ [strlcpy 46 (dns_value (drop 10 p))];
           dns_domain := dns_domain config; dns_search := dns_search config |}
      else if is_prefix (bs "domain") p then
        {| dns_nameservers := dns_nameservers config;
           dns_domain := strlcpy 256 (dns_value (drop 6 p)); dns_search := dns_search config |}
      else if is_prefix (bs "search") p then
        {| dns_nameservers := dns_nameservers config; dns_domain := dns_domain config;
           dns_search := strlcpy 512 (dns_value (drop 6 p)) |}
      else config
  end.

(** [while (fgets(line, sizeof(line), fp) && nameserver_count < 8)]; every turn takes a
    byte at least. *)
Fixpoint dns_loop (fuel : nat) (file : bytes) (config : DnsConfig) : DnsConfig :=
  match fuel with
  | 0 => config
  | S fuel =>
      match file with
      | [] => config
      | _ =>
          let '(line, rest) := fgets 511 file in
          if length (dns_nameservers config) <? 8
          then dns_loop fuel rest (dns_line config (cstr line)) else config
      end
  end.

(** ** Interfaces *)

Record if_data := {
  ifi_ipackets : Z;
  ifi_ibytes : Z;
  ifi_ierrors : Z;
  ifi_iqdrops : Z;
  ifi_opackets : Z;
  ifi_obytes : Z;
  ifi_oerrors : Z
}.

(** An address of an interface: its link-level data, or the text inet_ntop makes of it. *)
Inductive if_addr :=
| LinkAddr (data : option if_data)
| InetAddr (text : option bytes)
| OtherAddr.

Record ifaddrs := { ifa_name : bytes; ifa_addr : option if_addr }.

Definition link_stats (name : bytes) (d : if_data) : NetStats :=
  {| ns_interface := strlcpy 16 name; ns_ipv4 := bs "-";
     ns_rx_packets := ifi_ipackets d; ns_rx_bytes := ifi_ibytes d; ns_rx_errors := ifi_ierrors d;
     ns_rx_dropped := ifi_iqdrops d; ns_tx_packets := ifi_opackets d; ns_tx_bytes := ifi_obytes d;
     ns_tx_errors := ifi_oerrors d; ns_tx_dropped := 0 |}.

(** The first loop: an entry for each link-level address. *)
Fixpoint links_loop (ifap : list ifaddrs) (max_interfaces : nat) (stats : list NetStats)
    : list NetStats :=
  match ifap with
  | [] => stats
  | ifa :: ifap' =>
      if length stats <? max_interfaces then
        match ifa_addr ifa with
        | Some (LinkAddr (Some d)) =>
            links_loop ifap' max_interfaces (stats ++ [link_stats (ifa_name ifa) d])
        | _ => links_loop ifap' max_interfaces stats
        end
      else stats
  end.

Definition set_ipv4 (text : bytes) (s : NetStats) : NetStats :=
  {| ns_interface := ns_interface s; ns_ipv4 := text; ns_rx_packets := ns_rx_packets s;
     ns_rx_bytes := ns_rx_bytes s; ns_rx_errors := ns_rx_errors s; ns_rx_dropped := ns_rx_dropped s;
     ns_tx_packets := ns_tx_packets s; ns_tx_bytes := ns_tx_bytes s; ns_tx_errors := ns_tx_errors s;
     ns_tx_dropped := ns_tx_dropped s |}.

(** The loop over the entries for one IPv4 address: the first entry of that name. *)
Fixpoint assign_ipv4 (name : bytes) (text : option bytes) (stats : list NetStats)
    : list NetStats :=
  match stats with
  | [] => []
  | s :: stats' =>
      if negb (streq (ns_interface s) name) then s :: assign_ipv4 name text stats'
      else if negb (streq (ns_ipv4 s) (bs "-")) then stats
      else set_ipv4 (default (bs "-") text) s :: stats'
  end.

Fixpoint inet_loop (ifap : list ifaddrs) (stats : list NetStats) : list NetStats :=
  match ifap with
  | [] => stats
  | ifa :: ifap' =>
      match ifa_addr ifa with
      | Some (InetAddr text) => inet_loop ifap' (assign_ipv4 (ifa_name ifa) text stats)
      | _ => inet_loop ifap' stats
      end
  end.

(** ** JSON

    An append turns the text so far into a longer one, or into [None] when it does not fit
    its buffer, which ends the whole text. *)

Definition jm : Type := bytes → option bytes.

Definition jseq (a b : jm) : jm := λ t, a t ≫= b.

Notation "a ;;; b" := (jseq a b) (at level 62, right associativity) : mw_scope.
#[local] Open Scope mw_scope.

Section json.
Context (dst_size : Z).

Definition networking_json_append (text : bytes) : jm := λ dst,
  if (dst_size <=? Z.of_nat (length dst))%Z then None
  else if (dst_size - Z.of_nat (length dst) <=? Z.of_nat (length text))%Z then None
  else Some (dst ++ text).

Definition net_escape_char (c : ascii) : bytes :=
  if Ascii.eqb c dq || Ascii.eqb c backslash then [backslash; c]
  else if (byte_val c <? 32)%Z then control_escape c
  else [c].

(** The loop over the characters. *)
Fixpoint append_chars (src : bytes) : jm :=
  match src with
  | [] => Some
  | c :: src' => networking_json_append (net_escape_char c) ;;; append_chars src'
  end.

Definition networking_json_append_escaped (src : option bytes) : jm :=
  match src with
  | None => networking_json_append (bs "null")
  | Some src => networking_json_append [dq] ;;; append_chars src ;;; networking_json_append [dq]
  end.

(** A loop over the elements of an array; the flag is [i > 0] of the code negated. *)
Fixpoint append_each {A} (f : bool → A → jm) (first : bool) (l : list A) : jm :=
  match l with
  | [] => Some
  | x :: l' => f first x ;;; append_each f false l'
  end.

Abbreviation app := networking_json_append.
Abbreviation esc := (λ s, networking_json_append_escaped (Some s)).

Definition comma_unless (first : bool) : bytes := if first then [] else [","%char].

Definition append_route (first : bool) (r : RouteEntry) : jm :=
  app (comma_unless first ++ qs "{'destination':") ;;; esc (rt_destination r) ;;;
  app (qs ",'gateway':") ;;; esc (rt_gateway r) ;;;
  app (qs ",'netmask':") ;;; esc (rt_netmask r) ;;;
  app (qs ",'interface':") ;;; esc (rt_interface r) ;;;
  app (qs ",'flags':") ;;; esc (rt_flags_str r) ;;;
  app (bs "}").

Definition append_nameserver (first : bool) (ns : bytes) : jm :=
  app (comma_unless first) ;;; esc ns.

Definition append_interface (first : bool) (s : NetStats) : jm :=
  app (comma_unless first ++ qs "{'interface':") ;;; esc (ns_interface s) ;;;
  app (qs ",'ipv4':") ;;; esc (ns_ipv4 s) ;;;
  app (qs ",'rx_packets':" ++ fmt_Z (ns_rx_packets s) ++ qs ",'rx_bytes':" ++ fmt_Z (ns_rx_bytes s) ++
       qs ",'rx_errors':" ++ fmt_Z (ns_rx_errors s) ++ qs ",'tx_packets':" ++
       fmt_Z (ns_tx_packets s) ++ qs ",'tx_bytes':" ++ fmt_Z (ns_tx_bytes s) ++
       qs ",'tx_errors':" ++ fmt_Z (ns_tx_errors s) ++ bs "}").

Definition append_sample (timestamp : bytes) (s : NetworkingSample) : jm :=
  app (qs "{'timestamp':") ;;; esc timestamp ;;;
  app (qs ",'timestamp_unix':" ++ fmt_Z (sm_ts s) ++ bs ",") ;;;
  app (qs "'routes':[") ;;; append_each append_route true (sm_routes s) ;;; app (bs "],") ;;;
  app (qs "'dns':{'nameservers':[") ;;;
  append_each append_nameserver true (dns_nameservers (sm_dns s)) ;;;
  app (qs "],'domain':") ;;; esc (dns_domain (sm_dns s)) ;;;
  app (qs ",'search':") ;;; esc (dns_search (sm_dns s)) ;;; app (bs "},") ;;;
  app (qs "'interfaces':[") ;;; append_each append_interface true (sm_interfaces s) ;;;
  app (bs "]") ;;; app (bs "}").
End json.

(** ** The ring *)

(** [ne_*]: what the kernel, the allocator, the clock and the thread library answer to the
    question of that number. *)
Record net_env := {
  ne_alloc : nat → bool;
  ne_clock : nat → Z;
  ne_sysctl_size : nat → bool;
  ne_route_dump : nat → option (list rt_msghdr);
  ne_ifname : Z → option bytes;
  ne_resolv_conf : nat → option bytes;
  ne_getifaddrs : nat → option (list ifaddrs);
  ne_localtime : Z → option bytes;
  ne_thread_create : nat → bool
}.

(** The address of [networking_heartbeat_cb]. *)
Definition NETWORKING_CB : Z := 1.

Definition networking_task : hb_task :=
  {| ht_name := Some (bs "networking.sample"); ht_period_sec := 1; ht_initial_delay_sec := 0;
     ht_cb := Some NETWORKING_CB; ht_ctx := 0 |}.

Definition networking_ring_push (sample : NetworkingSample) (s : net_state) : net_state :=
  let r := ng_ring s in
  match nr_buf r with
  | None => crash s
  | Some buf =>
      set_ring {| nr_buf := Some (<[nr_head r := sample]> buf);
                  nr_head := (nr_head r + 1) mod NETWORK_RING_CAPACITY;
                  nr_count := if nr_count r <? NETWORK_RING_CAPACITY then nr_count r + 1 else nr_count r;
                  nr_cached_json := nr_cached_json r; nr_cached_json_len := nr_cached_json_len r;
                  nr_cached_json_ts := nr_cached_json_ts r |} s
  end.

Definition networking_ring_last (r : NetworkingRing) : option NetworkingSample :=
  match nr_buf r with
  | None => None
  | Some buf =>
      if nr_count r =? 0 then None
      else Some (buf !!! ((nr_head r + NETWORK_RING_CAPACITY - 1) mod NETWORK_RING_CAPACITY))
  end.

(** The new text, whether or not there is memory for it: [None] leaves no text. *)
Definition set_cached_json (json : option bytes) (ts : Z) (r : NetworkingRing) : NetworkingRing :=
  {| nr_buf := nr_buf r; nr_head := nr_head r; nr_count := nr_count r; nr_cached_json := json;
     nr_cached_json_len := match json with Some j => length j | None => nr_cached_json_len r end;
     nr_cached_json_ts := match json with Some _ => ts | None => nr_cached_json_ts r end |}.

Definition with_buf (buf : option (list NetworkingSample)) (r : NetworkingRing) : NetworkingRing :=
  {| nr_buf := buf; nr_head := nr_head r; nr_count := nr_count r; nr_cached_json := nr_cached_json r;
     nr_cached_json_len := nr_cached_json_len r; nr_cached_json_ts := nr_cached_json_ts r |}.

Section module.
Context (env : net_env).

Definition ask {A} (f : nat → A) : NM A := λ s, (f (ng_time s), ng_tick s).

Definition networking_ring_init : NM Z :=
  ok ← ask (ne_alloc env);
  if negb ok then mret (-1)%Z
  else
    _ ← modify (set_ring
          {| nr_buf := Some (replicate NETWORK_RING_CAPACITY inhabitant); nr_head := 0; nr_count := 0;
             nr_cached_json := None; nr_cached_json_len := 0; nr_cached_json_ts := 0 |});
    mret 0%Z.

Definition networking_get_routes (max_routes : nat) : NM (list RouteEntry) :=
  size_ok ← ask (ne_sysctl_size env);
  if negb size_ok then mret []
  else
    ok ← ask (ne_alloc env);
    if negb ok then mret []
    else
      dump ← ask (ne_route_dump env);
      mret (match dump with
            | Some msgs => routes_loop (ne_ifname env) msgs max_routes []
            | None => []
            end).

Definition networking_get_dns_config : NM DnsConfig :=
  file ← ask (ne_resolv_conf env);
  mret (match file with
        | Some file => dns_loop (length file) file zero_dns
        | None => zero_dns
        end).

Definition networking_get_if_stats (max_interfaces : nat) : NM (list NetStats) :=
  ifap ← ask (ne_getifaddrs env);
  mret (match ifap with
        | Some ifap => inet_loop ifap (links_loop ifap max_interfaces [])
        | None => []
        end).

Definition networking_collect_sample : NM NetworkingSample :=
  ts ← ask (ne_clock env);
  routes ← networking_get_routes 50;
  dns ← networking_get_dns_config;
  interfaces ← networking_get_if_stats 10;
  mret {| sm_ts := ts; sm_routes := routes; sm_dns := dns; sm_interfaces := interfaces |}.

Definition timestamp_of (sample : NetworkingSample) : bytes :=
  default (bs "unknown") (ne_localtime env (sm_ts sample)).

Definition networking_build_json (sample : NetworkingSample) : NM (option bytes) :=
  ok ← ask (ne_alloc env);
  mret (if ok : bool
        then append_sample NETWORK_JSON_BUFFER_SIZE (timestamp_of sample) sample []
        else None).

Definition networking_heartbeat_cb : NM unit :=
  sample ← networking_collect_sample;
  json ← networking_build_json sample;
  _ ← modify (networking_ring_push sample);
  match json with
  | Some json => modify (λ s, set_ring (set_cached_json (Some json) (sm_ts sample) (ng_ring s)) s)
  | None => mret tt
  end.

Definition drop_buffer : NM unit := modify (λ s, set_ring (with_buf None (ng_ring s)) s).

Definition networking_ring_bootstrap : NM unit :=
  rc ← networking_ring_init;
  if negb (rc =? 0)%Z then mret tt
  else
    now ← ask (ne_clock env);
    s ← get;
    let '(registered, g) := heartbeat_register (Some networking_task) now (ng_hb s) in
    _ ← modify (set_hb g);
    match registered with
    | HB_REGISTER_ERROR => drop_buffer
    | _ =>
        created ← ask (ne_thread_create env);
        s ← get;
        let '(rc, _, g) := heartbeat_start created (ng_hb s) in
        _ ← modify (set_hb g);
        if negb (rc =? 0)%Z then drop_buffer else mret tt
    end.

Definition networking_once : NM unit :=
  s ← get;
  if ng_once s then mret tt else _ ← modify set_once; networking_ring_bootstrap.

Definition net_strdup (b : bytes) : NM (option bytes) :=
  ok ← ask (ne_alloc env); mret (if ok : bool then Some b else None).

Definition networking_get_json : NM (option bytes) :=
  _ ← networking_once;
  s ← get;
  cached ← (match nr_buf (ng_ring s), nr_cached_json (ng_ring s) with
            | Some _, Some json => net_strdup json
            | _, _ => mret None
            end);
  match cached with
  | Some json => mret (Some json)
  | None =>
      s ← get;
      sample ← (match networking_ring_last (ng_ring s) with
                | Some sample => mret sample
                | None => networking_collect_sample
                end);
      json ← networking_build_json sample;
      match json, nr_buf (ng_ring s) with
      | Some json, Some _ =>
          copy ← net_strdup json;
          _ ← modify (λ s, set_ring (set_cached_json copy (sm_ts sample) (ng_ring s)) s);
          mret (Some json)
      | _, _ => mret json
      end
  end.

Definition networking_json_build : NM (option bytes) := networking_get_json.

Definition networking_service_build_payload : NM (option bytes) := networking_get_json.

Definition networking_module_cleanup : NM unit :=
  modify (λ s, match nr_buf (ng_ring s) with None => s | Some _ => set_ring zero_net_ring s end).

Definition networking_build_response (json : bytes) (r : http_response) : http_response :=
  let r := set_content_type (http_response_set_status r 200) (bs "application/json") in
  let r := http_response_add_header r (bs "Cache-Control") (bs "no-store") in
  http_response_set_body r (Some json) (length json) true.

Section handler.
Context (k : kernel) (fuel : nat) (tid : Z) (reg : registry).

Definition networking_api_handler (req : http_request) (w : world) : NM (option (Z * world)) :=
  json ← networking_get_json;
  match json with
  | None =>
      mret (http_send_error k fuel tid reg req 500 (Some (bs "Network data collection failed")) w)
  | Some json =>
      let '(resp, st) := http_response_create tid (k_calloc k (w_time w)) (w_store w) in
      match resp with
      | None =>
          mret (http_send_error k fuel tid reg req 500 (Some (bs "Unable to allocate response"))
            {| w_store := st; w_time := S (w_time w); w_wire := w_wire w |})
      | Some _ => mret (respond k fuel tid req (networking_build_response json) w)
      end
  end.
End handler.
End module.

(** ** The text of a sample *)

(** The escapes of the module: quotes, backslashes and control characters. *)
Definition net_escape (s : bytes) : bytes := s ≫= net_escape_char.

#[export] Instance net_escape_ok : JsonEscape net_escape.
Proof.
  assert (∀ c, net_escape_char c = json_escape_char c ∨ net_escape_char c = control_escape c) as Hc.
  { intros c. apply (bool_decide_eq_true _). revert c. apply byte_forall. vm_compute. reflexivity. }
  split.
  - intros t s. induction t as [|c t IH]; [done|].
    change (net_escape (c :: t)) with (net_escape_char c ++ net_escape t). rewrite <- app_assoc.
    destruct (Hc c) as [->| ->];
      by rewrite ?split_string_escape_char, ?split_string_control, IH.
  - intros t. induction t as [|c t IH]; [done|].
    change (net_escape (c :: t)) with (net_escape_char c ++ net_escape t).
    destruct (Hc c) as [->| ->]; by rewrite ?json_read_escape_char, ?json_read_control, IH.
Qed.

(** The value of a sample. *)
Definition route_json (r : RouteEntry) : jvalue :=
  JObj [(bs "destination", JStr (rt_destination r)); (bs "gateway", JStr (rt_gateway r));
        (bs "netmask", JStr (rt_netmask r)); (bs "interface", JStr (rt_interface r));
        (bs "flags", JStr (rt_flags_str r))].

Definition interface_json (s : NetStats) : jvalue :=
  JObj [(bs "interface", JStr (ns_interface s)); (bs "ipv4", JStr (ns_ipv4 s));
        (bs "rx_packets", JNum (ns_rx_packets s)); (bs "rx_bytes", JNum (ns_rx_bytes s));
        (bs "rx_errors", JNum (ns_rx_errors s)); (bs "tx_packets", JNum (ns_tx_packets s));
        (bs "tx_bytes", JNum (ns_tx_bytes s)); (bs "tx_errors", JNum (ns_tx_errors s))].

Definition dns_json (d : DnsConfig) : jvalue :=
  JObj [(bs "nameservers", JArr (JStr <$> dns_nameservers d)); (bs "domain", JStr (dns_domain d));
        (bs "search", JStr (dns_search d))].

Definition sample_json (timestamp : bytes) (s : NetworkingSample) : jvalue :=
  JObj [(bs "timestamp", JStr timestamp); (bs "timestamp_unix", JNum (sm_ts s));
        (bs "routes", JArr (route_json <$> sm_routes s));
        (bs "dns", dns_json (sm_dns s));
        (bs "interfaces", JArr (interface_json <$> sm_interfaces s))].

Section emits.
Context (size : Z).

(** [m] appends [x] when there is room for it and a terminator. *)
Definition emits (m : jm) (x : bytes) : Prop :=
  ∀ t, (Z.of_nat (length t) < size)%Z →
    m t = if (Z.of_nat (length t + length x) <? size)%Z then Some (t ++ x) else None.

Lemma emits_append x : emits (networking_json_append size x) x.
Proof.
  intros t Ht. unfold networking_json_append. rewrite (proj2 (Z.leb_gt _ _)) by done.
  destruct (Z.ltb_spec (Z.of_nat (length t + length x)) size);
    destruct (Z.leb_spec (size - Z.of_nat (length t)) (Z.of_nat (length x))); (done || lia).
Qed.

Lemma emits_none : emits Some [].
Proof.
  intros t Ht. rewrite Nat.add_0_r, app_nil_r. by rewrite (proj2 (Z.ltb_lt _ _)).
Qed.

Lemma emits_seq a b x y : emits a x → emits b y → emits (a ;;; b) (x ++ y).
Proof.
  intros Ha Hb t Ht. unfold jseq. rewrite Ha by done. rewrite length_app.
  destruct (Z.ltb_spec (Z.of_nat (length t + length x)) size) as [Hx|Hx].
  - cbn. rewrite Hb by (rewrite length_app; done). rewrite length_app, app_assoc.
    by rewrite (Nat.add_assoc (length t)).
  - cbn. by rewrite (proj2 (Z.ltb_ge _ _)) by lia.
Qed.

Lemma emits_chars s : emits (append_chars size s) (net_escape s).
Proof.
  induction s as [|c s IH]; [apply emits_none|]. apply emits_seq; [apply emits_append|exact IH].
Qed.

Lemma emits_escaped s : emits (networking_json_append_escaped size (Some s)) (quoted net_escape s).
Proof.
  apply emits_seq; [apply emits_append|]. apply emits_seq; [apply emits_chars|apply emits_append].
Qed.

Lemma emits_each {A} (f : bool → A → jm) (pr : A → bytes) l :
  (∀ first x, emits (f first x) (comma_unless first ++ pr x)) →
  emits (append_each f true l) (join_comma (pr <$> l)) ∧
  (l ≠ [] → emits (append_each f false l) ([","%char] ++ join_comma (pr <$> l))).
Proof.
  intros Hf. induction l as [|x l [_ IH]]; [split; [apply emits_none|done]|].
  assert (∀ first, emits (append_each f first (x :: l))
    (comma_unless first ++ join_comma (pr <$> x :: l))) as H.
  { intros first. destruct l as [|y l].
    - cbn [append_each fmap list_fmap join_comma]. rewrite <- (app_nil_r (_ ++ _)).
      apply emits_seq; [apply Hf|apply emits_none].
    - change (join_comma (pr <$> x :: y :: l)) with (pr x ++ [","%char] ++ join_comma (pr <$> y :: l)).
      rewrite app_assoc. apply emits_seq; [apply Hf|by apply IH]. }
  split; [apply (H true)|intros _; apply (H false)].
Qed.
End emits.

Lemma emits_eq size m x y : emits size m x → x = y → emits size m y.
Proof. by intros ? <-. Qed.

Create HintDb net.
#[export] Hint Resolve emits_append emits_escaped emits_seq : net.

(** The piecewise text is the text of the value up to association. *)
Ltac same_text := unfold quoted; cbn [json_text fmap list_fmap join_comma fst snd];
  unfold quoted; rewrite <- !app_assoc; reflexivity.

Lemma emits_route size first r :
  emits size (append_route size first r) (comma_unless first ++ json_text net_escape (route_json r)).
Proof.
  eapply emits_eq; [unfold append_route; eauto 20 with net|]. unfold route_json. same_text.
Qed.

Lemma emits_nameserver size first ns :
  emits size (append_nameserver size first ns)
    (comma_unless first ++ json_text net_escape (JStr ns)).
Proof. apply emits_seq; [apply emits_append|apply emits_escaped]. Qed.

Lemma emits_interface size first s :
  emits size (append_interface size first s)
    (comma_unless first ++ json_text net_escape (interface_json s)).
Proof.
  eapply emits_eq; [unfold append_interface; eauto 20 with net|]. unfold interface_json. same_text.
Qed.

Lemma emits_sample size timestamp s :
  emits size (append_sample size timestamp s) (json_text net_escape (sample_json timestamp s)).
Proof.
  pose proof (proj1 (emits_each size (append_route size) _ (sm_routes s) (emits_route size))) as H1.
  pose proof (proj1 (emits_each size (append_nameserver size) _ (dns_nameservers (sm_dns s))
    (emits_nameserver size))) as H2.
  pose proof (proj1 (emits_each size (append_interface size) _ (sm_interfaces s)
    (emits_interface size))) as H3.
  eapply emits_eq; [unfold append_sample; eauto 40 with net|].
  unfold sample_json, dns_json. cbn [json_text fmap list_fmap join_comma fst snd].
  rewrite <- !list_fmap_compose. unfold quoted.
  set (t1 := join_comma _). set (t2 := join_comma _). set (t3 := join_comma _).
  rewrite <- !app_assoc. reflexivity.
Qed.

(** The text is complete, or there is none: a text that would fill the buffer is given up. *)
Lemma build_json_text env sample s :
  (networking_build_json env sample s).1 =
    let text := json_text net_escape (sample_json (timestamp_of env sample) sample) in
    if ne_alloc env (ng_time s) && (Z.of_nat (length text) <? NETWORK_JSON_BUFFER_SIZE)%Z
    then Some text else None.
Proof.
  unfold networking_build_json, ask. run_st. destruct (ne_alloc env (ng_time s)); [|done].
  cbn [fst andb]. rewrite emits_sample by done. cbn [length app Nat.add]. done.
Qed.

(** ** What is collected fits the buffer *)

(** At most [n] bytes that need no escape. *)
Definition plain (n : Z) (s : bytes) : Prop := (zlen s ≤ n)%Z ∧ net_escape s = s.

(** inet_ntop writes at most 45 digits, letters, dots and colons; an interface name has at
    most 15 bytes; the counters are unsigned and [time_t] is signed, of 64 bits. *)
Record env_ok (env : net_env) : Prop := {
  eo_addr t msgs m off :
    ne_route_dump env t = Some msgs → m ∈ msgs → plain 45 (sa_text (rtm_sockaddr m off));
  eo_ifname i name : ne_ifname env i = Some name → plain 15 name;
  eo_inet t ifap name text :
    ne_getifaddrs env t = Some ifap →
    {| ifa_name := name; ifa_addr := Some (InetAddr (Some text)) |} ∈ ifap → plain 15 text;
  eo_data t ifap name d :
    ne_getifaddrs env t = Some ifap →
    {| ifa_name := name; ifa_addr := Some (LinkAddr (Some d)) |} ∈ ifap →
    Forall (λ z, 0 ≤ z < 2 ^ 64)%Z [ifi_ipackets d; ifi_ibytes d; ifi_ierrors d; ifi_opackets d;
                                    ifi_obytes d; ifi_oerrors d];
  eo_localtime ts text : ne_localtime env ts = Some text → plain 63 text;
  eo_clock t : (- 2 ^ 63 ≤ ne_clock env t < 2 ^ 63)%Z
}.

Record route_ok (r : RouteEntry) : Prop := {
  ro_destination : plain 45 (rt_destination r);
  ro_gateway : plain 45 (rt_gateway r);
  ro_netmask : plain 45 (rt_netmask r);
  ro_interface : plain 15 (rt_interface r);
  ro_flags : plain 5 (rt_flags_str r)
}.

Record interface_ok (s : NetStats) : Prop := {
  io_interface : (zlen (ns_interface s) ≤ 15)%Z;
  io_ipv4 : plain 15 (ns_ipv4 s);
  io_counters : Forall (λ z, 0 ≤ z < 2 ^ 64)%Z
    [ns_rx_packets s; ns_rx_bytes s; ns_rx_errors s; ns_tx_packets s; ns_tx_bytes s; ns_tx_errors s]
}.

Record dns_ok (d : DnsConfig) : Prop := {
  do_count : (zlen (dns_nameservers d) ≤ 8)%Z;
  do_nameservers : Forall (λ n, zlen n ≤ 45)%Z (dns_nameservers d);
  do_domain : (zlen (dns_domain d) ≤ 255)%Z;
  do_search : (zlen (dns_search d) ≤ 511)%Z
}.

Record sample_ok (s : NetworkingSample) : Prop := {
  so_ts : (- 2 ^ 63 ≤ sm_ts s < 2 ^ 63)%Z;
  so_route_count : (zlen (sm_routes s) ≤ 50)%Z;
  so_routes : Forall route_ok (sm_routes s);
  so_dns : dns_ok (sm_dns s);
  so_interface_count : (zlen (sm_interfaces s) ≤ 10)%Z;
  so_interfaces : Forall interface_ok (sm_interfaces s)
}.

Lemma zlen_quoted s : zlen (quoted net_escape s) = (2 + zlen (net_escape s))%Z.
Proof. unfold quoted. rewrite !zlen_app. unfold zlen. simpl length. lia. Qed.

Lemma plain_quoted n s : plain n s → (zlen (quoted net_escape s) ≤ n + 2)%Z.
Proof. intros [Hl He]. rewrite zlen_quoted, He. lia. Qed.

Lemma net_escape_length s : (zlen (net_escape s) ≤ 6 * zlen s)%Z.
Proof.
  assert (∀ c, length (net_escape_char c) <=? 6 = true) as Hc
    by (apply byte_forall; vm_compute; reflexivity).
  induction s as [|c s IH]; [done|].
  change (net_escape (c :: s)) with (net_escape_char c ++ net_escape s).
  rewrite zlen_app, zlen_cons. specialize (Hc c). bool_facts. unfold zlen in *. lia.
Qed.

Lemma quoted_length n s : (zlen s ≤ n → zlen (quoted net_escape s) ≤ 6 * n + 2)%Z.
Proof. intros Hl. rewrite zlen_quoted. pose proof (net_escape_length s). lia. Qed.

Lemma join_comma_length b l :
  Forall (λ t, zlen t ≤ b)%Z l → (0 ≤ b)%Z → (zlen (join_comma l) ≤ zlen l * (b + 1))%Z.
Proof.
  intros Hl Hb. induction Hl as [|t l Ht Hl IH]; [done|]. rewrite zlen_cons.
  destruct l as [|u l]; [cbn [join_comma]; rewrite zlen_nil; lia|].
  change (join_comma (t :: u :: l)) with (t ++ [","%char] ++ join_comma (u :: l)).
  rewrite !zlen_app. change (zlen [","%char]) with 1%Z. lia.
Qed.

(** A member with a known key: the quotes, the key, the colon and the value. *)
Lemma member_length key v b :
  (zlen (json_text net_escape v) ≤ b - 19)%Z → (zlen (net_escape key) ≤ 16)%Z →
  (zlen (member_text net_escape (key, v)) ≤ b)%Z.
Proof.
  intros Hv Hk. unfold member_text. cbn [fst snd]. rewrite !zlen_app, zlen_quoted.
  change (zlen [":"%char]) with 1%Z. lia.
Qed.

Lemma object_length ms b :
  Forall (λ m, zlen (member_text net_escape m) ≤ b)%Z ms → (0 ≤ b)%Z →
  (zlen (json_text net_escape (JObj ms)) ≤ zlen ms * (b + 1) + 2)%Z.
Proof.
  intros Hms Hb. change (json_text net_escape (JObj ms)) with
    (["{"%char] ++ join_comma (member_text net_escape <$> ms) ++ ["}"%char]).
  rewrite !zlen_app. change (zlen ["{"%char]) with 1%Z. change (zlen ["}"%char]) with 1%Z.
  pose proof (join_comma_length b (member_text net_escape <$> ms)) as H. unfold zlen in H at 3.
  rewrite length_fmap in H. fold (zlen ms) in H.
  assert (Forall (λ t, zlen t ≤ b)%Z (member_text net_escape <$> ms)) as Hf by by apply Forall_fmap.
  specialize (H Hf Hb). lia.
Qed.

Lemma array_length l b :
  Forall (λ v, zlen (json_text net_escape v) ≤ b)%Z l → (0 ≤ b)%Z →
  (zlen (json_text net_escape (JArr l)) ≤ zlen l * (b + 1) + 2)%Z.
Proof.
  intros Hl Hb. change (json_text net_escape (JArr l)) with
    (["["%char] ++ join_comma (json_text net_escape <$> l) ++ ["]"%char]).
  rewrite !zlen_app. change (zlen ["["%char]) with 1%Z. change (zlen ["]"%char]) with 1%Z.
  pose proof (join_comma_length b (json_text net_escape <$> l)) as H. unfold zlen in H at 3.
  rewrite length_fmap in H. fold (zlen l) in H.
  assert (Forall (λ t, zlen t ≤ b)%Z (json_text net_escape <$> l)) as Hf by by apply Forall_fmap.
  specialize (H Hf Hb). lia.
Qed.

Lemma join_comma_sum l : (zlen (join_comma l) ≤ foldr (λ t n, zlen t + 1 + n) 0 l)%Z.
Proof.
  induction l as [|t l IH]; [done|]. cbn [foldr]. destruct l as [|u l].
  - cbn [join_comma foldr]. lia.
  - change (join_comma (t :: u :: l)) with (t ++ [","%char] ++ join_comma (u :: l)).
    rewrite !zlen_app. change (zlen [","%char]) with 1%Z. lia.
Qed.

(** A bound for every member of an object. *)
Ltac members := repeat (apply Forall_cons; split); [..|by constructor];
  (apply member_length; [|vm_compute; discriminate]).

Lemma route_length r : route_ok r → (zlen (json_text net_escape (route_json r)) ≤ 337)%Z.
Proof.
  intros [H1%plain_quoted H2%plain_quoted H3%plain_quoted H4%plain_quoted H5%plain_quoted].
  etrans; [apply (object_length _ 66); [|done]|vm_compute; discriminate].
  members; cbn [json_text]; lia.
Qed.

Lemma interface_length s : interface_ok s → (zlen (json_text net_escape (interface_json s)) ≤ 898)%Z.
Proof.
  intros [H1%(quoted_length 15) H2%plain_quoted H3]. rewrite !Forall_cons in H3.
  destruct H3 as (C1 & C2 & C3 & C4 & C5 & C6 & _).
  etrans; [apply (object_length _ 111); [|done]|vm_compute; discriminate].
  members; cbn [json_text]; first [lia|etrans; [apply fmt_Z_length; lia|lia]].
Qed.

Lemma dns_length d : dns_ok d → (zlen (json_text net_escape (dns_json d)) ≤ 9266)%Z.
Proof.
  intros [H1 H2 H3%(quoted_length 255) H4%(quoted_length 511)].
  assert (zlen (json_text net_escape (JArr (JStr <$> dns_nameservers d))) ≤ 2186)%Z.
  { etrans; [apply (array_length _ 272); [|done]|].
    - apply Forall_fmap. eapply Forall_impl; [exact H2|]. intros n Hn. unfold compose. cbn [json_text].
      pose proof (quoted_length 45 n Hn). lia.
    - unfold zlen in *. rewrite length_fmap. lia. }
  etrans; [apply (object_length _ 3087); [|done]|vm_compute; discriminate].
  members; [lia|cbn [json_text]; lia..].
Qed.

(** The text of a collected sample always fits. *)
Lemma sample_length timestamp s :
  plain 63 timestamp → sample_ok s →
  (zlen (json_text net_escape (sample_json timestamp s)) < NETWORK_JSON_BUFFER_SIZE)%Z.
Proof.
  intros Ht%plain_quoted [Hts Hrc Hr Hd Hic Hi]. pose proof (dns_length _ Hd) as HD.
  assert (zlen (json_text net_escape (JArr (route_json <$> sm_routes s))) ≤ 16902)%Z as HR.
  { etrans; [apply (array_length _ 337); [|done]|].
    - apply Forall_fmap. eapply Forall_impl; [exact Hr|]. apply route_length.
    - unfold zlen in *. rewrite length_fmap. lia. }
  assert (zlen (json_text net_escape (JArr (interface_json <$> sm_interfaces s))) ≤ 8992)%Z as HI.
  { etrans; [apply (array_length _ 898); [|done]|].
    - apply Forall_fmap. eapply Forall_impl; [exact Hi|]. apply interface_length.
    - unfold zlen in *. rewrite length_fmap. lia. }
  change (json_text net_escape (sample_json timestamp s)) with
    (["{"%char] ++ join_comma (member_text net_escape <$>
      [(bs "timestamp", JStr timestamp); (bs "timestamp_unix", JNum (sm_ts s));
        (bs "routes", JArr (route_json <$> sm_routes s));
        (bs "dns", dns_json (sm_dns s));
        (bs "interfaces", JArr (interface_json <$> sm_interfaces s))]) ++ ["}"%char]).
  rewrite !zlen_app. change (zlen ["{"%char]) with 1%Z. change (zlen ["}"%char]) with 1%Z.
  pose proof (join_comma_sum (member_text net_escape <$>
      [(bs "timestamp", JStr timestamp); (bs "timestamp_unix", JNum (sm_ts s));
        (bs "routes", JArr (route_json <$> sm_routes s));
        (bs "dns", dns_json (sm_dns s));
        (bs "interfaces", JArr (interface_json <$> sm_interfaces s))])) as H.
  cbn [fmap list_fmap foldr] in H.
  pose proof (member_length (bs "timestamp") (JStr timestamp) 84 ltac:(cbn [json_text]; lia)
    ltac:(vm_compute; discriminate)).
  pose proof (member_length (bs "timestamp_unix") (JNum (sm_ts s)) 39
    ltac:(cbn [json_text]; etrans; [apply fmt_Z_length; lia|lia]) ltac:(vm_compute; discriminate)).
  pose proof (member_length (bs "routes") _ 16921 ltac:(etrans; [exact HR|lia]) ltac:(vm_compute; discriminate)).
  pose proof (member_length (bs "dns") _ 9285 ltac:(etrans; [exact HD|lia]) ltac:(vm_compute; discriminate)).
  pose proof (member_length (bs "interfaces") _ 9011 ltac:(etrans; [exact HI|lia]) ltac:(vm_compute; discriminate)).
  unfold NETWORK_JSON_BUFFER_SIZE. cbn [fmap list_fmap]. lia.
Qed.

(** ** What is collected *)

(** The routes are those of the first wanted messages. *)
Lemma routes_loop_spec ifname msgs n routes :
  length routes ≤ n →
  routes_loop ifname msgs n routes
  = routes ++ take (n - length routes) (route_of ifname <$> filter (λ m, route_wanted m = true) msgs).
Proof.
  revert routes. induction msgs as [|m msgs IH]; intros routes Hn; cbn [routes_loop].
  { cbn. by rewrite take_nil, app_nil_r. }
  destruct (length routes <? n) eqn:Hl; bool_facts.
  2: { replace (n - length routes) with 0 by lia. by rewrite take_0, app_nil_r. }
  rewrite filter_cons. destruct (route_wanted m) eqn:Hw.
  - rewrite decide_True by done. rewrite IH by (rewrite length_app; simpl; lia).
    rewrite length_app, fmap_cons, <- app_assoc. f_equal. simpl length.
    by replace (n - length routes) with (S (n - (length routes + 1))) by lia.
  - rewrite decide_False by done. by apply IH.
Qed.

Lemma flags_plain flags : plain 5 (strlcpy 32 (flags_text flags)).
Proof.
  unfold flags_text. repeat (case_match; try (split; [vm_compute; discriminate|reflexivity])).
Qed.

Lemma plain_nil n : (0 ≤ n)%Z → plain n [].
Proof. done. Qed.

Lemma next_addr_plain m flag text off :
  (∀ sa, plain 45 (sa_text sa) → plain 45 (text sa)) →
  (∀ o, plain 45 (sa_text (rtm_sockaddr m o))) → plain 45 (next_addr m flag text off).1.
Proof. intros Ht Hm. unfold next_addr. destruct (has_flag _ _); [by apply Ht|by apply plain_nil]. Qed.

Lemma route_of_ok env m :
  env_ok env → (∀ o, plain 45 (sa_text (rtm_sockaddr m o))) → route_ok (route_of (ne_ifname env) m).
Proof.
  intros Henv Hm. unfold route_of.
  assert (∀ t, (t = bs "-" ∨ t = bs "link#") → plain 45 t) as Hdash
    by (intros t [->| ->]; (split; [vm_compute; discriminate|reflexivity])).
  pose proof (next_addr_plain m RTA_DST destination_text 0) as H1.
  destruct (next_addr m RTA_DST destination_text 0) as [dst o1].
  pose proof (next_addr_plain m RTA_GATEWAY gateway_text o1) as H2.
  destruct (next_addr m RTA_GATEWAY gateway_text o1) as [gw o2].
  pose proof (next_addr_plain m RTA_NETMASK netmask_text o2) as H3.
  destruct (next_addr m RTA_NETMASK netmask_text o2) as [mask o3]. cbn [fst] in *.
  split; cbn [rt_destination rt_gateway rt_netmask rt_interface rt_flags_str].
  - apply H1; [|done]. intros sa Hsa. unfold destination_text. destruct (sa_fam sa); auto.
  - apply H2; [|done]. intros sa Hsa. unfold gateway_text. destruct (sa_fam sa); auto.
  - apply H3; [|done]. intros sa Hsa. unfold netmask_text. destruct (sa_fam sa); auto.
  - destruct (0 <? rtm_index m)%Z; [|by apply plain_nil].
    destruct (ne_ifname env (rtm_index m)) as [name|] eqn:E; [|by apply plain_nil].
    by apply (eo_ifname env Henv _ _ E).
  - apply flags_plain.
Qed.

Lemma dns_line_ok config line :
  dns_ok config → (zlen (dns_nameservers config) < 8)%Z → dns_ok (dns_line config line).
Proof.
  intros Hok Hn. pose proof Hok as [H1 H2 H3 H4]. unfold dns_line.
  destruct (skip_while blank_char line) as [|c p]; [done|].
  destruct (Ascii.eqb c "#" || Ascii.eqb c lf); [done|].
  destruct (is_prefix (bs "nameserver") (c :: p)).
  { split; cbn [dns_nameservers dns_domain dns_search]; [|..|done|done].
    - rewrite zlen_app. change (zlen [strlcpy 46 (dns_value (drop 10 (c :: p)))]) with 1%Z. lia.
    - apply Forall_app. split; [done|]. apply Forall_singleton. apply (strlcpy_zlen 46). }
  destruct (is_prefix (bs "domain") (c :: p)).
  { split; cbn [dns_nameservers dns_domain dns_search]; try done. apply (strlcpy_zlen 256). }
  destruct (is_prefix (bs "search") (c :: p)); [|done].
  split; cbn [dns_nameservers dns_domain dns_search]; try done. apply (strlcpy_zlen 512).
Qed.

Lemma dns_loop_ok fuel file config : dns_ok config → dns_ok (dns_loop fuel file config).
Proof.
  revert file config. induction fuel as [|fuel IH]; intros file config Hok; [done|]. cbn [dns_loop].
  destruct file as [|c file]; [done|]. destruct (fgets 511 (c :: file)) as [line rest].
  destruct (length (dns_nameservers config) <? 8) eqn:Hn; [|done]. bool_facts.
  apply IH, dns_line_ok; [done|]. unfold zlen. lia.
Qed.

Lemma links_loop_ok P ifap n stats :
  (∀ name d, {| ifa_name := name; ifa_addr := Some (LinkAddr (Some d)) |} ∈ ifap → P (link_stats name d)) →
  Forall P stats → length stats ≤ n →
  Forall P (links_loop ifap n stats) ∧ length (links_loop ifap n stats) ≤ n.
Proof.
  revert stats. induction ifap as [|[name addr] ifap IH]; intros stats HP Hs Hn; [done|].
  cbn [links_loop]. destruct (length stats <? n) eqn:Hl; [|done]. bool_facts.
  assert (∀ nm d, {| ifa_name := nm; ifa_addr := Some (LinkAddr (Some d)) |} ∈ ifap →
    P (link_stats nm d)) by (intros nm d Hin; apply HP; by right).
  cbn [ifa_addr ifa_name]. destruct addr as [[[d|]|text|]|]; try by apply IH.
  apply IH; [done| |rewrite length_app; simpl; lia]. apply Forall_app. split; [done|].
  apply Forall_singleton, HP. by left.
Qed.

Lemma assign_ipv4_ok P name text stats :
  (∀ s, P s → P (set_ipv4 (default (bs "-") text) s)) →
  Forall P stats → Forall P (assign_ipv4 name text stats) ∧
  length (assign_ipv4 name text stats) = length stats.
Proof.
  intros HP. induction 1 as [|s stats Hs Hst [IH1 IH2]]; [done|]. cbn [assign_ipv4].
  destruct (negb (streq _ _)); [split; [by constructor|simpl; congruence]|].
  destruct (negb (streq _ _)); split; try done; constructor; auto.
Qed.

Lemma inet_loop_ok (P : NetStats → Prop) ifap stats :
  (∀ name text s, {| ifa_name := name; ifa_addr := Some (InetAddr text) |} ∈ ifap → P s →
     P (set_ipv4 (default (bs "-") text) s)) →
  Forall P stats → Forall P (inet_loop ifap stats) ∧ length (inet_loop ifap stats) = length stats.
Proof.
  revert stats. induction ifap as [|[name addr] ifap IH]; intros stats HP Hs; [done|].
  cbn [inet_loop ifa_addr ifa_name].
  assert (∀ nm text s, {| ifa_name := nm; ifa_addr := Some (InetAddr text) |} ∈ ifap → P s →
    P (set_ipv4 (default (bs "-") text) s)) as HP' by (intros nm text s Hin; apply (HP nm); by right).
  destruct addr as [[data|text|]|]; try by apply IH.
  destruct (assign_ipv4_ok P name text stats) as [H1 H2]; [|done|].
  - intros s. apply (HP name). by left.
  - destruct (IH (assign_ipv4 name text stats) HP' H1) as [H3 H4]. split; [done|congruence].
Qed.

Lemma if_stats_ok env t ifap n :
  env_ok env → ne_getifaddrs env t = Some ifap →
  Forall interface_ok (inet_loop ifap (links_loop ifap n [])) ∧
  length (inet_loop ifap (links_loop ifap n [])) ≤ n.
Proof.
  intros Henv Hifap. assert (plain 15 (bs "-")) as Hdash by (split; [vm_compute; discriminate|done]).
  destruct (links_loop_ok interface_ok ifap n []) as [H1 H2]; [|constructor|simpl; lia|].
  - intros name d Hd. pose proof (eo_data env Henv t ifap name d Hifap Hd).
    split; [apply (strlcpy_zlen 16)|done|done].
  - destruct (inet_loop_ok interface_ok ifap (links_loop ifap n [])) as [H3 H4]; [|done|].
    + intros name text s Hin [I1 I2 I3]. split; [done| |done].
      destruct text as [text|]; [|done]. by apply (eo_inet env Henv t ifap name text).
    + split; [done|lia].
Qed.

Lemma zero_dns_ok : dns_ok zero_dns.
Proof. split; try done; constructor. Qed.

(** A sample that may have been collected before the question [t]. *)
Definition collected (env : net_env) (t : nat) (sample : NetworkingSample) : Prop :=
  ∃ s, (networking_collect_sample env s).1 = sample ∧ ng_time s < t.

Lemma get_routes_ok env s :
  env_ok env → let r := (networking_get_routes env 50 s).1 in (zlen r ≤ 50)%Z ∧ Forall route_ok r.
Proof.
  intros Henv. unfold networking_get_routes, ask. run_st.
  destruct (negb _); [by split; [|constructor]|]. destruct (negb _); [by split; [|constructor]|].
  cbn [fst]. destruct (ne_route_dump env _) as [msgs|] eqn:E; [|by split; [|constructor]].
  rewrite routes_loop_spec by (simpl; lia). cbn [app]. split.
  - unfold zlen. rewrite length_take. simpl length. lia.
  - apply Forall_take, Forall_fmap, Forall_forall. intros m [_ Hm]%list_elem_of_filter.
    apply route_of_ok; [done|]. intros o. by eapply eo_addr.
Qed.

Lemma get_if_stats_ok env s :
  env_ok env → let i := (networking_get_if_stats env 10 s).1 in (zlen i ≤ 10)%Z ∧ Forall interface_ok i.
Proof.
  intros Henv. unfold networking_get_if_stats, ask. run_st. cbn [fst].
  destruct (ne_getifaddrs env _) as [ifap|] eqn:E; [|by split; [|constructor]].
  destruct (if_stats_ok env _ ifap 10 Henv E). unfold zlen. split; [lia|done].
Qed.

Lemma collect_ok env s : env_ok env → sample_ok (networking_collect_sample env s).1.
Proof.
  intros Henv. unfold networking_collect_sample. unfold ask at 1. run_st.
  pose proof (get_routes_ok env (ng_tick s) Henv) as [R1 R2].
  destruct (networking_get_routes env 50 (ng_tick s)) as [routes s1].
  unfold networking_get_dns_config, ask. run_st.
  pose proof (get_if_stats_ok env (ng_tick s1) Henv) as [I1 I2].
  destruct (networking_get_if_stats env 10 (ng_tick s1)) as [interfaces s2]. cbn [fst snd] in *.
  split; cbn [sm_ts sm_routes sm_dns sm_interfaces]; try done; [by apply eo_clock|].
  destruct (ne_resolv_conf env _); [apply dns_loop_ok|]; apply zero_dns_ok.
Qed.

(** ** The text of a collected sample *)

Definition sample_text (env : net_env) (sample : NetworkingSample) : bytes :=
  json_text net_escape (sample_json (timestamp_of env sample) sample).

Lemma timestamp_plain env sample : env_ok env → plain 63 (timestamp_of env sample).
Proof.
  intros Henv. unfold timestamp_of. destruct (ne_localtime env (sm_ts sample)) eqn:E;
    [by eapply eo_localtime|split; [vm_compute; discriminate|reflexivity]].
Qed.

Lemma build_collected env sample s :
  env_ok env → sample_ok sample →
  (networking_build_json env sample s).1
  = if ne_alloc env (ng_time s) then Some (sample_text env sample) else None.
Proof.
  intros Henv Hs. rewrite build_json_text. cbv zeta.
  pose proof (sample_length _ _ (timestamp_plain env sample Henv) Hs) as Hl. unfold zlen in Hl.
  rewrite (proj2 (Z.ltb_lt _ _) Hl), andb_true_r. done.
Qed.

(** C29. Whatever the kernel, the resolver file and the interfaces say, the text of a collected
    sample fits its buffer and a client reads the sample from it: given memory the text is
    never given up, and no name in the resolver file, however odd its bytes, can break out
    of its string. *)
Theorem networking_json_faithful env s s' :
  env_ok env →
  let sample := (networking_collect_sample env s).1 in
  match (networking_build_json env sample s').1 with
  | Some text => json_parse text = Some (sample_json (timestamp_of env sample) sample)
  | None => ne_alloc env (ng_time s') = false
  end.
Proof.
  intros Henv sample. rewrite build_collected by (done || by apply collect_ok).
  destruct (ne_alloc env (ng_time s')); [|done]. by apply json_parse_text; apply _.
Qed.

(** ** The ring and the requests *)

Section runs.
Context (env : net_env).

(** The callback's new samples, and whether they reached the ring. *)
Definition pushed (h : list NetworkingSample) (s : net_state) : list NetworkingSample :=
  match nr_buf (ng_ring s) with
  | Some _ => h ++ [(networking_collect_sample env s).1]
  | None => h
  end.

(** Requests, callbacks, the clean-up and what other parts of the program do to the
    scheduler, in any order; [h] is what was put into the ring. *)
Inductive net_run : list NetworkingSample → net_state → Prop :=
| net_start : net_run [] net_static
| net_request h s : net_run h s → net_run h (networking_get_json env s).2
| net_callback h s : net_run h s → net_run (pushed h s) (networking_heartbeat_cb env s).2
| net_scheduler h s g : net_run h s → net_run h (set_hb g s)
| net_cleanup h s : net_run h s → net_run h (networking_module_cleanup s).2.

Record ring_good (t : nat) (h : list NetworkingSample) (r : NetworkingRing) : Prop := {
  rg_head : nr_buf r ≠ None → nr_head r = length h mod NETWORK_RING_CAPACITY;
  rg_buf buf : nr_buf r = Some buf → length buf = NETWORK_RING_CAPACITY;
  rg_last : nr_buf r ≠ None → networking_ring_last r = last h;
  rg_collected : Forall (collected env t) h;
  rg_none : nr_buf r = None → nr_cached_json r = None;
  rg_cached json : nr_cached_json r = Some json →
    ∃ sample, collected env t sample ∧ json = sample_text env sample;
  rg_fresh : (∀ t, ne_alloc env t = true) → nr_buf r ≠ None →
    ∀ sample, last h = Some sample → nr_cached_json r = Some (sample_text env sample)
}.

Record net_good (h : list NetworkingSample) (s : net_state) : Prop := {
  nd_ring : ring_good (ng_time s) h (ng_ring s);
  nd_once : ng_once s = false → h = [] ∧ nr_buf (ng_ring s) = None
}.

(** Steps that only let time pass. *)
Definition idle (s s' : net_state) : Prop :=
  ng_ring s' = ng_ring s ∧ ng_once s' = ng_once s ∧ ng_crash s' = ng_crash s ∧ ng_time s ≤ ng_time s'.

#[export] Instance idle_preorder : PreOrder idle.
Proof.
  split; [by intros s|]. intros s1 s2 s3 (?&?&?&?) (?&?&?&?). split_and!; (congruence || lia).
Qed.

Lemma idle_ask {A} (f : nat → A) : steps idle (ask f).
Proof. intros s. split_and!; cbn; try done; lia. Qed.

Lemma idle_routes n : steps idle (networking_get_routes env n).
Proof.
  intros s. unfold networking_get_routes, ask. run_st.
  destruct (negb _); [|destruct (negb _)]; (split_and!; cbn; try done; lia).
Qed.

Lemma idle_collect : steps idle (networking_collect_sample env).
Proof.
  unfold networking_collect_sample, networking_get_dns_config, networking_get_if_stats.
  repeat first [apply idle_routes|apply idle_ask|apply steps_ret; apply _
               |apply steps_bind; [apply _| |intros ?]].
Qed.

Lemma idle_build sample : steps idle (networking_build_json env sample).
Proof. apply steps_bind; [apply _|apply idle_ask|intros ?; apply steps_ret; apply _]. Qed.

Lemma idle_strdup b : steps idle (net_strdup env b).
Proof. apply steps_bind; [apply _|apply idle_ask|intros ?; apply steps_ret; apply _]. Qed.

(** Collecting takes time, so that the sample counts as collected afterwards. *)
Lemma collect_time s : ng_time s < ng_time (networking_collect_sample env s).2.
Proof.
  unfold networking_collect_sample. unfold ask at 1. run_st.
  pose proof (idle_routes 50 (ng_tick s)) as (_ & _ & _ & Ht).
  destruct (networking_get_routes env 50 (ng_tick s)) as [routes s1].
  unfold networking_get_dns_config, networking_get_if_stats, ask. run_st. cbn in *. lia.
Qed.

Lemma collected_mono t t' sample : t ≤ t' → collected env t sample → collected env t' sample.
Proof. intros Ht (s & ? & ?). exists s. split; [done|lia]. Qed.

Lemma ring_good_mono t t' h r : t ≤ t' → ring_good t h r → ring_good t' h r.
Proof.
  intros Ht [H1 H2 H3 H4 H5 H6 H7]. split; try done.
  - eapply Forall_impl; [exact H4|]. intros x. by apply collected_mono.
  - intros json Hj. destruct (H6 json Hj) as (x & Hx & ->). eauto using collected_mono.
Qed.

Lemma net_good_idle h s s' : idle s s' → net_good h s → net_good h s'.
Proof.
  intros (Hr & Ho & _ & Ht) [H1 H2]. split; [rewrite Hr; by eapply ring_good_mono|].
  rewrite Ho, Hr. done.
Qed.

Lemma capacity_pos : 0 < NETWORK_RING_CAPACITY.
Proof. apply Nat.ltb_lt. vm_compute. reflexivity. Qed.

Lemma last_slot i : (i mod NETWORK_RING_CAPACITY + 1) mod NETWORK_RING_CAPACITY =
  S i mod NETWORK_RING_CAPACITY.
Proof. rewrite Nat.Div0.add_mod_idemp_l. f_equal. lia. Qed.

(** The slot before the head is the one written last. *)
Lemma slot_before i :
  (S i mod NETWORK_RING_CAPACITY + NETWORK_RING_CAPACITY - 1) mod NETWORK_RING_CAPACITY
  = i mod NETWORK_RING_CAPACITY.
Proof.
  pose proof capacity_pos. rewrite <- Nat.add_sub_assoc by lia.
  rewrite Nat.Div0.add_mod_idemp_l.
  replace (S i + (NETWORK_RING_CAPACITY - 1)) with (i + 1 * NETWORK_RING_CAPACITY) by lia.
  apply Nat.Div0.mod_add.
Qed.

(** A sample that reaches the ring becomes its last one. *)
Lemma push_last h s sample buf :
  nr_buf (ng_ring s) = Some buf → ring_good (ng_time s) h (ng_ring s) →
  let r := ng_ring (networking_ring_push sample s) in
  nr_head r = length (h ++ [sample]) mod NETWORK_RING_CAPACITY ∧
  (∃ buf', nr_buf r = Some buf' ∧ length buf' = NETWORK_RING_CAPACITY) ∧
  networking_ring_last r = Some sample ∧ nr_cached_json r = nr_cached_json (ng_ring s).
Proof.
  intros Hbuf [H1 H2 _ _ _ _ _]. specialize (H1 ltac:(by rewrite Hbuf)). specialize (H2 buf Hbuf).
  unfold networking_ring_push. rewrite Hbuf. cbn [ng_ring set_ring nr_head nr_buf nr_cached_json].
  rewrite H1, last_slot, length_app. replace (length h + length [sample]) with (S (length h)) by (simpl; lia).
  split_and!; [done|eexists; split; [done|by rewrite length_insert]| |done].
  unfold networking_ring_last. cbn [nr_buf nr_count nr_head].
  rewrite (proj2 (Nat.eqb_neq _ 0)).
  2: { pose proof capacity_pos. destruct (Nat.ltb_spec (nr_count (ng_ring s)) NETWORK_RING_CAPACITY); lia. }
  rewrite slot_before. rewrite list_lookup_total_insert_eq; [done|].
  rewrite H2. apply Nat.mod_upper_bound. pose proof capacity_pos. lia.
Qed.

Hypothesis Henv : env_ok env.

(** A text of a collected sample may be cached. *)
Lemma set_cached_good t h r sample json :
  ring_good t h r → nr_buf r ≠ None → collected env t sample →
  (json = Some (sample_text env sample) ∨
   json = None ∧ ∃ t', ne_alloc env t' = false) →
  (∀ x, last h = Some x → x = sample) →
  ring_good t h (set_cached_json json (sm_ts sample) r).
Proof.
  intros [H1 H2 H3 H4 H5 H6 H7] Hbuf Hs Hjson Hlast. split; cbn [nr_buf nr_head nr_cached_json
    set_cached_json]; try done.
  - intros json' E. destruct Hjson as [->|[-> _]]; [|done]. injection E as <-. by exists sample.
  - intros Hall _ x Hx. destruct Hjson as [->|[_ [t' Ht']]]; [by rewrite (Hlast x Hx)|].
    by rewrite Hall in Ht'.
Qed.

(** A callback puts its sample into the ring and, given memory, its text beside it. *)
Lemma push_good h s sample buf json :
  nr_buf (ng_ring s) = Some buf → ring_good (ng_time s) h (ng_ring s) →
  collected env (ng_time s) sample →
  (json = Some (sample_text env sample) ∨ json = None ∧ ∃ t', ne_alloc env t' = false) →
  ring_good (ng_time s) (h ++ [sample])
    (let r := ng_ring (networking_ring_push sample s) in
     match json with Some j => set_cached_json (Some j) (sm_ts sample) r | None => r end).
Proof.
  intros Hbuf Hring Hs Hjson. pose proof Hring as [_ _ _ H4 _ H6 _].
  pose proof (push_last h s sample buf Hbuf Hring) as (P1 & (buf' & P2 & P3) & P4 & P5). cbv zeta.
  set (r := ng_ring (networking_ring_push sample s)) in *.
  assert (∀ buf0, nr_buf r = Some buf0 → length buf0 = NETWORK_RING_CAPACITY) as Hlen
    by (intros buf0; rewrite P2; by intros [= <-]).
  assert (Forall (collected env (ng_time s)) (h ++ [sample])) as Hall
    by (apply Forall_app; split; [done|by apply Forall_singleton]).
  destruct Hjson as [->|[-> [t' Ht']]]; split; cbn [nr_buf nr_head nr_cached_json set_cached_json];
    rewrite ?last_snoc, ?P2, ?P5; try done.
  - by intros buf0 <-%(inj Some).
  - intros json' <-%(inj Some). by exists sample.
  - intros _ _ x. by intros <-%(inj Some).
  - by intros buf0 <-%(inj Some).
  - intros Hmem. by rewrite Hmem in Ht'.
Qed.

(** The callback crashes exactly when there is no buffer. *)
Lemma callback_crash s :
  ng_crash (networking_heartbeat_cb env s).2 =
    (ng_crash s || match nr_buf (ng_ring s) with Some _ => false | None => true end).
Proof.
  unfold networking_heartbeat_cb. run_st.
  pose proof (idle_collect s) as (R1 & _ & C1 & _).
  destruct (networking_collect_sample env s) as [sample s1].
  pose proof (idle_build sample s1) as (R2 & _ & C2 & _).
  destruct (networking_build_json env sample s1) as [json s2]. cbn [fst snd] in *.
  rewrite <- C1, <- C2, <- R1, <- R2. unfold networking_ring_push.
  destruct (nr_buf (ng_ring s2)); destruct json; cbn; by rewrite ?orb_false_r, ?orb_true_r.
Qed.

Lemma callback_good h s :
  net_good h s → nr_buf (ng_ring s) ≠ None →
  net_good (pushed h s) (networking_heartbeat_cb env s).2.
Proof.
  intros Hgood Hne. unfold networking_heartbeat_cb, pushed.
  pose proof (idle_collect s) as Hidle. pose proof (collect_time s) as Ht.
  pose proof (collect_ok env s Henv) as Hok.
  assert (collected env (ng_time (networking_collect_sample env s).2)
    (networking_collect_sample env s).1) as Hcol by (by exists s).
  run_st. destruct (networking_collect_sample env s) as [sample s1]. cbn [fst snd] in *.
  pose proof (build_collected env sample s1 Henv Hok) as Hbuild.
  pose proof (idle_build sample s1) as Hidle2.
  destruct (networking_build_json env sample s1) as [json s2]. cbn [fst snd] in *.
  assert (net_good h s2) as [Hring Honce]
    by (eapply net_good_idle; [|eapply net_good_idle; [|done]]; done).
  assert (collected env (ng_time s2) sample) as Hcol2
    by (destruct Hidle2 as (_ & _ & _ & ?); by eapply collected_mono).
  destruct Hidle as (R1 & O1 & C1 & _), Hidle2 as (R2 & O2 & C2 & _).
  assert (nr_buf (ng_ring s) = nr_buf (ng_ring s2)) as E by congruence. rewrite E in *.
  destruct (nr_buf (ng_ring s2)) as [buf|] eqn:Hbuf; [|done].
  assert (json = Some (sample_text env sample) ∨ json = None ∧ ∃ t', ne_alloc env t' = false) as Hj
    by (rewrite Hbuild; destruct (ne_alloc env (ng_time s1)) eqn:Ha; eauto).
  pose proof (push_good h s2 sample buf json Hbuf Hring Hcol2 Hj) as Hpush. cbv zeta in Hpush.
  assert (ng_once s2 = true) as Ho by (destruct (ng_once s2); [done|by destruct (Honce eq_refl)]).
  unfold networking_ring_push in *. rewrite Hbuf in *.
  destruct json as [json|]; cbn [fst snd]; (split; [exact Hpush|cbn; by rewrite Ho]).
Qed.

(** The first request sets the ring up, or leaves the module without one. *)
Lemma once_good h s :
  net_good h s →
  let s' := (networking_once env s).2 in
  net_good h s' ∧ ng_crash s' = ng_crash s ∧ ng_once s' = true ∧ ng_time s ≤ ng_time s'.
Proof.
  intros Hgood. cbv zeta. unfold networking_once. run_st.
  destruct (ng_once s) eqn:Ho; [done|]. cbn [fst snd].
  destruct Hgood as [Hring Honce]. destruct (Honce Ho) as [-> Hnone].
  pose proof (rg_none _ _ _ Hring Hnone) as Hcached.
  assert (∀ t r, nr_buf r = None → nr_cached_json r = None → ring_good t [] r) as Hempty.
  { intros t r Hb Hc. split; rewrite ?Hb, ?Hc; try done. }
  unfold networking_ring_bootstrap, networking_ring_init, ask. run_st. cbn [ng_time set_once].
  destruct (ne_alloc env (ng_time s)); cbn [negb fst snd Z.eqb].
  2: { split_and!; cbn; try done; [|lia]. split; cbn; [by apply Hempty|done]. }
  destruct (heartbeat_register _ _ _) as [registered g]. unfold drop_buffer.
  assert (∀ t, ring_good t [] {| nr_buf := Some (replicate NETWORK_RING_CAPACITY inhabitant);
    nr_head := 0; nr_count := 0; nr_cached_json := None; nr_cached_json_len := 0;
    nr_cached_json_ts := 0 |}) as Hnew.
  { intros t. split; cbn [nr_buf nr_head nr_cached_json]; try done.
    intros buf <-%(inj Some). apply length_replicate. }
  destruct registered; [|destruct (heartbeat_start _ _) as [[rc flag] g2];
    destruct (negb (rc =? 0)%Z)..]; run_st;
    (split_and!; [|reflexivity|reflexivity|cbn; lia]); (split; [|done]); cbn;
    first [by apply Hnew|by apply Hempty].
Qed.

(** What a request gets: the text of a collected sample; with memory, always one, and the
    one of the last sample when there is a ring with samples. *)
Definition good_answer (h : list NetworkingSample) (json : option bytes) (s' : net_state) : Prop :=
  (∀ text, json = Some text → ∃ sample, collected env (ng_time s') sample ∧ text = sample_text env sample) ∧
  ((∀ t, ne_alloc env t = true) → json ≠ None ∧
     (nr_buf (ng_ring s') ≠ None → ∀ sample, last h = Some sample → json = Some (sample_text env sample))).

(** The sample a request builds its text from when no text is cached. *)
Lemma sample_for_request h s :
  net_good h s →
  let '(sample, s1) := (match networking_ring_last (ng_ring s) with
                        | Some sample => mret sample
                        | None => networking_collect_sample env
                        end : NM NetworkingSample) s in
  idle s s1 ∧ collected env (ng_time s1) sample ∧ sample_ok sample ∧
  (nr_buf (ng_ring s) ≠ None → ∀ x, last h = Some x → x = sample).
Proof.
  intros [Hring _]. destruct (networking_ring_last (ng_ring s)) as [sample|] eqn:Hlast.
  - run_st. assert (nr_buf (ng_ring s) ≠ None) as Hb
      by (intros E; unfold networking_ring_last in Hlast; by rewrite E in Hlast).
    rewrite (rg_last _ _ _ Hring Hb) in Hlast.
    assert (collected env (ng_time s) sample) as Hs.
    { pose proof (rg_collected _ _ _ Hring) as Hall. rewrite Forall_forall in Hall. apply Hall.
      apply last_Some in Hlast as [l ->]. apply elem_of_app. right. by left. }
    split_and!; [done..| |intros _ x Hx; congruence].
    destruct Hs as (s0 & <- & _). by apply collect_ok.
  - pose proof (idle_collect s) as Hidle. pose proof (collect_time s) as Ht.
    pose proof (collect_ok env s Henv) as Hok.
    assert ((networking_collect_sample env s).1 = (networking_collect_sample env s).1) as E by done.
    destruct (networking_collect_sample env s) as [sample s1] eqn:Hc. cbn [fst snd] in *.
    split_and!; [done|exists s; by rewrite Hc|done|].
    intros Hb x Hx. by rewrite <- (rg_last _ _ _ Hring Hb), Hlast in Hx.
Qed.

(** The rest of a request, after the cached text has been tried. *)
Lemma request_rest h s :
  net_good h s →
  let '(json, s') := (sample ← (match networking_ring_last (ng_ring s) with
                                | Some sample => mret sample
                                | None => networking_collect_sample env
                                end : NM NetworkingSample);
                      json ← networking_build_json env sample;
                      match json, nr_buf (ng_ring s) with
                      | Some json, Some _ =>
                          copy ← net_strdup env json;
                          _ ← modify (λ s, set_ring (set_cached_json copy (sm_ts sample) (ng_ring s)) s);
                          mret (Some json)
                      | _, _ => mret json
                      end) s in
  net_good h s' ∧ ng_crash s' = ng_crash s ∧ good_answer h json s'.
Proof.
  intros Hgood. pose proof (sample_for_request h s Hgood) as Hsample. unfold mbind at 1, ST_bind at 1.
  destruct ((match networking_ring_last (ng_ring s) with Some _ => _ | None => _ end : NM _) s)
    as [sample s1]. destruct Hsample as (Hidle & Hcol & Hok & Hlast). run_st.
  pose proof (build_collected env sample s1 Henv Hok) as Hbuild.
  pose proof (idle_build sample s1) as Hidle2.
  destruct (networking_build_json env sample s1) as [json s2]. cbn [fst snd] in *.
  assert (idle s s2) as Hidle3 by (by etrans). destruct Hidle3 as (R & O & C & T).
  assert (net_good h s2) as Hgood2 by (eapply net_good_idle; [|done]; done).
  assert (collected env (ng_time s2) sample) as Hcol2
    by (destruct Hidle2 as (_ & _ & _ & Ht); exact (collected_mono _ _ _ Ht Hcol)).
  assert (∀ s', ng_time s2 ≤ ng_time s' → nr_buf (ng_ring s') = nr_buf (ng_ring s) →
    good_answer h json s') as Hans.
  { intros s' Ht Hb. split.
    - intros text Htext. rewrite Hbuild in Htext. destruct (ne_alloc env _); [|done].
      apply (inj Some) in Htext as <-. eauto using collected_mono.
    - intros Hmem. rewrite Hbuild, Hmem. split; [done|]. rewrite Hb. intros Hne x Hx.
      by rewrite (Hlast Hne x Hx). }
  destruct json as [json|]; [|split_and!; [done|done|]; apply Hans; [done|congruence]].
  destruct (nr_buf (ng_ring s)) as [buf|] eqn:Hbuf;
    [|split_and!; [done|done|]; apply Hans; [done|congruence]].
  unfold net_strdup, ask. run_st. cbn [fst snd]. split_and!; [|done|].
  2: { apply Hans; [cbn; lia|]. cbn. congruence. }
  assert (json = sample_text env sample) as ->
    by (rewrite Hbuild in *; by destruct (ne_alloc env (ng_time s1)); simplify_eq).
  destruct (net_good_idle h s2 (ng_tick s2) (idle_ask (λ _, tt) s2) Hgood2) as [Hring Honce].
  cbn in Honce. split; [|cbn; intros E; destruct (Honce E) as [-> ?]; congruence].
  cbn. apply set_cached_good; [done|congruence|by eapply collected_mono; [|done]; cbn; lia| |].
  - destruct (ne_alloc env (ng_time s2)) eqn:Ha; eauto.
  - apply Hlast. congruence.
Qed.

Lemma request_good h s :
  net_good h s →
  let '(json, s') := networking_get_json env s in
  net_good h s' ∧ ng_crash s' = ng_crash s ∧ good_answer h json s'.
Proof.
  intros Hgood0. unfold networking_get_json.
  unfold mbind at 1, ST_bind at 1.
  destruct (once_good h s Hgood0) as (Hgood & Hcr & _ & _).
  destruct (networking_once env s) as [[] s1]. cbn [snd] in *.
  unfold mbind at 1, ST_bind at 1, get at 1. cbv beta iota.
  unfold mbind at 1, ST_bind at 1.
  destruct (nr_buf (ng_ring s1)) as [buf|] eqn:Hbuf; [destruct (nr_cached_json (ng_ring s1)) as [json|] eqn:Hj|].
  - unfold net_strdup, ask. run_st. destruct (ne_alloc env (ng_time s1)) eqn:Ha.
    + assert (net_good h (ng_tick s1)) as Hg
        by (by eapply net_good_idle; [apply (idle_ask (λ _, tt))|]).
      split_and!; [done|done|]. split.
      * intros text <-%(inj Some). destruct Hg as [Hring _]. by apply (rg_cached _ _ _ Hring).
      * intros Hmem. split; [done|]. intros Hne sample Hl. destruct Hg as [Hring _].
        rewrite <- (rg_fresh _ _ _ Hring Hmem Hne sample Hl). cbn. by rewrite Hj.
    + assert (net_good h (ng_tick s1)) as Hg
        by (by eapply net_good_idle; [apply (idle_ask (λ _, tt))|]).
      pose proof (request_rest h (ng_tick s1) Hg) as Hrest.
      rewrite <- Hcr. exact Hrest.
  - pose proof (request_rest h s1 Hgood) as Hrest. rewrite <- Hcr. exact Hrest.
  - pose proof (request_rest h s1 Hgood) as Hrest. rewrite <- Hcr. exact Hrest.
Qed.

(** A request never crashes. *)
Definition same_crash (s s' : net_state) : Prop := ng_crash s' = ng_crash s.

#[local] Instance same_crash_preorder : PreOrder same_crash.
Proof. split; [by intros s|]. intros s1 s2 s3. unfold same_crash. congruence. Qed.

Lemma idle_crash {A} (m : NM A) : steps idle m → steps same_crash m.
Proof. intros Hm s. by destruct (Hm s) as (_ & _ & ? & _). Qed.

Lemma request_crash : steps same_crash (networking_get_json env).
Proof.
  assert (∀ (f : net_state → net_state), (∀ s, ng_crash (f s) = ng_crash s) →
    steps same_crash (modify f)) as Hmod by (intros f Hf s; apply Hf).
  assert (∀ sample, steps same_crash (networking_build_json env sample)) as Hbuild
    by (intros sample; apply idle_crash, idle_build).
  assert (∀ b, steps same_crash (net_strdup env b)) as Hdup by (intros b; apply idle_crash, idle_strdup).
  assert (steps same_crash (networking_collect_sample env)) as Hcol by apply idle_crash, idle_collect.
  assert (∀ A (f : nat → A), steps same_crash (ask f)) as Hask
    by (intros A f; apply idle_crash, idle_ask).
  unfold networking_get_json, networking_once, networking_ring_bootstrap, networking_ring_init, drop_buffer.
  repeat first [apply Hbuild|apply Hdup|apply Hcol|apply Hask|apply Hmod; done|apply steps_ret; apply _
               |apply steps_get; apply _|apply steps_bind; [apply _| |intros ?]|case_match].
Qed.

Lemma run_good h s : net_run h s → ng_crash s = false → net_good h s.
Proof.
  induction 1 as [|h s _ IH|h s _ IH|h s g _ IH|h s _ IH]; intros Hc.
  - split; [|done]. by split.
  - rewrite request_crash in Hc. pose proof (request_good h s (IH Hc)) as H.
    destruct (networking_get_json env s). by destruct H as (? & _).
  - rewrite callback_crash in Hc. apply orb_false_iff in Hc as [Hc Hb].
    apply callback_good; [by apply IH|by destruct (nr_buf (ng_ring s))].
  - destruct (IH Hc) as [H1 H2]. by split.
  - unfold networking_module_cleanup, modify in *. cbn [snd] in *.
    destruct (nr_buf (ng_ring s)) as [buf|] eqn:Hb; [|by apply IH].
    destruct (IH Hc) as [[H1 H2 H3 H4 H5 H6 H7] Honce].
    split; [|intros E; cbn in E; by destruct (Honce E)]. by split.
Qed.
End runs.


(** ** Examples *)

Definition sample_addr (off : nat) : sockaddr :=
  if off =? 0 then {| sa_len := 16; sa_fam := AF_INET; sa_text := bs "0.0.0.0" |}
  else if off =? 16 then {| sa_len := 16; sa_fam := AF_INET; sa_text := bs "10.0.0.1" |}
  else {| sa_len := 0; sa_fam := AF_OTHER; sa_text := [] |}.

(** A default route, a resolver file with a quote in a name, an interface with an address. *)
Definition sample_env (thread_ok : bool) : net_env :=
  {| ne_alloc := λ _, true; ne_clock := λ _, 1700000000%Z; ne_sysctl_size := λ _, true;
     ne_route_dump := λ _, Some [{| rtm_version := 5; rtm_type := 4; rtm_addrs := 3; rtm_flags := 2051;
                                    rtm_index := 1; rtm_sockaddr := sample_addr |}];
     ne_ifname := λ _, Some (bs "em0");
     ne_resolv_conf := λ _, Some (qs "nameserver 9.9.9.9'" ++ [lf] ++ bs "search example.org" ++ [lf]);
     ne_getifaddrs := λ _, Some [{| ifa_name := bs "em0"; ifa_addr := Some (LinkAddr (Some
        {| ifi_ipackets := 1; ifi_ibytes := 60; ifi_ierrors := 0; ifi_iqdrops := 0; ifi_opackets := 2;
           ifi_obytes := 120; ifi_oerrors := 0 |})) |};
        {| ifa_name := bs "em0"; ifa_addr := Some (InetAddr (Some (bs "10.0.0.2"))) |}];
     ne_localtime := λ _, Some (bs "2023-11-14 22:13:20"); ne_thread_create := λ _, thread_ok |}.

Lemma sample_env_ok thread_ok : env_ok (sample_env thread_ok).
Proof.
  split; cbn; try (split; lia).
  - intros t msgs m off [= <-]. rewrite elem_of_cons, elem_of_nil. intros [->|[]].
    cbn. unfold sample_addr. destruct (off =? 0); [|destruct (off =? 16)];
      (split; [vm_compute; discriminate|reflexivity]).
  - intros i name [= <-]. split; [vm_compute; discriminate|reflexivity].
  - intros t ifap name text [= <-]. rewrite !elem_of_cons, elem_of_nil.
    intros [E|[E|[]]]; simplify_eq. split; [vm_compute; discriminate|reflexivity].
  - intros t ifap name d [= <-]. rewrite !elem_of_cons, elem_of_nil.
    intros [E|[E|[]]]; simplify_eq. repeat constructor; cbn; lia.
  - intros ts text [= <-]. split; [vm_compute; discriminate|reflexivity].
Qed.

Definition sample_value : jvalue :=
  JObj [(bs "timestamp", JStr (bs "2023-11-14 22:13:20")); (bs "timestamp_unix", JNum 1700000000);
        (bs "routes", JArr [JObj [(bs "destination", JStr (bs "0.0.0.0")); (bs "gateway", JStr (bs "10.0.0.1"));
                                  (bs "netmask", JStr []); (bs "interface", JStr (bs "em0"));
                                  (bs "flags", JStr (bs "UGS"))]]);
        (bs "dns", JObj [(bs "nameservers", JArr [JStr (qs "9.9.9.9'")]); (bs "domain", JStr []);
                         (bs "search", JStr (bs "example.org"))]);
        (bs "interfaces", JArr [JObj [(bs "interface", JStr (bs "em0")); (bs "ipv4", JStr (bs "10.0.0.2"));
                                      (bs "rx_packets", JNum 1); (bs "rx_bytes", JNum 60);
                                      (bs "rx_errors", JNum 0); (bs "tx_packets", JNum 2);
                                      (bs "tx_bytes", JNum 120); (bs "tx_errors", JNum 0)]])].

Lemma networking_json_faithful_witness :
  let env := sample_env true in
  let sample := (networking_collect_sample env net_static).1 in
  ∃ text, (networking_build_json env sample net_static).1 = Some text ∧
          json_parse text = Some sample_value.
Proof.
  intros env sample. pose proof (networking_json_faithful env net_static net_static (sample_env_ok true)) as H.
  cbv zeta in H. fold sample in H.
  destruct (networking_build_json env sample net_static).1 as [text|] eqn:E; [|discriminate H].
  exists text. split; [reflexivity|]. rewrite H. vm_compute. reflexivity.
Defined.


(** The clean-up frees the ring but leaves the task in the table of the scheduler, which
    nothing stops: the next callback stores through the null pointer.  The same happens after
    a failed start of the scheduler, once another module has started it. *)
Example callback_after_cleanup :
  let env := sample_env true in
  let s := (networking_module_cleanup (networking_get_json env net_static).2).2 in
  find_slot (slot_named (bs "networking.sample")) (hb_slots (ng_hb s)) = Some 0 ∧
  hb_running (ng_hb s) = true ∧ ng_crash (networking_heartbeat_cb env s).2 = true.
Proof. vm_compute. auto. Qed.

Example callback_after_failed_start :
  let env := sample_env false in
  let s := (networking_get_json env net_static).2 in
  find_slot (slot_named (bs "networking.sample")) (hb_slots (ng_hb s)) = Some 0 ∧
  nr_buf (ng_ring s) = None ∧ ng_crash (networking_heartbeat_cb env s).2 = true.
Proof. vm_compute. auto. Qed.
