(* ===== verification/NetworkingHandlers.v ===== *)
(** * The networking module: resolver files and handlers
      (src/modules/networking/networking_module.c)

    What [networking_get_dns_config] takes from a resolver file, and the answers of the two
    handlers. *)

From S2P Require Import Prelude Conf HttpUtils JsonValue Router ResponsePool HttpResponse Template Heartbeat Networking.

(** ** The view *)

Definition networking_page : template_data :=
  {| td_title := Some (bs "MiniWeb - Network Configuration");
     td_page_content := Some (bs "networking.html");
     td_extra_head_file := Some (bs "networking_extra_head.html");
     td_extra_js_file := Some (bs "networking_extra_js.html") |}.

Definition networking_handler (alloc : nat → bool) (clock : nat → Z) (dir : template_dir)
    (templates_dir : bytes) (k : kernel) (fuel : nat) (tid : Z) (reg : registry)
    (req : http_request) (w : world) (t : tstate) : render_reply :=
  http_render_template alloc clock dir templates_dir k fuel tid reg req networking_page None w t.

(** The view has a page name, so that a failed rendering is answered with an error page. *)
Lemma networking_handler_total alloc clock dir tdir k fuel tid reg req w t :
  networking_handler alloc clock dir tdir k fuel tid reg req w t ≠ RenderNullBody.
Proof. by apply render_template_total. Qed.

(** ** The API *)

Section api.
Context (env : net_env).
Context (k : kernel) (fuel : nat) (tid : Z) (conf : option miniweb_conf) (reg : registry).

(** The API handler sends the text of the request whole; without a text, or without memory
    for the response, it sends the 500 page that says so. *)
Theorem networking_api_handler_answers req w s live rc w' s' :
  store_wf live (w_store w) →
  (∀ text, (networking_get_json env s).1 = Some text → (Z.of_nat (length text) < 10 ^ 20)%Z) →
  networking_api_handler env k fuel tid (init_routes conf reg) req w s = (Some (rc, w'), s') →
  s' = (networking_get_json env s).2 ∧
  match (networking_get_json env s).1 with
  | None => delivers live (error_page 500 (Some (bs "Network data collection failed"))) w rc w'
  | Some text =>
      if decide ((http_response_create tid (k_calloc k (w_time w)) (w_store w)).1 = None)
      then delivers live (error_page 500 (Some (bs "Unable to allocate response"))) w rc w'
      else delivers live text w rc w'
  end.
Proof.
  intros Hwf Hlen. unfold networking_api_handler. run_st.
  destruct (networking_get_json env s) as [[text|] s1]; cbn [fst snd] in *.
  2: { intros [= H <-]. split; [done|]. sends_error w H. }
  pose proof (create_spec live (w_store w) tid (k_calloc k (w_time w)) Hwf) as Hcreate.
  destruct (http_response_create tid _ _) as [[q|] st]; cbn [fst].
  - rewrite decide_False by done. intros [= H <-]. split; [done|].
    revert H. unfold networking_build_response.
    apply api_answer_delivers; first [done|by apply Nat.leb_le|by apply Hlen].
  - rewrite decide_True by done. intros [= H <-]. split; [done|].
    destruct Hcreate as (_ & _ & Hst & _).
    sends_error w H.
Qed.
End api.

Lemma networking_api_handler_answers_witness :
  let env := sample_env true in
  let out := networking_api_handler env eager_kernel 5 3 (init_routes None empty_registry) test_request
               test_world net_static in
  ∃ rc w' text, out.1 = Some (rc, w') ∧ delivers (λ _, False) text test_world rc w' ∧
    json_parse text = Some sample_value.
Proof.
  intros env out. assert (match out.1 with Some _ => true | None => false end = true) as Hrun
    by (vm_compute; reflexivity).
  destruct out as [[[rc w']|] s'] eqn:E; [|discriminate Hrun]. exists rc, w'.
  destruct (networking_get_json env net_static).1 as [text|] eqn:Htext; [|vm_compute in Htext; discriminate Htext].
  exists text. split; [reflexivity|].
  assert (json_parse text = Some sample_value) as Hparse.
  { vm_compute in Htext. injection Htext as <-. vm_compute. reflexivity. }
  split; [|exact Hparse].
  assert ((http_response_create 3 (k_calloc eager_kernel (w_time test_world)) (w_store test_world)).1
    <> None) as Hc by (intros H; vm_compute in H; discriminate H).
  pose proof (networking_api_handler_answers env eager_kernel 5 3 None empty_registry test_request
    test_world net_static (λ _, False) rc w' s' initial_store_wf) as H.
  rewrite Htext, decide_False in H by exact Hc. apply H; [|exact E].
  intros t [= <-]. vm_compute in Htext. injection Htext as <-. apply Z.ltb_lt. vm_compute. reflexivity.
Defined.

(** ** Resolver files *)

(** A value that survives the line reader: no newline, no NUL, no blank in front. *)
Record value_ok (n : nat) (s : bytes) : Prop := {
  vo_length : length s ≤ n;
  vo_lf : lf ∉ s;
  vo_nul : nul ∉ s;
  vo_head : match s with c :: _ => blank_char c = false | [] => True end
}.

(** The file of a configuration. *)
Definition dns_file (c : DnsConfig) : bytes :=
  bs "domain " ++ dns_domain c ++ [lf] ++ bs "search " ++ dns_search c ++ [lf] ++
  concat ((λ n, bs "nameserver " ++ n ++ [lf]) <$> dns_nameservers c).

Lemma dns_value_text n s : value_ok n s → dns_value (space :: s ++ [lf]) = s.
Proof.
  intros [_ Hlf _ Hhead]. unfold dns_value.
  assert (skip_while blank_char (space :: s ++ [lf]) = s ++ [lf]) as ->.
  { cbn [skip_while]. change (blank_char space) with true. cbv iota.
    destruct s as [|c s]; [done|]. cbn [app skip_while]. by rewrite Hhead. }
  rewrite strchr_app_sep by done. apply take_app_length.
Qed.

(** One line of the file is read as one line. *)
Lemma dns_loop_line fuel key v rest config :
  lf ∉ key → nul ∉ key → value_ok (510 - length key) v → length key < 100 → key ≠ [] →
  length (dns_nameservers config) < 8 →
  dns_loop (S fuel) (key ++ v ++ lf :: rest) config
  = dns_loop fuel rest (dns_line config (key ++ v ++ [lf])).
Proof.
  intros Hk1 Hk2 [Hl Hv1 Hv2 _] Hk Hne Hn. rewrite app_assoc.
  change (dns_loop (S fuel) ((key ++ v) ++ lf :: rest) config) with
    (match (key ++ v) ++ lf :: rest with
     | [] => config
     | _ => let '(line, r) := fgets 511 ((key ++ v) ++ lf :: rest) in
            if length (dns_nameservers config) <? 8
            then dns_loop fuel r (dns_line config (cstr line)) else config
     end).
  rewrite fgets_line; [|rewrite elem_of_app; by intros [?|?]|rewrite length_app; lia].
  rewrite (proj2 (Nat.ltb_lt _ _)) by done. rewrite cstr_id.
  - destruct key as [|c key]; [done|]. cbn [app]. rewrite <- (app_assoc key). by destruct fuel.
  - rewrite !elem_of_app, list_elem_of_singleton. by intros [[?|?]|?].
Qed.

Record dns_file_ok (c : DnsConfig) : Prop := {
  df_domain : value_ok 255 (dns_domain c);
  df_search : value_ok 503 (dns_search c);
  df_count : length (dns_nameservers c) ≤ 8;
  df_nameservers : Forall (value_ok 45) (dns_nameservers c)
}.

Lemma value_ok_mono n m s : n ≤ m → value_ok n s → value_ok m s.
Proof. intros Hnm [? ? ? ?]. split; (done || lia). Qed.

(** A keyword of the file: letters and a blank. *)
Definition keyword (key : bytes) : Prop := lf ∉ key ∧ nul ∉ key ∧ key ≠ [] ∧ length key ≤ 11.

Lemma keywords : keyword (bs "domain ") ∧ keyword (bs "search ") ∧ keyword (bs "nameserver ").
Proof.
  unfold keyword. split_and!; try done; try (simpl; lia);
    by_computation.
Qed.

Lemma dns_nameservers_loop ns fuel config :
  Forall (value_ok 45) ns → length (dns_nameservers config) + length ns ≤ 8 → length ns ≤ fuel →
  dns_loop fuel (concat ((λ n, bs "nameserver " ++ n ++ [lf]) <$> ns)) config
  = {| dns_nameservers := dns_nameservers config ++ ns; dns_domain := dns_domain config;
       dns_search := dns_search config |}.
Proof.
  intros Hns. revert fuel config. induction Hns as [|n ns Hn Hns IH]; intros fuel config Hc Hf.
  { rewrite app_nil_r. by destruct fuel, config. }
  destruct fuel as [|fuel]; [simpl in Hf; lia|]. cbn [fmap list_fmap concat length] in *.
  replace ((bs "nameserver " ++ n ++ [lf]) ++ concat ((λ n, bs "nameserver " ++ n ++ [lf]) <$> ns))
    with (bs "nameserver " ++ n ++ lf :: concat ((λ n, bs "nameserver " ++ n ++ [lf]) <$> ns))
    by (by rewrite <- !app_assoc).
  destruct keywords as (_ & _ & K1 & K2 & K3 & K4).
  rewrite dns_loop_line; [|done|done|by apply (value_ok_mono 45); [simpl; lia|]|lia|done|lia].
  change (dns_line config (bs "nameserver " ++ n ++ [lf])) with
    {| dns_nameservers := dns_nameservers config ++ [strlcpy 46 (dns_value (space :: n ++ [lf]))];
       dns_domain := dns_domain config; dns_search := dns_search config |}.
  rewrite (dns_value_text 45) by done. rewrite strlcpy_id by (destruct Hn; lia).
  rewrite IH; cbn [dns_nameservers dns_domain dns_search]; [by rewrite <- app_assoc| |lia].
  rewrite length_app. simpl. lia.
Qed.

(** A resolver file that lists a domain, a search list and up to eight servers is read as
    just that configuration. *)
Theorem dns_config_roundtrip c :
  dns_file_ok c → dns_loop (length (dns_file c)) (dns_file c) zero_dns = c.
Proof.
  intros [Hd Hs Hc Hn]. destruct keywords as ((D1 & D2 & D3 & D4) & (S1 & S2 & S3 & S4) & _).
  assert (∃ fuel, length (dns_file c) = S (S fuel) ∧ length (dns_nameservers c) ≤ fuel) as (fuel & -> & Hf).
  { assert (length (dns_nameservers c)
      ≤ length (concat ((λ n, bs "nameserver " ++ n ++ [lf]) <$> dns_nameservers c))) as Hl.
    { induction (dns_nameservers c) as [|n ns IH]; [done|]. cbn [fmap list_fmap concat length] in *.
      apply Forall_cons in Hn as [_ Hn]. specialize (IH ltac:(lia) Hn). rewrite length_app.
      change (length (bs "nameserver " ++ n ++ [lf])) with (S (10 + length (n ++ [lf]))). lia. }
    unfold dns_file. exists (length (dns_file c) - 2). unfold dns_file. rewrite !length_app.
    change (length (bs "domain ")) with 7. cbn [length]. lia. }
  unfold dns_file. set (rest := bs "search " ++ _).
  replace (bs "domain " ++ dns_domain c ++ [lf] ++ rest) with (bs "domain " ++ dns_domain c ++ lf :: rest)
    by done.
  rewrite dns_loop_line; [|done|done|by apply (value_ok_mono 255); [simpl; lia|]|lia|done|simpl; lia].
  change (dns_line zero_dns (bs "domain " ++ dns_domain c ++ [lf])) with
    {| dns_nameservers := []; dns_domain := strlcpy 256 (dns_value (space :: dns_domain c ++ [lf]));
       dns_search := [] |}.
  rewrite (dns_value_text 255), strlcpy_id by (done || (destruct Hd; lia)).
  unfold rest. cbn [app]. rewrite dns_loop_line;
    [|done|done|by apply (value_ok_mono 503); [simpl; lia|]|lia|done|simpl; lia].
  set (config := dns_line _ _). assert (config = {| dns_nameservers := []; dns_domain := dns_domain c;
    dns_search := strlcpy 512 (dns_value (space :: dns_search c ++ [lf])) |}) as -> by done.
  rewrite (dns_value_text 503), strlcpy_id by (done || (destruct Hs; lia)).
  rewrite dns_nameservers_loop; [by destruct c|done|simpl; lia|done].
Qed.

Lemma dns_config_roundtrip_witness :
  let c := {| dns_nameservers := [bs "127.0.0.1"; bs "2001:db8::1"]; dns_domain := bs "example.org";
              dns_search := [] |} in
  dns_loop (length (dns_file c)) (dns_file c) zero_dns = c.
Proof.
  intros c. apply dns_config_roundtrip. split; cbn [c dns_nameservers dns_domain dns_search]; [| |simpl; lia|].
  all: repeat constructor; try (by_computation); simpl; lia.
Defined.

(** After the eighth server the rest of the file is not looked at. *)
Example domain_after_eight_servers :
  let file := concat (replicate 8 (bs "nameserver ::1" ++ [lf])) ++ bs "domain example.org" ++ [lf] in
  dns_domain (dns_loop (length file) file zero_dns) = [].
Proof. vm_compute. reflexivity. Qed.
