(* ===== verification/MetricsCollect.v ===== *)
(** * The metrics module: collectors (src/modules/metrics/metrics_collectors.c)

    Each collector asks the kernel for one kind of figure.  The kernel, the allocator, the
    clock and the user database are the record [metrics_env]; questions are numbered, [MQ]
    counts them.  Tick counters and times stay far below the width of a [long]; everything
    else wraps as in C.  The code is that for OpenBSD. *)

From Stdlib Require Import Floats.SpecFloat.
From S2P Require Import Prelude CFloat HttpUtils.

(** ** Data *)

Record CpuStats := {
  cs_user : Z;
  cs_nice : Z;
  cs_system : Z;
  cs_interrupt : Z;
  cs_idle : Z
}.

Record MemoryStats := {
  me_total_mb : Z;
  me_free_mb : Z;
  me_active_mb : Z;
  me_inactive_mb : Z;
  me_wired_mb : Z;
  me_cache_mb : Z;
  me_swap_total_mb : Z;
  me_swap_used_mb : Z
}.

Record LoadAverage := {
  load_1min : spec_float;
  load_5min : spec_float;
  load_15min : spec_float
}.

Record DiskInfo := {
  dk_device : bytes;
  dk_mount_point : bytes;
  dk_total_mb : Z;
  dk_used_mb : Z;
  dk_percent_used : Z
}.

Record PortInfo := {
  pt_port : Z;
  pt_protocol : bytes;
  pt_connection_count : Z;
  pt_state : bytes
}.

Record NetworkInterface := {
  ni_name : bytes;
  ni_ip_address : bytes;
  ni_status : bytes
}.

Record ProcessInfo := {
  ps_user : bytes;
  ps_pid : Z;
  ps_cpu_percent : spec_float;
  ps_memory_percent : spec_float;
  ps_memory_mb : Z;
  ps_command : bytes
}.

(** *** What the kernel answers *)

(** The members of [struct uvmexp] that are read, all of type [int]. *)
Record uvmexp := {
  uv_pagesize : Z;
  uv_npages : Z;
  uv_free : Z;
  uv_active : Z;
  uv_inactive : Z;
  uv_wired : Z
}.

(** [struct statfs] *)
Record statfs := {
  f_fstypename : bytes;
  f_mntfromname : bytes;
  f_mntonname : bytes;
  f_blocks : Z;
  f_bsize : Z;
  f_bavail : Z
}.

(** The states of [p_stat]. *)
Inductive proc_stat := SIDL | SRUN | SSLEEP | SSTOP | SZOMB | SDEAD | SONPROC.

#[export] Instance proc_stat_eq_dec : EqDecision proc_stat.
Proof. solve_decision. Defined.

(** [struct kinfo_proc] *)
Record kinfo_proc := {
  p_pid : Z;
  p_uid : Z;
  p_stat : proc_stat;
  p_pctcpu : Z;
  p_vm_rssize : Z;
  p_comm : bytes
}.

(** The answer to the question for the process table: the table, [ENOMEM], another error. *)
Inductive proc_answer := ProcTable (l : list kinfo_proc) | ProcNoMem | ProcError.

(** [mv_junk]: what an automatic [MemoryStats] holds before it is written.  The size of the
    table of processes is counted in entries, and the table is asked for with the number of
    entries there is room for.  [mv_qsort] is qsort(3), which may order equal elements in
    any way. *)
Record metrics_env := {
  mv_alloc : nat → bool;
  mv_clock : nat → Z;
  mv_cp_time : nat → option (list Z);
  mv_uvmexp : nat → option uvmexp;
  mv_nswap : nat → Z;
  mv_swap_stats : nat → option (list (Z * Z));
  mv_loadavg : nat → option LoadAverage;
  mv_uname : nat → option (bytes * bytes * bytes);
  mv_boottime : nat → option Z;
  mv_hostname : nat → option bytes;
  mv_mounts : nat → list statfs;
  mv_cpuspeed : nat → option Z;
  mv_proc_size : nat → option Z;
  mv_proc_table : nat → Z → proc_answer;
  mv_passwd : Z → option bytes;
  mv_qsort : (kinfo_proc → kinfo_proc → Z) → list kinfo_proc → list kinfo_proc;
  mv_pagesize : Z;
  mv_localtime : Z → option bytes;
  mv_thread_create : nat → bool;
  mv_junk : nat → MemoryStats
}.

Abbreviation MQ := (ST nat).

Definition ask {A} (f : nat → A) : MQ A := λ t, (f t, S t).

Definition MB : Z := 1024 * 1024.

(** The constants of sys/sched.h. *)
Definition CPUSTATES : nat := 6.
Definition CP_USER : nat := 0.
Definition CP_NICE : nat := 1.
Definition CP_SYS : nat := 2.
Definition CP_INTR : nat := 4.
Definition CP_IDLE : nat := 5.

(** ** Collectors *)

Definition zero_cpu : CpuStats :=
  {| cs_user := 0; cs_nice := 0; cs_system := 0; cs_interrupt := 0; cs_idle := 0 |}.

Definition ticks (cp_time : list Z) (i : nat) : Z := nth i cp_time 0%Z.

(** The loop over the states. *)
Definition total_ticks (cp_time : list Z) : Z :=
  foldl (λ total i, (total + ticks cp_time i)%Z) 0%Z (seq 0 CPUSTATES).

Definition tick_percent (cp_time : list Z) (i : nat) : Z :=
  to_int32 (Z.quot (ticks cp_time i * 100) (total_ticks cp_time)).

(** [uvm.x * pagesize / MB], of an [int] and an [unsigned long] *)
Definition pages_mb (pagesize x : Z) : Z := (wrap64 (x * pagesize) / MB)%Z.

(** The loop over the swap devices. *)
Definition swap_sum (l : list Z) : Z := foldl (λ total n, wrap64 (total + n)) 0%Z l.

Definition swap_mb (blocks : Z) : Z := (wrap64 (blocks * 512) / MB)%Z.

Definition set_memory (u : uvmexp) (old : MemoryStats) : MemoryStats :=
  let pagesize := wrap64 (uv_pagesize u) in
  {| me_total_mb := pages_mb pagesize (wrap64 (uv_npages u));
     me_free_mb := pages_mb pagesize (uv_free u);
     me_active_mb := pages_mb pagesize (uv_active u);
     me_inactive_mb := pages_mb pagesize (uv_inactive u);
     me_wired_mb := pages_mb pagesize (uv_wired u);
     me_cache_mb := 0; me_swap_total_mb := me_swap_total_mb old; me_swap_used_mb := me_swap_used_mb old |}.

Definition set_swap (total used : Z) (m : MemoryStats) : MemoryStats :=
  {| me_total_mb := me_total_mb m; me_free_mb := me_free_mb m; me_active_mb := me_active_mb m;
     me_inactive_mb := me_inactive_mb m; me_wired_mb := me_wired_mb m; me_cache_mb := me_cache_mb m;
     me_swap_total_mb := total; me_swap_used_mb := used |}.

(** The text of an uptime in seconds. *)
Definition uptime_text (uptime_seconds : Z) : bytes :=
  let days := Z.quot uptime_seconds (60 * 60 * 24) in
  let hours := Z.quot (Z.rem uptime_seconds (60 * 60 * 24)) (60 * 60) in
  let minutes := Z.quot (Z.rem uptime_seconds (60 * 60)) 60 in
  let seconds := Z.rem uptime_seconds 60 in
  let clock := fmt_Z hours ++ bs ":" ++ fmt_pad 2 minutes ++ bs ":" ++ fmt_pad 2 seconds in
  if (0 <? days)%Z then fmt_Z days ++ bs " days, " ++ clock else clock.

Definition skipped_fs (fs : statfs) : bool :=
  streq (f_fstypename fs) (bs "tmpfs") || streq (f_fstypename fs) (bs "procfs") ||
  streq (f_fstypename fs) (bs "devfs") || streq (f_fstypename fs) (bs "fdescfs") ||
  (f_blocks fs =? 0)%Z.

Definition disk_of (fs : statfs) : DiskInfo :=
  let total := wrap64 (f_blocks fs * f_bsize fs) in
  let available := wrap64 (f_bavail fs * f_bsize fs) in
  let total_mb := (total / MB)%Z in
  let used_mb := (wrap64 (total - available) / MB)%Z in
  {| dk_device := strlcpy 64 (f_mntfromname fs); dk_mount_point := strlcpy 256 (f_mntonname fs);
     dk_total_mb := total_mb; dk_used_mb := used_mb;
     dk_percent_used := if (0 <? total_mb)%Z then to_int32 (Z.quot (used_mb * 100) total_mb) else 0 |}.

Fixpoint disks_loop (mounts : list statfs) (max_disks : nat) (disks : list DiskInfo) : list DiskInfo :=
  match mounts with
  | [] => disks
  | fs :: mounts' =>
      if length disks <? max_disks then
        if skipped_fs fs then disks_loop mounts' max_disks disks
        else disks_loop mounts' max_disks (disks ++ [disk_of fs])
      else disks
  end.

Definition metrics_get_top_ports (max_ports : nat) : list PortInfo := [].

Definition metrics_get_network_interfaces (max_interfaces : nat) : list NetworkInterface := [].

Section collectors.
Context (env : metrics_env).

Definition metrics_get_cpu_stats : MQ (Z * CpuStats) :=
  answer ← ask (mv_cp_time env);
  mret (match answer with
        | None => (-1, zero_cpu)
        | Some cp_time =>
            if (total_ticks cp_time =? 0)%Z then (-1, zero_cpu)
            else (0, {| cs_user := tick_percent cp_time CP_USER; cs_nice := tick_percent cp_time CP_NICE;
                        cs_system := tick_percent cp_time CP_SYS;
                        cs_interrupt := tick_percent cp_time CP_INTR;
                        cs_idle := tick_percent cp_time CP_IDLE |})
        end)%Z.

(** [old]: what the structure holds before the call. *)
Definition metrics_get_memory_stats (old : MemoryStats) : MQ (Z * MemoryStats) :=
  answer ← ask (mv_uvmexp env);
  match answer with
  | None => mret ((-1)%Z, old)
  | Some u =>
      let stats := set_memory u old in
      nswap ← ask (mv_nswap env);
      if (nswap <=? 0)%Z then mret (0%Z, set_swap 0 0 stats)
      else
        ok ← ask (mv_alloc env);
        if negb ok then mret (0%Z, stats)
        else
          rnswap ← ask (mv_swap_stats env);
          mret (0%Z, match rnswap with
                     | None => stats
                     | Some swdev =>
                         let swdev := take (Z.to_nat nswap) swdev in
                         set_swap (swap_mb (swap_sum swdev.*1)) (swap_mb (swap_sum swdev.*2)) stats
                     end)
  end.

Definition metrics_get_load_average : MQ (option LoadAverage) := ask (mv_loadavg env).

Definition metrics_get_os_info (size : nat) : MQ (option (bytes * bytes * bytes)) :=
  answer ← ask (mv_uname env);
  mret (match answer with
        | None => None
        | Some (sysname, release, machine) =>
            Some (strlcpy size sysname, strlcpy size release, strlcpy size machine)
        end).

Definition metrics_get_uptime (size : nat) : MQ (option bytes) :=
  boottime ← ask (mv_boottime env);
  match boottime with
  | None => mret None
  | Some tv_sec =>
      now ← ask (mv_clock env);
      mret (Some (strlcpy size (uptime_text (now - tv_sec))))
  end.

Definition metrics_get_hostname : MQ (option bytes) := ask (mv_hostname env).

Definition metrics_get_disk_usage (max_disks : nat) : MQ (list DiskInfo) :=
  mounts ← ask (mv_mounts env);
  mret (disks_loop mounts max_disks []).

(** The new value of [g_cpu_freq_mhz]. *)
Definition metrics_init_cpu_freq (freq : Z) : MQ Z :=
  answer ← ask (mv_cpuspeed env);
  mret (match answer with Some cpuspeed => cpuspeed | None => freq end).
End collectors.

(** [g_cpu_freq_mhz] before [metrics_init_cpu_freq]. *)
Definition initial_cpu_freq : Z := -1.

(** ** What the collectors return *)

Lemma tick_sum_nonneg cp : Forall (λ z, 0 ≤ z)%Z cp → ∀ i, (0 ≤ ticks cp i)%Z.
Proof.
  intros H i. unfold ticks. destruct (decide (i < length cp)) as [Hi|Hi].
  - rewrite Forall_forall in H. apply H. apply list_elem_of_In, nth_In. lia.
  - rewrite nth_overflow; [done|lia].
Qed.

Lemma total_ticks_sum cp :
  total_ticks cp = (ticks cp 0 + ticks cp 1 + ticks cp 2 + ticks cp 3 + ticks cp 4 + ticks cp 5)%Z.
Proof. unfold total_ticks. cbn [seq foldl CPUSTATES]. lia. Qed.

Lemma tick_percent_value cp i :
  Forall (λ z, 0 ≤ z)%Z cp → total_ticks cp ≠ 0%Z → i < 6 →
  tick_percent cp i = (ticks cp i * 100 / total_ticks cp)%Z ∧
  (0 ≤ tick_percent cp i)%Z ∧ (tick_percent cp i * total_ticks cp ≤ ticks cp i * 100)%Z.
Proof.
  intros Hcp Ht Hi. pose proof (tick_sum_nonneg cp Hcp) as Hn. pose proof (total_ticks_sum cp) as Hsum.
  pose proof (Hn 0). pose proof (Hn 1). pose proof (Hn 2). pose proof (Hn 3). pose proof (Hn 4).
  pose proof (Hn 5).
  assert (ticks cp i ≤ total_ticks cp)%Z as Hle by (do 6 (destruct i as [|i]; [lia|]); lia).
  pose proof (Hn i). unfold tick_percent. set (total := total_ticks cp) in *. assert (0 < total)%Z by lia.
  rewrite Z.quot_div_nonneg by lia.
  assert (0 ≤ ticks cp i * 100 / total ≤ 100)%Z as Hd
    by (split; [apply Z.div_pos; lia|apply Z.div_le_upper_bound; lia]).
  assert (to_int32 (ticks cp i * 100 / total) = ticks cp i * 100 / total)%Z as ->
    by (unfold to_int32; rewrite Z.mod_small; lia).
  pose proof (Z.mul_div_le (ticks cp i * 100) total). split_and!; lia.
Qed.

(** The shares of the processor are percentages and add up to 100 at most; there are none
    when nothing has been counted yet. *)
Lemma cpu_stats_percentages env t :
  (∀ t cp, mv_cp_time env t = Some cp → Forall (λ z, 0 ≤ z)%Z cp) →
  let s := (metrics_get_cpu_stats env t).1.2 in
  Forall (λ z, 0 ≤ z)%Z [cs_user s; cs_nice s; cs_system s; cs_interrupt s; cs_idle s] ∧
  (cs_user s + cs_nice s + cs_system s + cs_interrupt s + cs_idle s ≤ 100)%Z.
Proof.
  intros Henv. unfold metrics_get_cpu_stats, ask. run_st. cbn [fst snd].
  assert (Forall (λ z, 0 ≤ z)%Z [0; 0; 0; 0; 0]%Z ∧ (0 + 0 + 0 + 0 + 0 ≤ 100)%Z) as Hzero
    by (split; [repeat constructor|]; lia).
  destruct (mv_cp_time env t) as [cp|] eqn:E; [|exact Hzero].
  destruct (Z.eqb_spec (total_ticks cp) 0) as [|Hne]; [exact Hzero|].
  cbn [fst snd cs_user cs_nice cs_system cs_interrupt cs_idle]. pose proof (Henv _ _ E) as Hcp.
  pose proof (tick_percent_value cp 0 Hcp Hne ltac:(lia)) as (_ & A0 & B0).
  pose proof (tick_percent_value cp 1 Hcp Hne ltac:(lia)) as (_ & A1 & B1).
  pose proof (tick_percent_value cp 2 Hcp Hne ltac:(lia)) as (_ & A2 & B2).
  pose proof (tick_percent_value cp 4 Hcp Hne ltac:(lia)) as (_ & A4 & B4).
  pose proof (tick_percent_value cp 5 Hcp Hne ltac:(lia)) as (_ & A5 & B5).
  pose proof (tick_sum_nonneg cp Hcp) as Hn. pose proof (total_ticks_sum cp) as Hsum.
  split; [by repeat constructor|].
  pose proof (Hn 0). pose proof (Hn 1). pose proof (Hn 2). pose proof (Hn 3). pose proof (Hn 4). pose proof (Hn 5).
  unfold CP_USER, CP_NICE, CP_SYS, CP_INTR, CP_IDLE in *.
  set (total := total_ticks cp) in *. assert (0 < total)%Z by lia. nia.
Qed.

Definition memory_fields (m : MemoryStats) : list Z :=
  [me_total_mb m; me_free_mb m; me_active_mb m; me_inactive_mb m; me_wired_mb m; me_cache_mb m;
   me_swap_total_mb m; me_swap_used_mb m].

Lemma wrap64_mb z : (0 ≤ wrap64 z / MB < 2 ^ 44)%Z.
Proof.
  pose proof (Z.mod_pos_bound z (2 ^ 64) ltac:(done)). unfold wrap64, MB. split; [apply Z.div_pos; lia|].
  apply Z.div_lt_upper_bound; lia.
Qed.

Lemma pages_mb_range p x : (0 ≤ pages_mb p x < 2 ^ 44)%Z.
Proof. apply wrap64_mb. Qed.

Lemma swap_mb_range b : (0 ≤ swap_mb b < 2 ^ 44)%Z.
Proof. apply wrap64_mb. Qed.

(** The figures in a [MemoryStats] fit a [long]; swap figures that were not written are
    what was in memory before. *)
Lemma memory_stats_range env old t :
  Forall (λ z, - 2 ^ 63 ≤ z < 2 ^ 63)%Z (memory_fields old) →
  let r := (metrics_get_memory_stats env old t).1 in
  Forall (λ z, - 2 ^ 63 ≤ z < 2 ^ 63)%Z (memory_fields r.2) ∧ (r.1 = 0 → me_total_mb r.2 < 2 ^ 44)%Z.
Proof.
  intros Hold.
  assert (∀ p x, - 2 ^ 63 ≤ pages_mb p x < 2 ^ 63)%Z as Hp
    by (intros p x; pose proof (pages_mb_range p x); lia).
  assert (∀ b, - 2 ^ 63 ≤ swap_mb b < 2 ^ 63)%Z as Hsw
    by (intros b; pose proof (swap_mb_range b); lia).
  assert (∀ u, Forall (λ z, - 2 ^ 63 ≤ z < 2 ^ 63)%Z (memory_fields (set_memory u old))) as Hset.
  { intros u. unfold memory_fields in *. cbn [set_memory me_total_mb me_free_mb me_active_mb me_inactive_mb
      me_wired_mb me_cache_mb me_swap_total_mb me_swap_used_mb].
    do 6 apply Forall_cons in Hold as [_ Hold]. repeat (constructor; [first [apply Hp|lia]|]). exact Hold. }
  assert (∀ u a b, (- 2 ^ 63 ≤ a < 2 ^ 63)%Z → (- 2 ^ 63 ≤ b < 2 ^ 63)%Z →
    Forall (λ z, - 2 ^ 63 ≤ z < 2 ^ 63)%Z (memory_fields (set_swap a b (set_memory u old)))) as Hswap.
  { intros u a b Ha Hb. specialize (Hset u). unfold memory_fields in *. cbn [set_swap me_total_mb me_free_mb
      me_active_mb me_inactive_mb me_wired_mb me_cache_mb me_swap_total_mb me_swap_used_mb] in *.
    do 8 (apply Forall_cons in Hset as [? Hset]).
    repeat (apply Forall_cons; split; [assumption|]). constructor. }
  unfold metrics_get_memory_stats, ask. run_st.
  destruct (mv_uvmexp env t) as [u|]; [|split; [done|cbn; done]].
  assert (me_total_mb (set_memory u old) < 2 ^ 44)%Z as Hlt by apply pages_mb_range.
  destruct (_ <=? 0)%Z; [split; [by apply Hswap|done]|].
  destruct (negb _); [by split; [apply Hset|]|].
  destruct (mv_swap_stats env _) as [swdev|]; cbn [fst snd]; [|by split; [apply Hset|]].
  split; [apply Hswap; apply Hsw|done].
Qed.

(** Without memory for the table of swap devices the call succeeds and its swap figures are
    whatever was on the stack. *)
Example swap_figures_unset :
  let junk := {| me_total_mb := 0; me_free_mb := 0; me_active_mb := 0; me_inactive_mb := 0; me_wired_mb := 0;
                 me_cache_mb := 0; me_swap_total_mb := 140187732541440; me_swap_used_mb := -7 |} in
  ∀ env t u, mv_uvmexp env t = Some u → mv_nswap env (S t) = 1%Z → mv_alloc env (S (S t)) = false →
  let r := (metrics_get_memory_stats env junk t).1 in
  r.1 = 0%Z ∧ me_swap_total_mb r.2 = 140187732541440%Z ∧ me_swap_used_mb r.2 = (-7)%Z.
Proof.
  intros junk env t u Hu Hn Ha. unfold metrics_get_memory_stats, ask. run_st. rewrite Hu. run_st.
  rewrite Hn. cbn [Z.leb Z.compare]. run_st. rewrite Ha. cbn. done.
Qed.

(** The parts of an uptime are those of a clock and give the seconds back. *)
Lemma uptime_parts up :
  (0 ≤ up)%Z → ∃ d h m s,
    (up = d * 86400 + h * 3600 + m * 60 + s ∧ 0 ≤ d ∧ 0 ≤ h < 24 ∧ 0 ≤ m < 60 ∧ 0 ≤ s < 60)%Z ∧
    uptime_text up = (if (0 <? d)%Z then fmt_Z d ++ bs " days, " else []) ++
                     fmt_Z h ++ bs ":" ++ fmt_pad 2 m ++ bs ":" ++ fmt_pad 2 s.
Proof.
  intros Hup. unfold uptime_text. change (60 * 60 * 24)%Z with 86400%Z. change (60 * 60)%Z with 3600%Z.
  rewrite !Z.rem_mod_nonneg by lia.
  pose proof (Z.mod_pos_bound up 86400 ltac:(lia)). pose proof (Z.mod_pos_bound up 3600 ltac:(lia)).
  pose proof (Z.mod_pos_bound up 60 ltac:(lia)).
  rewrite !Z.quot_div_nonneg by lia.
  exists (up / 86400)%Z, (up mod 86400 / 3600)%Z, (up mod 3600 / 60)%Z, (up mod 60)%Z. split.
  - pose proof (Z.div_mod up 86400 ltac:(lia)). pose proof (Z.div_mod up 3600 ltac:(lia)).
    pose proof (Z.div_mod up 60 ltac:(lia)).
    pose proof (Z.div_mod (up mod 86400) 3600 ltac:(lia)). pose proof (Z.div_mod (up mod 3600) 60 ltac:(lia)).
    pose proof (Z.mod_pos_bound (up mod 86400) 3600 ltac:(lia)).
    pose proof (Z.mod_pos_bound (up mod 3600) 60 ltac:(lia)).
    assert ((up mod 86400) mod 3600 = up mod 3600)%Z as E1
      by (apply Z.mod_unique with (q := (24 * (up / 86400) + up mod 86400 / 3600)%Z); [left; lia|lia]).
    assert ((up mod 3600) mod 60 = up mod 60)%Z as E2
      by (apply Z.mod_unique with (q := (60 * (up / 3600) + up mod 3600 / 60)%Z); [left; lia|lia]).
    split_and!; lia.
  - by destruct (0 <? up / 86400)%Z; rewrite <- ?app_assoc.
Qed.

(** The disks listed are those of the first mounts that are real, [max_disks] at most. *)
Lemma disks_loop_spec mounts n disks :
  length disks ≤ n →
  disks_loop mounts n disks
  = disks ++ take (n - length disks) (disk_of <$> filter (λ fs, skipped_fs fs = false) mounts).
Proof.
  revert disks. induction mounts as [|fs mounts IH]; intros disks Hn; cbn [disks_loop].
  { cbn. by rewrite take_nil, app_nil_r. }
  destruct (length disks <? n) eqn:Hl; bool_facts.
  2: { replace (n - length disks) with 0 by lia. by rewrite take_0, app_nil_r. }
  rewrite filter_cons. destruct (skipped_fs fs) eqn:Hs.
  - rewrite decide_False by done. by apply IH.
  - rewrite decide_True by done. rewrite IH by (rewrite length_app; simpl; lia).
    rewrite length_app, fmap_cons, <- app_assoc. f_equal. simpl length.
    by replace (n - length disks) with (S (n - (length disks + 1))) by lia.
Qed.
