(* ===== verification/MetricsJson.v ===== *)
(** * The metrics module: sections of the document (src/modules/metrics/metrics_json.c)

    Each section is printed into an array of its own: with one [snprintf] that cuts what
    does not fit ([snprintf]), by a loop that stops in time (the history), or by a loop that
    trusts the array to be large enough ([append_items]).  Strings are printed as they are.
    A section is right when it is a text of the members it means. *)

From Stdlib Require Import Floats.SpecFloat.
From S2P Require Import Prelude CFloat HttpUtils JsonValue JsonBuf MetricsCollect.

(** ** Data *)

Record MetricSample := {
  sp_ts : Z;
  sp_cpu : spec_float;
  sp_cpu_total_ticks : Z;
  sp_cpu_idle_ticks : Z;
  sp_mem_used : Z;
  sp_mem_total : Z;
  sp_swap_used : Z;
  sp_net_rx : Z;
  sp_net_tx : Z
}.

(** ** Printing *)

(** The string [snprintf(buffer, size, ...)] leaves in the buffer, for [size > 0]. *)
Definition snprintf (size : Z) (text : bytes) : bytes := take (Z.to_nat (size - 1)) text.

Lemma snprintf_whole size text : (zlen text < size)%Z → snprintf size text = text.
Proof. unfold zlen. intros H. apply take_ge. lia. Qed.

(** The loops over an array: items with ", " in between, each printed without a look at the
    room for it; the loop goes on while more than [guard] bytes are left. *)
Fixpoint append_items {A} (max guard : Z) (item : A → bytes) (first : bool) (l : list A) (b : jbuf)
    : jbuf :=
  match l with
  | [] => b
  | x :: l' =>
      if (guard <? jb_left max b)%Z then
        let b := if first then b else jb_printf max (bs ", ") b in
        append_items max guard item false l' (jb_printf max (item x) b)
      else b
  end.

(** [head], the items and the closing bracket. *)
Definition print_items {A} (max guard : Z) (head : bytes) (item : A → bytes) (l : list A) : jbuf :=
  jb_printf max (bs "]") (append_items max guard item true l (jb_printf max head empty_jbuf)).

(** *** The history *)

Definition history_item (first : bool) (s : MetricSample) : bytes :=
  (if first then [] else bs ", ") ++
  qs "{'ts': " ++ fmt_Z (sp_ts s) ++ qs ", 'cpu': " ++ fmt_fixed 2 (sp_cpu s) ++
  qs ", 'mem_used_mb': " ++ fmt_Z (sp_mem_used s) ++ qs ", 'mem_total_mb': " ++ fmt_Z (sp_mem_total s) ++
  qs ", 'swap_used_mb': " ++ fmt_Z (sp_swap_used s) ++ qs ", 'net_rx': " ++ fmt_Z (sp_net_rx s) ++
  qs ", 'net_tx': " ++ fmt_Z (sp_net_tx s) ++ bs "}".

Fixpoint history_loop (size : Z) (first : bool) (history : list MetricSample) (text : bytes) : bytes :=
  match history with
  | [] => text
  | s :: history' =>
      let item := history_item first s in
      if (size - zlen text <=? zlen item)%Z then text
      else history_loop size false history' (text ++ item)
  end.

Definition metrics_json_append_history (size : Z) (history : list MetricSample) : bytes :=
  let head := qs "'history': [" in
  if (size <=? zlen head)%Z then []
  else snprintf size (history_loop size true history head ++ bs "]").

(** *** Texts of the sections *)

Definition cpu_text (r : Z * CpuStats) : bytes :=
  let '(rc, stats) := r in
  if (rc =? 0)%Z then
    let used := to_int32 (cs_user stats + cs_nice stats + cs_system stats + cs_interrupt stats) in
    qs "'cpu': {'used_pct': " ++ fmt_Z used ++ qs ",'user_pct': " ++ fmt_Z (cs_user stats) ++
    qs ",'nice_pct': " ++ fmt_Z (cs_nice stats) ++ qs ",'system_pct': " ++ fmt_Z (cs_system stats) ++
    qs ",'interrupt_pct': " ++ fmt_Z (cs_interrupt stats) ++ qs ",'idle_pct': " ++ fmt_Z (cs_idle stats) ++
    bs "}"
  else qs "'cpu': null".

Definition cpu_freq_text (freq_mhz : Z) : bytes :=
  if (0 <? freq_mhz)%Z then qs "'cpu_freq_mhz': " ++ fmt_Z freq_mhz else qs "'cpu_freq_mhz': null".

Definition memory_text (r : Z * MemoryStats) : bytes :=
  let '(rc, m) := r in
  if (rc =? 0)%Z then
    qs "'memory': {'total_mb': " ++ fmt_Z (me_total_mb m) ++ qs ", 'free_mb': " ++ fmt_Z (me_free_mb m) ++
    qs ", 'active_mb': " ++ fmt_Z (me_active_mb m) ++ qs ", 'inactive_mb': " ++ fmt_Z (me_inactive_mb m) ++
    qs ", 'wired_mb': " ++ fmt_Z (me_wired_mb m) ++ qs ", 'cache_mb': " ++ fmt_Z (me_cache_mb m) ++
    qs "}, 'swap': {'total_mb': " ++ fmt_Z (me_swap_total_mb m) ++ qs ", 'used_mb': " ++
    fmt_Z (me_swap_used_mb m) ++ bs "}"
  else
    qs "'memory': {'total_mb': 0, 'free_mb': 0, 'active_mb': 0, 'inactive_mb': 0, 'wired_mb': 0, 'cache_mb': 0}, 'swap': {'total_mb': 0, 'used_mb': 0}".

Definition load_text (r : option LoadAverage) : bytes :=
  match r with
  | Some load =>
      qs "'load': {'1min': " ++ fmt_fixed 2 (load_1min load) ++ qs ", '5min': " ++
      fmt_fixed 2 (load_5min load) ++ qs ", '15min': " ++ fmt_fixed 2 (load_15min load) ++ bs "}"
  | None => qs "'load': {'1min': 0.0, '5min': 0.0, '15min': 0.0}"
  end.

Definition os_text (r : option (bytes * bytes * bytes)) : bytes :=
  match r with
  | Some (os_type, os_release, machine) =>
      qs "'os': {'type': '" ++ os_type ++ qs "', 'release': '" ++ os_release ++ qs "', 'machine': '" ++
      machine ++ qs "'}"
  | None => qs "'os': {'type': 'Unknown', 'release': 'Unknown', 'machine': 'Unknown'}"
  end.

Definition uptime_section (r : option bytes) : bytes :=
  match r with
  | Some uptime_str => qs "'uptime': '" ++ uptime_str ++ qs "'"
  | None => qs "'uptime': 'unknown'"
  end.

Definition disk_item (d : DiskInfo) : bytes :=
  qs "{'device': '" ++ dk_device d ++ qs "', 'mount': '" ++ dk_mount_point d ++ qs "', 'total_mb': " ++
  fmt_Z (dk_total_mb d) ++ qs ", 'used_mb': " ++ fmt_Z (dk_used_mb d) ++ qs ", 'percent': " ++
  fmt_Z (dk_percent_used d) ++ bs "}".

Definition port_item (p : PortInfo) : bytes :=
  qs "{'port': " ++ fmt_Z (pt_port p) ++ qs ", 'protocol': '" ++ pt_protocol p ++ qs "', 'connections': " ++
  fmt_Z (pt_connection_count p) ++ qs ", 'state': '" ++ pt_state p ++ qs "'}".

(** *** The functions *)

Section sections.
Context (env : metrics_env).

Definition metrics_json_append_cpu_stats (size : Z) : MQ bytes :=
  r ← metrics_get_cpu_stats env; mret (snprintf size (cpu_text r)).

Definition metrics_json_append_cpu_freq (size freq_mhz : Z) : bytes := snprintf size (cpu_freq_text freq_mhz).

Definition metrics_json_append_memory_stats (size : Z) : MQ bytes :=
  junk ← ask (mv_junk env);
  r ← metrics_get_memory_stats env junk; mret (snprintf size (memory_text r)).

Definition metrics_json_append_load_average (size : Z) : MQ bytes :=
  r ← metrics_get_load_average env; mret (snprintf size (load_text r)).

Definition metrics_json_append_os_info (size : Z) : MQ bytes :=
  r ← metrics_get_os_info env 64; mret (snprintf size (os_text r)).

Definition metrics_json_append_uptime (size : Z) : MQ bytes :=
  r ← metrics_get_uptime env 128; mret (snprintf size (uptime_section r)).

Definition metrics_json_append_disk_info (size : Z) : MQ jbuf :=
  disks ← metrics_get_disk_usage env 16;
  mret (print_items size 0 (qs "'disks': [") disk_item disks).

Definition metrics_json_append_top_ports (size : Z) : jbuf :=
  print_items size 0 (qs "'top_ports': [") port_item (metrics_get_top_ports 20).
End sections.

(** ** The loops *)

(** The texts of an array, with a blank behind each comma. *)
Definition spaced (ts : list bytes) : list bytes :=
  match ts with [] => [] | t :: ts' => t :: (cons space <$> ts') end.

(** The same as text, the separator in front of each item but the first. *)
Fixpoint items_text {A} (item : A → bytes) (first : bool) (l : list A) : bytes :=
  match l with
  | [] => []
  | x :: l' => (if first then [] else bs ", ") ++ item x ++ items_text item false l'
  end.

Lemma items_text_spaced {A} (item : A → bytes) l :
  items_text item true l = join_comma (spaced (item <$> l)).
Proof.
  destruct l as [|x l]; [done|]. cbn [items_text fmap list_fmap spaced app].
  revert x. induction l as [|y l IH]; intros x; [cbn; by rewrite app_nil_r|].
  cbn [items_text fmap list_fmap]. specialize (IH y).
  change (join_comma (item x :: (space :: item y) :: (cons space <$> (item <$> l)))) with
    (item x ++ [","%char] ++ join_comma ((space :: item y) :: (cons space <$> (item <$> l)))).
  assert (∀ t r, join_comma ((space :: t) :: r) = space :: join_comma (t :: r)) as E by by intros t [].
  rewrite E, <- IH. reflexivity.
Qed.

(** An array of at most [n] items of at most [w] bytes. *)
Lemma items_text_length {A} (item : A → bytes) first l w :
  Forall (λ x, zlen (item x) ≤ w)%Z l → (zlen (items_text item first l) ≤ zlen l * (w + 2))%Z.
Proof.
  intros H. revert first. induction H as [|x l Hx _ IH]; intros first; [done|].
  cbn [items_text]. rewrite !zlen_app, zlen_cons. specialize (IH false).
  assert (zlen (if first then [] else bs ", ") ≤ 2)%Z by by destruct first. lia.
Qed.

(** Items that leave more than [guard] bytes are all printed. *)
Lemma append_items_all {A} max guard (item : A → bytes) l first t :
  (0 ≤ guard)%Z → (max < 2 ^ 64)%Z → (zlen t + zlen (items_text item first l) < max - guard)%Z →
  append_items max guard item first l (jb_of t) = jb_of (t ++ items_text item first l).
Proof.
  intros Hg Hmax. revert first t. induction l as [|x l IH]; intros first t Hl; cbn [append_items items_text].
  { by rewrite app_nil_r. }
  cbn [items_text] in Hl. rewrite !zlen_app in Hl.
  pose proof (zlen_nonneg (if first then [] else bs ", ")). pose proof (zlen_nonneg (item x)).
  pose proof (zlen_nonneg (items_text item false l)).
  rewrite jb_left_of by lia. rewrite (proj2 (Z.ltb_lt _ _)) by lia.
  assert ((if first then jb_of t else jb_printf max (bs ", ") (jb_of t))
    = jb_of (t ++ if first then [] else bs ", ")) as ->.
  { destruct first; [by rewrite app_nil_r|]. apply jb_printf_of. lia. }
  rewrite jb_printf_of by (rewrite zlen_app; lia).
  rewrite IH by (rewrite !zlen_app; lia). by rewrite <- !app_assoc.
Qed.

Lemma print_items_all {A} max guard head (item : A → bytes) l :
  (0 ≤ guard)%Z → (max < 2 ^ 64)%Z →
  (zlen head + zlen (items_text item true l) + 1 < max - guard)%Z →
  print_items max guard head item l = jb_of (head ++ join_comma (spaced (item <$> l)) ++ bs "]").
Proof.
  intros Hg Hmax Hl. unfold print_items. change empty_jbuf with (jb_of []).
  pose proof (zlen_nonneg (items_text item true l)).
  rewrite jb_printf_of by (rewrite zlen_nil; lia). cbn [app].
  rewrite append_items_all by lia. rewrite jb_printf_of by (rewrite zlen_app; change (zlen (bs "]")) with 1%Z; lia).
  by rewrite items_text_spaced, <- app_assoc.
Qed.

(** The history goes on as long as items fit; all of it is there when all of them do. *)
Lemma history_loop_all size first history text :
  (zlen text + zlen (items_text (history_item true) first history) < size)%Z →
  history_loop size first history text = text ++ items_text (history_item true) first history.
Proof.
  revert first text. induction history as [|s l IH]; intros first text Hl; cbn [history_loop items_text].
  { by rewrite app_nil_r. }
  cbn [items_text] in Hl. rewrite !zlen_app in Hl.
  assert (history_item first s = (if first then [] else bs ", ") ++ history_item true s) as Hi by by destruct first.
  pose proof (zlen_nonneg (items_text (history_item true) false l)).
  rewrite Hi, zlen_app. rewrite (proj2 (Z.leb_gt _ _)) by lia.
  rewrite IH by (rewrite !zlen_app; lia). by rewrite <- !app_assoc.
Qed.

(** Whatever the size, the history is cut between items. *)
Lemma history_loop_some size first history text :
  ∃ n, history_loop size first history text
       = text ++ items_text (history_item true) first (take n history).
Proof.
  revert first text. induction history as [|s l IH]; intros first text; cbn [history_loop].
  { exists 0. by rewrite app_nil_r. }
  destruct (_ <=? _)%Z; [exists 0; by rewrite app_nil_r|].
  destruct (IH false (text ++ history_item first s)) as [n ->]. exists (S n). cbn [take items_text].
  assert (history_item first s = (if first then [] else bs ", ") ++ history_item true s) as -> by by destruct first.
  by rewrite <- !app_assoc.
Qed.

(** ** Values *)

(** A member, with the blanks the module prints in front of it. *)
Definition member_at (x : bytes * bytes * jvalue * bytes) : bytes :=
  let '(w, k, v, t) := x in w ++ [dq] ++ k ++ [dq] ++ bs ": " ++ t.

Definition member_of (x : bytes * bytes * jvalue * bytes) : bytes * jvalue :=
  let '(w, k, v, t) := x in (k, v).

Definition member_fine (x : bytes * bytes * jvalue * bytes) : Prop :=
  let '(w, k, v, t) := x in blanks w ∧ clean k ∧ json_form json_escape v t.

Lemma section_members l :
  Forall member_fine l → l ≠ [] → json_section (member_of <$> l) (join_comma (member_at <$> l)).
Proof.
  intros Hl Hne. exists (member_at <$> l). split_and!; [|by destruct l|done]. clear Hne.
  induction Hl as [|[[[w k] v] t] l (Hw & Hk & Hv) _ IH]; [constructor|]. cbn [fmap list_fmap member_of].
  assert (member_at (w, k, v, t) = w ++ quoted json_escape k ++ [":"%char] ++ [space] ++ t) as ->.
  { rewrite clean_quoted by done. cbn [member_at]. by rewrite <- !app_assoc. }
  constructor; [done|by repeat constructor|done|done].
Qed.

Lemma object_members l :
  Forall member_fine l → l ≠ [] →
  json_form json_escape (JObj (member_of <$> l)) (["{"%char] ++ join_comma (member_at <$> l) ++ ["}"%char]).
Proof. intros Hl Hne. by apply json_section_form, section_members. Qed.

(** The value of a finite number printed with [n + 1] digits. *)
Definition dec_value (n : nat) (x : spec_float) : jvalue :=
  match x with
  | S754_finite s m e => JDec s (Z.to_N (scaled m e (S n))) n
  | S754_zero s => JDec s 0 n
  | _ => JNull
  end.

Definition finite (x : spec_float) : Prop := ∃ k prec, bounded_by prec k x.

Lemma form_fixed n x : finite x → json_form json_escape (dec_value n x) (fmt_fixed (S n) x).
Proof. intros (k & prec & Hx). destruct x; try done; constructor. Qed.

Lemma forms_spaced l ts :
  Forall2 (json_form json_escape) l ts → json_forms json_escape l (spaced ts).
Proof.
  intros H. destruct H as [|v t l ts Hv Hl]; [constructor|]. cbn [spaced].
  apply (forms_cons json_escape v l [] t); [constructor|done|].
  induction Hl as [|u s l ts Hu Hl IH]; cbn [fmap list_fmap]; [constructor|].
  apply (forms_cons json_escape u l [space] s); [by repeat constructor|done|done].
Qed.

(** An array section. *)
Lemma section_array {A} key (item : A → bytes) (value : A → jvalue) l :
  clean key → Forall (λ x, json_form json_escape (value x) (item x)) l →
  json_section [(key, JArr (value <$> l))]
    ([dq] ++ key ++ [dq] ++ bs ": [" ++ join_comma (spaced (item <$> l)) ++ bs "]").
Proof.
  intros Hk Hl.
  assert (json_form json_escape (JArr (value <$> l)) (["["%char] ++ join_comma (spaced (item <$> l)) ++ ["]"%char])) as H.
  { constructor. apply forms_spaced. induction Hl; cbn [fmap list_fmap]; by constructor. }
  apply (section_members [([], key, JArr (value <$> l), _)]); [|done].
  apply Forall_singleton. split_and!; [constructor|done|exact H].
Qed.

(** Closing the side conditions of literal keys and blanks. *)
Ltac fine_members :=
  repeat (apply Forall_cons; split; [split_and!;
    [by repeat constructor|by apply (bool_decide_unpack _); vm_compute|
     first [apply form_num|apply form_fixed|apply json_form_clean|idtac]]|]); [..|by constructor].

(** The same with the members and the text given up to computation and association. *)
Lemma section_by ms l t :
  Forall member_fine ms → ms ≠ [] → l = member_of <$> ms → t = join_comma (member_at <$> ms) → json_section l t.
Proof. intros ? ? -> ->. by apply section_members. Qed.

Lemma object_by ms l t :
  Forall member_fine ms → ms ≠ [] → l = member_of <$> ms →
  t = ["{"%char] ++ join_comma (member_at <$> ms) ++ ["}"%char] → json_form json_escape (JObj l) t.
Proof. intros ? ? -> ->. by apply object_members. Qed.

(** No blanks in front of a member. *)
Abbreviation tight := ([] : bytes).

Ltac same_members :=
  repeat match goal with x := _ |- _ => subst x end;
  cbn [fmap list_fmap join_comma member_at]; rewrite <- ?app_assoc; reflexivity.

(** The object, or the section, of the members [ms]. *)
Ltac object_of ms := apply (object_by ms); [fine_members|done|reflexivity|same_members].
Ltac section_of ms := apply (section_by ms); [fine_members|done|reflexivity|same_members].

Definition history_value (s : MetricSample) : jvalue :=
  JObj [(bs "ts", JNum (sp_ts s)); (bs "cpu", dec_value 1 (sp_cpu s));
        (bs "mem_used_mb", JNum (sp_mem_used s)); (bs "mem_total_mb", JNum (sp_mem_total s));
        (bs "swap_used_mb", JNum (sp_swap_used s)); (bs "net_rx", JNum (sp_net_rx s));
        (bs "net_tx", JNum (sp_net_tx s))].

Lemma form_history_item s :
  finite (sp_cpu s) → json_form json_escape (history_value s) (history_item true s).
Proof.
  intros Hc. unfold history_item. cbn [app].
  object_of [(tight, bs "ts", JNum (sp_ts s), fmt_Z (sp_ts s));
             ([space], bs "cpu", dec_value 1 (sp_cpu s), fmt_fixed 2 (sp_cpu s));
             ([space], bs "mem_used_mb", JNum (sp_mem_used s), fmt_Z (sp_mem_used s));
             ([space], bs "mem_total_mb", JNum (sp_mem_total s), fmt_Z (sp_mem_total s));
             ([space], bs "swap_used_mb", JNum (sp_swap_used s), fmt_Z (sp_swap_used s));
             ([space], bs "net_rx", JNum (sp_net_rx s), fmt_Z (sp_net_rx s));
             ([space], bs "net_tx", JNum (sp_net_tx s), fmt_Z (sp_net_tx s))].
  done.
Qed.

Definition cpu_value (r : Z * CpuStats) : jvalue :=
  let '(rc, stats) := r in
  if (rc =? 0)%Z then
    JObj [(bs "used_pct", JNum (to_int32 (cs_user stats + cs_nice stats + cs_system stats + cs_interrupt stats)));
          (bs "user_pct", JNum (cs_user stats)); (bs "nice_pct", JNum (cs_nice stats));
          (bs "system_pct", JNum (cs_system stats)); (bs "interrupt_pct", JNum (cs_interrupt stats));
          (bs "idle_pct", JNum (cs_idle stats))]
  else JNull.

Lemma cpu_section r : json_section [(bs "cpu", cpu_value r)] (cpu_text r).
Proof.
  destruct r as [rc s]. unfold cpu_value, cpu_text. destruct (rc =? 0)%Z.
  - set (used := to_int32 _).
    set (ms := [(tight, bs "used_pct", JNum used, fmt_Z used);
       (tight, bs "user_pct", JNum (cs_user s), fmt_Z (cs_user s));
       (tight, bs "nice_pct", JNum (cs_nice s), fmt_Z (cs_nice s));
       (tight, bs "system_pct", JNum (cs_system s), fmt_Z (cs_system s));
       (tight, bs "interrupt_pct", JNum (cs_interrupt s), fmt_Z (cs_interrupt s));
       (tight, bs "idle_pct", JNum (cs_idle s), fmt_Z (cs_idle s))]).
    section_of [(tight, bs "cpu", JObj (member_of <$> ms), ["{"%char] ++ join_comma (member_at <$> ms) ++ ["}"%char])].
    apply object_members; [unfold ms; fine_members|done].
  - section_of [(tight, bs "cpu", JNull, bs "null")]. constructor.
Qed.

Definition cpu_freq_value (freq_mhz : Z) : jvalue := if (0 <? freq_mhz)%Z then JNum freq_mhz else JNull.

Lemma cpu_freq_section freq : json_section [(bs "cpu_freq_mhz", cpu_freq_value freq)] (cpu_freq_text freq).
Proof.
  unfold cpu_freq_value, cpu_freq_text. destruct (0 <? freq)%Z.
  - section_of [(tight, bs "cpu_freq_mhz", JNum freq, fmt_Z freq)].
  - section_of [(tight, bs "cpu_freq_mhz", JNull, bs "null")]. constructor.
Qed.

Definition zero_memory : MemoryStats :=
  {| me_total_mb := 0; me_free_mb := 0; me_active_mb := 0; me_inactive_mb := 0; me_wired_mb := 0;
     me_cache_mb := 0; me_swap_total_mb := 0; me_swap_used_mb := 0 |}.

Definition memory_members (r : Z * MemoryStats) : list (bytes * jvalue) :=
  let m := if (r.1 =? 0)%Z then r.2 else zero_memory in
  [(bs "memory", JObj [(bs "total_mb", JNum (me_total_mb m)); (bs "free_mb", JNum (me_free_mb m));
                       (bs "active_mb", JNum (me_active_mb m)); (bs "inactive_mb", JNum (me_inactive_mb m));
                       (bs "wired_mb", JNum (me_wired_mb m)); (bs "cache_mb", JNum (me_cache_mb m))]);
   (bs "swap", JObj [(bs "total_mb", JNum (me_swap_total_mb m)); (bs "used_mb", JNum (me_swap_used_mb m))])].

Lemma memory_section r : json_section (memory_members r) (memory_text r).
Proof.
  assert (∀ m, json_section (memory_members (0%Z, m)) (memory_text (0%Z, m))) as H.
  { intros m. unfold memory_members, memory_text. cbn [fst snd Z.eqb].
    set (mem := [(tight, bs "total_mb", JNum (me_total_mb m), fmt_Z (me_total_mb m));
       ([space], bs "free_mb", JNum (me_free_mb m), fmt_Z (me_free_mb m));
       ([space], bs "active_mb", JNum (me_active_mb m), fmt_Z (me_active_mb m));
       ([space], bs "inactive_mb", JNum (me_inactive_mb m), fmt_Z (me_inactive_mb m));
       ([space], bs "wired_mb", JNum (me_wired_mb m), fmt_Z (me_wired_mb m));
       ([space], bs "cache_mb", JNum (me_cache_mb m), fmt_Z (me_cache_mb m))]).
    set (swap := [(tight, bs "total_mb", JNum (me_swap_total_mb m), fmt_Z (me_swap_total_mb m));
       ([space], bs "used_mb", JNum (me_swap_used_mb m), fmt_Z (me_swap_used_mb m))]).
    section_of [
      (tight, bs "memory", JObj (member_of <$> mem), ["{"%char] ++ join_comma (member_at <$> mem) ++ ["}"%char]);
      ([space], bs "swap", JObj (member_of <$> swap),
        ["{"%char] ++ join_comma (member_at <$> swap) ++ ["}"%char])];
      (apply object_members; [unfold mem, swap; fine_members|done]). }
  destruct r as [rc m]. unfold memory_members, memory_text in *. cbn [fst snd] in *.
  destruct (rc =? 0)%Z; [exact (H m)|]. exact (H zero_memory).
Qed.

Definition load_value (r : option LoadAverage) : jvalue :=
  match r with
  | Some load => JObj [(bs "1min", dec_value 1 (load_1min load)); (bs "5min", dec_value 1 (load_5min load));
                       (bs "15min", dec_value 1 (load_15min load))]
  | None => JObj [(bs "1min", JDec false 0 0); (bs "5min", JDec false 0 0); (bs "15min", JDec false 0 0)]
  end.

Definition load_finite (load : LoadAverage) : Prop :=
  finite (load_1min load) ∧ finite (load_5min load) ∧ finite (load_15min load).

Lemma load_section r :
  (∀ load, r = Some load → load_finite load) → json_section [(bs "load", load_value r)] (load_text r).
Proof.
  destruct r as [load|]; intros H.
  - destruct (H load eq_refl) as (H1 & H2 & H3).
    set (ms := [(tight, bs "1min", dec_value 1 (load_1min load), fmt_fixed 2 (load_1min load));
                ([space], bs "5min", dec_value 1 (load_5min load), fmt_fixed 2 (load_5min load));
                ([space], bs "15min", dec_value 1 (load_15min load), fmt_fixed 2 (load_15min load))]).
    section_of [(tight, bs "load", JObj (member_of <$> ms), ["{"%char] ++ join_comma (member_at <$> ms) ++ ["}"%char])].
    apply object_members; [unfold ms; fine_members; done|done].
  - set (ms := [(tight, bs "1min", JDec false 0 0, bs "0.0"); ([space], bs "5min", JDec false 0 0, bs "0.0");
                ([space], bs "15min", JDec false 0 0, bs "0.0")]).
    section_of [(tight, bs "load", JObj (member_of <$> ms), ["{"%char] ++ join_comma (member_at <$> ms) ++ ["}"%char])].
    apply object_members; [unfold ms; fine_members; apply (form_dec json_escape false 0 0)|done].
Qed.

(** A string as it is printed. *)
Abbreviation raw s := ([dq] ++ s ++ [dq]).

Definition os_value (r : option (bytes * bytes * bytes)) : jvalue :=
  let '(os_type, os_release, machine) := default (bs "Unknown", bs "Unknown", bs "Unknown") r in
  JObj [(bs "type", JStr os_type); (bs "release", JStr os_release); (bs "machine", JStr machine)].

Lemma os_section r :
  (∀ a b c, r = Some (a, b, c) → clean a ∧ clean b ∧ clean c) →
  json_section [(bs "os", os_value r)] (os_text r).
Proof.
  assert (∀ a b c, clean a → clean b → clean c →
    json_section [(bs "os", os_value (Some (a, b, c)))] (os_text (Some (a, b, c)))) as H.
  { intros a b c Ha Hb Hc. unfold os_value, os_text. cbn [default].
    set (ms := [(tight, bs "type", JStr a, raw a); ([space], bs "release", JStr b, raw b);
                ([space], bs "machine", JStr c, raw c)]).
    section_of [(tight, bs "os", JObj (member_of <$> ms), ["{"%char] ++ join_comma (member_at <$> ms) ++ ["}"%char])].
    apply object_members; [unfold ms; fine_members; done|done]. }
  destruct r as [[[a b] c]|]; intros Hr.
  - destruct (Hr a b c eq_refl) as (? & ? & ?). auto.
  - apply H; by apply (bool_decide_unpack _); vm_compute.
Qed.

Definition uptime_value (r : option bytes) : jvalue := JStr (default (bs "unknown") r).

Lemma uptime_section_ok r :
  (∀ s, r = Some s → clean s) → json_section [(bs "uptime", uptime_value r)] (uptime_section r).
Proof.
  destruct r as [s|]; intros H.
  - section_of [(tight, bs "uptime", JStr s, raw s)]. by apply H.
  - section_of [(tight, bs "uptime", JStr (bs "unknown"), raw (bs "unknown"))].
    by apply (bool_decide_unpack _); vm_compute.
Qed.

Definition disk_value (d : DiskInfo) : jvalue :=
  JObj [(bs "device", JStr (dk_device d)); (bs "mount", JStr (dk_mount_point d));
        (bs "total_mb", JNum (dk_total_mb d)); (bs "used_mb", JNum (dk_used_mb d));
        (bs "percent", JNum (dk_percent_used d))].

Lemma form_disk d :
  clean (dk_device d) → clean (dk_mount_point d) → json_form json_escape (disk_value d) (disk_item d).
Proof.
  intros H1 H2. unfold disk_item.
  object_of [(tight, bs "device", JStr (dk_device d), raw (dk_device d));
             ([space], bs "mount", JStr (dk_mount_point d), raw (dk_mount_point d));
             ([space], bs "total_mb", JNum (dk_total_mb d), fmt_Z (dk_total_mb d));
             ([space], bs "used_mb", JNum (dk_used_mb d), fmt_Z (dk_used_mb d));
             ([space], bs "percent", JNum (dk_percent_used d), fmt_Z (dk_percent_used d))]; done.
Qed.

(** ** Lengths *)

(** Bounds for the texts between the literals. *)
Lemma fmt_int32_length z : (- 2 ^ 31 ≤ z < 2 ^ 31)%Z → (zlen (fmt_Z z) ≤ 11)%Z.
Proof.
  intros Hz. unfold zlen. destruct (decide (0 ≤ z)%Z).
  - rewrite fmt_Z_nonneg by done. pose proof (fmt_nat_length (Z.to_nat z) 10 ltac:(lia)). lia.
  - rewrite fmt_Z_neg by lia. pose proof (fmt_nat_length (Z.to_nat (- z)) 10 ltac:(lia)).
    cbn [length]. lia.
Qed.

Lemma fmt_uint32_length z : (0 ≤ z < 2 ^ 32)%Z → (zlen (fmt_Z z) ≤ 10)%Z.
Proof. intros Hz. apply (fmt_Z_short z 10); [lia|]. lia. Qed.

Lemma to_int32_range z : (- 2 ^ 31 ≤ to_int32 z < 2 ^ 31)%Z.
Proof. unfold to_int32. pose proof (Z.mod_pos_bound (z + 2 ^ 31) (2 ^ 32) ltac:(done)). lia. Qed.

(** The length of a text is the sum of its pieces; literals are counted. *)
Ltac text_length :=
  rewrite ?zlen_app;
  repeat match goal with
  | |- context [zlen (qs ?s)] => let n := eval vm_compute in (zlen (qs s)) in change (zlen (qs s)) with n
  | |- context [zlen (bs ?s)] => let n := eval vm_compute in (zlen (bs s)) in change (zlen (bs s)) with n
  end.

Definition int32 (z : Z) : Prop := (- 2 ^ 31 ≤ z < 2 ^ 31)%Z.
Definition uint32 (z : Z) : Prop := (0 ≤ z < 2 ^ 32)%Z.
Definition int64 (z : Z) : Prop := (- 2 ^ 63 ≤ z < 2 ^ 63)%Z.

Record sample_fine (s : MetricSample) : Prop := {
  sf_ts : int64 (sp_ts s);
  sf_cpu : ∃ neg m, fmt_fixed 2 (sp_cpu s) = fmt_dec neg m 2 ∧ (m ≤ 10000)%N;
  sf_finite : finite (sp_cpu s);
  sf_mem_used : uint32 (sp_mem_used s);
  sf_mem_total : uint32 (sp_mem_total s);
  sf_swap_used : uint32 (sp_swap_used s);
  sf_net_rx : uint32 (sp_net_rx s);
  sf_net_tx : uint32 (sp_net_tx s)
}.

Lemma history_item_length s : sample_fine s → (zlen (history_item true s) ≤ 250)%Z.
Proof.
  intros [H1 (neg & m & Hf & Hm) _ H4 H5 H6 H7 H8]. unfold history_item. cbn [app]. rewrite Hf.
  pose proof (fmt_Z_length (sp_ts s) ltac:(unfold int64 in *; lia)).
  pose proof (fmt_dec_short neg m 2 3 ltac:(lia) ltac:(lia) ltac:(change (10 ^ Z.of_nat (3 + 2))%Z with 100000%Z; lia)).
  apply fmt_uint32_length in H4, H5, H6, H7, H8. text_length. lia.
Qed.

(** The last two minutes always fit: the history is never cut. *)
Lemma history_whole history :
  Forall sample_fine history → (zlen history ≤ 120)%Z →
  metrics_json_append_history 32768 history
  = [dq] ++ bs "history" ++ [dq] ++ bs ": [" ++ join_comma (spaced (history_item true <$> history)) ++ bs "]".
Proof.
  intros Hs Hn. pose proof (items_text_length (history_item true) true history 250) as Hl.
  specialize (Hl ltac:(eapply Forall_impl; [exact Hs|]; apply history_item_length)).
  assert (zlen (qs "'history': [") = 12%Z) as Hh by done.
  unfold metrics_json_append_history. rewrite Hh. cbn [Z.leb Z.compare].
  rewrite history_loop_all by (rewrite Hh; lia).
  rewrite snprintf_whole by (text_length; lia).
  rewrite items_text_spaced, <- app_assoc. reflexivity.
Qed.

Lemma history_section history :
  Forall sample_fine history → (zlen history ≤ 120)%Z →
  json_section [(bs "history", JArr (history_value <$> history))] (metrics_json_append_history 32768 history).
Proof.
  intros Hs Hn. rewrite history_whole by done. apply section_array.
  - by apply (bool_decide_unpack _); vm_compute.
  - eapply Forall_impl; [exact Hs|]. intros s H. apply form_history_item, H.
Qed.
