(* ===== verification/MetricsProcess.v ===== *)
(** * The metrics module: processes (src/modules/metrics/metrics_process.c)

    The process table is asked for until there is room for it; lists of processes are
    sorted by load with a bubble sort and by memory with qsort. *)

From Stdlib Require Import Floats.SpecFloat.
From stdpp Require Import sorting.
From S2P Require Import Prelude CFloat HttpUtils JsonValue JsonBuf MetricsCollect MetricsJson.

(** ** Definitions *)

Definition compare_memory_desc (pa pb : kinfo_proc) : Z :=
  if (p_vm_rssize pa <? p_vm_rssize pb)%Z then 1
  else if (p_vm_rssize pb <? p_vm_rssize pa)%Z then -1
  else 0.

(** One inner loop: [k] comparisons of neighbours from the front. *)
Fixpoint bubble_pass {A} (less : A → A → bool) (k : nat) (l : list A) : list A :=
  match k, l with
  | S k, a :: b :: l' =>
      if less a b then b :: bubble_pass less k (a :: l') else a :: bubble_pass less k (b :: l')
  | _, _ => l
  end.

(** The outer loop. *)
Definition bubble_sort {A} (less : A → A → bool) (l : list A) : list A :=
  foldl (λ l i, bubble_pass less (length l - i - 1) l) l (seq 0 (length l - 1)).

Definition less_cpu (a b : ProcessInfo) : bool := SFltb (ps_cpu_percent a) (ps_cpu_percent b).

Definition FSCALE : Z := 2048.

Definition alive (p : kinfo_proc) : bool := negb (bool_decide (p_stat p = SZOMB)).

(** The counters of the processes by state. *)
Record ProcCounts := { pc_total : Z; pc_running : Z; pc_sleeping : Z; pc_zombie : Z }.

Definition count_state (c : ProcCounts) (p : kinfo_proc) : ProcCounts :=
  if bool_decide (p_stat p = SRUN) || bool_decide (p_stat p = SONPROC) then
    {| pc_total := pc_total c; pc_running := pc_running c + 1; pc_sleeping := pc_sleeping c;
       pc_zombie := pc_zombie c |}
  else if bool_decide (p_stat p = SSLEEP) then
    {| pc_total := pc_total c; pc_running := pc_running c; pc_sleeping := pc_sleeping c + 1;
       pc_zombie := pc_zombie c |}
  else if bool_decide (p_stat p = SZOMB) then
    {| pc_total := pc_total c; pc_running := pc_running c; pc_sleeping := pc_sleeping c;
       pc_zombie := pc_zombie c + 1 |}
  else c.

Definition count_procs (kp : list kinfo_proc) : ProcCounts :=
  foldl count_state
    {| pc_total := to_int32 (zlen kp); pc_running := 0; pc_sleeping := 0; pc_zombie := 0 |} kp.

(** *** Items of the lists *)

Definition cpu_item (p : ProcessInfo) : bytes :=
  qs "{'user': '" ++ ps_user p ++ qs "', 'pid': " ++ fmt_Z (ps_pid p) ++ qs ", 'cpu_percent': " ++
  fmt_fixed 1 (ps_cpu_percent p) ++ qs ", 'command': '" ++ ps_command p ++ qs "'}".

Definition mem_item (p : ProcessInfo) : bytes :=
  qs "{'user': '" ++ ps_user p ++ qs "', 'pid': " ++ fmt_Z (ps_pid p) ++ qs ", 'memory_percent': " ++
  fmt_fixed 1 (ps_memory_percent p) ++ qs ", 'memory_mb': " ++ fmt_Z (ps_memory_mb p) ++
  qs ", 'command': '" ++ ps_command p ++ qs "'}".

Definition counts_text (c : ProcCounts) : bytes :=
  qs "'process_stats': {'total': " ++ fmt_Z (pc_total c) ++ qs ", 'running': " ++ fmt_Z (pc_running c) ++
  qs ", 'sleeping': " ++ fmt_Z (pc_sleeping c) ++ qs ", 'zombie': " ++ fmt_Z (pc_zombie c) ++ bs "}".

Section process.
Context (env : metrics_env).

Definition metrics_resolve_username (uid : Z) (size : nat) : bytes :=
  match mv_passwd env uid with
  | Some pw_name => strlcpy size pw_name
  | None => strlcpy size (fmt_Z uid)
  end.

(** The loop over [retry]. *)
Fixpoint procs_loop (retries : nat) (retry : Z) : MQ (option (list kinfo_proc)) :=
  match retries with
  | 0 => mret None
  | S retries =>
      size ← ask (mv_proc_size env);
      match size with
      | None => mret None
      | Some n =>
          let nelem := Z.quot (to_int32 n * (5 + retry)) 4 in
          ok ← ask (mv_alloc env);
          if negb ok then mret None
          else
            answer ← ask (λ t, mv_proc_table env t nelem);
            match answer with
            | ProcTable kp => mret (Some kp)
            | ProcError => mret None
            | ProcNoMem => procs_loop retries (retry + 1)
            end
      end
  end.

Definition metrics_get_procs_snapshot : MQ (option (list kinfo_proc)) := procs_loop 4 0.

(** The row of a process in the list by load; its other members are not read. *)
Definition cpu_info (p : kinfo_proc) : ProcessInfo :=
  {| ps_user := metrics_resolve_username (p_uid p) 32; ps_pid := p_pid p;
     ps_cpu_percent := b32_div (b32_mul (b32_of_Z 100) (b32_of_Z (p_pctcpu p))) (b32_of_Z FSCALE);
     ps_memory_percent := S754_zero false; ps_memory_mb := 0; ps_command := strlcpy 256 (p_comm p) |}.

Definition memory_percent (total_memory_kb : Z) (p : kinfo_proc) : spec_float :=
  if (0 <? total_memory_kb)%Z then
    let mem_kb := Z.quot (p_vm_rssize p * mv_pagesize env) 1024 in
    b32_div (b32_mul (b32_of_Z 100) (b32_of_Z mem_kb)) (b32_of_Z total_memory_kb)
  else S754_zero false.

(** The row of a process in the list by memory; the load is not read. *)
Definition mem_info (total_memory_kb : Z) (p : kinfo_proc) : ProcessInfo :=
  {| ps_user := metrics_resolve_username (p_uid p) 32; ps_pid := p_pid p;
     ps_cpu_percent := S754_zero false; ps_memory_percent := memory_percent total_memory_kb p;
     ps_memory_mb := to_int32 (Z.quot (p_vm_rssize p * mv_pagesize env) MB);
     ps_command := strlcpy 256 (p_comm p) |}.

(** The loops that fill [top_cpu] and [processes]: the first rows of the table. *)
Fixpoint first_rows (row : kinfo_proc → ProcessInfo) (kp : list kinfo_proc) (n : nat)
    (rows : list ProcessInfo) : list ProcessInfo :=
  match kp with
  | [] => rows
  | p :: kp' =>
      if length rows <? n then
        if alive p then first_rows row kp' n (rows ++ [row p]) else first_rows row kp' n rows
      else rows
  end.

(** The loop that prints the list by memory. *)
Fixpoint append_mem (size total_memory_kb : Z) (kmem : list kinfo_proc) (mem_count : nat) (b : jbuf) : jbuf :=
  match kmem with
  | [] => b
  | p :: kmem' =>
      if (mem_count <? 10) && (100 <? jb_left size b)%Z then
        if alive p then
          let b := if 0 <? mem_count then jb_printf size (bs ", ") b else b in
          append_mem size total_memory_kb kmem' (mem_count + 1)
            (jb_printf size (mem_item (mem_info total_memory_kb p)) b)
        else append_mem size total_memory_kb kmem' mem_count b
      else b
  end.

Definition total_memory_kb (r : Z * MemoryStats) : Z :=
  if (r.1 =? 0)%Z then me_total_mb r.2 * 1024 else 0.

(** The three sections, each in an array of its own; an array may be overrun. *)
Definition metrics_process_append_json_sections (top_cpu_size top_mem_size proc_stats_size : Z)
    : MQ (jbuf * jbuf * bytes) :=
  snapshot ← metrics_get_procs_snapshot;
  match snapshot with
  | None =>
      mret (jb_printf top_cpu_size (qs "'top_cpu_processes': []") empty_jbuf,
            jb_printf top_mem_size (qs "'top_memory_processes': []") empty_jbuf,
            snprintf proc_stats_size (qs "'process_stats': null"))
  | Some kp =>
      let proc_stats := snprintf proc_stats_size (counts_text (count_procs kp)) in
      let top_cpu := print_items top_cpu_size 100 (qs "'top_cpu_processes': [") cpu_item
                       (bubble_sort less_cpu (first_rows cpu_info kp 10 [])) in
      ok ← ask (mv_alloc env);
      if negb ok then
        mret (top_cpu, jb_printf top_mem_size (qs "'top_memory_processes': []") empty_jbuf, proc_stats)
      else
        let kmem := mv_qsort env compare_memory_desc kp in
        junk ← ask (mv_junk env);
        mem_stats ← metrics_get_memory_stats env junk;
        let b := jb_printf top_mem_size (qs "'top_memory_processes': [") empty_jbuf in
        let b := append_mem top_mem_size (total_memory_kb mem_stats) kmem 0 b in
        mret (top_cpu, jb_printf top_mem_size (bs "]") b, proc_stats)
  end.

(** *** The functions of the interface *)

Definition metrics_get_top_cpu_processes (max_processes : nat) : MQ (list ProcessInfo) :=
  snapshot ← metrics_get_procs_snapshot;
  match snapshot with
  | None => mret []
  | Some kp =>
      ok ← ask (mv_alloc env);
      mret (if ok : bool
            then take max_processes (bubble_sort less_cpu (cpu_info <$> filter (λ p, alive p = true) kp))
            else [])
  end.

Definition metrics_get_top_memory_processes (max_processes : nat) : MQ (list ProcessInfo) :=
  snapshot ← metrics_get_procs_snapshot;
  match snapshot with
  | None => mret []
  | Some kp =>
      junk ← ask (mv_junk env);
      mem_stats ← metrics_get_memory_stats env junk;
      mret (first_rows (mem_info (total_memory_kb mem_stats)) (mv_qsort env compare_memory_desc kp) max_processes [])
  end.

Definition metrics_get_process_stats : MQ (option ProcCounts) :=
  snapshot ← metrics_get_procs_snapshot; mret (count_procs <$> snapshot).
End process.

Lemma Forall_keep {A} (P Q : A → Prop) `{∀ x, Decision (Q x)} (l : list A) : Forall P l → Forall P (filter Q l).
Proof. rewrite !Forall_forall. intros H' x [_ Hx]%list_elem_of_filter. auto. Qed.

(** ** The bubble sort *)

Section bubble.
Context {A : Type} (less : A → A → bool) (good : A → Prop).

(** [a] may stand before [b]. *)
Definition before (a b : A) : Prop := less a b = false.

Hypothesis less_asym : ∀ a b, good a → good b → less a b = true → before b a.
Hypothesis before_trans : ∀ a b c, good a → good b → good c → before a b → before b c → before a c.

Lemma bubble_pass_perm k l : bubble_pass less k l ≡ₚ l.
Proof.
  revert l. induction k as [|k IH]; intros [|a [|b l]]; try done. cbn [bubble_pass].
  destruct (less a b); rewrite IH; [apply Permutation_swap|done].
Qed.

Lemma length_bubble_pass k l : length (bubble_pass less k l) = length l.
Proof. by rewrite bubble_pass_perm. Qed.

(** A pass does not look behind its comparisons. *)
Lemma bubble_pass_app k u v :
  k < length u → bubble_pass less k (u ++ v) = bubble_pass less k u ++ v.
Proof.
  revert u. induction k as [|k IH]; intros u Hk; [by destruct u|].
  destruct u as [|a [|b u]]; [simpl in Hk; lia..|]. cbn [app bubble_pass].
  change (a :: u ++ v) with ((a :: u) ++ v). change (b :: u ++ v) with ((b :: u) ++ v).
  destruct (less a b); rewrite IH by (simpl in *; lia); done.
Qed.

Lemma before_last w m x : good m → Forall (λ y, before y m) w → x ∈ w ++ [m] → before x m.
Proof.
  intros Hg Hw [Hx| ->%list_elem_of_singleton]%elem_of_app; [by apply (proj1 (Forall_forall _ _) Hw)|].
  unfold before. destruct (less m m) eqn:E; [|done]. rewrite <- E. by apply less_asym.
Qed.

(** A pass over all neighbours leaves a least element at the end. *)
Lemma bubble_pass_last u :
  Forall good u → u ≠ [] →
  ∃ w m, bubble_pass less (length u - 1) u = w ++ [m] ∧ Forall (λ x, before x m) w.
Proof.
  intros Hg Hne. destruct u as [|a u]; [done|]. clear Hne. cbn [length]. rewrite Nat.sub_succ, Nat.sub_0_r.
  revert a Hg. induction u as [|b u IH]; intros a Hg; [by exists [], a|].
  apply Forall_cons in Hg as [Ha Hg]. pose proof Hg as [Hb Hg']%Forall_cons. cbn [length bubble_pass].
  assert (∀ x y, good x → good y → before x y →
    (∃ w m, bubble_pass less (length u) (y :: u) = w ++ [m] ∧ Forall (λ z, before z m) w) →
    ∃ w m, x :: bubble_pass less (length u) (y :: u) = w ++ [m] ∧ Forall (λ z, before z m) w) as Hstep.
  { intros x y Hx Hy Hxy (w & m & Hw & Hm). exists (x :: w), m. split; [by rewrite Hw|].
    pose proof (bubble_pass_perm (length u) (y :: u)) as Hp. rewrite Hw in Hp.
    assert (good m).
    { apply (proj1 (Forall_forall good (y :: u))); [by constructor|].
      rewrite <- Hp. apply elem_of_app. right. by left. }
    constructor; [|done]. apply (before_trans x y m); try done.
    apply (before_last w); [done|done|]. rewrite Hp. by left. }
  destruct (less a b) eqn:Hab; apply Hstep; try done; [by apply less_asym|apply IH..]; by constructor.
Qed.

(** After some passes the end of the list is sorted and behind all that is in front of it. *)
Lemma bubble_rounds l n :
  Forall good l → n < length l →
  ∃ u v, foldl (λ l i, bubble_pass less (length l - i - 1) l) l (seq 0 n) = u ++ v ∧ length v = n ∧
    u ++ v ≡ₚ l ∧ StronglySorted before v ∧ Forall (λ x, Forall (before x) v) u.
Proof.
  intros Hg. induction n as [|n IH]; intros Hn.
  { exists l, []. rewrite app_nil_r. split_and!; try done; [constructor|]. apply Forall_true. constructor. }
  rewrite seq_S, foldl_app. destruct IH as (u & v & -> & Hv & Hp & Hs & Hb); [lia|]. cbn [foldl].
  assert (length u = length l - n) as Hu by (rewrite <- Hp, length_app; lia).
  assert (Forall good (u ++ v)) as Hguv by by rewrite Hp.
  apply Forall_app in Hguv as [Hgu Hgv].
  rewrite length_app. replace (length u + length v - (0 + n) - 1) with (length u - 1) by lia.
  rewrite bubble_pass_app by lia.
  destruct (bubble_pass_last u Hgu) as (w & m & Hw & Hm); [by intros ->; simpl in *; lia|].
  pose proof (bubble_pass_perm (length u - 1) u) as Hpu. rewrite Hw in *.
  assert (Forall (λ x, Forall (before x) v) (w ++ [m])) as Hb' by by rewrite Hpu.
  apply Forall_app in Hb' as [Hbw [Hbm _]%Forall_cons].
  exists w, (m :: v). rewrite <- app_assoc. cbn [app]. split_and!; [done|simpl; lia| | |].
  - rewrite <- Hp, <- Hpu, <- app_assoc. done.
  - constructor; assumption.
  - apply Forall_forall. intros x Hx. constructor.
    + by apply (proj1 (Forall_forall _ _) Hm).
    + by apply (proj1 (Forall_forall _ _) Hbw).
Qed.

Lemma bubble_sort_spec l :
  Forall good l → bubble_sort less l ≡ₚ l ∧ StronglySorted before (bubble_sort less l).
Proof.
  intros Hg. destruct l as [|a l]; [split; [done|constructor]|]. unfold bubble_sort.
  destruct (bubble_rounds (a :: l) (length (a :: l) - 1) Hg) as (u & v & -> & Hv & Hp & Hs & Hb);
    [simpl; lia|].
  split; [done|]. assert (length u = 1) as Hu.
  { apply Permutation_length in Hp. rewrite length_app in Hp. simpl in *. lia. }
  destruct u as [|x [|]]; try done. apply Forall_cons in Hb as [Hb _]. by constructor.
Qed.
End bubble.

(** ** What is assumed of the environment *)

(** A row of the process table: counters of 32 bits, a name of at most 23 bytes without
    quotes, backslashes and control characters. *)
Record proc_fine (p : kinfo_proc) : Prop := {
  pf_pid : int32 (p_pid p);
  pf_uid : uint32 (p_uid p);
  pf_pctcpu : uint32 (p_pctcpu p);
  pf_rssize : (0 ≤ p_vm_rssize p < 2 ^ 31)%Z;
  pf_comm : clean (p_comm p) ∧ (zlen (p_comm p) ≤ 23)%Z
}.

(** A comparison that qsort(3) may be called with. *)
Definition comparison {A} (cmp : A → A → Z) : Prop :=
  (∀ a b, cmp a b ≤ 0 ∨ cmp b a ≤ 0)%Z ∧ (∀ a b c, cmp a b ≤ 0 → cmp b c ≤ 0 → cmp a c ≤ 0)%Z.

Lemma compare_memory_comparison : comparison compare_memory_desc.
Proof.
  split; unfold compare_memory_desc; [intros a b|intros a b c]; repeat case_match; bool_facts; lia.
Qed.

Record procs_ok (env : metrics_env) : Prop := {
  po_table t n kp : mv_proc_table env t n = ProcTable kp → Forall proc_fine kp ∧ (zlen kp < 2 ^ 31)%Z;
  po_passwd uid name : mv_passwd env uid = Some name → clean name;
  po_pagesize : (0 < mv_pagesize env ≤ 2 ^ 16)%Z;
  po_junk t : Forall (λ z, - 2 ^ 63 ≤ z < 2 ^ 63)%Z (memory_fields (mv_junk env t));
  po_qsort cmp l : comparison cmp →
    mv_qsort env cmp l ≡ₚ l ∧ Sorted (λ a b, cmp a b ≤ 0)%Z (mv_qsort env cmp l)
}.

Section specs.
Context (env : metrics_env) (Henv : procs_ok env).

(** ** Rows *)

Lemma username_fine uid : clean (metrics_resolve_username env uid 32) ∧ (zlen (metrics_resolve_username env uid 32) ≤ 31)%Z.
Proof.
  unfold metrics_resolve_username. destruct (mv_passwd env uid) as [name|] eqn:E;
    (split; [apply clean_strlcpy|apply (strlcpy_zlen 32)]).
  - by apply (po_passwd env Henv uid).
  - apply clean_fmt_Z.
Qed.

Lemma command_fine p : proc_fine p → clean (strlcpy 256 (p_comm p)) ∧ (zlen (strlcpy 256 (p_comm p)) ≤ 23)%Z.
Proof.
  intros [_ _ _ _ [H1 H2]]. split; [by apply clean_strlcpy|]. unfold zlen, strlcpy in *. rewrite length_take. lia.
Qed.

Lemma cpu_percent_bounded p : proc_fine p → bounded_by 24 31 (ps_cpu_percent (cpu_info env p)).
Proof.
  intros [_ _ H _ _]. cbn [cpu_info ps_cpu_percent].
  apply (b32_div_bounded 41 12).
  - apply (b32_mul_bounded 7 33); [vm_compute; split; discriminate|by apply (b32_of_Z_bounded _ 32)|lia].
  - vm_compute. discriminate.
  - lia.
Qed.

Lemma memory_percent_bounded kb p :
  proc_fine p → (kb < 2 ^ 80)%Z → bounded_by 24 57 (memory_percent env kb p).
Proof.
  intros [_ _ _ H _] Hkb. unfold memory_percent. destruct (Z.ltb_spec 0 kb) as [Hk|]; [|done].
  pose proof (po_pagesize env Henv) as Hp.
  apply (b32_div_bounded 56 1).
  - apply (b32_mul_bounded 7 48); [vm_compute; split; discriminate|apply (b32_of_Z_bounded _ 47)|lia]; [|lia].
    split; [apply Z.quot_pos; nia|]. apply Z.quot_lt_upper_bound; nia.
  - apply (b32_of_Z_at_least _ 0 80); lia.
  - lia.
Qed.

Lemma bounded_not_nan k x : bounded_by 24 k x → is_nan x = false.
Proof. by destruct x. Qed.

Lemma cpu_item_length p : proc_fine p → (zlen (cpu_item (cpu_info env p)) ≤ 135)%Z.
Proof.
  intros Hp. pose proof (username_fine (p_uid p)) as [_ Hu]. pose proof (command_fine p Hp) as [_ Hc].
  pose proof (fmt_fixed_short 24 31 1 10 _ (cpu_percent_bounded p Hp) ltac:(lia) ltac:(lia) ltac:(lia)
    ltac:(by apply Z.ltb_lt; vm_compute)) as Hf.
  pose proof (fmt_int32_length _ (pf_pid p Hp)). unfold cpu_item.
  cbn [ps_user ps_pid ps_cpu_percent ps_command cpu_info] in *. text_length. lia.
Qed.

Lemma mem_item_length kb p : proc_fine p → (kb < 2 ^ 80)%Z → (zlen (mem_item (mem_info env kb p)) ≤ 170)%Z.
Proof.
  intros Hp Hkb. pose proof (username_fine (p_uid p)) as [_ Hu]. pose proof (command_fine p Hp) as [_ Hc].
  pose proof (fmt_fixed_short 24 57 1 18 _ (memory_percent_bounded kb p Hp Hkb) ltac:(lia) ltac:(lia) ltac:(lia)
    ltac:(by apply Z.ltb_lt; vm_compute)) as Hf.
  pose proof (fmt_int32_length _ (pf_pid p Hp)).
  pose proof (fmt_int32_length _ (to_int32_range (Z.quot (p_vm_rssize p * mv_pagesize env) MB))).
  unfold mem_item. cbn [ps_user ps_pid ps_memory_percent ps_memory_mb ps_command mem_info] in *.
  text_length. lia.
Qed.

Definition cpu_row (p : ProcessInfo) : jvalue :=
  JObj [(bs "user", JStr (ps_user p)); (bs "pid", JNum (ps_pid p));
        (bs "cpu_percent", dec_value 0 (ps_cpu_percent p)); (bs "command", JStr (ps_command p))].

Definition mem_row (p : ProcessInfo) : jvalue :=
  JObj [(bs "user", JStr (ps_user p)); (bs "pid", JNum (ps_pid p));
        (bs "memory_percent", dec_value 0 (ps_memory_percent p)); (bs "memory_mb", JNum (ps_memory_mb p));
        (bs "command", JStr (ps_command p))].

Lemma form_cpu_row p : proc_fine p → json_form json_escape (cpu_row (cpu_info env p)) (cpu_item (cpu_info env p)).
Proof.
  intros Hp. set (r := cpu_info env p). unfold cpu_item.
  object_of [(tight, bs "user", JStr (ps_user r), raw (ps_user r));
             ([space], bs "pid", JNum (ps_pid r), fmt_Z (ps_pid r));
             ([space], bs "cpu_percent", dec_value 0 (ps_cpu_percent r), fmt_fixed 1 (ps_cpu_percent r));
             ([space], bs "command", JStr (ps_command r), raw (ps_command r))].
  - apply username_fine.
  - exists 31%Z, 24%Z. by apply cpu_percent_bounded.
  - by apply command_fine.
Qed.

Lemma form_mem_row kb p :
  proc_fine p → (kb < 2 ^ 80)%Z →
  json_form json_escape (mem_row (mem_info env kb p)) (mem_item (mem_info env kb p)).
Proof.
  intros Hp Hkb. set (r := mem_info env kb p). unfold mem_item.
  object_of [(tight, bs "user", JStr (ps_user r), raw (ps_user r));
             ([space], bs "pid", JNum (ps_pid r), fmt_Z (ps_pid r));
             ([space], bs "memory_percent", dec_value 0 (ps_memory_percent r), fmt_fixed 1 (ps_memory_percent r));
             ([space], bs "memory_mb", JNum (ps_memory_mb r), fmt_Z (ps_memory_mb r));
             ([space], bs "command", JStr (ps_command r), raw (ps_command r))].
  - apply username_fine.
  - exists 57%Z, 24%Z. by apply memory_percent_bounded.
  - by apply command_fine.
Qed.

Lemma section_counts c :
  json_section [(bs "process_stats", JObj [(bs "total", JNum (pc_total c)); (bs "running", JNum (pc_running c));
                   (bs "sleeping", JNum (pc_sleeping c)); (bs "zombie", JNum (pc_zombie c))])] (counts_text c).
Proof.
  set (ms := [(tight, bs "total", JNum (pc_total c), fmt_Z (pc_total c));
              ([space], bs "running", JNum (pc_running c), fmt_Z (pc_running c));
              ([space], bs "sleeping", JNum (pc_sleeping c), fmt_Z (pc_sleeping c));
              ([space], bs "zombie", JNum (pc_zombie c), fmt_Z (pc_zombie c))]).
  section_of [(tight, bs "process_stats", JObj (member_of <$> ms), ["{"%char] ++ join_comma (member_at <$> ms) ++ ["}"%char])].
  apply object_members; [unfold ms; fine_members|done].
Qed.

(** ** The loops *)

Lemma first_rows_spec row kp n rows :
  length rows ≤ n →
  first_rows row kp n rows = rows ++ take (n - length rows) (row <$> filter (λ p, alive p = true) kp).
Proof.
  revert rows. induction kp as [|p kp IH]; intros rows Hn; cbn [first_rows].
  { cbn. by rewrite take_nil, app_nil_r. }
  destruct (length rows <? n) eqn:Hl; bool_facts.
  2: { replace (n - length rows) with 0 by lia. by rewrite take_0, app_nil_r. }
  rewrite filter_cons. destruct (alive p) eqn:Ha.
  - rewrite decide_True by done. rewrite IH by (rewrite length_app; simpl; lia).
    rewrite length_app, fmap_cons, <- app_assoc. f_equal. simpl length.
    by replace (n - length rows) with (S (n - (length rows + 1))) by lia.
  - rewrite decide_False by done. by apply IH.
Qed.

Lemma append_mem_all size kb kmem count t :
  (size < 2 ^ 64)%Z → count ≤ 10 →
  let rows := take (10 - count) (mem_info env kb <$> filter (λ p, alive p = true) kmem) in
  (zlen t + zlen (items_text mem_item (count =? 0)%nat rows) < size - 100)%Z →
  append_mem env size kb kmem count (jb_of t) = jb_of (t ++ items_text mem_item (count =? 0)%nat rows).
Proof.
  intros Hsize. revert count t. induction kmem as [|p kmem IH]; intros count t Hc rows Hl; cbn [append_mem].
  { unfold rows. cbn. by rewrite take_nil, app_nil_r. }
  assert (0 ≤ zlen (items_text mem_item (count =? 0)%nat rows))%Z as H0 by apply zlen_nonneg.
  destruct (Nat.ltb_spec count 10) as [Hlt|Hge]; cbn [andb].
  2: { unfold rows. replace (10 - count) with 0 by lia. rewrite take_0. cbn. by rewrite app_nil_r. }
  rewrite jb_left_of by (pose proof (zlen_nonneg t); lia). rewrite (proj2 (Z.ltb_lt _ _)) by lia.
  subst rows. rewrite filter_cons in *. destruct (alive p) eqn:Ha.
  2: { rewrite decide_False in * by done. by apply IH. }
  rewrite decide_True in * by done. rewrite fmap_cons in *.
  replace (10 - count) with (S (10 - (count + 1))) in * by lia. cbn [take items_text] in *.
  replace (0 <? count) with (negb (count =? 0)) by (destruct count; done).
  rewrite !zlen_app in Hl. rewrite !zlen_app in H0.
  pose proof (zlen_nonneg (mem_item (mem_info env kb p))).
  set (rest := items_text mem_item false _) in *. pose proof (zlen_nonneg rest).
  assert ((if negb (count =? 0) then jb_printf size (bs ", ") (jb_of t) else jb_of t)
    = jb_of (t ++ if count =? 0 then [] else bs ", ")) as ->.
  { destruct (count =? 0); cbn [negb]; [by rewrite app_nil_r|]. apply jb_printf_of. lia. }
  rewrite jb_printf_of by (rewrite zlen_app; lia).
  pose proof (IH (count + 1)) as IH'. replace (count + 1 =? 0) with false in IH' by (destruct count; done).
  rewrite IH' by (fold rest; rewrite ?zlen_app; lia). fold rest. by rewrite <- !app_assoc.
Qed.
(** ** The sections *)

(** The rows by load: the first ten processes of the table, sorted. *)
Definition cpu_rows (kp : list kinfo_proc) : list ProcessInfo :=
  bubble_sort less_cpu (take 10 (cpu_info env <$> filter (λ p, alive p = true) kp)).

(** The rows by memory: the first ten of the sorted table. *)
Definition mem_rows (kb : Z) (kp : list kinfo_proc) : list ProcessInfo :=
  take 10 (mem_info env kb <$> filter (λ p, alive p = true) (mv_qsort env compare_memory_desc kp)).

Definition counts_value (c : ProcCounts) : jvalue :=
  JObj [(bs "total", JNum (pc_total c)); (bs "running", JNum (pc_running c));
        (bs "sleeping", JNum (pc_sleeping c)); (bs "zombie", JNum (pc_zombie c))].

(** What the three sections say: the members in the order of the document. *)
Definition process_members : MQ (list (bytes * jvalue)) :=
  snapshot ← metrics_get_procs_snapshot env;
  match snapshot with
  | None => mret [(bs "top_cpu_processes", JArr []); (bs "top_memory_processes", JArr []);
                  (bs "process_stats", JNull)]
  | Some kp =>
      let cpu := (bs "top_cpu_processes", JArr (cpu_row <$> cpu_rows kp)) in
      let stats := (bs "process_stats", counts_value (count_procs kp)) in
      ok ← ask (mv_alloc env);
      if negb ok then mret [cpu; (bs "top_memory_processes", JArr []); stats]
      else
        junk ← ask (mv_junk env);
        mem_stats ← metrics_get_memory_stats env junk;
        mret [cpu; (bs "top_memory_processes", JArr (mem_row <$> mem_rows (total_memory_kb mem_stats) kp)); stats]
  end.

(** A section of an array in a buffer that holds it. *)
Lemma array_in_buffer {A} key (item : A → bytes) (value : A → jvalue) l t :
  clean key → Forall (λ x, json_form json_escape (value x) (item x)) l →
  t = [dq] ++ key ++ [dq] ++ bs ": [" → json_section [(key, JArr (value <$> l))] (t ++ join_comma (spaced (item <$> l)) ++ bs "]").
Proof. intros Hk Hl ->. pose proof (section_array key item value l Hk Hl) as H. by rewrite <- !app_assoc. Qed.

Lemma procs_fine retries retry t : match (procs_loop env retries retry t).1 with Some kp => Forall proc_fine kp ∧ (zlen kp < 2 ^ 31)%Z | None => True end.
Proof.
  revert retry t. induction retries as [|n IH]; intros retry t; [done|]. cbn [procs_loop].
  unfold ask. run_st. destruct (mv_proc_size env t) as [n'|]; [|done].
  destruct (mv_alloc env (S t)); cbn [negb]; [|done].
  destruct (mv_proc_table env _ _) as [kp| |] eqn:E; [|apply IH|done].
  by apply (po_table env Henv) in E.
Qed.

Lemma alive_fine kp : Forall proc_fine kp → Forall proc_fine (filter (λ p, alive p = true) kp).
Proof. apply Forall_keep. Qed.

Lemma cpu_rows_spec kp :
  Forall proc_fine kp →
  (zlen (cpu_rows kp) ≤ 10)%Z ∧
  Forall (λ r, json_form json_escape (cpu_row r) (cpu_item r) ∧ zlen (cpu_item r) ≤ 135)%Z (cpu_rows kp) ∧
  cpu_rows kp ≡ₚ take 10 (cpu_info env <$> filter (λ p, alive p = true) kp) ∧
  StronglySorted (before less_cpu) (cpu_rows kp).
Proof.
  intros Hkp%alive_fine. unfold cpu_rows.
  set (rows := take 10 (cpu_info env <$> filter (λ p, alive p = true) kp)).
  destruct (bubble_sort_spec less_cpu (λ r, is_nan (ps_cpu_percent r) = false)) with (l := rows) as [Hp Hs].
  - intros a b _ _. apply less_not_less.
  - intros a b c. apply not_less_trans.
  - apply Forall_take, Forall_fmap. eapply Forall_impl; [exact Hkp|]. intros p Hfine. unfold compose.
    by eapply bounded_not_nan, cpu_percent_bounded.
  - assert (Forall (λ r, json_form json_escape (cpu_row r) (cpu_item r) ∧ zlen (cpu_item r) ≤ 135)%Z rows) as Hrows.
    { apply Forall_take, Forall_fmap. eapply Forall_impl; [exact Hkp|]. intros p Hfine. unfold compose.
      split; [by apply form_cpu_row|by apply cpu_item_length]. }
    split_and!; [|by rewrite Hp|done|done].
    unfold zlen. rewrite Hp. unfold rows. rewrite length_take. lia.
Qed.

Lemma mem_rows_spec kb kp :
  Forall proc_fine kp → (kb < 2 ^ 80)%Z →
  (zlen (mem_rows kb kp) ≤ 10)%Z ∧
  Forall (λ r, json_form json_escape (mem_row r) (mem_item r) ∧ zlen (mem_item r) ≤ 170)%Z (mem_rows kb kp).
Proof.
  intros Hkp Hkb. unfold mem_rows. split; [unfold zlen; rewrite length_take; lia|].
  apply Forall_take, Forall_fmap, Forall_keep.
  destruct (po_qsort env Henv compare_memory_desc kp compare_memory_comparison) as [Hq _]. rewrite Hq.
  eapply Forall_impl; [exact Hkp|]. intros p Hfine. unfold compose.
  split; [by apply form_mem_row|by apply mem_item_length].
Qed.
(** A list of rows in its array. *)
Lemma rows_in_buffer {A} key (item : A → bytes) (value : A → jvalue) l w head :
  clean key → head = [dq] ++ key ++ [dq] ++ bs ": [" → (zlen head ≤ 30)%Z → (0 ≤ w ≤ 170)%Z →
  (zlen l ≤ 10)%Z → Forall (λ r, json_form json_escape (value r) (item r) ∧ zlen (item r) ≤ w)%Z l →
  ∃ t, (head ++ items_text item true l) ++ bs "]" = t ∧ (zlen t ≤ 1751)%Z ∧ json_section [(key, JArr (value <$> l))] t ∧
       (zlen head + zlen (items_text item true l) < 2048 - 101)%Z.
Proof.
  intros Hk Hhead Hh Hw Hn Hl. eexists. split; [reflexivity|].
  pose proof (items_text_length item true l w) as Hlen.
  specialize (Hlen ltac:(eapply Forall_impl; [exact Hl|]; by intros r [_ ?])).
  split_and!; [rewrite !zlen_app; change (zlen (bs "]")) with 1%Z; nia| |nia].
  rewrite items_text_spaced, <- app_assoc. apply array_in_buffer; [done| |done].
  eapply Forall_impl; [exact Hl|]. by intros r [? _].
Qed.

Lemma count_state_total c p : pc_total (count_state c p) = pc_total c.
Proof. unfold count_state. by repeat case_match. Qed.

(** The counters of a table are counts. *)
Lemma count_procs_range kp :
  let c := count_procs kp in
  (pc_total c = to_int32 (zlen kp) ∧ 0 ≤ pc_running c ∧ 0 ≤ pc_sleeping c ∧ 0 ≤ pc_zombie c ∧
   pc_running c + pc_sleeping c + pc_zombie c ≤ zlen kp)%Z.
Proof.
  assert (∀ c, 0 ≤ pc_running c → 0 ≤ pc_sleeping c → 0 ≤ pc_zombie c →
    let c' := foldl count_state c kp in
    pc_total c' = pc_total c ∧ 0 ≤ pc_running c' ∧ 0 ≤ pc_sleeping c' ∧ 0 ≤ pc_zombie c' ∧
    pc_running c' + pc_sleeping c' + pc_zombie c' ≤ pc_running c + pc_sleeping c + pc_zombie c + zlen kp)%Z as H.
  { induction kp as [|p kp IH]; intros c H1 H2 H3; cbn [foldl]; [unfold zlen; cbn [length]; split_and!; lia|].
    assert (0 ≤ pc_running (count_state c p) ∧ 0 ≤ pc_sleeping (count_state c p) ∧ 0 ≤ pc_zombie (count_state c p) ∧
      pc_running (count_state c p) + pc_sleeping (count_state c p) + pc_zombie (count_state c p)
      ≤ pc_running c + pc_sleeping c + pc_zombie c + 1)%Z as (A1 & A2 & A3 & A4).
    { unfold count_state. repeat case_match; cbn [pc_total pc_running pc_sleeping pc_zombie]; lia. }
    destruct (IH (count_state c p) A1 A2 A3) as (B0 & B1 & B2 & B3 & B4).
    rewrite count_state_total in B0. rewrite zlen_cons. lia. }
  unfold count_procs. set (c0 := Build_ProcCounts _ _ _ _).
  by destruct (H c0) as (B0 & B1 & B2 & B3 & B4).
Qed.

Lemma counts_text_length kp : (zlen kp < 2 ^ 31)%Z → (zlen (counts_text (count_procs kp)) ≤ 120)%Z.
Proof.
  intros Hkp. destruct (count_procs_range kp) as (H0 & H1 & H2 & H3 & H4). unfold counts_text.
  pose proof (fmt_int32_length (pc_total (count_procs kp)) ltac:(rewrite H0; apply to_int32_range)).
  pose proof (fmt_int32_length (pc_running (count_procs kp)) ltac:(lia)).
  pose proof (fmt_int32_length (pc_sleeping (count_procs kp)) ltac:(lia)).
  pose proof (fmt_int32_length (pc_zombie (count_procs kp)) ltac:(lia)).
  text_length. lia.
Qed.
(** A text in its array, whole, that says the member [v]. *)
Definition says (b : jbuf) (v : bytes * jvalue) : Prop :=
  ∃ t, b = jb_of t ∧ (zlen t ≤ 1751)%Z ∧ json_section [v] t.

Lemma empty_list_says key head :
  clean key → head = [dq] ++ key ++ [dq] ++ bs ": []" → (zlen head ≤ 40)%Z →
  says (jb_printf 2048 head empty_jbuf) (key, JArr []).
Proof.
  intros Hk Hhead Hl. exists head. split_and!; [|lia|].
  - change empty_jbuf with (jb_of []). rewrite jb_printf_of; [done|]. rewrite zlen_nil. lia.
  - rewrite Hhead. apply (section_by [(tight, key, JArr [], bs "[]")]); [|done|done|].
    + apply Forall_singleton. split_and!; [constructor|done|apply (form_arr json_escape [] []); constructor].
    + reflexivity.
Qed.

Lemma cpu_list_says kp :
  Forall proc_fine kp →
  says (print_items 2048 100 (qs "'top_cpu_processes': [") cpu_item
          (bubble_sort less_cpu (first_rows (cpu_info env) kp 10 [])))
       (bs "top_cpu_processes", JArr (cpu_row <$> cpu_rows kp)).
Proof.
  intros Hkp. rewrite first_rows_spec by (simpl; lia). cbn [app length]. rewrite Nat.sub_0_r. fold (cpu_rows kp).
  destruct (cpu_rows_spec kp Hkp) as (Hn & Hl & _).
  destruct (rows_in_buffer (bs "top_cpu_processes") cpu_item cpu_row (cpu_rows kp) 135 (qs "'top_cpu_processes': ["))
    as (t & <- & Ht & Hsec & Hroom); [by apply (bool_decide_unpack _); vm_compute|done|vm_compute; discriminate|lia|done..|].
  eexists. split; [|split; [exact Ht|exact Hsec]].
  rewrite print_items_all by lia. by rewrite items_text_spaced, <- app_assoc.
Qed.

Lemma mem_list_says kb kp :
  Forall proc_fine kp → (kb < 2 ^ 80)%Z →
  says (jb_printf 2048 (bs "]") (append_mem env 2048 kb (mv_qsort env compare_memory_desc kp) 0
          (jb_printf 2048 (qs "'top_memory_processes': [") empty_jbuf)))
       (bs "top_memory_processes", JArr (mem_row <$> mem_rows kb kp)).
Proof.
  intros Hkp Hkb. destruct (mem_rows_spec kb kp Hkp Hkb) as (Hn & Hl).
  destruct (rows_in_buffer (bs "top_memory_processes") mem_item mem_row (mem_rows kb kp) 170
    (qs "'top_memory_processes': [")) as (t & <- & Ht & Hsec & Hroom);
    [by apply (bool_decide_unpack _); vm_compute|done|vm_compute; discriminate|lia|done..|].
  eexists. split; [|split; [exact Ht|exact Hsec]].
  change empty_jbuf with (jb_of []). rewrite jb_printf_of by (vm_compute; reflexivity). cbn [app].
  pose proof (append_mem_all 2048 kb (mv_qsort env compare_memory_desc kp) 0 (qs "'top_memory_processes': [")
    ltac:(done) ltac:(lia)) as H.
  cbn [Nat.eqb Nat.sub] in H. fold (mem_rows kb kp) in H. rewrite H by lia.
  rewrite jb_printf_of; [done|]. rewrite zlen_app. change (zlen (bs "]")) with 1%Z. lia.
Qed.

(** The three sections are whole and say what was found. *)
Lemma process_sections_ok t :
  let '(cpu, mem, stats, t') := metrics_process_append_json_sections env 2048 2048 256 t in
  let '(members, t'') := process_members t in
  t' = t'' ∧ ∃ vcpu vmem vstats,
    members = [vcpu; vmem; vstats] ∧ says cpu vcpu ∧ says mem vmem ∧
    json_section [vstats] stats ∧ (zlen stats ≤ 255)%Z.
Proof.
  unfold metrics_process_append_json_sections, process_members.
  pose proof (procs_fine 4 0 t) as Hfine. unfold metrics_get_procs_snapshot, ask. run_st.
  destruct (procs_loop env 4 0 t) as [[kp|] t1]; cbn [fst] in Hfine.
  2: { split; [done|]. eexists _, _, _. split; [reflexivity|]. split_and!.
       - apply empty_list_says; [by apply (bool_decide_unpack _); vm_compute|done|vm_compute; discriminate].
       - apply empty_list_says; [by apply (bool_decide_unpack _); vm_compute|done|vm_compute; discriminate].
       - rewrite snprintf_whole by (by vm_compute).
         section_of [(tight, bs "process_stats", JNull, bs "null")]. constructor.
       - vm_compute. discriminate. }
  destruct Hfine as [Hkp Hlen]. pose proof (cpu_list_says kp Hkp) as Hcpu.
  assert (zlen (counts_text (count_procs kp)) ≤ 120)%Z as Hcl by by apply counts_text_length.
  assert (json_section [(bs "process_stats", counts_value (count_procs kp))]
            (snprintf 256 (counts_text (count_procs kp)))) as Hstats
    by (rewrite snprintf_whole by lia; apply section_counts).
  assert (zlen (snprintf 256 (counts_text (count_procs kp))) ≤ 255)%Z as Hsl
    by (rewrite snprintf_whole by lia; lia).
  destruct (mv_alloc env t1); cbn [negb].
  2: { split; [done|]. eexists _, _, _. split; [reflexivity|]. split_and!; try done.
       apply empty_list_says; [by apply (bool_decide_unpack _); vm_compute|done|vm_compute; discriminate]. }
  pose proof (memory_stats_range env (mv_junk env (S t1)) (S (S t1)) (po_junk env Henv _)) as [_ Hmem].
  destruct (metrics_get_memory_stats env (mv_junk env (S t1)) (S (S t1))) as [r t2]. cbn [fst] in Hmem.
  split; [done|]. eexists _, _, _. split; [reflexivity|]. split_and!; try done.
  apply mem_list_says; [done|]. unfold total_memory_kb. destruct (Z.eqb_spec r.1 0) as [E|]; [|done].
  specialize (Hmem E). lia.
Qed.
End specs.

(** ** The lists of the interface *)

Section top.
Context (env : metrics_env) (Henv : procs_ok env).

(** C15. Given memory, the list by load is the beginning of all live processes in order of their
    load, heaviest first. *)
Theorem top_cpu_processes_spec max_processes t :
  let l := (metrics_get_top_cpu_processes env max_processes t).1 in
  let '(snapshot, t1) := metrics_get_procs_snapshot env t in
  match snapshot with
  | None => l = []
  | Some kp =>
      if mv_alloc env t1 then
        ∃ rest, l ++ rest ≡ₚ cpu_info env <$> filter (λ p, alive p = true) kp ∧
          StronglySorted (before less_cpu) (l ++ rest) ∧
          length l = max_processes `min` length (l ++ rest)
      else l = []
  end.
Proof.
  unfold metrics_get_top_cpu_processes, ask. run_st.
  pose proof (procs_fine env Henv 4 0 t) as Hfine. unfold metrics_get_procs_snapshot in *.
  destruct (procs_loop env 4 0 t) as [[kp|] t1]; cbn [fst] in *; [|done].
  destruct (mv_alloc env t1); [|done]. destruct Hfine as [Hkp%alive_fine _].
  set (rows := cpu_info env <$> filter (λ p, alive p = true) kp).
  destruct (bubble_sort_spec less_cpu (λ r, is_nan (ps_cpu_percent r) = false)) with (l := rows) as [Hp Hs].
  - intros a b _ _. apply less_not_less.
  - intros a b c. apply not_less_trans.
  - apply Forall_fmap. eapply Forall_impl; [exact Hkp|]. intros p Hp. unfold compose.
    by eapply bounded_not_nan, cpu_percent_bounded.
  - exists (drop max_processes (bubble_sort less_cpu rows)). rewrite take_drop.
    split_and!; [done|done|]. by rewrite length_take.
Qed.

(** The list by memory is the beginning of all live processes in order of their resident
    pages. *)
Theorem top_memory_processes_spec max_processes t :
  let l := (metrics_get_top_memory_processes env max_processes t).1 in
  match (metrics_get_procs_snapshot env t).1 with
  | None => l = []
  | Some kp =>
      ∃ kb kp', kp' ≡ₚ filter (λ p, alive p = true) kp ∧
        StronglySorted (λ p q, p_vm_rssize q ≤ p_vm_rssize p)%Z kp' ∧
        l = take max_processes (mem_info env kb <$> kp')
  end.
Proof.
  unfold metrics_get_top_memory_processes, ask. run_st.
  destruct (metrics_get_procs_snapshot env t) as [[kp|] t1]; cbn [fst]; [|done].
  destruct (metrics_get_memory_stats env _ _) as [r t2]. cbn [fst].
  rewrite first_rows_spec by (simpl; lia). cbn [app length]. rewrite Nat.sub_0_r.
  destruct (po_qsort env Henv compare_memory_desc kp compare_memory_comparison) as [Hp Hs].
  eexists _, _. split_and!; [|..|reflexivity]; [by rewrite Hp|].
  apply Sorted_StronglySorted in Hs.
  2: { intros a b c. apply compare_memory_comparison. }
  clear Hp. induction Hs as [|p l Hl IH Hall]; [constructor|]. rewrite filter_cons.
  case_decide; [|done]. constructor; [done|]. apply Forall_keep. eapply Forall_impl; [exact Hall|].
  intros q. cbv beta. unfold compare_memory_desc. repeat case_match; bool_facts; lia.
Qed.
End top.

(** ** An example machine *)

Definition sample_procs : list kinfo_proc :=
  [{| p_pid := 1; p_uid := 0; p_stat := SSLEEP; p_pctcpu := 0; p_vm_rssize := 200; p_comm := bs "init" |};
   {| p_pid := 77; p_uid := 1000; p_stat := SONPROC; p_pctcpu := 1024; p_vm_rssize := 4000; p_comm := bs "miniweb" |};
   {| p_pid := 78; p_uid := 1000; p_stat := SZOMB; p_pctcpu := 0; p_vm_rssize := 0; p_comm := bs "sh" |}].

Definition sample_mount : statfs :=
  {| f_fstypename := bs "ffs"; f_mntfromname := bs "/dev/sd0a"; f_mntonname := bs "/"; f_blocks := 8388608;
     f_bsize := 512; f_bavail := 2097152 |}.

(** The order of a comparison. *)
Definition ordered (cmp : kinfo_proc → kinfo_proc → Z) (a b : kinfo_proc) : Prop := (cmp a b ≤ 0)%Z.

#[export] Instance ordered_dec cmp a b : Decision (ordered cmp a b).
Proof. apply Z.le_dec. Defined.

Definition sample_machine (alloc thread_create : nat → bool) (mounts : list statfs) (procs : list kinfo_proc)
    : metrics_env :=
  {| mv_alloc := alloc;
     mv_clock := λ t, (1700000000 + Z.min (Z.of_nat t) 1000)%Z;
     mv_cp_time := λ t, Some [100; 0; 50; 0; 10; 840]%Z;
     mv_uvmexp := λ t, Some {| uv_pagesize := 4096; uv_npages := 262144; uv_free := 131072; uv_active := 65536;
                               uv_inactive := 32768; uv_wired := 16384 |};
     mv_nswap := λ t, 1%Z; mv_swap_stats := λ t, Some [(2097152, 4096)%Z];
     mv_loadavg := λ t, Some {| load_1min := b64_div (b64_of_Z 1) (b64_of_Z 4); load_5min := b64_of_Z 2;
                                load_15min := S754_zero false |};
     mv_uname := λ t, Some (bs "OpenBSD", bs "7.6", bs "amd64");
     mv_boottime := λ t, Some 1699913600%Z; mv_hostname := λ t, Some (bs "sample"); mv_mounts := λ t, mounts;
     mv_cpuspeed := λ t, Some 2400%Z; mv_proc_size := λ t, Some (zlen procs);
     mv_proc_table := λ t n, if (n <? zlen procs)%Z then ProcNoMem else ProcTable procs;
     mv_passwd := λ uid, if (uid =? 0)%Z then Some (bs "root") else None;
     mv_qsort := λ cmp l, merge_sort (ordered cmp) l; mv_pagesize := 4096;
     mv_localtime := λ now, Some (bs "2023-11-14 22:13:20"); mv_thread_create := thread_create;
     mv_junk := λ t, zero_memory |}.

Definition yes (t : nat) : bool := true.

Definition sample_menv : metrics_env := sample_machine yes yes [sample_mount] sample_procs.

Lemma sample_procs_ok : procs_ok sample_menv.
Proof.
  split; cbn [sample_menv sample_machine mv_alloc mv_clock mv_cp_time mv_uvmexp mv_nswap mv_swap_stats
    mv_loadavg mv_uname mv_boottime mv_hostname mv_mounts mv_cpuspeed mv_proc_size mv_proc_table mv_passwd mv_qsort
    mv_pagesize mv_localtime mv_thread_create mv_junk].
  - intros t n kp. destruct (n <? _)%Z; [done|]. intros [= <-]. split; [|by vm_compute].
    unfold sample_procs. repeat (apply Forall_cons; split; [split; unfold int32, uint32;
      cbn [p_pid p_uid p_pctcpu p_vm_rssize p_comm]; try lia;
      (split; [by_computation|by vm_compute])|]). done.
  - intros uid name. destruct (uid =? 0)%Z; [|done]. intros [= <-]. by_computation.
  - lia.
  - intros t. unfold memory_fields, zero_memory. cbn. repeat (apply Forall_cons; split; [lia|]). done.
  - intros cmp l [Htot Htrans]. split; [apply merge_sort_Permutation|].
    assert (Total (ordered cmp)) by (intros a b; apply Htot). by apply (Sorted_merge_sort (ordered cmp)).
Qed.

Lemma top_cpu_processes_spec_witness :
  let kp := sample_procs in
  ∃ rest, (metrics_get_top_cpu_processes sample_menv 1 0).1 ++ rest
    ≡ₚ cpu_info sample_menv <$> filter (λ p, alive p = true) kp ∧
    ps_pid <$> (metrics_get_top_cpu_processes sample_menv 1 0).1 = [77%Z].
Proof.
  intros kp. pose proof (top_cpu_processes_spec sample_menv sample_procs_ok 1 0) as H.
  assert (metrics_get_procs_snapshot sample_menv 0 = (Some kp, 3)) as E by (vm_compute; reflexivity).
  cbv zeta in H. rewrite E in H. destruct H as (rest & Hp & _). exists rest. split; [exact Hp|].
  vm_compute. reflexivity.
Defined.
