(* ===== verification/Metrics.v ===== *)
(** * The metrics module: samples, snapshot and endpoint
      (src/modules/metrics/metrics_snapshot.c, metrics_module.c)

    A heartbeat task takes a sample a second into a ring and replaces the snapshot, the JSON
    text that requests are answered with; a request rebuilds a snapshot that has grown old.
    The functions are split where the code gives up its locks ([metrics_check],
    [metrics_build], [metrics_publish], [metrics_copy]), so that requests, the heartbeat and
    the clean-up can be interleaved there ([met_run]). *)

From Stdlib Require Import Floats.SpecFloat.
From S2P Require Import Prelude CFloat Ring HttpUtils JsonValue JsonBuf Router ResponsePool HttpResponse Heartbeat MetricsCollect MetricsJson MetricsProcess.

(** ** State *)

#[export] Instance metric_sample_inhabited : Inhabited MetricSample :=
  populate {| sp_ts := 0; sp_cpu := S754_zero false; sp_cpu_total_ticks := 0; sp_cpu_idle_ticks := 0;
              sp_mem_used := 0; sp_mem_total := 0; sp_swap_used := 0; sp_net_rx := 0; sp_net_tx := 0 |}.

Definition JSON_BUFFER_SIZE : Z := 65536.
Definition METRICS_HISTORY_WINDOW : nat := 120.

(** Members and padding of the sample. *)
Definition sizeof_MetricSample : Z := 8 + (4 + 4) + 8 + 8 + 5 * 4 + 4.

Definition RING_CAPACITY : nat := Z.to_nat (1024 * 1024 / sizeof_MetricSample).

Record MetricRing := {
  mr_buf : option (list MetricSample);
  mr_head : nat;
  mr_count : nat
}.

(** A store through the NULL buffer of the ring, a section printed behind the end of its
    array, a mutex unlocked twice. *)
Inductive met_fault := NullStore | StackOverrun | DoubleUnlock.

(** [mt_log] lists the snapshots published so far with their times; no code reads it. *)
Record met_state := {
  mt_ring : MetricRing;
  mt_ring_ready : bool;
  mt_json : option bytes;
  mt_updated_at : Z;
  mt_once : bool;
  mt_hb : hb;
  mt_time : nat;
  mt_freq : Z;
  mt_faults : list met_fault;
  mt_log : list (Z * bytes)
}.

Abbreviation MM := (ST met_state).

Definition zero_met_ring : MetricRing := {| mr_buf := None; mr_head := 0; mr_count := 0 |}.

(** The statics, after [metrics_init_cpu_freq]. *)
Definition met_static (freq : Z) : met_state :=
  {| mt_ring := zero_met_ring; mt_ring_ready := false; mt_json := None; mt_updated_at := 0; mt_once := false;
     mt_hb := hb_static; mt_time := 0; mt_freq := freq; mt_faults := []; mt_log := [] |}.

Definition set_ring (r : MetricRing) (s : met_state) : met_state :=
  {| mt_ring := r; mt_ring_ready := mt_ring_ready s; mt_json := mt_json s; mt_updated_at := mt_updated_at s;
     mt_once := mt_once s; mt_hb := mt_hb s; mt_time := mt_time s; mt_freq := mt_freq s;
     mt_faults := mt_faults s; mt_log := mt_log s |}.

Definition set_ready (b : bool) (s : met_state) : met_state :=
  {| mt_ring := mt_ring s; mt_ring_ready := b; mt_json := mt_json s; mt_updated_at := mt_updated_at s;
     mt_once := mt_once s; mt_hb := mt_hb s; mt_time := mt_time s; mt_freq := mt_freq s;
     mt_faults := mt_faults s; mt_log := mt_log s |}.

Definition set_once (s : met_state) : met_state :=
  {| mt_ring := mt_ring s; mt_ring_ready := mt_ring_ready s; mt_json := mt_json s;
     mt_updated_at := mt_updated_at s; mt_once := true; mt_hb := mt_hb s; mt_time := mt_time s;
     mt_freq := mt_freq s; mt_faults := mt_faults s; mt_log := mt_log s |}.

Definition set_hb (g : hb) (s : met_state) : met_state :=
  {| mt_ring := mt_ring s; mt_ring_ready := mt_ring_ready s; mt_json := mt_json s;
     mt_updated_at := mt_updated_at s; mt_once := mt_once s; mt_hb := g; mt_time := mt_time s;
     mt_freq := mt_freq s; mt_faults := mt_faults s; mt_log := mt_log s |}.

Definition set_time (t : nat) (s : met_state) : met_state :=
  {| mt_ring := mt_ring s; mt_ring_ready := mt_ring_ready s; mt_json := mt_json s;
     mt_updated_at := mt_updated_at s; mt_once := mt_once s; mt_hb := mt_hb s; mt_time := t;
     mt_freq := mt_freq s; mt_faults := mt_faults s; mt_log := mt_log s |}.

Definition note_fault (f : met_fault) (s : met_state) : met_state :=
  {| mt_ring := mt_ring s; mt_ring_ready := mt_ring_ready s; mt_json := mt_json s;
     mt_updated_at := mt_updated_at s; mt_once := mt_once s; mt_hb := mt_hb s; mt_time := mt_time s;
     mt_freq := mt_freq s; mt_faults := mt_faults s ++ [f]; mt_log := mt_log s |}.

Definition set_snapshot (json : option bytes) (updated_at : Z) (log : list (Z * bytes)) (s : met_state)
    : met_state :=
  {| mt_ring := mt_ring s; mt_ring_ready := mt_ring_ready s; mt_json := json; mt_updated_at := updated_at;
     mt_once := mt_once s; mt_hb := mt_hb s; mt_time := mt_time s; mt_freq := mt_freq s;
     mt_faults := mt_faults s; mt_log := mt_log s ++ log |}.

(** A collector's questions are numbered by the state. *)
Definition lift {A} (m : MQ A) : MM A := λ s, let '(x, t) := m (mt_time s) in (x, set_time t s).

(** ** The ring *)

Definition ring_push (sample : MetricSample) (s : met_state) : met_state :=
  let r := mt_ring s in
  match mr_buf r with
  | None => note_fault NullStore s
  | Some buf =>
      set_ring {| mr_buf := Some (<[mr_head r := sample]> buf);
                  mr_head := (mr_head r + 1) mod RING_CAPACITY;
                  mr_count := if mr_count r <? RING_CAPACITY then mr_count r + 1 else mr_count r |} s
  end.

(** The samples copied to [out]. *)
Definition ring_last (ready : bool) (r : MetricRing) (n : nat) : list MetricSample :=
  if negb ready then []
  else
    match mr_buf r with
    | None => []
    | Some buf =>
        let n := if mr_count r <? n then mr_count r else n in
        ring_view RING_CAPACITY ((mr_head r + RING_CAPACITY - n) mod RING_CAPACITY) n buf
    end.

Definition ring_free (s : met_state) : met_state := set_ring zero_met_ring s.

(** The address of [metrics_heartbeat_cb]. *)
Definition METRICS_CB : Z := 2.

Definition metrics_task : hb_task :=
  {| ht_name := Some (bs "metrics.sample"); ht_period_sec := 1; ht_initial_delay_sec := 0;
     ht_cb := Some METRICS_CB; ht_ctx := 0 |}.

(** The processor's load between two readings of the tick counters. *)
Definition clamp_percent (cpu : spec_float) : spec_float :=
  let cpu := if SFltb cpu (b32_of_Z 0) then b32_of_Z 0 else cpu in
  if SFltb (b32_of_Z 100) cpu then b32_of_Z 100 else cpu.

Definition cpu_load (prev : option MetricSample) (total_ticks idle_ticks : Z) : spec_float :=
  match prev with
  | Some prev =>
      if (0 <? sp_cpu_total_ticks prev)%Z && (sp_cpu_total_ticks prev <? total_ticks)%Z then
        let total_delta := (total_ticks - sp_cpu_total_ticks prev)%Z in
        let idle_delta := if (sp_cpu_idle_ticks prev <=? idle_ticks)%Z
                          then (idle_ticks - sp_cpu_idle_ticks prev)%Z else 0%Z in
        clamp_percent (b32_of_b64 (b64_mul (b64_of_Z 100)
          (b64_sub (b64_of_Z 1) (b64_div (b64_of_Z idle_delta) (b64_of_Z total_delta)))))
      else b32_of_Z 0
  | None => b32_of_Z 0
  end.

(** [(x > 0) ? (uint32_t)x : 0] *)
Definition to_mb (x : Z) : Z := if (0 <? x)%Z then wrap32 x else 0.

(** A section of the document with the array it was printed into. *)
Definition text_of (b : jbuf) : bytes := jb_text b.

Section module.
Context (env : metrics_env).

Definition metrics_read_cpu_ticks : MQ (option (Z * Z)) :=
  answer ← ask (mv_cp_time env);
  mret (match answer with
        | None => None
        | Some cp_time =>
            if existsb (λ i, ticks cp_time i <? 0)%Z (seq 0 CPUSTATES) then None
            else
              let total := foldl (λ total i, wrap64 (total + ticks cp_time i)) 0%Z (seq 0 CPUSTATES) in
              if (total =? 0)%Z then None else Some (total, ticks cp_time CP_IDLE)
        end).

(** [prev]: the last sample in the ring, if there is one. *)
Definition metrics_take_sample (prev : option MetricSample) : MQ MetricSample :=
  now ← ask (mv_clock env);
  cpu ← metrics_read_cpu_ticks;
  junk ← ask (mv_junk env);
  mem ← metrics_get_memory_stats env junk;
  let '(rc, mem) := mem in
  mret {| sp_ts := now;
          sp_cpu := match cpu with Some (total, idle) => cpu_load prev total idle | None => S754_zero false end;
          sp_cpu_total_ticks := match cpu with Some (total, _) => total | None => 0 end;
          sp_cpu_idle_ticks := match cpu with Some (_, idle) => idle | None => 0 end;
          sp_mem_used := if (rc =? 0)%Z then to_mb (me_active_mb mem + me_wired_mb mem) else 0;
          sp_mem_total := if (rc =? 0)%Z then to_mb (me_total_mb mem) else 0;
          sp_swap_used := if (rc =? 0)%Z then to_mb (me_swap_used_mb mem) else 0;
          sp_net_rx := 0; sp_net_tx := 0 |}.

Definition ring_init : MM Z :=
  ok ← lift (ask (mv_alloc env));
  if negb ok then mret (-1)%Z
  else
    _ ← modify (set_ring {| mr_buf := Some (replicate RING_CAPACITY inhabitant); mr_head := 0; mr_count := 0 |});
    mret 0%Z.

(** ** The document *)

Definition metrics_head (timestamp hostname : bytes) : bytes :=
  qs "{'timestamp': '" ++ timestamp ++ qs "','hostname': '" ++ hostname ++ qs "',".

(** [true]: a section has left its array. *)
Definition build_system_metrics_json (freq : Z) (history : list MetricSample) : MQ (option bytes * bool) :=
  ok ← ask (mv_alloc env);
  if negb ok then mret (None, false)
  else
    now ← ask (mv_clock env);
    let timestamp := default (bs "unknown") (mv_localtime env now) in
    hostname ← metrics_get_hostname env;
    let hostname := default (bs "localhost") hostname in
    cpu_json ← metrics_json_append_cpu_stats env 256;
    memory_json ← metrics_json_append_memory_stats env 512;
    load_json ← metrics_json_append_load_average env 256;
    os_json ← metrics_json_append_os_info env 512;
    uptime_json ← metrics_json_append_uptime env 256;
    disks_json ← metrics_json_append_disk_info env 2048;
    let ports_json := metrics_json_append_top_ports 2048 in
    let cpu_freq_json := metrics_json_append_cpu_freq 64 freq in
    processes ← metrics_process_append_json_sections env 2048 2048 256;
    let '(top_cpu_json, top_mem_json, proc_stats_json) := processes in
    let history_json := metrics_json_append_history 32768 history in
    mret (Some (snprintf JSON_BUFFER_SIZE
            (metrics_head timestamp hostname ++ cpu_json ++ bs "," ++ memory_json ++ bs "," ++ load_json ++
             bs "," ++ os_json ++ bs "," ++ uptime_json ++ bs "," ++ text_of disks_json ++ bs "," ++
             text_of ports_json ++ bs "," ++ text_of top_cpu_json ++ bs "," ++ text_of top_mem_json ++ bs "," ++
             proc_stats_json ++ bs "," ++ cpu_freq_json ++ bs "," ++ history_json ++ bs "}")),
          jb_overrun disks_json || jb_overrun ports_json || jb_overrun top_cpu_json || jb_overrun top_mem_json).

(** ** The snapshot *)

Definition metrics_get_cpu_freq_mhz (s : met_state) : Z := mt_freq s.

(** The part of [metrics_snapshot_update] in front of its lock. *)
Definition metrics_build : MM (option bytes) :=
  s ← get;
  let history := ring_last (mt_ring_ready s) (mt_ring s) METRICS_HISTORY_WINDOW in
  r ← lift (build_system_metrics_json (metrics_get_cpu_freq_mhz s) history);
  let '(json, overrun) := r in
  _ ← modify (λ s, if overrun : bool then note_fault StackOverrun s else s);
  mret json.

(** The part under the lock. *)
Definition metrics_publish (json : option bytes) : MM unit :=
  match json with
  | None => mret tt
  | Some json =>
      now ← lift (ask (mv_clock env));
      modify (set_snapshot (Some json) now [(now, json)])
  end.

Definition metrics_snapshot_update : MM unit := json ← metrics_build; metrics_publish json.

(** The callback up to the sample in the ring. *)
Definition metrics_sample_cb : MM unit :=
  s ← get;
  sample ← lift (metrics_take_sample (head (ring_last (mt_ring_ready s) (mt_ring s) 1)));
  modify (ring_push sample).

Definition metrics_heartbeat_cb : MM unit := _ ← metrics_sample_cb; metrics_snapshot_update.

Definition metrics_ring_bootstrap : MM unit :=
  rc ← ring_init;
  if negb (rc =? 0)%Z then mret tt
  else
    now ← lift (ask (mv_clock env));
    s ← get;
    let '(registered, g) := heartbeat_register (Some metrics_task) now (mt_hb s) in
    _ ← modify (set_hb g);
    match registered with
    | HB_REGISTER_ERROR => modify ring_free
    | _ =>
        created ← lift (ask (mv_thread_create env));
        s ← get;
        let '(rc, _, g) := heartbeat_start created (mt_hb s) in
        _ ← modify (set_hb g);
        if negb (rc =? 0)%Z then modify ring_free
        else _ ← modify (set_ready true); metrics_snapshot_update
    end.

Definition metrics_once : MM unit :=
  s ← get;
  if mt_once s then mret tt else _ ← modify set_once; metrics_ring_bootstrap.

(** A request up to the end of its first critical section: the time and whether the
    snapshot is to be rebuilt. *)
Definition metrics_check : MM (Z * bool) :=
  _ ← metrics_once;
  now ← lift (ask (mv_clock env));
  s ← get;
  mret (now, match mt_json s with
             | None => true
             | Some _ => (mt_updated_at s =? 0)%Z || (5 <? now - mt_updated_at s)%Z
             end).

(** The rest of a request: the copy.  When there is no memory for it the lock is released,
    and again after the fallback. *)
Definition metrics_copy : MM (option bytes) :=
  s ← get;
  match mt_json s with
  | None => mret None
  | Some json =>
      ok ← lift (ask (mv_alloc env));
      if ok : bool then mret (Some json)
      else
        ok ← lift (ask (mv_alloc env));
        _ ← modify (note_fault DoubleUnlock);
        mret (if ok : bool then Some json else None)
  end.

Definition get_system_metrics_json : MM (option bytes) :=
  r ← metrics_check;
  let '(now, should_refresh) := r in
  _ ← (if should_refresh : bool then metrics_snapshot_update else mret tt);
  metrics_copy.

Definition metrics_service_build_payload : MM (option bytes) := get_system_metrics_json.

Definition metrics_module_cleanup : MM unit :=
  modify (λ s, let s := set_snapshot None 0 [] s in
               set_ready false (if mt_ring_ready s then ring_free s else s)).

(** ** The endpoint *)

Definition metrics_response (json : bytes) (r : http_response) : http_response :=
  let r := set_content_type (http_response_set_status r 200) (bs "application/json") in
  let r := http_response_add_header r (bs "Access-Control-Allow-Origin") (bs "*") in
  let r := http_response_add_header r (bs "Cache-Control") (bs "no-store") in
  http_response_set_body r (Some json) (length json) true.

Section handler.
Context (k : kernel) (fuel : nat) (tid : Z) (reg : registry).

Definition metrics_handler (req : http_request) (w : world) : MM (option (Z * world)) :=
  json ← get_system_metrics_json;
  match json with
  | None => mret (http_send_error k fuel tid reg req 500 (Some (bs "Unable to generate metrics")) w)
  | Some json =>
      let '(resp, st) := http_response_create tid (k_calloc k (w_time w)) (w_store w) in
      match resp with
      | None =>
          mret (http_send_error k fuel tid reg req 500 (Some (bs "Unable to allocate response"))
            {| w_store := st; w_time := S (w_time w); w_wire := w_wire w |})
      | Some _ => mret (respond k fuel tid req (metrics_response json) w)
      end
  end.
End handler.
End module.

(** ** What is assumed of the environment *)

(** Names without quotes, backslashes and control characters; loads below [2^60]; a clock
    that does not run backwards; mounts whose descriptions fit their array. *)
Record menv_ok (env : metrics_env) : Prop := {
  mo_procs : procs_ok env;
  mo_loadavg t load : mv_loadavg env t = Some load →
    Forall (bounded_by 53 60) [load_1min load; load_5min load; load_15min load];
  mo_uname t a b c : mv_uname env t = Some (a, b, c) → clean a ∧ clean b ∧ clean c;
  mo_hostname t name : mv_hostname env t = Some name → clean name ∧ (zlen name ≤ 255)%Z;
  mo_localtime now text : mv_localtime env now = Some text → clean text ∧ (zlen text ≤ 63)%Z;
  mo_mounts t fs : fs ∈ mv_mounts env t → clean (f_mntfromname fs) ∧ clean (f_mntonname fs);
  mo_disk_room t :
    (zlen (items_text disk_item true (disks_loop (mv_mounts env t) 16 [])) ≤ 2030)%Z;
  mo_clock t t' : t ≤ t' → (mv_clock env t ≤ mv_clock env t')%Z;
  mo_clock_range t : int64 (mv_clock env t);
  mo_cp_time t cp : mv_cp_time env t = Some cp → Forall int64 cp
}.

(** ** The value of the document *)

Section document.
Context (env : metrics_env).

(** What is collected for a document, as the value that the document means. *)
Definition metrics_value (freq : Z) (history : list MetricSample) : MQ jvalue :=
  _ ← ask (mv_alloc env);
  now ← ask (mv_clock env);
  hostname ← metrics_get_hostname env;
  cpu ← metrics_get_cpu_stats env;
  junk ← ask (mv_junk env);
  memory ← metrics_get_memory_stats env junk;
  load ← metrics_get_load_average env;
  os ← metrics_get_os_info env 64;
  uptime ← metrics_get_uptime env 128;
  disks ← metrics_get_disk_usage env 16;
  processes ← process_members env;
  mret (JObj ([(bs "timestamp", JStr (default (bs "unknown") (mv_localtime env now)));
               (bs "hostname", JStr (default (bs "localhost") hostname));
               (bs "cpu", cpu_value cpu)] ++
              memory_members memory ++
              [(bs "load", load_value load); (bs "os", os_value os); (bs "uptime", uptime_value uptime);
               (bs "disks", JArr (disk_value <$> disks)); (bs "top_ports", JArr [])] ++
              processes ++
              [(bs "cpu_freq_mhz", cpu_freq_value freq); (bs "history", JArr (history_value <$> history))])).

Lemma uptime_clean up : clean (uptime_text up).
Proof.
  assert (clean (bs ":") ∧ clean (bs " days, ")) as [? ?]
    by (split; by_computation).
  unfold uptime_text. destruct (0 <? _)%Z; repeat first [assumption|apply clean_fmt_Z|apply clean_fmt_pad|apply clean_app].
Qed.

Lemma cpu_text_length r :
  Forall int32 [cs_user r.2; cs_nice r.2; cs_system r.2; cs_interrupt r.2; cs_idle r.2] → (zlen (cpu_text r) < 256)%Z.
Proof.
  destruct r as [rc s]. cbn [snd]. unfold cpu_text. intros H.
  do 5 apply Forall_cons in H as [?%fmt_int32_length H].
  destruct (rc =? 0)%Z; [|by vm_compute].
  pose proof (fmt_int32_length _ (to_int32_range (cs_user s + cs_nice s + cs_system s + cs_interrupt s))).
  text_length. lia.
Qed.

Lemma cpu_stats_range t :
  let s := (metrics_get_cpu_stats env t).1.2 in
  Forall int32 [cs_user s; cs_nice s; cs_system s; cs_interrupt s; cs_idle s].
Proof.
  unfold metrics_get_cpu_stats, ask. run_st. cbn [fst snd].
  assert (Forall int32 [0; 0; 0; 0; 0]%Z) by (repeat constructor; unfold int32; lia).
  destruct (mv_cp_time env t) as [cp|]; [|done]. destruct (_ =? 0)%Z; [done|].
  repeat constructor; apply to_int32_range.
Qed.

Lemma memory_text_length r :
  Forall (λ z, - 2 ^ 63 ≤ z < 2 ^ 63)%Z (memory_fields r.2) → (zlen (memory_text r) < 512)%Z.
Proof.
  destruct r as [rc m]. cbn [snd]. unfold memory_text, memory_fields. intros H.
  assert (∀ z, - 2 ^ 63 ≤ z < 2 ^ 63 → zlen (fmt_Z z) ≤ 20)%Z as Hz by (intros z Hz; apply fmt_Z_length; lia).
  do 8 apply Forall_cons in H as [?%Hz H].
  destruct (rc =? 0)%Z; [|by vm_compute]. text_length. lia.
Qed.

Lemma load_text_length r :
  (∀ load, r = Some load → Forall (bounded_by 53 60) [load_1min load; load_5min load; load_15min load]) →
  (zlen (load_text r) < 256)%Z.
Proof.
  destruct r as [load|]; intros H; [|by vm_compute]. specialize (H load eq_refl).
  assert (∀ x, bounded_by 53 60 x → (zlen (fmt_fixed 2 x) ≤ 23)%Z) as Hf.
  { intros x Hx. pose proof (fmt_fixed_short 53 60 2 19 x Hx ltac:(lia) ltac:(lia) ltac:(lia)
      ltac:(by apply Z.ltb_lt; vm_compute)). lia. }
  do 3 apply Forall_cons in H as [?%Hf H]. unfold load_text. text_length. lia.
Qed.

Lemma os_text_length r :
  (∀ a b c, r = Some (a, b, c) → zlen a ≤ 63 ∧ zlen b ≤ 63 ∧ zlen c ≤ 63)%Z → (zlen (os_text r) < 512)%Z.
Proof.
  destruct r as [[[a b] c]|]; intros H; [|by vm_compute]. destruct (H a b c eq_refl) as (? & ? & ?).
  unfold os_text. text_length. lia.
Qed.

Lemma uptime_section_length r :
  (∀ s, r = Some s → zlen s ≤ 127)%Z → (zlen (uptime_section r) < 256)%Z.
Proof.
  destruct r as [s|]; intros H; [|by vm_compute]. specialize (H s eq_refl).
  unfold uptime_section. text_length. lia.
Qed.

Hypothesis Henv : menv_ok env.

(** *** One section after the other *)

(** [t] is a text of the members [l], at most [n] bytes long. *)
Definition good_section (l : list (bytes * jvalue)) (n : Z) (t : bytes) : Prop :=
  json_section l t ∧ (zlen t ≤ n)%Z.

Lemma good_section_app l1 l2 n1 n2 t1 t2 :
  good_section l1 n1 t1 → good_section l2 n2 t2 →
  good_section (l1 ++ l2) (n1 + 1 + n2) (t1 ++ bs "," ++ t2).
Proof.
  intros [H1 L1] [H2 L2]. split; [by apply json_section_app|].
  rewrite !zlen_app. change (zlen (bs ",")) with 1%Z. lia.
Qed.

Lemma good_cpu t : 
  good_section [(bs "cpu", cpu_value (metrics_get_cpu_stats env t).1)] 255
    (snprintf 256 (cpu_text (metrics_get_cpu_stats env t).1)).
Proof.
  pose proof (cpu_text_length _ (cpu_stats_range t)). rewrite snprintf_whole by done.
  split; [apply cpu_section|lia].
Qed.

Lemma good_memory t t' :
  let r := (metrics_get_memory_stats env (mv_junk env t) t').1 in
  good_section (memory_members r) 511 (snprintf 512 (memory_text r)).
Proof.
  intros r. pose proof (memory_stats_range env (mv_junk env t) t' (po_junk env (mo_procs env Henv) t)) as [H _].
  fold r in H. apply memory_text_length in H. rewrite snprintf_whole by done. split; [apply memory_section|lia].
Qed.

Lemma good_load t :
  good_section [(bs "load", load_value (mv_loadavg env t))] 255 (snprintf 256 (load_text (mv_loadavg env t))).
Proof.
  pose proof (load_text_length _ (mo_loadavg env Henv t)). rewrite snprintf_whole by done.
  split; [|lia]. apply load_section. intros load Hload. apply (mo_loadavg env Henv t) in Hload.
  do 3 apply Forall_cons in Hload as [? Hload]. split_and!; by eexists _, _.
Qed.

Lemma good_os t :
  let r := (metrics_get_os_info env 64 t).1 in
  good_section [(bs "os", os_value r)] 511 (snprintf 512 (os_text r)).
Proof.
  intros r.
  assert (r = (match mv_uname env t with
               | None => None
               | Some (a, b, c) => Some (strlcpy 64 a, strlcpy 64 b, strlcpy 64 c)
               end)) as Er by done.
  assert (∀ a b c, r = Some (a, b, c) →
    (clean a ∧ clean b ∧ clean c) ∧ (zlen a ≤ 63 ∧ zlen b ≤ 63 ∧ zlen c ≤ 63)%Z) as H.
  { intros a b c E. rewrite Er in E. destruct (mv_uname env t) as [[[x y] z]|] eqn:Eu; [|done].
    apply (mo_uname env Henv) in Eu as (Hx & Hy & Hz). injection E as <- <- <-.
    split; split_and!; first [by apply clean_strlcpy|apply (strlcpy_zlen 64)]. }
  assert (zlen (os_text r) < 512)%Z by (apply os_text_length; intros a b c E; by apply H in E as [_ ?]).
  rewrite snprintf_whole by done. split; [|lia]. apply os_section. intros a b c E. by apply H in E as [? _].
Qed.

Lemma good_uptime t :
  let r := (metrics_get_uptime env 128 t).1 in
  good_section [(bs "uptime", uptime_value r)] 255 (snprintf 256 (uptime_section r)).
Proof.
  intros r. assert (∀ s, r = Some s → clean s ∧ (zlen s ≤ 127)%Z) as H.
  { unfold r, metrics_get_uptime, ask. run_st. destruct (mv_boottime env t) as [b|]; [|done]. cbn [fst].
    intros s [= <-]. split; [apply clean_strlcpy, uptime_clean|apply (strlcpy_zlen 128)]. }
  assert (zlen (uptime_section r) < 256)%Z by (apply uptime_section_length; intros s E; by apply H in E as [_ ?]).
  rewrite snprintf_whole by done. split; [|lia]. apply uptime_section_ok. intros s E. by apply H in E as [? _].
Qed.

Lemma good_disks t :
  let r := (metrics_get_disk_usage env 16 t).1 in
  let b := print_items 2048 0 (qs "'disks': [") disk_item r in
  good_section [(bs "disks", JArr (disk_value <$> r))] 2047 (text_of b) ∧ jb_overrun b = false.
Proof.
  intros r b. pose proof (mo_disk_room env Henv t) as Hroom.
  assert (r = disks_loop (mv_mounts env t) 16 []) as Er by done. rewrite <- Er in Hroom.
  unfold b. rewrite print_items_all by (rewrite ?zlen_app; try lia; change (zlen (qs "'disks': [")) with 10%Z; lia).
  split; [|done]. cbn [text_of jb_of jb_text]. split.
  - apply array_in_buffer; [by apply (bool_decide_unpack _); vm_compute| |reflexivity].
    rewrite Er, disks_loop_spec by (simpl; lia). cbn [app length]. apply Forall_take, Forall_fmap, Forall_forall.
    intros fs [_ Hfs]%list_elem_of_filter. apply (mo_mounts env Henv) in Hfs as [? ?].
    apply form_disk; cbn [disk_of dk_device dk_mount_point]; by apply clean_strlcpy.
  - rewrite !zlen_app, <- items_text_spaced. change (zlen (qs "'disks': [")) with 10%Z.
    change (zlen (bs "]")) with 1%Z. lia.
Qed.

Lemma good_ports :
  good_section [(bs "top_ports", JArr [])] 20 (text_of (metrics_json_append_top_ports 2048)) ∧
  jb_overrun (metrics_json_append_top_ports 2048) = false.
Proof.
  assert (metrics_json_append_top_ports 2048 = jb_of (qs "'top_ports': []")) as -> by (vm_compute; reflexivity).
  split; [|done]. split; [|vm_compute; discriminate]. cbn [text_of jb_of jb_text].
  section_of [(tight, bs "top_ports", JArr [], bs "[]")]. apply (form_arr json_escape [] []). constructor.
Qed.

Lemma good_freq freq :
  int32 freq → good_section [(bs "cpu_freq_mhz", cpu_freq_value freq)] 63 (metrics_json_append_cpu_freq 64 freq).
Proof.
  intros Hf. unfold metrics_json_append_cpu_freq.
  assert (zlen (cpu_freq_text freq) < 64)%Z.
  { unfold cpu_freq_text. destruct (0 <? freq)%Z; [|by vm_compute]. apply fmt_int32_length in Hf. text_length. lia. }
  rewrite snprintf_whole by done. split; [apply cpu_freq_section|lia].
Qed.

(** The head of the document and what closes it. *)
Lemma good_head timestamp hostname :
  clean timestamp → clean hostname → (zlen timestamp ≤ 63)%Z → (zlen hostname ≤ 255)%Z →
  good_section [(bs "timestamp", JStr timestamp); (bs "hostname", JStr hostname)] 350
    (qs "'timestamp': '" ++ timestamp ++ qs "','hostname': '" ++ hostname ++ qs "'").
Proof.
  intros Ht Hh Lt Lh. split; [|text_length; lia].
  section_of [(tight, bs "timestamp", JStr timestamp, raw timestamp);
              (tight, bs "hostname", JStr hostname, raw hostname)]; done.
Qed.

Lemma good_timestamp now :
  let s := default (bs "unknown") (mv_localtime env now) in clean s ∧ (zlen s ≤ 63)%Z.
Proof.
  cbn. destruct (mv_localtime env now) as [s|] eqn:E; [by apply (mo_localtime env Henv) in E|].
  split; [by apply (bool_decide_unpack _); vm_compute|by vm_compute].
Qed.

Lemma good_hostname t :
  let s := default (bs "localhost") (mv_hostname env t) in clean s ∧ (zlen s ≤ 255)%Z.
Proof.
  cbn. destruct (mv_hostname env t) as [s|] eqn:E; [by apply (mo_hostname env Henv) in E|].
  split; [by apply (bool_decide_unpack _); vm_compute|by vm_compute].
Qed.

Lemma says_good b v : says b v → good_section [v] 1751 (text_of b) ∧ jb_overrun b = false.
Proof. by intros (t & -> & Ht & Hs). Qed.

Lemma good_history history :
  Forall sample_fine history → (zlen history ≤ 120)%Z →
  good_section [(bs "history", JArr (history_value <$> history))] 32767
    (metrics_json_append_history 32768 history).
Proof.
  intros Hs Hn. split; [by apply history_section|].
  rewrite history_whole by done. pose proof (items_text_length (history_item true) true history 250
    ltac:(eapply Forall_impl; [exact Hs|]; apply history_item_length)) as Hl.
  rewrite <- items_text_spaced. rewrite !zlen_app. change (zlen [dq]) with 1%Z.
  text_length. lia.
Qed.

(** The document around its sections. *)
Lemma good_object l n t :
  good_section l n t → (n < 65534)%Z →
  json_parse (snprintf JSON_BUFFER_SIZE (bs "{" ++ t ++ bs "}")) = Some (JObj l).
Proof.
  intros [Hs Hl] Hn. rewrite snprintf_whole by (text_length; unfold JSON_BUFFER_SIZE; lia).
  apply (json_parse_form json_escape), (json_section_form l t Hs).
Qed.

Lemma snprintf_short text : (zlen (snprintf JSON_BUFFER_SIZE text) ≤ 65535)%Z.
Proof. unfold snprintf, zlen, JSON_BUFFER_SIZE. rewrite length_take. lia. Qed.

(** A built document says what was collected for it, and no section left its array. *)
Lemma build_document freq history t :
  int32 freq → Forall sample_fine history → (zlen history ≤ 120)%Z →
  let '((json, overrun), t1) := build_system_metrics_json env freq history t in
  overrun = false ∧
  match json with
  | None => mv_alloc env t = false
  | Some text =>
      mv_alloc env t = true ∧ (zlen text ≤ 65535)%Z ∧
      ∃ v, metrics_value freq history t = (v, t1) ∧ json_parse text = Some v
  end.
Proof.
  intros Hf Hh Hn. unfold build_system_metrics_json, metrics_value, metrics_json_append_cpu_stats,
    metrics_json_append_memory_stats, metrics_json_append_load_average, metrics_json_append_os_info,
    metrics_json_append_uptime, metrics_json_append_disk_info, metrics_get_hostname, metrics_get_load_average, ask.
  run_st. destruct (mv_alloc env t); cbn [negb]; [|done].
  pose proof (good_timestamp (mv_clock env (S t))) as [Ht1 Ht2].
  pose proof (good_hostname (S (S t))) as [Hh1 Hh2].
  pose proof (good_head _ _ Ht1 Hh1 Ht2 Hh2) as G0.
  pose proof (good_cpu (S (S (S t)))) as G1. destruct (metrics_get_cpu_stats env (S (S (S t)))) as [cpu t1]; cbn [fst] in G1.
  pose proof (good_memory t1 (S t1)) as G2. destruct (metrics_get_memory_stats env (mv_junk env t1) (S t1)) as [mem t2]; cbn [fst] in G2.
  pose proof (good_load t2) as G3.
  pose proof (good_os (S t2)) as G4. destruct (metrics_get_os_info env 64 (S t2)) as [os t3]; cbn [fst] in G4.
  pose proof (good_uptime t3) as G5. destruct (metrics_get_uptime env 128 t3) as [up t4]; cbn [fst] in G5.
  pose proof (good_disks t4) as [G6 O6]. destruct (metrics_get_disk_usage env 16 t4) as [disks t5]; cbn [fst] in G6. cbn [fst] in O6.
  pose proof good_ports as [G7 O7].
  pose proof (process_sections_ok env (mo_procs env Henv) t5) as Hp.
  destruct (metrics_process_append_json_sections env 2048 2048 256 t5) as [[[tc tm] ps] t6].
  destruct (process_members env t5) as [members t7].
  destruct Hp as (<- & vc & vm & vs & -> & [G8 O8]%says_good & [G9 O9]%says_good & Hps & Lps).
  split; [by rewrite O6, O7, O8, O9|]. split; [done|]. split; [apply snprintf_short|]. eexists. split; [reflexivity|].
  pose proof (good_section_app _ _ _ _ _ _ (conj Hps Lps : good_section _ _ _)
    (good_section_app _ _ _ _ _ _ (good_freq freq Hf) (good_history history Hh Hn))) as G.
  apply (good_section_app _ _ _ _ _ _ G9), (good_section_app _ _ _ _ _ _ G8),
    (good_section_app _ _ _ _ _ _ G7), (good_section_app _ _ _ _ _ _ G6), (good_section_app _ _ _ _ _ _ G5),
    (good_section_app _ _ _ _ _ _ G4), (good_section_app _ _ _ _ _ _ G3), (good_section_app _ _ _ _ _ _ G2),
    (good_section_app _ _ _ _ _ _ G1), (good_section_app _ _ _ _ _ _ G0), good_object in G; [|lia].
  etrans; [|exact G]. f_equal. f_equal. unfold metrics_head. rewrite <- !app_assoc. reflexivity.
Qed.
End document.

(** ** Samples *)

(** A load is a percentage: it is printed with at most 100 in front of the point. *)
Lemma clamp_percent_spec x :
  is_nan x = false → match x with S754_finite _ m _ => (Zpos (digits2_pos m) ≤ 24)%Z | _ => True end →
  (∃ neg m, fmt_fixed 2 (clamp_percent x) = fmt_dec neg m 2 ∧ (m ≤ 10000)%N) ∧ finite (clamp_percent x).
Proof.
  intros Hx Hm. unfold clamp_percent. change (b32_of_Z 0) with (S754_zero false).
  change (b32_of_Z 100) with (S754_finite false 13107200 (-17)).
  set (y := if SFltb x (S754_zero false) then S754_zero false else x).
  assert (is_nan y = false ∧ match y with S754_finite _ m _ => (Zpos (digits2_pos m) ≤ 24)%Z | _ => True end ∧
          SFltb y (S754_zero false) = false) as (Hy & Hd & H0).
  { unfold y. destruct (SFltb x _) eqn:E; done. }
  destruct (SFltb (S754_finite false 13107200 (-17)) y) eqn:E.
  - split; [exists false, 10000%N; split; [by vm_compute|done]|]. exists 7%Z, 24%Z. by vm_compute.
  - split; [by apply percentage_printed|].
    destruct y as [s|[]| |s k e]; try done; [by exists 0%Z, 24%Z|]. by exists (Zpos (digits2_pos k) + e)%Z, 24%Z.
Qed.

Definition ticks_fine (s : MetricSample) : Prop :=
  (0 ≤ sp_cpu_total_ticks s < 2 ^ 64 ∧ 0 ≤ sp_cpu_idle_ticks s < 2 ^ 64)%Z.

Lemma cpu_load_percentage prev total idle :
  (0 ≤ total < 2 ^ 64)%Z → (0 ≤ idle < 2 ^ 64)%Z → (∀ s, prev = Some s → ticks_fine s) →
  let x := cpu_load prev total idle in
  (∃ neg m, fmt_fixed 2 x = fmt_dec neg m 2 ∧ (m ≤ 10000)%N) ∧ finite x.
Proof.
  intros Ht Hi Hprev.
  assert ((∃ neg m, fmt_fixed 2 (b32_of_Z 0) = fmt_dec neg m 2 ∧ (m ≤ 10000)%N) ∧ finite (b32_of_Z 0)) as Hzero
    by (split; [by exists false, 0%N|by exists 0%Z, 24%Z]).
  unfold cpu_load. destruct prev as [prev|]; [|exact Hzero].
  destruct (Hprev prev eq_refl) as [Hpt Hpi].
  destruct (_ && _) eqn:E; [|exact Hzero]. apply andb_true_iff in E as [E1 E2]. bool_facts.
  set (delta := (total - sp_cpu_total_ticks prev)%Z).
  set (idle_delta := if (_ <=? _)%Z then _ else _).
  assert (0 ≤ idle_delta < 2 ^ 64)%Z as Hid by (unfold idle_delta; case_match; bool_facts; lia).
  assert (is_nan (b64_div (b64_of_Z idle_delta) (b64_of_Z delta)) = false) as Hdiv.
  { apply (b64_div_number _ _ 65); [by apply (b64_of_Z_bounded _ 64)|]. exists 1%Z.
    apply (b64_of_Z_at_least _ 0 64); unfold delta; lia. }
  apply clamp_percent_spec; apply b32_of_b64_spec; by apply b64_mul_number, b64_sub_number.
Qed.

Lemma sample_menv_ok : menv_ok sample_menv.
Proof.
  split; [apply sample_procs_ok|..]; cbn [sample_menv sample_machine mv_alloc mv_clock mv_cp_time mv_uvmexp mv_nswap mv_swap_stats
    mv_loadavg mv_uname mv_boottime mv_hostname mv_mounts mv_cpuspeed mv_proc_size mv_proc_table mv_passwd mv_qsort
    mv_pagesize mv_localtime mv_thread_create mv_junk].
  - intros t load [= <-]. repeat (apply Forall_cons; split; [vm_compute; split; discriminate|]). done.
  - intros t a b c [= <- <- <-]. split_and!; by_computation.
  - intros t name [= <-]. split; [by_computation|by vm_compute].
  - intros now text [= <-]. split; [by_computation|by vm_compute].
  - intros t fs ->%list_elem_of_singleton. split; by_computation.
  - intros t. by vm_compute.
  - intros t t' Ht. lia.
  - intros t. unfold int64. lia.
  - intros t cp [= <-]. unfold int64. repeat (apply Forall_cons; split; [lia|]). done.
Qed.
