(* ===== verification/MetricsRun.v ===== *)
(** * The metrics module: samples, interleavings and answers
      (src/modules/metrics/metrics_snapshot.c, metrics_module.c)

    The ring is the end of the log of all samples.  Requests, the heartbeat, the clean-up and
    the other users of the scheduler take turns between critical sections ([met_step]); what
    a request is answered with then is a document that was published whole and not long ago. *)

From Stdlib Require Import Floats.SpecFloat.
From S2P Require Import Prelude CFloat Ring HttpUtils JsonValue JsonBuf Router ResponsePool HttpResponse Heartbeat Networking MetricsCollect MetricsJson MetricsProcess Metrics.

(** ** The ring *)

Lemma RING_CAPACITY_pos : 0 < RING_CAPACITY.
Proof. apply Nat.ltb_lt. vm_compute. reflexivity. Qed.

Lemma window_in_ring : METRICS_HISTORY_WINDOW ≤ RING_CAPACITY.
Proof. apply Nat.leb_le. vm_compute. reflexivity. Qed.

(** The ring holds the end of the log of all samples. *)
Record ring_logs (r : MetricRing) (log : list MetricSample) : Prop := {
  rl_count : mr_count r = Nat.min RING_CAPACITY (length log);
  rl_head : mr_head r < RING_CAPACITY;
  rl_buf : ∃ buf, mr_buf r = Some buf ∧ length buf = RING_CAPACITY ∧
    ring_view RING_CAPACITY (mr_head r + RING_CAPACITY - mr_count r) (mr_count r) buf
    = lastn RING_CAPACITY log
}.

Definition new_ring : MetricRing :=
  {| mr_buf := Some (replicate RING_CAPACITY inhabitant); mr_head := 0; mr_count := 0 |}.

Lemma new_ring_logs : ring_logs new_ring [].
Proof.
  pose proof RING_CAPACITY_pos. split; cbn [new_ring mr_count mr_head mr_buf]; [by rewrite Nat.min_0_r|done|].
  eexists. split_and!; [reflexivity|apply length_replicate|done].
Qed.

Lemma ring_push_logs s log x :
  ring_logs (mt_ring s) log → ring_logs (mt_ring (ring_push x s)) (log ++ [x]).
Proof.
  intros [Hc Hh (buf & Hb & Hl & Hv)]. unfold ring_push. rewrite Hb.
  destruct (ring_push_view RING_CAPACITY RING_CAPACITY_pos buf log (mr_head (mt_ring s)) (mr_count (mt_ring s)) x
    Hl Hh Hc Hv) as [Hc' Hv']. cbn [set_ring mt_ring]. split; cbn [mr_count mr_head mr_buf]; rewrite ?Nat.add_1_r.
  - by rewrite length_app, Nat.add_1_r.
  - apply mod_lt, RING_CAPACITY_pos.
  - eexists. split; [reflexivity|]. rewrite length_insert. split; [done|]. by rewrite Nat.add_1_r in Hv'.
Qed.

Lemma ring_last_logs r log n :
  ring_logs r log → n ≤ RING_CAPACITY → ring_last true r n = lastn n log.
Proof.
  intros [Hc Hh (buf & Hb & Hl & Hv)] Hn. unfold ring_last. cbn [negb]. rewrite Hb.
  pose proof (ring_view_last RING_CAPACITY RING_CAPACITY_pos buf log (mr_head r) (mr_count r) n Hh Hc Hv) as H.
  rewrite (Nat.min_l n RING_CAPACITY) in H by done. rewrite <- H.
  replace (if mr_count r <? n then mr_count r else n) with (Nat.min n (mr_count r)); [done|].
  destruct (Nat.ltb_spec (mr_count r) n); lia.
Qed.

(** C14. After any number of samples the ring returns the last [n] of them, oldest first. *)
Theorem metrics_ring_keeps_last s samples n :
  n ≤ RING_CAPACITY →
  ring_last true (mt_ring (foldl (λ s x, ring_push x s) (set_ring new_ring s) samples)) n = lastn n samples.
Proof.
  intros Hn. apply ring_last_logs; [|done].
  assert (∀ s log, ring_logs (mt_ring s) log →
    ring_logs (mt_ring (foldl (λ s x, ring_push x s) s samples)) (log ++ samples)) as H.
  { induction samples as [|x l IH]; intros s' log Hs; cbn [foldl]; [by rewrite app_nil_r|].
    specialize (IH (ring_push x s') (log ++ [x]) (ring_push_logs _ _ _ Hs)). by rewrite <- app_assoc in IH. }
  apply (H (set_ring new_ring s) []), new_ring_logs.
Qed.

Lemma metrics_ring_keeps_last_witness :
  ring_last true (mt_ring (foldl (λ s x, ring_push x s) (set_ring new_ring (met_static 0)) [inhabitant])) 120
  = [inhabitant].
Proof.
  rewrite (metrics_ring_keeps_last (met_static 0) [inhabitant] 120); [reflexivity|].
  apply Nat.leb_le. vm_compute. reflexivity.
Defined.

(** ** A sample *)

Section sample.
Context (env : metrics_env) (Henv : menv_ok env).

Definition sample_ok (s : MetricSample) : Prop := sample_fine s ∧ ticks_fine s.

Lemma to_mb_range x : uint32 (to_mb x).
Proof.
  unfold to_mb, uint32, wrap32. destruct (0 <? x)%Z; [|lia].
  apply (Z.mod_pos_bound x (2 ^ 32)). lia.
Qed.

Lemma read_ticks_range t total idle :
  (metrics_read_cpu_ticks env t).1 = Some (total, idle) →
  (0 < total < 2 ^ 64 ∧ 0 ≤ idle < 2 ^ 64)%Z.
Proof.
  unfold metrics_read_cpu_ticks, ask. run_st. cbn [fst].
  destruct (mv_cp_time env t) as [cp|] eqn:E; [|done].
  destruct (existsb _ _) eqn:Hneg; [done|]. set (sum := foldl _ _ _).
  destruct (Z.eqb_spec sum 0); [done|]. intros [= <- <-].
  assert (0 ≤ sum < 2 ^ 64)%Z by apply (Z.mod_pos_bound _ (2 ^ 64) ltac:(done)).
  split; [lia|].
  assert (0 ≤ ticks cp CP_IDLE)%Z.
  { destruct (Z.ltb_spec (ticks cp CP_IDLE) 0) as [Hlt|]; [|done]. exfalso.
    apply Bool.not_true_iff_false in Hneg. apply Hneg, existsb_exists. exists CP_IDLE.
    split; [by apply in_seq; vm_compute; lia|by apply Z.ltb_lt]. }
  split; [done|]. unfold ticks. apply (mo_cp_time env Henv) in E.
  destruct (nth_in_or_default CP_IDLE cp 0%Z) as [Hin| ->]; [|lia].
  apply list_elem_of_In in Hin. rewrite Forall_forall in E. apply E in Hin. unfold int64 in Hin. lia.
Qed.

Lemma take_sample_ok prev t :
  (∀ s, prev = Some s → ticks_fine s) →
  let s := (metrics_take_sample env prev t).1 in sample_ok s ∧ sp_ts s = mv_clock env t.
Proof.
  intros Hprev. unfold metrics_take_sample. unfold ask. run_st.
  pose proof (read_ticks_range (S t)) as Hticks. destruct (metrics_read_cpu_ticks env (S t)) as [cpu t1].
  cbn [fst] in Hticks. destruct (metrics_get_memory_stats env _ _) as [[rc mem] t2]. cbn [fst].
  assert (∀ x, uint32 (if (rc =? 0)%Z then to_mb x else 0)) as Hmb
    by (intros x; destruct (rc =? 0)%Z; [apply to_mb_range|unfold uint32; lia]).
  assert (uint32 0) by (unfold uint32; lia).
  split; [|done]. destruct cpu as [[total idle]|].
  - destruct (Hticks total idle eq_refl). destruct (cpu_load_percentage prev total idle) as [L1 L2]; [lia|lia|done|].
    split; [split|split]; cbn [sp_ts sp_cpu sp_cpu_total_ticks sp_cpu_idle_ticks sp_mem_used sp_mem_total
      sp_swap_used sp_net_rx sp_net_tx]; try done; [apply (mo_clock_range env Henv)|lia].
  - split; [split|split]; cbn [sp_ts sp_cpu sp_cpu_total_ticks sp_cpu_idle_ticks sp_mem_used sp_mem_total
      sp_swap_used sp_net_rx sp_net_tx]; try done;
      [apply (mo_clock_range env Henv)|by exists false, 0%N|by exists 0%Z, 24%Z].
Qed.

End sample.

(** ** Interleavings *)

(** Where a thread is: about to build a document, to publish it, to copy the snapshot, done.
    A request carries the time it began at; the heartbeat's callback carries none. *)
Inductive phase :=
| PBuild (request : option Z)
| PPublish (request : option Z) (json : option bytes)
| PCopy (now : Z)
| PDone (answer : option (Z * option bytes)).

(** [mx_cleaned]: the clean-up has been called. *)
Record met_run := {
  mx_state : met_state;
  mx_threads : list phase;
  mx_cleaned : bool
}.

Definition after_publish (request : option Z) : phase :=
  match request with Some now => PCopy now | None => PDone None end.

Section run.
Context (env : metrics_env).

(** A request comes in, the scheduler calls the callback that was registered, a thread goes
    on, the clean-up is called, somebody else changes the scheduler. *)
Inductive met_step (c : met_run) : met_run → Prop :=
| step_check now refresh s :
    metrics_check env (mx_state c) = ((now, refresh), s) →
    met_step c {| mx_state := s;
                  mx_threads := mx_threads c ++ [if refresh : bool then PBuild (Some now) else PCopy now];
                  mx_cleaned := mx_cleaned c |}
| step_sample s :
    mt_once (mx_state c) = true → metrics_sample_cb env (mx_state c) = (tt, s) →
    met_step c {| mx_state := s; mx_threads := mx_threads c ++ [PBuild None]; mx_cleaned := mx_cleaned c |}
| step_build i request json s :
    mx_threads c !! i = Some (PBuild request) → metrics_build env (mx_state c) = (json, s) →
    met_step c {| mx_state := s; mx_threads := <[i := PPublish request json]> (mx_threads c);
                  mx_cleaned := mx_cleaned c |}
| step_publish i request json s :
    mx_threads c !! i = Some (PPublish request json) → metrics_publish env json (mx_state c) = (tt, s) →
    met_step c {| mx_state := s; mx_threads := <[i := after_publish request]> (mx_threads c);
                  mx_cleaned := mx_cleaned c |}
| step_copy i now answer s :
    mx_threads c !! i = Some (PCopy now) → metrics_copy env (mx_state c) = (answer, s) →
    met_step c {| mx_state := s; mx_threads := <[i := PDone (Some (now, answer))]> (mx_threads c);
                  mx_cleaned := mx_cleaned c |}
| step_cleanup s :
    metrics_module_cleanup (mx_state c) = (tt, s) →
    met_step c {| mx_state := s; mx_threads := mx_threads c; mx_cleaned := true |}
| step_scheduler g :
    met_step c {| mx_state := set_hb g (mx_state c); mx_threads := mx_threads c;
                  mx_cleaned := mx_cleaned c |}.

Definition initial_run (freq : Z) : met_run :=
  {| mx_state := met_static freq; mx_threads := []; mx_cleaned := false |}.

Definition met_reachable (freq : Z) : met_run → Prop := rtc met_step (initial_run freq).

(** *** What holds between critical sections *)

Context (freq : Z).

(** Every allocation succeeds. *)
Definition memory : Prop := ∀ t, mv_alloc env t = true.

(** [now] is not after any time that is still to be read. *)
Definition past (s : met_state) (now : Z) : Prop := ∀ t, mt_time s ≤ t → (now ≤ mv_clock env t)%Z.

(** A text that says what was collected at some time, with samples that fit. *)
Definition document (text : bytes) : Prop :=
  ∃ history t, Forall sample_ok history ∧ length history ≤ METRICS_HISTORY_WINDOW ∧
    (zlen text ≤ 65535)%Z ∧ json_parse text = Some (metrics_value env freq history t).1.

Record state_inv (cleaned : bool) (s : met_state) : Prop := {
  si_freq : mt_freq s = freq;
  si_ring : mr_buf (mt_ring s) ≠ None → ∃ log, ring_logs (mt_ring s) log ∧ Forall sample_ok log;
  si_ready : mt_ring_ready s = true → mr_buf (mt_ring s) ≠ None;
  si_once : mt_once s = false → mt_ring_ready s = false;
  si_log : Forall (λ p, document p.2 ∧ past s p.1) (mt_log s);
  si_json j : mt_json s = Some j → (mt_updated_at s, j) ∈ mt_log s;
  si_overrun : StackOverrun ∉ mt_faults s;
  si_faults : memory → cleaned = false → mt_ring_ready s = true ∨ mt_once s = false → mt_faults s = []
}.

(** What the other threads may do to the state. *)
Record grows (cleaned : bool) (s s' : met_state) : Prop := {
  gr_time : mt_time s ≤ mt_time s';
  gr_log : mt_log s ⊆ mt_log s';
  gr_json j : cleaned = false → mt_json s = Some j →
    (mt_updated_at s ≤ mt_updated_at s')%Z ∧ ∃ j', mt_json s' = Some j'
}.

#[export] Instance grows_refl cleaned : Reflexive (grows cleaned).
Proof. intros s. split; [done|done|]. intros j _ Hj. split; [lia|eauto]. Qed.

#[export] Instance grows_trans cleaned : Transitive (grows cleaned).
Proof.
  intros s1 s2 s3 [T1 L1 J1] [T2 L2 J2]. split; [lia|set_solver|]. intros j Hc Hj.
  destruct (J1 j Hc Hj) as (A & j2 & Hj2). destruct (J2 j2 Hc Hj2) as (B & j3 & Hj3). split; [lia|eauto].
Qed.

(** The snapshot that answers a request of the time [now]. *)
Definition fresh_snapshot (s : met_state) (now : Z) : Prop :=
  (∃ j, mt_json s = Some j) ∧ (now - 5 ≤ mt_updated_at s)%Z.

Definition thread_ok (cleaned : bool) (s : met_state) (p : phase) : Prop :=
  match p with
  | PBuild request => ∀ now, request = Some now → past s now
  | PPublish request json =>
      (∀ now, request = Some now → past s now) ∧ (∀ text, json = Some text → document text) ∧
      (memory → json ≠ None)
  | PCopy now => memory → cleaned = false → fresh_snapshot s now
  | PDone None => True
  | PDone (Some (now, answer)) =>
      (∀ text, answer = Some text → ∃ published, (published, text) ∈ mt_log s) ∧
      (memory → cleaned = false →
       ∃ text published, answer = Some text ∧ (published, text) ∈ mt_log s ∧ (now - 5 ≤ published)%Z)
  end.

Lemma past_grows cleaned s s' now : grows cleaned s s' → past s now → past s' now.
Proof. intros [H _ _] Hp t Ht. apply Hp. lia. Qed.

Lemma thread_grows cleaned s s' p : grows cleaned s s' → thread_ok cleaned s p → thread_ok cleaned s' p.
Proof.
  intros Hg. pose proof Hg as [_ Hl Hj]. destruct p as [r|r json|now|[[now answer]|]]; cbn [thread_ok]; [..|done].
  - intros H now Hr. by eapply past_grows, H.
  - intros (H & H1 & H2). split; [|done]. intros now Hr. by eapply past_grows, H.
  - intros H Hm Hc. destruct (H Hm Hc) as [[j E] Hu]. destruct (Hj j Hc E) as [? ?]. split; [done|lia].
  - intros [H1 H2]. split.
    + intros text E. destruct (H1 text E) as [t Ht]. eauto.
    + intros Hm Hc. destruct (H2 Hm Hc) as (text & t & ? & ? & ?). eauto 6.
Qed.

Record run_inv (c : met_run) : Prop := {
  rv_state : state_inv (mx_cleaned c) (mx_state c);
  rv_threads : Forall (thread_ok (mx_cleaned c) (mx_state c)) (mx_threads c)
}.
End run.

(** *** Every critical section keeps it *)

Section steps.
Context (env : metrics_env) (Henv : menv_ok env) (freq : Z) (Hfreq : int32 freq).

Local Abbreviation inv := (state_inv env freq).

(** Collectors only count questions. *)
Lemma ask_steps {A} (f : nat → A) : steps le (ask f).
Proof. intros t. cbn. lia. Qed.

Lemma collect_steps {A B} (m : MQ A) (f : A → MQ B) : steps le m → (∀ x, steps le (f x)) → steps le (m ≫= f).
Proof. apply steps_bind, _. Qed.

Ltac questions :=
  repeat first [apply ask_steps | apply (steps_ret le) | apply collect_steps; [|intros ?] | case_match].

Lemma memory_steps old : steps le (metrics_get_memory_stats env old).
Proof. unfold metrics_get_memory_stats. questions. Qed.

Lemma procs_steps n retry : steps le (procs_loop env n retry).
Proof. revert retry. induction n as [|n IH]; intros retry; cbn [procs_loop]; questions. apply IH. Qed.

Lemma processes_steps : steps le (metrics_process_append_json_sections env 2048 2048 256).
Proof.
  unfold metrics_process_append_json_sections, metrics_get_procs_snapshot.
  repeat first [apply memory_steps|apply procs_steps|progress questions].
Qed.

Lemma build_steps history : steps le (build_system_metrics_json env freq history).
Proof.
  unfold build_system_metrics_json, metrics_get_hostname, metrics_json_append_cpu_stats, metrics_get_cpu_stats,
    metrics_json_append_memory_stats, metrics_json_append_load_average, metrics_get_load_average,
    metrics_json_append_os_info, metrics_get_os_info, metrics_json_append_uptime, metrics_get_uptime,
    metrics_json_append_disk_info, metrics_get_disk_usage.
  repeat first [apply memory_steps|apply processes_steps|progress questions].
Qed.

Lemma sample_steps prev : steps le (metrics_take_sample env prev).
Proof.
  unfold metrics_take_sample, metrics_read_cpu_ticks. repeat first [apply memory_steps|progress questions].
Qed.

Lemma past_now s t : mt_time s ≤ t → past env (set_time (S t) s) (mv_clock env t).
Proof. intros _ t' Ht'. cbn [set_time mt_time] in Ht'. apply (mo_clock env Henv). lia. Qed.

Lemma time_passes cleaned s t :
  inv cleaned s → mt_time s ≤ t → inv cleaned (set_time t s) ∧ grows cleaned s (set_time t s).
Proof.
  intros [H1 H2 H3 H0 H4 H5 H6 H7] Ht. split.
  - split; try done. cbn [set_time mt_log]. eapply Forall_impl; [exact H4|]. intros p [Hd Hp].
    split; [done|]. intros t' Ht'. apply Hp. cbn [set_time mt_time] in Ht'. lia.
  - split; [done|done|]. intros j _ Hj. split; [done|]. by exists j.
Qed.

(** What the ring yields is fit for a document. *)
Lemma history_ok cleaned s n :
  inv cleaned s → n ≤ RING_CAPACITY →
  let l := ring_last (mt_ring_ready s) (mt_ring s) n in Forall sample_ok l ∧ length l ≤ n.
Proof.
  intros Hs Hn. cbv zeta. destruct (mt_ring_ready s) eqn:Hready; [|by split; [constructor|apply Nat.le_0_l]].
  destruct (si_ring _ _ _ _ Hs (si_ready _ _ _ _ Hs Hready)) as (log & Hlog & Hok).
  rewrite (ring_last_logs _ log) by done. unfold lastn. split; [by apply Forall_drop|]. rewrite length_drop. lia.
Qed.

Lemma build_spec cleaned s :
  inv cleaned s →
  let '(json, s') := metrics_build env s in
  inv cleaned s' ∧ grows cleaned s s' ∧ (∀ text, json = Some text → document env freq text) ∧
  (memory env → json ≠ None).
Proof.
  intros Hs. unfold metrics_build, metrics_get_cpu_freq_mhz, lift. run_st. set (history := ring_last _ _ _).
  destruct (history_ok cleaned s METRICS_HISTORY_WINDOW Hs window_in_ring) as [Hok Hlen]. fold history in Hok, Hlen.
  assert (Forall sample_fine history) as Hfine by (eapply Forall_impl; [exact Hok|]; by intros x [? _]).
  assert (zlen history ≤ 120)%Z as Hz by (unfold zlen; unfold METRICS_HISTORY_WINDOW in Hlen; lia).
  rewrite (si_freq _ _ _ _ Hs).
  pose proof (build_document env Henv freq history (mt_time s) Hfreq Hfine Hz) as Hb.
  pose proof (build_steps history (mt_time s)) as Ht.
  destruct (build_system_metrics_json env freq history (mt_time s)) as [[json overrun] t1]. cbn [snd] in Ht.
  destruct Hb as [-> Hb]. destruct (time_passes cleaned s t1 Hs Ht) as [Hs' Hg]. split_and!; [done|done|..].
  - intros text ->. destruct Hb as (_ & Hl & v & Hv & Hp). exists history, (mt_time s). split_and!; [done..|].
    by rewrite Hv.
  - intros Hm. destruct json; [done|]. by rewrite Hm in Hb.
Qed.

Lemma publish_spec cleaned s json :
  inv cleaned s → (∀ text, json = Some text → document env freq text) →
  let '(_, s') := metrics_publish env json s in
  inv cleaned s' ∧ grows cleaned s s' ∧ (∀ now, json ≠ None → past env s now → fresh_snapshot s' now).
Proof.
  intros Hs Hdoc. destruct json as [json|]; cbn [metrics_publish]; run_st.
  2: { split; [done|]. by split. }
  unfold lift, ask. run_st.
  destruct (time_passes cleaned s (S (mt_time s)) Hs ltac:(lia)) as [Hs' Hg].
  set (now := mv_clock env (mt_time s)).
  assert (past env (set_time (S (mt_time s)) s) now) as Hnow by by apply past_now.
  destruct Hs' as [H1 H2 H3 H0 H4 H5 H6 H7]. split_and!.
  - split; try done.
    + cbn [set_snapshot mt_log]. apply Forall_app. split; [exact H4|]. apply Forall_singleton. split; [by apply Hdoc|done].
    + cbn [set_snapshot mt_json mt_log mt_updated_at]. intros j [= <-]. apply elem_of_app. right. by left.
  - split; [apply Hg| |].
    + cbn [set_snapshot mt_log set_time]. set_solver.
    + cbn [set_snapshot mt_json mt_updated_at]. intros j Hc Hj. split; [|eauto].
      pose proof (si_json _ _ _ _ Hs j Hj) as Hin. pose proof (si_log _ _ _ _ Hs) as Hl.
      rewrite Forall_forall in Hl. destruct (Hl _ Hin) as [_ Hp]. by apply Hp.
  - intros now' _ Hp. split; [by eexists|]. cbn [set_snapshot mt_updated_at]. specialize (Hp _ (le_n _)).
    fold now in Hp. lia.
Qed.

Lemma update_spec cleaned s :
  inv cleaned s → let '(_, s') := metrics_snapshot_update env s in inv cleaned s' ∧ grows cleaned s s'.
Proof.
  intros Hs. unfold metrics_snapshot_update. run_st. pose proof (build_spec cleaned s Hs) as H.
  destruct (metrics_build env s) as [json s1]. destruct H as (Hs1 & G1 & Hdoc & _).
  pose proof (publish_spec cleaned s1 json Hs1 Hdoc) as H. destruct (metrics_publish env json s1) as [u s2].
  destruct H as (Hs2 & G2 & _). split; [done|]. by transitivity s1.
Qed.
(** Changes that leave time, log and snapshot alone. *)
Lemma grows_same cleaned s s' :
  mt_time s' = mt_time s → mt_log s' = mt_log s → mt_json s' = mt_json s → mt_updated_at s' = mt_updated_at s →
  grows cleaned s s'.
Proof. intros E1 E2 E3 E4. split; [lia|by rewrite E2|]. intros j _ Hj. rewrite E3, E4. split; [lia|eauto]. Qed.

Lemma scheduler_spec cleaned s g : inv cleaned s → inv cleaned (set_hb g s).
Proof. by intros []. Qed.

Lemma sample_spec cleaned s :
  inv cleaned s → mt_once s = true →
  let '(_, s') := metrics_sample_cb env s in inv cleaned s' ∧ grows cleaned s s'.
Proof.
  intros Hs Honce. unfold metrics_sample_cb, lift. run_st. set (prev := head _).
  assert (∀ x, prev = Some x → ticks_fine x) as Hprev.
  { intros x Hx. destruct (history_ok cleaned s 1 Hs RING_CAPACITY_pos) as [Hok _].
    unfold prev in Hx. destruct (ring_last _ _ _) as [|y l]; [done|]. injection Hx as ->.
    apply Forall_cons in Hok as [[_ H] _]. exact H. }
  pose proof (take_sample_ok env Henv prev (mt_time s) Hprev) as [Hok _].
  pose proof (sample_steps prev (mt_time s)) as Ht.
  destruct (metrics_take_sample env prev (mt_time s)) as [x t1]. cbn [fst snd] in *.
  destruct (time_passes cleaned s t1 Hs Ht) as [Hs' Hg].
  assert (∃ s', ring_push x (set_time t1 s) = s' ∧ inv cleaned s' ∧ grows cleaned (set_time t1 s) s')
    as (s' & -> & H1 & H2); [|split; [done|by etrans]].
  eexists. split; [reflexivity|]. destruct (mr_buf (mt_ring (set_time t1 s))) as [buf|] eqn:Hb.
  - destruct (si_ring _ _ _ _ Hs') as (log & Hlog & Hlok); [by rewrite Hb|].
    pose proof (ring_push_logs _ _ x Hlog) as Hpush. unfold ring_push in *. rewrite Hb in *.
    split; [|by apply grows_same]. destruct Hs' as [A1 A2 A3 A4 A5 A6 A7 A8]. split; try done.
    intros _. exists (log ++ [x]). split; [exact Hpush|]. apply Forall_app. split; [done|by apply Forall_singleton].
  - unfold ring_push. rewrite Hb. split; [|by apply grows_same].
    destruct Hs' as [A1 A2 A3 A4 A5 A6 A7 A8]. split; try done.
    + cbn [note_fault mt_faults]. rewrite elem_of_app, list_elem_of_singleton. by intros [?|?].
    + cbn [note_fault mt_ring_ready mt_once]. intros _ _ [Hr|Ho]; [by destruct (A3 Hr)|].
      change (mt_once s = false) in Ho. congruence.
Qed.

(** During the start-up, which runs once. *)
Record starting (cleaned : bool) (s : met_state) : Prop := {
  st_inv : inv cleaned s;
  st_once : mt_once s = true;
  st_ready : mt_ring_ready s = false;
  st_faults : memory env → cleaned = false → mt_faults s = []
}.

Lemma starting_time cleaned s t :
  starting cleaned s → mt_time s ≤ t → starting cleaned (set_time t s) ∧ grows cleaned s (set_time t s).
Proof. intros [H1 H2 H3 H4] Ht. destruct (time_passes cleaned s t H1 Ht). by split; [split|]. Qed.

Lemma starting_hb cleaned s g : starting cleaned s → starting cleaned (set_hb g s) ∧ grows cleaned s (set_hb g s).
Proof. intros [H1 H2 H3 H4]. split; [split; [by apply scheduler_spec|done..]|by apply grows_same]. Qed.

Lemma starting_ring cleaned s r :
  starting cleaned s → r = new_ring ∨ r = zero_met_ring →
  starting cleaned (set_ring r s) ∧ grows cleaned s (set_ring r s).
Proof.
  intros [[A1 A2 A3 A4 A5 A6 A7 A8] H2 H3 H4] Hr. split; [split; [split|..]|by apply grows_same]; try done.
  - destruct Hr as [-> | ->]; [|done]. intros _. exists []. split; [apply new_ring_logs|constructor].
  - cbn [set_ring mt_ring_ready]. by rewrite H3.
Qed.

Lemma ready_spec cleaned s :
  starting cleaned s → mr_buf (mt_ring s) ≠ None →
  inv cleaned (set_ready true s) ∧ grows cleaned s (set_ready true s).
Proof.
  intros [[A1 A2 A3 A4 A5 A6 A7 A8] H2 H3 H4] Hb. split; [|by apply grows_same].
  split; try done; [|intros Hm Hc _; by apply H4]. cbn [set_ready mt_once]. congruence.
Qed.

(** From the start of the scheduler on. *)
Lemma start_spec cleaned s :
  starting cleaned s → mr_buf (mt_ring s) ≠ None →
  let '(_, s') := (
    created ← lift (ask (mv_thread_create env));
    s ← get;
    let '(rc, _, g) := heartbeat_start created (mt_hb s) in
    _ ← modify (set_hb g);
    if negb (rc =? 0)%Z then modify ring_free
    else _ ← modify (set_ready true); metrics_snapshot_update env) s in
  inv cleaned s' ∧ grows cleaned s s'.
Proof.
  intros Hs Hb. unfold lift, ask. run_st.
  destruct (starting_time cleaned s (S (mt_time s)) Hs ltac:(lia)) as [H5 G5].
  assert (mr_buf (mt_ring (set_time (S (mt_time s)) s)) ≠ None) as Hb5 by done.
  set (s5 := set_time _ s) in *. clearbody s5.
  destruct (heartbeat_start _ _) as [[rc ?] g']. destruct (starting_hb cleaned s5 g' H5) as [H6 G6].
  assert (mr_buf (mt_ring (set_hb g' s5)) ≠ None) as Hb6 by done.
  set (s6 := set_hb g' s5) in *. clearbody s6. destruct (negb (rc =? 0)%Z).
  - destruct (starting_ring cleaned _ zero_met_ring H6 ltac:(by right)) as [[H7 _ _ _] G7].
    split; [exact H7|]. repeat (etrans; [eassumption|]). done.
  - destruct (ready_spec cleaned s6 H6 Hb6) as [H7 G7].
    pose proof (update_spec cleaned _ H7) as H8. destruct (metrics_snapshot_update env _) as [u s8].
    destruct H8 as [H8 G8]. split; [done|]. repeat (etrans; [eassumption|]). done.
Qed.

Lemma bootstrap_spec cleaned s :
  starting cleaned s →
  let '(_, s') := metrics_ring_bootstrap env s in inv cleaned s' ∧ grows cleaned s s'.
Proof.
  intros Hs. unfold metrics_ring_bootstrap, ring_init, lift, ask. run_st.
  destruct (starting_time cleaned s (S (mt_time s)) Hs ltac:(lia)) as [H1 G1].
  destruct (mv_alloc env (mt_time s)); cbn [negb]; run_st; [|by split; [apply H1|]].
  cbn [Z.eqb negb]. run_st. change {| mr_buf := _; mr_head := 0; mr_count := 0 |} with new_ring.
  destruct (starting_ring cleaned _ new_ring H1 ltac:(by left)) as [H2 G2].
  set (s2 := set_ring new_ring _) in *. assert (mr_buf (mt_ring s2) ≠ None) as Hb by done. clearbody s2.
  destruct (starting_time cleaned s2 (S (mt_time s2)) H2 ltac:(lia)) as [H3 G3].
  assert (grows cleaned s (set_time (S (mt_time s2)) s2)) as G by (repeat (etrans; [eassumption|]); done).
  set (s3 := set_time _ s2) in *. assert (mr_buf (mt_ring s3) ≠ None) as Hb3 by done. clearbody s3. clear G1 G2 G3.
  destruct (heartbeat_register _ _ _) as [registered g]. destruct (starting_hb cleaned s3 g H3) as [H4 G4].
  assert (inv cleaned (ring_free (set_hb g s3)) ∧ grows cleaned s (ring_free (set_hb g s3))) as Hfree.
  { destruct (starting_ring cleaned _ zero_met_ring H4 ltac:(by right)) as [[H5 _ _ _] G5].
    split; [exact H5|]. repeat (etrans; [eassumption|]). done. }
  assert (mr_buf (mt_ring (set_hb g s3)) ≠ None) as Hb4 by done.
  set (s4 := set_hb g s3) in *. assert (grows cleaned s s4) as G' by by etrans. clearbody s4.
  assert (∀ p : unit * met_state, (let '(_, s') := p in inv cleaned s' ∧ grows cleaned s4 s') →
    let '(_, s') := p in inv cleaned s' ∧ grows cleaned s s') as Hafter.
  { intros [u s'] [H5 G5]. split; [done|by etrans]. }
  pose proof (Hafter _ (start_spec cleaned s4 H4 Hb4)) as Hstart.
  destruct registered; [exact Hfree|exact Hstart|exact Hstart].
Qed.

Lemma once_spec cleaned s :
  inv cleaned s → let '(_, s') := metrics_once env s in inv cleaned s' ∧ grows cleaned s s'.
Proof.
  intros Hs. unfold metrics_once. run_st. destruct (mt_once s) eqn:Honce; [by split|].
  assert (starting cleaned (set_once s)) as H1.
  { assert (memory env → cleaned = false → mt_faults s = []) as Hk by (intros; apply Hs; auto).
    pose proof (si_once _ _ _ _ Hs Honce) as Hr. split; [|done|done|exact Hk].
    destruct Hs as [A1 A2 A3 A4 A5 A6 A7 A8]. split; try done. intros Hm Hc _. by apply Hk. }
  pose proof (bootstrap_spec cleaned (set_once s) H1) as H2. destruct (metrics_ring_bootstrap env _) as [u s'].
  destruct H2 as [H2 G2]. split; [done|]. etrans; [|exact G2]. by apply grows_same.
Qed.

Lemma check_spec cleaned s :
  inv cleaned s →
  let '((now, refresh), s') := metrics_check env s in
  inv cleaned s' ∧ grows cleaned s s' ∧ past env s' now ∧ (refresh = false → fresh_snapshot s' now).
Proof.
  intros Hs. unfold metrics_check, lift, ask. run_st. pose proof (once_spec cleaned s Hs) as H1.
  destruct (metrics_once env s) as [u s1]. destruct H1 as [H1 G1].
  destruct (time_passes cleaned s1 (S (mt_time s1)) H1 ltac:(lia)) as [H2 G2]. split_and!.
  - done.
  - by etrans.
  - by apply past_now.
  - unfold fresh_snapshot. cbn [set_time mt_json mt_updated_at]. destruct (mt_json s1) as [j|]; [|done].
    intros Hf. apply orb_false_iff in Hf as [_ Hf]. bool_facts. split; [by eexists|lia].
Qed.

Lemma copy_spec cleaned s now :
  inv cleaned s → (memory env → cleaned = false → fresh_snapshot s now) →
  let '(answer, s') := metrics_copy env s in
  inv cleaned s' ∧ grows cleaned s s' ∧ thread_ok env freq cleaned s' (PDone (Some (now, answer))).
Proof.
  intros Hs Hf. unfold metrics_copy, lift, ask. run_st. destruct (mt_json s) as [j|] eqn:Hj.
  2: { split; [done|]. split; [done|]. split; [done|]. intros Hm Hc. destruct (Hf Hm Hc) as [[j E] _]. congruence. }
  destruct (time_passes cleaned s (S (mt_time s)) Hs ltac:(lia)) as [H1 G1].
  assert (∀ s', mt_log s' = mt_log s → thread_ok env freq cleaned s' (PDone (Some (now, Some j)))) as Hdone.
  { intros s' E. pose proof (si_json _ _ _ _ Hs j Hj) as Hin. rewrite <- E in Hin. split.
    - intros text [= <-]. eauto.
    - intros Hm Hc. destruct (Hf Hm Hc) as [_ Hu]. eauto. }
  destruct (mv_alloc env (mt_time s)) eqn:Ha; run_st.
  { split; [done|]. split; [done|]. by apply Hdone. }
  assert (¬ memory env) as Hno by (intros Hm; rewrite Hm in Ha; done).
  destruct (time_passes cleaned _ (S (mt_time (set_time (S (mt_time s)) s))) H1 ltac:(lia)) as [H2 G2].
  set (s2 := set_time _ (set_time _ s)) in *. assert (mt_log s2 = mt_log s) as El by done. clearbody s2. split_and!.
  - destruct H2 as [A1 A2 A3 A4 A5 A6 A7 A8]. split; try done.
    cbn [note_fault mt_faults]. rewrite elem_of_app, list_elem_of_singleton. by intros [?|?].
  - etrans; [exact G1|]. etrans; [exact G2|]. by apply grows_same.
  - destruct (mv_alloc env (mt_time (set_time _ s))); [by apply Hdone|]. split; [done|]. by intros Hm.
Qed.

Lemma cleanup_spec cleaned s :
  inv cleaned s → let '(_, s') := metrics_module_cleanup s in inv true s' ∧ grows true s s'.
Proof.
  intros [A1 A2 A3 A4 A5 A6 A7 A8]. unfold metrics_module_cleanup. run_st. split.
  - cbn [set_snapshot mt_ring_ready]. destruct (mt_ring_ready s); (split; try done;
      cbn [set_ready ring_free set_ring set_snapshot mt_log mt_faults]; rewrite ?app_nil_r; done).
  - cbn [set_snapshot mt_ring_ready]. destruct (mt_ring_ready s); (split; try done;
      cbn [set_ready ring_free set_ring set_snapshot mt_log]; set_solver).
Qed.
(** *** Runs *)

Lemma static_inv : inv false (met_static freq).
Proof. split; try done; first [constructor|apply not_elem_of_nil]. Qed.

Lemma thread_cleaned cleaned s p : thread_ok env freq cleaned s p → thread_ok env freq true s p.
Proof.
  destruct p as [| | |[[now answer]|]]; cbn [thread_ok]; try done. intros [H1 _]. by split.
Qed.

(** The threads after one of them went on. *)
Lemma threads_step cleaned s s' ts i p :
  Forall (thread_ok env freq cleaned s) ts → grows cleaned s s' → thread_ok env freq cleaned s' p →
  Forall (thread_ok env freq cleaned s') (<[i := p]> ts) ∧ Forall (thread_ok env freq cleaned s') (ts ++ [p]).
Proof.
  intros Hts Hg Hp.
  assert (Forall (thread_ok env freq cleaned s') ts) as H
    by (eapply Forall_impl; [exact Hts|]; intros x; by apply thread_grows).
  split; [by apply Forall_insert|]. apply Forall_app. split; [done|]. by apply Forall_singleton.
Qed.

Lemma met_step_inv c c' : run_inv env freq c → met_step env c c' → run_inv env freq c'.
Proof.
  intros [Hs Hts] Hstep.
  assert (∀ i p, mx_threads c !! i = Some p → thread_ok env freq (mx_cleaned c) (mx_state c) p) as Hth
    by (intros i p Hi; by eapply Forall_lookup_1).
  destruct Hstep as [now refresh s E|s Ho E|i r json s Hi E|i r json s Hi E|i now answer s Hi E|s E|g];
    cbn [mx_state mx_threads mx_cleaned].
  - pose proof (check_spec _ _ Hs) as H. rewrite E in H. destruct H as (H1 & G & Hp & Hf).
    split; [done|]. refine (proj2 (threads_step _ _ _ _ 0 _ Hts G _)). destruct refresh; [by intros ? [= <-]|]. intros _ _. auto.
  - pose proof (sample_spec _ _ Hs Ho) as H. rewrite E in H. destruct H as [H1 G].
    split; [done|]. by refine (proj2 (threads_step _ _ _ _ 0 _ Hts G _)).
  - pose proof (build_spec _ _ Hs) as H. rewrite E in H. destruct H as (H1 & G & Hd & Hm).
    split; [done|]. refine (proj1 (threads_step _ _ _ _ i _ Hts G _)). apply Hth in Hi. split_and!; [|done|done].
    intros now Hr. by eapply past_grows, Hi.
  - apply Hth in Hi as (Hp & Hd & Hm). pose proof (publish_spec _ _ json Hs Hd) as H. rewrite E in H.
    destruct H as (H1 & G & Hf). split; [done|]. refine (proj1 (threads_step _ _ _ _ i _ Hts G _)).
    destruct r as [now|]; [|done]. intros Hmem _. apply Hf; auto.
  - apply Hth in Hi. pose proof (copy_spec _ _ now Hs Hi) as H. rewrite E in H. destruct H as (H1 & G & Hd).
    split; [done|]. by refine (proj1 (threads_step _ _ _ _ i _ Hts G _)).
  - pose proof (cleanup_spec _ _ Hs) as H. rewrite E in H. destruct H as [H1 G]. split; [done|].
    eapply Forall_impl; [exact Hts|]. intros p Hp. eapply thread_grows, thread_cleaned, Hp. exact G.
  - split; [by apply scheduler_spec|]. eapply Forall_impl; [exact Hts|]. intros p. apply thread_grows.
    by apply grows_same.
Qed.

Lemma reachable_inv c : met_reachable env freq c → run_inv env freq c.
Proof.
  intros Hr. unfold met_reachable in Hr. apply rtc_ind_r with (P := run_inv env freq) in Hr; [done|..].
  - split; [apply static_inv|constructor].
  - intros c1 c2 _ Hstep Hc. by eapply met_step_inv.
Qed.


(** With memory, a start-up that worked and no clean-up nothing goes wrong at all. *)
Theorem metrics_no_faults c :
  met_reachable env freq c → memory env → mx_cleaned c = false → mt_ring_ready (mx_state c) = true →
  mt_faults (mx_state c) = [].
Proof. intros [Hs _]%reachable_inv Hm Hc Hr. apply Hs; auto. Qed.
(** A whole request, with nothing in between. *)
Lemma get_spec cleaned s :
  inv cleaned s →
  let '(answer, s') := get_system_metrics_json env s in
  inv cleaned s' ∧ (∀ text, answer = Some text → document env freq text) ∧
  (memory env → cleaned = false → answer ≠ None).
Proof.
  intros Hs. unfold get_system_metrics_json. run_st. pose proof (check_spec cleaned s Hs) as H.
  destruct (metrics_check env s) as [[now refresh] s1]. destruct H as (H1 & _ & Hp & Hf).
  assert (∃ s2, (if refresh then metrics_snapshot_update env else λ s, (tt, s)) s1 = (tt, s2) ∧
    inv cleaned s2 ∧ (memory env → cleaned = false → fresh_snapshot s2 now)) as (s2 & -> & H2 & Hfresh).
  { destruct refresh; [|eauto 7]. unfold metrics_snapshot_update. run_st.
    pose proof (build_spec cleaned s1 H1) as H. destruct (metrics_build env s1) as [json s2].
    destruct H as (H2 & G2 & Hd & Hm). pose proof (publish_spec cleaned s2 json H2 Hd) as H.
    destruct (metrics_publish env json s2) as [[] s3]. destruct H as (H3 & _ & H). exists s3. split_and!; [done|done|].
    intros Hmem _. apply H; [auto|]. by eapply past_grows. }
  pose proof (copy_spec cleaned s2 now H2 Hfresh) as H. destruct (metrics_copy env s2) as [answer s3].
  destruct H as (H3 & _ & Ha & Hb). split_and!; [done|..].
  - intros text Ht. destruct (Ha text Ht) as [t Hin]. pose proof (si_log _ _ _ _ H3) as Hl.
    rewrite Forall_forall in Hl. by apply Hl in Hin as [? _].
  - intros Hm Hc. destruct (Hb Hm Hc) as (text & ? & -> & _). done.
Qed.
End steps.

(** A request on the sample machine. *)
Lemma sample_request :
  ∃ now answer s, met_reachable sample_menv 2400
    {| mx_state := s; mx_threads := [PDone (Some (now, answer))]; mx_cleaned := false |}.
Proof.
  assert ((metrics_check sample_menv (met_static 2400)).1.2 = false) as Hr by (vm_compute; reflexivity).
  destruct (metrics_check sample_menv (met_static 2400)) as [[now refresh] s1] eqn:E1. cbn [fst snd] in Hr. subst.
  destruct (metrics_copy sample_menv s1) as [answer s2] eqn:E2. exists now, answer, s2.
  eapply rtc_l; [by apply (step_check _ _ now false s1)|]. eapply rtc_l; [|apply rtc_refl].
  by apply (step_copy sample_menv {| mx_state := s1; mx_threads := [PCopy now]; mx_cleaned := false |} 0 now answer s2).
Defined.


Lemma metrics_no_faults_witness :
  ∃ c, met_reachable sample_menv 2400 c ∧ mt_ring_ready (mx_state c) = true ∧ mt_faults (mx_state c) = [].
Proof.
  assert ((metrics_check sample_menv (met_static 2400)).1.2 = false) as Hr by (vm_compute; reflexivity).
  assert (mt_ring_ready (metrics_check sample_menv (met_static 2400)).2 = true) as Hready by (vm_compute; reflexivity).
  destruct (metrics_check sample_menv (met_static 2400)) as [[now refresh] s1] eqn:E1. cbn [fst snd] in *. subst.
  assert (met_reachable sample_menv 2400 {| mx_state := s1; mx_threads := [PCopy now]; mx_cleaned := false |}) as Hc
    by (eapply rtc_l; [by apply (step_check _ _ now false s1)|apply rtc_refl]).
  eexists. split; [exact Hc|]. split; [exact Hready|].
  exact (metrics_no_faults sample_menv sample_menv_ok 2400 ltac:(unfold int32; lia) _ Hc (λ t, eq_refl) eq_refl Hready).
Defined.

