(* ===== verification/MetricsHandlers.v ===== *)
(** * The metrics module: the endpoint and what goes wrong
      (src/modules/metrics/metrics_module.c)

    The answer of [metrics_handler], the theorems of the module applied to a concrete
    machine, and the inputs on which the module misbehaves. *)

From Stdlib Require Import Floats.SpecFloat.
From S2P Require Import Prelude CFloat Conf HttpUtils JsonValue JsonBuf Router ResponsePool HttpResponse Heartbeat MetricsCollect MetricsJson MetricsProcess Metrics MetricsRun.

(** ** The endpoint *)

(** The lines of the two headers that the handler adds. *)
Definition metrics_headers : list bytes :=
  [bs "Access-Control-Allow-Origin: *"; bs "Cache-Control: no-store"].

Lemma metrics_response_delivers k fuel tid req json w rc w' live :
  store_wf live (w_store w) → (zlen json ≤ 65535)%Z →
  respond k fuel tid req (metrics_response json) w = Some (rc, w') → delivers live json w rc w'.
Proof.
  intros Hwf Hl. pose proof HEADERS_SIZE_val.
  assert (length (text_lines metrics_headers) = 57) as Hlen by by vm_compute.
  apply (respond_delivers_with _ _ _ _ _ (bs "application/json") _ metrics_headers); [| | |lia|done].
  - intros r. unfold metrics_response. cbn [http_response_set_body pool_shard_idx]. by rewrite !add_header_shard.
  - intros sh. cbv zeta. unfold metrics_response.
    rewrite (add_header_fits _ (bs "Access-Control-Allow-Origin") (bs "*") []) by (reflexivity || (apply Nat.ltb_lt; vm_compute; reflexivity)).
    rewrite (add_header_fits _ _ _ [bs "Access-Control-Allow-Origin: *"]) by (reflexivity || (apply Nat.ltb_lt; vm_compute; reflexivity)).
    split; [|done]. split; try done; [by apply Nat.leb_le|]. unfold zlen in Hl. cbn. lia.
  - unfold metrics_headers. repeat (apply Forall_cons; split; [split_and!; [by apply no_cr_spec|done|done]|]). done.
Qed.

Section handler.
Context (env : metrics_env) (Henv : menv_ok env) (freq : Z) (Hfreq : int32 freq).
Context (k : kernel) (fuel : nat) (tid : Z) (conf : option miniweb_conf) (reg : registry).

(** A request in a state that keeps the invariant of the module. *)
Lemma metrics_handler_sends req w cleaned s live rc w' s' :
  store_wf live (w_store w) → state_inv env freq cleaned s →
  metrics_handler env k fuel tid (init_routes conf reg) req w s = (Some (rc, w'), s') →
  let '(answer, s1) := get_system_metrics_json env s in
  s' = s1 ∧ state_inv env freq cleaned s' ∧ (memory env → cleaned = false → answer ≠ None) ∧
  match answer with
  | None => delivers live (error_page 500 (Some (bs "Unable to generate metrics"))) w rc w'
  | Some text =>
      document env freq text ∧
      if decide ((http_response_create tid (k_calloc k (w_time w)) (w_store w)).1 = None)
      then delivers live (error_page 500 (Some (bs "Unable to allocate response"))) w rc w'
      else delivers live text w rc w'
  end.
Proof.
  intros Hwf Hs. pose proof (get_spec env Henv freq Hfreq _ _ Hs) as Hget. unfold metrics_handler. run_st.
  destruct (get_system_metrics_json env s) as [[text|] s1]; destruct Hget as (Hinv & Hdoc & Hm).
  2: { intros [= H <-]. do 3 (split; [done|]). sends_error w H. }
  specialize (Hdoc text eq_refl). pose proof (create_spec live (w_store w) tid (k_calloc k (w_time w)) Hwf) as Hcreate.
  destruct (http_response_create tid _ _) as [[q|] st]; cbn [fst].
  - rewrite decide_False by done. intros [= H <-]. split_and!; try done.
    revert H. apply metrics_response_delivers; [done|]. by destruct Hdoc as (? & ? & ? & ? & ? & ?).
  - rewrite decide_True by done. intros [= H <-]. split_and!; try done.
    destruct Hcreate as (_ & _ & Hst & _). sends_error w H.
Qed.
End handler.


(** ** What goes wrong *)

(** Sixteen mounts below long names do not fit the array of their section: its loop stops
    for want of room only when the array has been left already. *)
Definition long_mounts : list statfs :=
  (λ i, {| f_fstypename := bs "nfs"; f_mntfromname := bs "server.example.org:/export/volume"; f_mntonname :=
           bs "/srv/mirror/distributions/openbsd/" ++ fmt_nat i; f_blocks := 8388608; f_bsize := 512;
           f_bavail := 2097152 |}) <$> seq 0 16.

Example disks_leave_their_array :
  (build_system_metrics_json (sample_machine yes yes long_mounts sample_procs) 2400 [] 0).1.2 = true.
Proof. vm_compute. reflexivity. Qed.

(** The list by load in the document is made of the first ten rows of the table only: a
    process behind them that takes all of the time is not in it. *)
Definition crowd : list kinfo_proc :=
  ((λ i, {| p_pid := Z.of_nat i; p_uid := 0; p_stat := SSLEEP; p_pctcpu := 0; p_vm_rssize := 1;
            p_comm := bs "sh" |}) <$> seq 1 10) ++
  [{| p_pid := 99; p_uid := 0; p_stat := SONPROC; p_pctcpu := 2048; p_vm_rssize := 1; p_comm := bs "busy" |}].

Example busiest_process_missing :
  let env := sample_machine yes yes [sample_mount] crowd in
  bool_decide (99%Z ∈ ps_pid <$> cpu_rows env crowd) = false ∧
  ps_pid <$> (metrics_get_top_cpu_processes env 1 0).1 = [99%Z].
Proof. vm_compute. done. Qed.

(** Names are printed as they are: a command with quotes in its name adds a member. *)
Example command_adds_member :
  let p := {| p_pid := 5; p_uid := 0; p_stat := SRUN; p_pctcpu := 0; p_vm_rssize := 1;
              p_comm := qs "x','pid': 1, 'y':'" |} in
  json_parse (cpu_item (cpu_info sample_menv p))
  = Some (JObj [(bs "user", JStr (bs "root")); (bs "pid", JNum 5); (bs "cpu_percent", JDec false 0 0);
                (bs "command", JStr (bs "x")); (bs "pid", JNum 1); (bs "y", JStr [])]).
Proof. vm_compute. reflexivity. Qed.

(** The callback stays registered when the scheduler did not start, and after the clean-up:
    it then writes through the NULL buffer of the ring. *)
Example callback_without_ring :
  let broken := sample_machine yes (λ _, false) [sample_mount] sample_procs in
  let failed := (metrics_once broken (met_static 2400)).2 in
  let cleaned := (metrics_module_cleanup (metrics_once sample_menv (met_static 2400)).2).2 in
  find_slot (slot_named (bs "metrics.sample")) (hb_slots (mt_hb failed)) = Some 0 ∧
  mt_faults (metrics_heartbeat_cb broken failed).2 = [NullStore] ∧
  find_slot (slot_named (bs "metrics.sample")) (hb_slots (mt_hb cleaned)) = Some 0 ∧
  mt_faults (metrics_heartbeat_cb sample_menv cleaned).2 = [NullStore].
Proof. vm_compute. done. Qed.

(** Without memory for the copy of the snapshot its lock is released twice. *)
Example copy_fails :
  let s := (metrics_once sample_menv (met_static 2400)).2 in
  let poor := sample_machine (λ _, false) yes [sample_mount] sample_procs in
  (get_system_metrics_json poor s).1 = None ∧
  mt_faults (get_system_metrics_json poor s).2 = [DoubleUnlock].
Proof. vm_compute. done. Qed.
