(* ===== verification/Log.v ===== *)
(** * The log (src/core/log.c)

    One destination under one mutex, one line per message.  A formatted message is a string;
    the time as text and the texts of errors are arguments.  What has been written is a list
    of pieces with their destination.  [log_init] and [log_set_verbose] are called by the main
    thread before there are others. *)

From S2P Require Import Prelude.

(** ** State *)

(** The standard error stream or the file that was opened by a path. *)
Inductive log_dest := LogStderr | LogFile (path : bytes).

#[export] Instance log_dest_eq_dec : EqDecision log_dest.
Proof. solve_decision. Defined.

Record log_state := {
  lg_fp : option log_dest;
  lg_verbose : bool;
  lg_written : list (log_dest * bytes)
}.

Definition log_static : log_state := {| lg_fp := None; lg_verbose := false; lg_written := [] |}.

Definition set_fp (fp : option log_dest) (s : log_state) : log_state :=
  {| lg_fp := fp; lg_verbose := lg_verbose s; lg_written := lg_written s |}.

Definition log_set_verbose (verbose : bool) (s : log_state) : log_state :=
  {| lg_fp := lg_fp s; lg_verbose := verbose; lg_written := lg_written s |}.

Definition log_put (d : log_dest) (text : bytes) (s : log_state) : log_state :=
  {| lg_fp := lg_fp s; lg_verbose := lg_verbose s; lg_written := lg_written s ++ [(d, text)] |}.

(** ** Operations *)

(** [opens]: what opening a file for appending yields, the text of the error else. *)
Definition log_init (opens : bytes → option bytes) (path : option bytes) (verbose : bool) (s : log_state)
    : Z * log_state :=
  let s := log_set_verbose verbose s in
  match path with
  | Some ((_ :: _) as path) =>
      match opens path with
      | Some e =>
          ((-1)%Z, log_put LogStderr (bs "log_init: cannot open log file '" ++ path ++ bs "': " ++ e ++ [lf])
                     (set_fp None s))
      | None => (0%Z, set_fp (Some (LogFile path)) s)
      end
  | _ => (0%Z, set_fp (Some LogStderr) s)
  end.

Definition log_close (s : log_state) : log_state := set_fp None s.

(** Where a message goes. *)
Definition log_target (s : log_state) : log_dest := default LogStderr (lg_fp s).

(** [ts]: the time in the form of [log_timestamp]. *)
Definition log_line (ts level message : bytes) : bytes :=
  bs "[" ++ ts ++ bs "] [" ++ level ++ bs "] " ++ message ++ [lf].

Definition log_write (ts level message : bytes) (s : log_state) : log_state :=
  log_put (log_target s) (log_line ts level message) s.

Definition log_info (ts message : bytes) (s : log_state) : log_state := log_write ts (bs "INFO") message s.

Definition log_debug (ts message : bytes) (s : log_state) : log_state :=
  if negb (lg_verbose s) then s else log_write ts (bs "DEBUG") message s.

Definition log_error (ts message : bytes) (s : log_state) : log_state := log_write ts (bs "ERROR") message s.

Definition log_errno (ts context strerror : bytes) (s : log_state) : log_state :=
  log_error ts (context ++ bs ": " ++ strerror) s.

(** ** A reader of the log *)

(** What the stream of a destination holds. *)
Definition stream (d : log_dest) (s : log_state) : bytes :=
  concat (snd <$> filter (λ p, p.1 = d) (lg_written s)).

(** The parts of a line [[ts] [level] message]. *)
Definition read_line (l : bytes) : option (bytes * bytes * bytes) :=
  match l with
  | c :: l =>
      if Ascii.eqb c "[" then
        match strchr l "]" with
        | Some i =>
            match drop (S i) l with
            | b :: o :: l' =>
                if Ascii.eqb b " " && Ascii.eqb o "[" then
                  match strchr l' "]" with
                  | Some j =>
                      match drop (S j) l' with
                      | b :: message => if Ascii.eqb b " " then Some (take i l, take j l', message) else None
                      | [] => None
                      end
                  | None => None
                  end
                else None
            | _ => None
            end
        | None => None
        end
      else None
  | [] => None
  end.

(** The entries of a log. *)
Definition read_log (s : bytes) : list (option (bytes * bytes * bytes)) := read_line <$> strtok lf s.

(** ** What is logged reads back *)

(** The calls of any threads, in the order in which they took the mutex. *)
Inductive log_call :=
| CallInfo (ts message : bytes)
| CallDebug (ts message : bytes)
| CallError (ts message : bytes)
| CallErrno (ts context strerror : bytes)
| CallVerbose (verbose : bool).

Definition log_step (s : log_state) (c : log_call) : log_state :=
  match c with
  | CallInfo ts m => log_info ts m s
  | CallDebug ts m => log_debug ts m s
  | CallError ts m => log_error ts m s
  | CallErrno ts m e => log_errno ts m e s
  | CallVerbose v => log_set_verbose v s
  end.

(** The entries that the calls make, debug messages only while they are enabled. *)
Fixpoint log_entries (verbose : bool) (calls : list log_call) : list (bytes * bytes * bytes) :=
  match calls with
  | [] => []
  | CallInfo ts m :: calls => (ts, bs "INFO", m) :: log_entries verbose calls
  | CallDebug ts m :: calls => (if verbose then [(ts, bs "DEBUG", m)] else []) ++ log_entries verbose calls
  | CallError ts m :: calls => (ts, bs "ERROR", m) :: log_entries verbose calls
  | CallErrno ts m e :: calls => (ts, bs "ERROR", m ++ bs ": " ++ e) :: log_entries verbose calls
  | CallVerbose v :: calls => log_entries v calls
  end.

(** A time without brackets and newlines, a message without newlines. *)
Definition entry_fine (e : bytes * bytes * bytes) : Prop :=
  "]"%char ∉ e.1.1 ∧ lf ∉ e.1.1 ∧ lf ∉ e.2.

Definition line_of (e : bytes * bytes * bytes) : bytes := log_line e.1.1 e.1.2 e.2.

Lemma drop_S_app {A} (a b : list A) c : drop (S (length a)) (a ++ c :: b) = b.
Proof. induction a as [|x a IH]; [done|]. exact IH. Qed.

Lemma read_line_of ts level m :
  "]"%char ∉ ts → "]"%char ∉ level → read_line (bs "[" ++ ts ++ bs "] [" ++ level ++ bs "] " ++ m) = Some (ts, level, m).
Proof.
  intros Hts Hlevel.
  change (bs "[" ++ ts ++ bs "] [" ++ level ++ bs "] " ++ m)
    with ("["%char :: (ts ++ "]"%char :: (" "%char :: "["%char :: (level ++ "]"%char :: (" "%char :: m))))).
  unfold read_line. rewrite !ascii_eqb_refl. rewrite strchr_app_sep by done.
  rewrite drop_S_app. cbn [andb]. rewrite !ascii_eqb_refl. cbn [andb].
  rewrite strchr_app_sep by done. rewrite drop_S_app, ascii_eqb_refl, !take_app_length. done.
Qed.

(** The calls write the lines of their entries, to the destination of the log only. *)
Lemma log_steps_write calls s :
  let s' := foldl log_step s calls in
  lg_fp s' = lg_fp s ∧
  lg_written s' = lg_written s ++ ((λ e, (log_target s, line_of e)) <$> log_entries (lg_verbose s) calls).
Proof.
  revert s. induction calls as [|c calls IH]; intros s; cbn [foldl]; [by rewrite app_nil_r|].
  destruct (IH (log_step s c)) as [E1 E2]. unfold log_target in *. rewrite E1, E2.
  destruct c as [ts m|ts m|ts m|ts m e|v]; cbn [log_step log_entries]; [|..|done];
    unfold log_info, log_debug, log_errno, log_error, log_write; cbn [log_put lg_fp lg_verbose lg_written].
  2: destruct (lg_verbose s) eqn:Ev; cbn [negb log_put lg_fp lg_written lg_verbose]; [|by rewrite Ev].
  all: rewrite ?Ev; split; [done|]; by rewrite <- app_assoc.
Qed.

Lemma log_entries_level verbose calls : Forall (λ e, "]"%char ∉ e.1.2 ∧ lf ∉ e.1.2) (log_entries verbose calls).
Proof.
  assert (∀ level, level = "INFO" ∨ level = "DEBUG" ∨ level = "ERROR" → "]"%char ∉ bs level ∧ lf ∉ bs level) as H
    by (intros level [-> | [-> | ->]]; split; by_computation).
  revert verbose. induction calls as [|[ts m|ts m|ts m|ts m e|v] calls IH]; intros verbose; cbn [log_entries]; [constructor|..]; auto.
  - constructor; [apply H; auto|apply IH].
  - apply Forall_app. split; [|apply IH]. destruct verbose; [|constructor]. constructor; [apply H; auto|constructor].
  - constructor; [apply H; auto|apply IH].
  - constructor; [apply H; auto|apply IH].
Qed.

(** A log that nothing was written to reads back, after calls with fine times and messages,
    as the entries of the calls, in their order and each once; nothing is written anywhere
    else. *)
Theorem log_reads_back calls s :
  lg_written s = [] → Forall entry_fine (log_entries (lg_verbose s) calls) →
  let s' := foldl log_step s calls in
  read_log (stream (log_target s) s') = Some <$> log_entries (lg_verbose s) calls ∧
  ∀ d, d ≠ log_target s → stream d s' = [].
Proof.
  intros Hw Hfine s'. destruct (log_steps_write calls s) as [_ E]. fold s' in E. rewrite Hw in E. cbn [app] in E.
  unfold stream. rewrite E. set (es := log_entries (lg_verbose s) calls) in *. split.
  - assert (filter (λ p : log_dest * bytes, p.1 = log_target s) ((λ e, (log_target s, line_of e)) <$> es)
      = (λ e, (log_target s, line_of e)) <$> es) as ->.
    { clear E Hfine. induction es as [|e es IH]; [done|]. rewrite fmap_cons, filter_cons, decide_True by done.
      by rewrite IH. }
    rewrite <- list_fmap_compose. unfold read_log.
    assert (snd ∘ (λ e, (log_target s, line_of e)) <$> es
      = (λ l, l ++ [lf]) <$> ((λ e, bs "[" ++ e.1.1 ++ bs "] [" ++ e.1.2 ++ bs "] " ++ e.2) <$> es)) as ->.
    { rewrite <- list_fmap_compose. apply list_fmap_ext. intros i e _. unfold compose, line_of, log_line. cbn [snd].
      by rewrite <- !app_assoc. }
    pose proof (log_entries_level (lg_verbose s) calls) as Hlevel. fold es in Hlevel.
    rewrite strtok_lines.
    + rewrite <- list_fmap_compose. clear E. induction Hfine as [|[[ts level] m] es (H1 & H2 & H3) _ IH]; [done|].
      apply Forall_cons in Hlevel as [[Hl _] Hlevel]. rewrite !fmap_cons, IH by done. f_equal. by apply read_line_of.
    + apply Forall_fmap. clear E. induction Hfine as [|[[ts level] m] es (H1 & H2 & H3) _ IH]; [constructor|].
      apply Forall_cons in Hlevel as [[_ Hl] Hlevel]. constructor; [|by apply IH]. unfold compose. cbn [fst snd] in *.
      split; [done|]. rewrite !not_elem_of_app. split_and!; try done; by apply (bool_decide_unpack _); vm_compute.
  - intros d Hd. clear E Hfine. induction es as [|e es IH]; [done|].
    rewrite fmap_cons, filter_cons, decide_False by (by intros <-). exact IH.
Qed.

Lemma log_reads_back_witness :
  let ts := bs "2023-11-14 22:13:20" in
  let calls := [CallInfo ts (bs "MiniWeb starting on 0.0.0.0:9001 (4 thread(s))"); CallDebug ts (bs "hidden");
                CallVerbose true; CallDebug ts (bs "[MAN] Section: 1");
                CallErrno ts (bs "bind") (bs "Address already in use")] in
  let s := (log_init (λ _, None) (Some (bs "miniweb.log")) false log_static).2 in
  read_log (stream (LogFile (bs "miniweb.log")) (foldl log_step s calls))
  = Some <$> [(ts, bs "INFO", bs "MiniWeb starting on 0.0.0.0:9001 (4 thread(s))");
              (ts, bs "DEBUG", bs "[MAN] Section: 1"); (ts, bs "ERROR", bs "bind: Address already in use")].
Proof.
  intros ts calls s. apply (log_reads_back calls s); [reflexivity|].
  repeat (apply Forall_cons; split; [split; [|split]; by_computation|]). constructor.
Defined.

(** A message with a newline in it, such as a decoded query, forges an entry. *)
Example newline_forges_entry :
  let ts := bs "2023-11-14 22:13:20" in
  let query := bs "x" ++ [lf] ++ bs "[2023-11-14 22:13:21] [INFO] all is well" in
  read_log (stream LogStderr (log_debug ts (bs "Search query: " ++ query) (log_set_verbose true log_static)))
  = [Some (ts, bs "DEBUG", bs "Search query: x"); Some (bs "2023-11-14 22:13:21", bs "INFO", bs "all is well")].
Proof. vm_compute. reflexivity. Qed.

(** When the file cannot be opened the log goes on to the standard error stream. *)
Lemma log_init_failure opens path e verbose s :
  path ≠ [] → opens path = Some e →
  (log_init opens (Some path) verbose s).1 = (-1)%Z ∧ log_target (log_init opens (Some path) verbose s).2 = LogStderr.
Proof. intros Hp He. destruct path; [done|]. unfold log_init. by rewrite He. Qed.
