(* ===== verification/Storage.v ===== *)
(** * The storage façade (src/storage/sqlite_db.c, sqlite_schema.c, sqlite_stmt.c)

    A handle with copies of its names and a catalogue of table names; statements and
    transactions are stubs.  The heap is the set of the blocks that are in use: the handle and
    its three strings are blocks of their own. *)

From S2P Require Import Prelude.

(** ** The heap *)

(** Allocations are numbered, the number names the block.  [hp_faults]: a block was freed that
    was not in use. *)
Record heap := {
  hp_next : nat;
  hp_live : gset nat;
  hp_faults : bool
}.

Definition hp_free (p : nat) (h : heap) : heap :=
  {| hp_next := hp_next h; hp_live := hp_live h ∖ {[p]};
     hp_faults := hp_faults h || bool_decide (p ∉ hp_live h) |}.

(** [free] of a pointer that may be NULL. *)
Definition hp_free_opt (p : option nat) (h : heap) : heap :=
  match p with Some p => hp_free p h | None => h end.

(** ** The handle *)

Definition MW_MAX_TABLES : nat := 32.
Definition MW_MAX_TABLE_NAME : nat := 64.

(** A string with the block that it is in. *)
Definition owned : Type := nat * bytes.

(** [db_tables]: the names in use, [table_count] of them. *)
Record mw_db := {
  db_block : nat;
  db_path : owned;
  db_url : option owned;
  db_name : option owned;
  db_flags : Z;
  db_tables : list bytes
}.

Definition set_tables (tables : list bytes) (db : mw_db) : mw_db :=
  {| db_block := db_block db; db_path := db_path db; db_url := db_url db; db_name := db_name db;
     db_flags := db_flags db; db_tables := tables |}.

Section storage.
Context (alloc : nat → bool).

Definition hp_alloc : ST heap (option nat) := λ h,
  let p := hp_next h in
  if alloc p
  then (Some p, {| hp_next := S p; hp_live := hp_live h ∪ {[p]}; hp_faults := hp_faults h |})
  else (None, {| hp_next := S p; hp_live := hp_live h; hp_faults := hp_faults h |}).

Definition hp_strdup (s : bytes) : ST heap (option owned) :=
  p ← hp_alloc; mret ((λ p, (p, s)) <$> p).

(** [out]: what [*out_db] holds, [None] when [out_db] is NULL; the results are the code and what
    [*out_db] holds afterwards. *)
Definition mw_db_open (path : option bytes) (flags : Z) (out : option (option mw_db))
    : ST heap (Z * option (option mw_db)) :=
  match path, out with
  | Some path, Some _ =>
      block ← hp_alloc;
      match block with
      | None => mret ((-1)%Z, out)
      | Some block =>
          path ← hp_strdup path;
          match path with
          | None => _ ← modify (hp_free block); mret ((-1)%Z, out)
          | Some path =>
              mret (0%Z, Some (Some {| db_block := block; db_path := path; db_url := None; db_name := None;
                                       db_flags := flags; db_tables := [] |}))
          end
      end
  | _, _ => mret ((-1)%Z, out)
  end.

Definition mw_db_close (db : option mw_db) : ST heap unit :=
  match db with
  | None => mret tt
  | Some db =>
      _ ← modify (hp_free (db_path db).1);
      _ ← modify (hp_free_opt (fst <$> db_url db));
      _ ← modify (hp_free_opt (fst <$> db_name db));
      modify (hp_free (db_block db))
  end.

Definition mw_db_exec_schema (db : option mw_db) (schema_sql : option bytes) : Z :=
  match db, schema_sql with Some _, Some _ => 0 | _, _ => -1 end.

Definition create_db (name url : option bytes) (out : option (option mw_db))
    : ST heap (Z * option (option mw_db)) :=
  match name, url with
  | Some name, Some url =>
      opened ← mw_db_open (Some url) 0 out;
      match opened with
      | (0%Z, Some (Some db)) =>
          name ← hp_strdup name;
          url ← hp_strdup url;
          let db := {| db_block := db_block db; db_path := db_path db; db_url := url; db_name := name;
                       db_flags := db_flags db; db_tables := db_tables db |} in
          match name, url with
          | Some _, Some _ => mret (0%Z, Some (Some db))
          | _, _ => _ ← mw_db_close (Some db); mret ((-1)%Z, Some None)
          end
      | (_, out) => mret ((-1)%Z, out)
      end
  | _, _ => mret ((-1)%Z, out)
  end.
End storage.

(** ** The catalogue *)

Definition create_table (name : option bytes) (db : option mw_db) : Z * option mw_db :=
  match db, name with
  | Some db, Some name =>
      if bool_decide (name = []) then ((-1)%Z, Some db)
      else if MW_MAX_TABLES <=? length (db_tables db) then ((-1)%Z, Some db)
      else if existsb (λ t, streq t name) (db_tables db) then (0%Z, Some db)
      else (0%Z, Some (set_tables (db_tables db ++ [strlcpy MW_MAX_TABLE_NAME name]) db))
  | _, _ => ((-1)%Z, db)
  end.

(** A summary of a table, cut to the [out_sz] bytes of the buffer. *)
Definition retrieve (db : option mw_db) (name : option bytes) (out_sz : nat) (summary : bytes → bytes)
    : option bytes :=
  match db, name with
  | Some db, Some name =>
      if out_sz =? 0 then None
      else if existsb (λ t, streq t name) (db_tables db) then Some (strlcpy out_sz (summary name)) else None
  | _, _ => None
  end.

(** [None]: the code is -1 and the buffer is not written; [limit] is a [size_t]. *)
Definition retrieve_table (db : option mw_db) (name : option bytes) (limit : nat) (out_sz : nat) : option bytes :=
  retrieve db name out_sz (λ name, bs "table=" ++ name ++ bs " limit=" ++ fmt_nat limit).

Definition retrieve_column (db : option mw_db) (table : option bytes) (limit : nat) (out_sz : nat) : option bytes :=
  retrieve db table out_sz (λ name, bs "table=" ++ name ++ bs " column=* limit=" ++ fmt_nat limit).

(** ** Stubs *)

Definition mw_db_migrate : Z := 0.
Definition mw_tx_begin : Z := 0.
Definition mw_tx_commit : Z := 0.
Definition mw_tx_rollback : Z := 0.
Definition mw_stmt_prepare : Z := -1.
Definition mw_bind_text : Z := -1.
Definition mw_bind_int64 : Z := -1.
Definition mw_bind_null : Z := -1.
Definition mw_stmt_step : Z := -1.

(** ** Handles own their memory *)

(** Blocks that have not been handed out are not in use. *)
Definition heap_ok (h : heap) : Prop := ∀ p, p ∈ hp_live h → p < hp_next h.

Section memory.
Context (alloc : nat → bool).

(** What a handle frees, in this order. *)
Definition blocks (db : mw_db) : list nat :=
  (db_path db).1 :: option_list (fst <$> db_url db) ++ option_list (fst <$> db_name db) ++ [db_block db].

(** The same blocks are in use and nothing was freed twice. *)
Record same_heap (h h' : heap) : Prop := {
  sh_live : hp_live h' = hp_live h;
  sh_faults : hp_faults h' = hp_faults h;
  sh_next : hp_next h ≤ hp_next h'
}.

Definition free_all (l : list nat) (h : heap) : heap := foldl (λ h p, hp_free p h) h l.

Lemma free_all_spec l h :
  NoDup l → (∀ p, p ∈ l → p ∈ hp_live h) →
  hp_live (free_all l h) = hp_live h ∖ list_to_set l ∧ hp_faults (free_all l h) = hp_faults h ∧
  hp_next (free_all l h) = hp_next h.
Proof.
  intros Hnd. revert h. induction Hnd as [|p l Hp Hnd IH]; intros h Hin; cbn [free_all foldl list_to_set].
  { split_and!; [set_solver|done|done]. }
  destruct (IH (hp_free p h)) as (E1 & E2 & E3).
  { intros q Hq. cbn [hp_free hp_live]. apply elem_of_difference. split; [apply Hin; by right|].
    intros ->%elem_of_singleton. done. }
  unfold free_all in *. rewrite E1, E2, E3. cbn [hp_free hp_live hp_faults hp_next]. split_and!; [set_solver| |done].
  rewrite bool_decide_eq_false_2, orb_false_r; [done|]. intros H. apply H, Hin. by left.
Qed.

Lemma close_frees db h : (mw_db_close (Some db) h).2 = free_all (blocks db) h.
Proof. unfold mw_db_close, blocks. run_st. by destruct db as [b p [u|] [n|] fl tb]. Qed.

(** A handle that owns different blocks gives all of them back. *)
Lemma close_gives_back db h h0 :
  NoDup (blocks db) → hp_live h = hp_live h0 ∪ list_to_set (blocks db) → (∀ p, p ∈ blocks db → p ∉ hp_live h0) →
  hp_faults h = hp_faults h0 → hp_next h0 ≤ hp_next h → same_heap h0 (mw_db_close (Some db) h).2.
Proof.
  intros Hnd Hl Hd Hf Hn. rewrite close_frees. destruct (free_all_spec (blocks db) h Hnd) as (E1 & E2 & E3).
  { intros p Hp. rewrite Hl. apply elem_of_union. right. by apply elem_of_list_to_set. }
  split; [|by rewrite E2|by rewrite E3]. rewrite E1, Hl. apply set_eq. intros p.
  rewrite elem_of_difference, elem_of_union, elem_of_list_to_set. naive_solver.
Qed.

Ltac fresh_blocks := first [lia | apply set_eq; intros ?; set_unfold; naive_solver lia].

(** A handle of new blocks, closed. *)
Ltac own_blocks Hclose n :=
  apply Hclose; unfold blocks;
    cbn [db_path db_url db_name db_block fst fmap option_fmap option_map option_list app list_to_set];
    [unfold n; lia|repeat (apply NoDup_cons; split; [set_unfold; lia|]); by apply NoDup_nil
    |intros ?; set_unfold; lia|apply set_eq; intros ?; set_unfold; tauto].

(** Creating a handle either fails and leaves the heap as it was, the pointer untouched or
    NULL; or it yields a handle of its own blocks, with both names and an empty catalogue, and
    closing it gives everything back. *)
Theorem create_db_memory name url out h :
  heap_ok h →
  let '((rc, out'), h') := create_db alloc name url out h in
  (rc = -1 ∧ same_heap h h' ∧ (out' = out ∨ out' = Some None))%Z ∨
  (rc = 0%Z ∧ ∃ db n u, name = Some n ∧ url = Some u ∧ out' = Some (Some db) ∧
     (db_path db).2 = u ∧ snd <$> db_url db = Some u ∧ snd <$> db_name db = Some n ∧ db_tables db = [] ∧
     (∀ p, p ∈ blocks db → p ∉ hp_live h ∧ p ∈ hp_live h') ∧ same_heap h (mw_db_close (Some db) h').2).
Proof.
  intros Hok. assert (∀ k, hp_next h + k ∉ hp_live h) as Hfresh by (intros k Hk; apply Hok in Hk; lia).
  pose proof (Hfresh 0) as F0. pose proof (Hfresh 1) as F1. pose proof (Hfresh 2) as F2. pose proof (Hfresh 3) as F3.
  rewrite Nat.add_0_r in F0. unfold create_db.
  destruct name as [name|], url as [url|]; try (left; split_and!; [done|done|by left]).
  unfold mw_db_open. destruct out as [out|]; [|left; split_and!; [done|done|by left]].
  unfold hp_strdup, hp_alloc. run_st. set (n := hp_next h) in *.
  destruct (alloc n); cbn [hp_next hp_live hp_faults].
  2: { left. split_and!; [done|split; cbn; [done|done|lia]|by left]. }
  destruct (alloc (S n)); cbn [hp_next hp_live hp_faults fmap option_fmap option_map db_block db_path db_url db_name
    db_flags db_tables].
  2: { left. split_and!; [done| |by left]. split; cbn [hp_free hp_next hp_live hp_faults]; [fresh_blocks| |lia].
       rewrite bool_decide_eq_false_2, orb_false_r by set_solver. done. }
  assert (∀ db k live, hp_next h ≤ k → NoDup (blocks db) → (∀ p, p ∈ blocks db → n ≤ p) →
    live = hp_live h ∪ list_to_set (blocks db) →
    same_heap h (mw_db_close (Some db) {| hp_next := k; hp_live := live; hp_faults := hp_faults h |}).2) as Hclose.
  { intros db k live Hk Hnd Hb Hl. apply close_gives_back; [done|exact Hl| |done|done].
    intros p Hp Hin. apply Hb in Hp. apply Hok in Hin. unfold n in Hp. lia. }
  destruct (alloc (S (S n))); cbn [hp_next hp_live hp_faults fmap option_fmap option_map];
    (destruct (alloc (S (S (S n)))); cbn [hp_next hp_live hp_faults fmap option_fmap option_map]).
  2-4: match goal with |- context [mw_db_close (Some ?db) ?h1] =>
         assert (same_heap h (mw_db_close (Some db) h1).2) as Hc by own_blocks Hclose n;
         destruct (mw_db_close (Some db) h1); left; split_and!; [done|exact Hc|by right] end.
  right. split; [done|]. eexists _, name, url. split_and!; try reflexivity; [|own_blocks Hclose n].
  intros p Hp. unfold blocks in Hp. cbn [db_path db_url db_name db_block fst fmap option_fmap option_map option_list app] in Hp.
  assert (n ≤ p) by (set_unfold; lia). split; [|set_solver]. intros Hin. apply Hok in Hin. unfold n in *. lia.
Qed.
End memory.

(** A handle is created and closed again on an empty heap. *)
Lemma create_db_memory_witness :
  let h := {| hp_next := 0; hp_live := ∅; hp_faults := false |} in
  let out := create_db (λ _, true) (Some (bs "main")) (Some (bs "data.db")) (Some None) h in
  ∃ db, out.1 = (0%Z, Some (Some db)) ∧ hp_live (mw_db_close (Some db) out.2).2 = ∅ ∧
    hp_faults (mw_db_close (Some db) out.2).2 = false.
Proof.
  intros h out. pose proof (create_db_memory (λ _, true) (Some (bs "main")) (Some (bs "data.db")) (Some None) h
    ltac:(intros p Hp; by apply elem_of_empty in Hp)) as H.
  change (create_db _ _ _ _ h) with out in H. assert (out.1.1 = 0%Z) as E by (vm_compute; reflexivity).
  destruct out as [[rc o] h']. cbn [fst] in E. subst rc.
  destruct H as [[E _]|(_ & db & n & u & _ & _ & -> & _ & _ & _ & _ & _ & [Hl Hf _])]; [discriminate E|].
  exists db. split; [reflexivity|]. split; [exact Hl|exact Hf].
Defined.

(** ** The catalogue is a bounded set *)

(** The names in the order of their first occurrence. *)
Definition different_names (names : list bytes) : list bytes :=
  foldl (λ seen n, if bool_decide (n ∈ seen) then seen else seen ++ [n]) [] names.

Lemma different_names_snoc names n :
  different_names (names ++ [n])
  = if bool_decide (n ∈ different_names names) then different_names names else different_names names ++ [n].
Proof. unfold different_names. by rewrite foldl_app. Qed.

Lemma elem_of_different_names names n : n ∈ different_names names ↔ n ∈ names.
Proof.
  induction names as [|m names IH] using rev_ind; [done|]. rewrite different_names_snoc, elem_of_app, <- IH.
  case_bool_decide; [|by rewrite elem_of_app]. rewrite list_elem_of_singleton. naive_solver.
Qed.

Lemma known_table tables n : existsb (λ t, streq t n) tables = bool_decide (n ∈ tables).
Proof.
  apply eq_true_iff_eq. rewrite existsb_exists, bool_decide_eq_true. split.
  - intros (t & Hin & ->%streq_true). by apply list_elem_of_In.
  - intros Hin%list_elem_of_In. exists n. by rewrite streq_refl.
Qed.

(** A handle after tables have been created. *)
Definition create_tables (names : list bytes) (db : mw_db) : mw_db :=
  foldl (λ db n, default db (create_table (Some n) (Some db)).2) db names.

(** A name that the catalogue keeps whole. *)
Definition short_name (n : bytes) : Prop := n ≠ [] ∧ length n < MW_MAX_TABLE_NAME.

Lemma create_tables_list names db :
  db_tables db = [] → Forall short_name names →
  db_tables (create_tables names db) = take MW_MAX_TABLES (different_names names).
Proof.
  intros Hdb. induction names as [|n names IH] using rev_ind; [done|].
  intros [Hn [[Hne Hlen] _]%Forall_cons]%Forall_app. specialize (IH Hn).
  unfold create_tables in *. rewrite foldl_app. cbn [foldl]. rewrite different_names_snoc.
  set (db' := foldl _ db names) in *. unfold create_table. rewrite bool_decide_eq_false_2 by done.
  rewrite IH, length_take, known_table.
  destruct (Nat.leb_spec MW_MAX_TABLES (MW_MAX_TABLES `min` length (different_names names))).
  { cbn [snd from_option id]. rewrite IH. case_bool_decide; [done|]. by rewrite take_app_le by lia. }
  rewrite take_ge by lia. case_bool_decide; cbn [snd from_option id].
  - rewrite IH. by rewrite take_ge by lia.
  - cbn [set_tables db_tables]. rewrite strlcpy_id by done.
    rewrite take_ge; [done|]. rewrite length_app. simpl. lia.
Qed.

(** After tables with names of at most 63 bytes have been created, a summary is given for
    exactly the first 32 different names, cut to the buffer. *)
Theorem catalogue_is_bounded_set names db n limit out_sz :
  db_tables db = [] → Forall short_name names →
  retrieve_table (Some (create_tables names db)) (Some n) limit out_sz =
  (if bool_decide (0 < out_sz ∧ n ∈ take MW_MAX_TABLES (different_names names))
   then Some (strlcpy out_sz (bs "table=" ++ n ++ bs " limit=" ++ fmt_nat limit)) else None).
Proof.
  intros Hdb Hn. unfold retrieve_table, retrieve. rewrite known_table, create_tables_list by done.
  destruct (Nat.eqb_spec out_sz 0) as [->|]; [by rewrite bool_decide_eq_false_2 by (intros [? _]; lia)|].
  do 2 case_bool_decide; try done; [|by destruct H0]. destruct H0. split; [lia|done].
Qed.

Definition empty_db : mw_db :=
  {| db_block := 0; db_path := (1, bs "data.db"); db_url := None; db_name := None; db_flags := 0; db_tables := [] |}.

Lemma catalogue_is_bounded_set_witness :
  let db := create_tables [bs "users"; bs "sessions"; bs "users"] empty_db in
  retrieve_table (Some db) (Some (bs "users")) 10 64 = Some (bs "table=users limit=10") ∧
  retrieve_table (Some db) (Some (bs "groups")) 10 64 = None ∧ length (db_tables db) = 2.
Proof.
  intros db.
  assert (Forall short_name [bs "users"; bs "sessions"; bs "users"]) as Hs.
  { repeat (apply Forall_cons; split; [split; [discriminate|apply Nat.ltb_lt; vm_compute; reflexivity]|]). constructor. }
  split; [|split].
  - etransitivity; [apply (catalogue_is_bounded_set _ empty_db); [reflexivity|exact Hs]|]. vm_compute. reflexivity.
  - etransitivity; [apply (catalogue_is_bounded_set _ empty_db); [reflexivity|exact Hs]|]. vm_compute. reflexivity.
  - vm_compute. reflexivity.
Defined.

(** A longer name is cut when it is stored and never found again: the table is created anew
    each time, with the code of success. *)
Example long_name_is_lost :
  let n := replicate 70 "x"%char in
  let r1 := create_table (Some n) (Some empty_db) in
  let r2 := create_table (Some n) r1.2 in
  r1.1 = 0%Z ∧ retrieve_table r1.2 (Some n) 1 200 = None ∧ r2.1 = 0%Z ∧ (length ∘ db_tables) <$> r2.2 = Some 2.
Proof. vm_compute. done. Qed.

(** A full catalogue refuses a table that is in it. *)
Example full_catalogue_refuses_known_table :
  let db := create_tables (fmt_nat <$> seq 1 32) empty_db in
  (create_table (Some (bs "1")) (Some db)).1 = (-1)%Z ∧ is_Some (retrieve_table (Some db) (Some (bs "1")) 1 200).
Proof. vm_compute. split; [done|by eexists]. Qed.
