(* ===== verification/Sandbox.v ===== *)
(** * The sandbox (src/platform/openbsd/security.c)

    Before the server loop [main] restricts the process to a list of directories with
    unveil(2) and to a list of kinds of system calls with pledge(2).  The calls are
    modelled with their order; what unveil allows afterwards is a parameter that follows
    its manual page ([unveil_law]), over paths resolved without symbolic links.  The
    theorem puts the list against what the other files prove of the requests: nothing
    they start, make, write or read is cut off, and nothing else can be written or
    started.  The error stream of the children (/dev/null) and what a started program
    does itself are left out. *)

From S2P Require Import Prelude Conf Log Files Man ManRender Packages.

(** ** The calls *)

Inductive sandbox_call := Unveil (path permissions : bytes) | UnveilEnd | Pledge (promises : bytes).

Definition promises : bytes := bs "stdio rpath wpath cpath inet route proc exec vminfo ps getpw".

(** The directories in the order in which they are given. *)
Definition unveiled (conf : miniweb_conf) : list (bytes * bytes) :=
  [ (bs "/etc", bs "r"); (bs "/usr/share/man", bs "r"); (bs "/usr/X11R6/man", bs "r");
    (bs "/usr/local/man", bs "r"); (bs "/usr/local/share/man", bs "r");
    (static_dir conf, bs "rwc"); (templates_dir conf, bs "r");
    (bs "/tmp", bs "rwc"); (bs "/dev", bs "r"); (bs "/var/run", bs "r"); (bs "/var/db/pkg", bs "r");
    (bs "/usr/local", bs "r"); (bs "/usr/bin", bs "rx"); (bs "/usr/sbin", bs "rx"); (bs "/bin", bs "rx");
    (bs "/sbin", bs "rx"); (bs "/usr/local/bin", bs "rx"); (bs "/etc/passwd", bs "r");
    (bs "/etc/group", bs "r"); (bs "/etc/resolv.conf", bs "r") ].

Definition sandbox_calls (conf : miniweb_conf) : list sandbox_call :=
  ((λ u, Unveil u.1 u.2) <$> unveiled conf) ++ [UnveilEnd; Pledge promises].

(** The function on OpenBSD and elsewhere: the calls it makes, and what it logs;
    [pledge_error] is the text of the error of pledge, if it fails. *)
Definition miniweb_apply_openbsd_security (openbsd : bool) (pledge_error : option bytes) (ts : bytes)
    (conf : miniweb_conf) (log : log_state) : list sandbox_call * log_state :=
  let is_verbose := negb (verbose conf =? 0)%Z in
  if openbsd then
    (sandbox_calls conf,
     match pledge_error with
     | Some e => log_error ts (bs "Continuing without pledge...") (log_errno ts (bs "pledge") e log)
     | None => if is_verbose then log_debug ts (bs "Pledge promises set: " ++ promises) log else log
     end)
  else
    ([], if is_verbose then log_debug ts (bs "OpenBSD security features disabled on this platform.") log
         else log).

(** The calls follow the configuration, the log stays where it was. *)
Lemma security_spec openbsd pledge_error ts conf log :
  let r := miniweb_apply_openbsd_security openbsd pledge_error ts conf log in
  r.1 = (if openbsd then sandbox_calls conf else []) ∧ lg_fp r.2 = lg_fp log ∧ lg_verbose r.2 = lg_verbose log.
Proof.
  unfold miniweb_apply_openbsd_security. destruct openbsd; [destruct pledge_error|]; cbn [fst snd]; unfold log_debug;
    by repeat case_match.
Qed.

(** ** Paths *)

(** A step of the walk along a path: from the directory [at_] by the component [c]. *)
Definition enter (at_ : list bytes) (c : bytes) : list bytes :=
  if streq c [] || streq c (bs ".") then at_
  else if streq c (bs "..") then removelast at_
  else at_ ++ [c].

(** The components of a path below the root, for a process that runs in [cwd]. *)
Definition resolve (cwd : list bytes) (p : bytes) : list bytes :=
  foldl enter (if is_prefix (bs "/") p then [] else cwd) (split_on "/" p).

Lemma resolve_below cwd d rel :
  d ≠ [] → resolve cwd (d ++ bs "/" ++ rel) = foldl enter (resolve cwd d) (split_on "/" rel).
Proof.
  intros Hd. unfold resolve. change (bs "/" ++ rel) with ("/"%char :: rel).
  rewrite split_on_app_sep, foldl_app. destruct d as [|c d]; [done|].
  change (is_prefix (bs "/") ((c :: d) ++ "/"%char :: rel)) with (Ascii.eqb "/" c && true).
  change (is_prefix (bs "/") (c :: d)) with (Ascii.eqb "/" c && true). done.
Qed.

(** Without a parent reference a walk only goes down. *)
Lemma walk_down at_ cs : bs ".." ∉ cs → at_ `prefix_of` foldl enter at_ cs.
Proof.
  revert at_. induction cs as [|c cs IH]; intros at_; [done|]. intros [Hc Hcs]%not_elem_of_cons. cbn [foldl].
  etransitivity; [|by apply IH]. unfold enter. destruct (_ || _); [done|].
  destruct (streq c (bs "..")) eqn:E; [by apply streq_true in E|]. by apply prefix_app_r.
Qed.

Lemma resolve_down cwd d rel :
  d ≠ [] → bs ".." ∉ split_on "/" rel → resolve cwd d `prefix_of` resolve cwd (d ++ bs "/" ++ rel).
Proof. intros Hd Hrel. rewrite resolve_below by done. by apply walk_down. Qed.

(** Not even an area that is the parent directory leads out of [d]. *)
Lemma walk_area at_ area rest :
  "/"%char ∉ area → bs ".." ∉ rest → at_ `prefix_of` foldl enter at_ (bs "man" :: area :: rest).
Proof.
  intros Ha Hrest. cbn [foldl]. etransitivity; [|by apply walk_down].
  change (enter at_ (bs "man")) with (at_ ++ [bs "man"]). unfold enter.
  destruct (_ || _); [by apply prefix_app_r|]. destruct (streq area (bs "..")).
  - by rewrite removelast_last.
  - rewrite <- app_assoc. by apply prefix_app_r.
Qed.

(** ** What the kernel allows *)

(** unveil(2): of the directories that lead to a path the most specific one decides, with
    the permissions given to it last; where none leads nothing is allowed. *)
Record unveil_law (allows : list (list bytes * bytes) → list bytes → ascii → bool) : Prop := {
  ul_grants l1 d perms l2 q m :
    d `prefix_of` q → (∀ u, u ∈ l1 ++ l2 → u.1 `prefix_of` q → u.1 `prefix_of` d) →
    Forall (λ u, u.1 ≠ d) l2 → m ∈ perms → allows (l1 ++ (d, perms) :: l2) q m = true;
  ul_needs l q m : allows l q m = true → ∃ u, u ∈ l ∧ u.1 `prefix_of` q ∧ m ∈ u.2
}.

(** The list the kernel has after the calls of a process. *)
Definition unveil_list (cwd : list bytes) (calls : list sandbox_call) : list (list bytes * bytes) :=
  omap (λ c, match c with Unveil p perms => Some (resolve cwd p, perms) | _ => None end) calls.

Definition may_read : ascii := "r"%char.
Definition may_write : ascii := "w"%char.
Definition may_create : ascii := "c"%char.
Definition may_start : ascii := "x"%char.

(** The directories and files that are always in the list, and the programs. *)
Definition listed_paths : list (list bytes) :=
  resolve [] <$>
  [bs "/etc"; bs "/usr/share/man"; bs "/usr/X11R6/man"; bs "/usr/local/man"; bs "/usr/local/share/man";
   bs "/tmp"; bs "/dev"; bs "/var/run"; bs "/var/db/pkg"; bs "/usr/local"; bs "/usr/bin"; bs "/usr/sbin";
   bs "/bin"; bs "/sbin"; bs "/usr/local/bin"; bs "/etc/passwd"; bs "/etc/group"; bs "/etc/resolv.conf"].

Definition program_paths : list (list bytes) :=
  resolve [] <$>
  [bs "/usr/bin/man"; bs "/usr/bin/mandoc"; bs "/usr/bin/apropos"; bs "/usr/sbin/pkg_info"; bs "/bin/sh"].

Abbreviation fixed_paths := (listed_paths ++ program_paths).

(** The directories of the configuration contain none of these and not each other. *)
Definition apart (cwd : list bytes) (conf : miniweb_conf) : Prop :=
  let S := resolve cwd (static_dir conf) in let T := resolve cwd (templates_dir conf) in
  (static_dir conf ≠ [] ∧ templates_dir conf ≠ []) ∧
  Forall (λ d, ¬ S `prefix_of` d ∧ ¬ T `prefix_of` d) fixed_paths ∧ ¬ S `prefix_of` T ∧ ¬ T `prefix_of` S.

#[export] Instance apart_decision cwd conf : Decision (apart cwd conf).
Proof. unfold apart. apply _. Defined.

Section sandbox.
Context (allows : list (list bytes * bytes) → list bytes → ascii → bool) (Hlaw : unveil_law allows).
Context (cwd : list bytes) (conf : miniweb_conf) (Hapart : apart cwd conf).

Abbreviation ulist := (unveil_list cwd (sandbox_calls conf)).
Abbreviation sdir := (resolve cwd (static_dir conf)).
Abbreviation tdir := (resolve cwd (templates_dir conf)).
Abbreviation allowed := (λ q m, allows ulist (resolve cwd q) m = true).

Lemma ulist_paths u : u ∈ ulist → u.1 ∈ listed_paths ∨ u.1 = sdir ∨ u.1 = tdir.
Proof.
  cbn [unveil_list sandbox_calls unveiled fmap list_fmap app omap list_omap fst snd].
  rewrite !elem_of_cons, elem_of_nil.
  intros Hu. destruct_or! Hu; subst; cbn [fst]; auto; try done; left; by_computation.
Qed.

Lemma fixed_differs d f : d = sdir ∨ d = tdir → f ∈ fixed_paths → f ≠ d.
Proof.
  destruct Hapart as (_ & Hfix & _). rewrite Forall_forall in Hfix. by intros [->| ->] [H1 H2]%Hfix ->.
Qed.

Lemma allowed_from n d perms q m :
  ulist !! n = Some (d, perms) → d `prefix_of` q →
  (∀ u, u ∈ ulist → u.1 `prefix_of` q → u.1 `prefix_of` d) → Forall (λ u, u.1 ≠ d) (drop (S n) ulist) → m ∈ perms →
  allows ulist q m = true.
Proof.
  intros Hn Hq Hmost Hlast Hm. rewrite <- (take_drop_middle _ _ _ Hn). apply (ul_grants _ Hlaw); [done| |done|done].
  intros u Hu. apply Hmost. rewrite <- (take_drop_middle _ _ _ Hn), elem_of_app, elem_of_cons.
  apply elem_of_app in Hu. tauto.
Qed.

(** A directory of the configuration decides for all that lies below it. *)
Lemma config_decides d q u :
  d = sdir ∨ d = tdir → d `prefix_of` q → u ∈ ulist → u.1 `prefix_of` q → u.1 `prefix_of` d.
Proof.
  intros Hd Hq Hu Huq. destruct Hapart as (_ & Hfix & Hst & Hts). rewrite Forall_forall in Hfix.
  destruct (prefix_weak_total _ _ _ Huq Hq) as [H|H]; [done|].
  destruct (ulist_paths u Hu) as [Hf|Hu']; [destruct (Hfix u.1); [apply elem_of_app; by left|]; by destruct Hd as [->| ->]|].
  by destruct Hd as [->| ->], Hu' as [E|E]; rewrite E in *.
Qed.

Lemma allowed_static q m : sdir `prefix_of` q → m ∈ bs "rwc" → allows ulist q m = true.
Proof.
  intros Hq. apply (allowed_from 5 sdir (bs "rwc")); [done|done| |].
  - intros u Hu. apply config_decides; auto.
  - destruct Hapart as (_ & _ & Hst & _). repeat constructor; cbn [fst]; first
      [by intros E; rewrite E in Hst|apply fixed_differs; [by left|by_computation]].
Qed.

Lemma allowed_templates q : tdir `prefix_of` q → allows ulist q may_read = true.
Proof.
  intros Hq. apply (allowed_from 6 tdir (bs "r")); [done|done| | |by_computation].
  - intros u Hu. apply config_decides; auto.
  - repeat constructor; cbn [fst]; (apply fixed_differs; [by right|by_computation]).
Qed.

(** Of the fixed directories [d] decides for the path [q]. *)
Definition decides_fixed (d q : list bytes) : bool :=
  bool_decide (Forall (λ f, f `prefix_of` q → f `prefix_of` d) listed_paths).

Lemma allowed_fixed n d perms q m :
  ulist !! n = Some (d, perms) → q ∈ fixed_paths → bool_decide (d `prefix_of` q) = true → decides_fixed d q = true →
  Forall (λ u, u.1 ≠ d) (drop (S n) ulist) → m ∈ perms → allows ulist q m = true.
Proof.
  intros Hn Hq Hd Hall Hlast Hm. apply bool_decide_eq_true in Hd, Hall.
  apply (allowed_from n d perms); [done|done| |done|done]. rewrite Forall_forall in Hall.
  destruct Hapart as (_ & Hfix & _). rewrite Forall_forall in Hfix. destruct (Hfix q Hq) as [Hs Ht].
  intros u Hu Huq. destruct (ulist_paths u Hu) as [Hf|[E|E]]; [by apply Hall|by rewrite E in Huq..].
Qed.

(** Programs in a directory of programs. *)
Lemma allowed_program n d q :
  (n, d, q) ∈ [(12, bs "/usr/bin", bs "/usr/bin/man"); (12, bs "/usr/bin", bs "/usr/bin/mandoc");
               (12, bs "/usr/bin", bs "/usr/bin/apropos"); (13, bs "/usr/sbin", bs "/usr/sbin/pkg_info");
               (14, bs "/bin", bs "/bin/sh")] → allowed q may_start.
Proof.
  rewrite !elem_of_cons, elem_of_nil. intros H.
  apply (allowed_fixed n (resolve [] d) (bs "rx")); destruct_or! H; try done; injection H as -> -> ->;
    first [reflexivity|by_computation|vm_compute; reflexivity].
Qed.

(** *** What the list gives away *)

Lemma writable_entries u m :
  u ∈ ulist → m ∈ u.2 → m = may_write ∨ m = may_create → u.1 = sdir ∨ u.1 = [bs "tmp"].
Proof.
  cbn [unveil_list sandbox_calls unveiled fmap list_fmap app omap list_omap fst snd].
  rewrite !elem_of_cons, elem_of_nil.
  intros Hu Hm Hw. destruct_or! Hu; subst; cbn [fst snd] in *; auto; try done; exfalso; revert Hm;
    (destruct Hw as [->| ->]; by_computation).
Qed.

Definition program_dirs : list (list bytes) :=
  [[bs "usr"; bs "bin"]; [bs "usr"; bs "sbin"]; [bs "bin"]; [bs "sbin"]; [bs "usr"; bs "local"; bs "bin"]].

Lemma program_entries u : u ∈ ulist → may_start ∈ u.2 → u.1 ∈ program_dirs.
Proof.
  cbn [unveil_list sandbox_calls unveiled fmap list_fmap app omap list_omap fst snd].
  rewrite !elem_of_cons, elem_of_nil.
  intros Hu Hm. destruct_or! Hu; subst; cbn [fst snd] in *; try done;
    first [by_computation|exfalso; revert Hm; by_computation].
Qed.

(** *** What requests do lies below these directories *)

Lemma page_walk area rest :
  "/"%char ∉ area → bs ".." ∉ split_on "/" rest →
  sdir `prefix_of` resolve cwd (static_dir conf ++ bs "/man/" ++ area ++ bs "/" ++ rest).
Proof.
  intros Ha Hrest. destruct Hapart as ([Hs _] & _).
  change (bs "/man/" ++ area ++ bs "/" ++ rest) with (bs "/" ++ bs "man" ++ "/"%char :: (area ++ "/"%char :: rest)).
  rewrite resolve_below, !split_on_app_sep by done. rewrite (split_on_plain _ area Ha). by apply walk_area.
Qed.

Lemma section_component section : man_is_valid_section section = true → section ≠ bs "..".
Proof. by intros H ->. Qed.

Lemma dir_below d : dir_ok (static_dir conf) d → sdir `prefix_of` resolve cwd d.
Proof.
  destruct Hapart as ([Hs _] & _). intros [|area Ha|area section Ha Hsec].
  - change (bs "/man") with (bs "/" ++ bs "man"). apply resolve_down; [done|by_computation].
  - change (bs "/man/" ++ area) with (bs "/" ++ bs "man" ++ "/"%char :: area).
    rewrite resolve_below, split_on_app_sep by done. rewrite (split_on_plain _ area Ha). apply walk_area; [done|].
    apply not_elem_of_nil.
  - apply page_walk; [done|]. rewrite split_on_plain by by apply valid_section_no_slash.
    intros [E|E%elem_of_nil]%elem_of_cons; [by eapply section_component|done].
Qed.

Lemma file_below p : page_ok p → sdir `prefix_of` resolve cwd (abs_path (static_dir conf) p).
Proof.
  intros [[Ha _] Hsec [Hp _] Hf]. unfold abs_path. apply page_walk; [done|].
  change (mp_section p ++ bs "/" ++ ?x) with (mp_section p ++ "/"%char :: x).
  rewrite split_on_app_sep, (split_on_plain _ (mp_section p)) by by apply valid_section_no_slash.
  intros [E|E]%elem_of_app.
  - apply elem_of_cons in E as [E|E%elem_of_nil]; [by eapply section_component|done].
  - apply valid_token_no_slash in Hp as Hns. destruct (known_format_dot _ Hf) as [_ Hlen].
    apply known_format_cases in Hf.
    assert (mp_page p ≠ []) as Hne by by destruct (mp_page p).
    rewrite split_on_plain, elem_of_cons, elem_of_nil in E.
    + destruct E as [E|[]]. apply (f_equal length) in E. rewrite !length_app in E.
      change (length (bs "..")) with 2 in E. change (length (bs ".")) with 1 in E.
      destruct (mp_page p); [done|]. cbn [length] in E. lia.
    + rewrite !elem_of_app. intros [H|[H|H]]; [done|by revert H; by_computation|].
      rewrite !elem_of_cons, elem_of_nil in Hf.
      destruct_or! Hf; try done; rewrite Hf in H; revert H; by_computation.
Qed.
End sandbox.

(** The program that a call of the package manager's module starts. *)
Definition exec_program (e : exec) : bytes := match e with Exec path _ => path | Shell _ => bs "/bin/sh" end.


(** *** A kernel *)

(** The most specific entry so far, the later one of two for the same directory. *)
Definition pick (q : list bytes) (best : option (list bytes * bytes)) (u : list bytes * bytes) :=
  if bool_decide (u.1 `prefix_of` q) then
    match best with
    | Some b => if length u.1 <? length b.1 then best else Some u
    | None => Some u
    end
  else best.

Definition kernel_allows (l : list (list bytes * bytes)) (q : list bytes) (m : ascii) : bool :=
  match foldl (pick q) None l with Some u => bool_decide (m ∈ u.2) | None => false end.

Lemma pick_in q l best :
  (∀ b, best = Some b → b.1 `prefix_of` q) →
  match foldl (pick q) best l with
  | Some u => (best = Some u ∨ u ∈ l) ∧ u.1 `prefix_of` q
  | None => True
  end.
Proof.
  revert best. induction l as [|u l IH]; intros best Hb; cbn [foldl].
  { destruct best as [b|]; [|done]. split; [by left|by apply Hb]. }
  assert (∀ b, pick q best u = Some b → (best = Some b ∨ b = u) ∧ b.1 `prefix_of` q) as Hp.
  { intros b. unfold pick. case_bool_decide; [|by intros E; auto]. destruct best as [b'|].
    - destruct (_ <? _); intros E; injection E as <-; auto.
    - intros E. injection E as <-. auto. }
  specialize (IH (pick q best u) (λ b E, proj2 (Hp b E))).
  destruct (foldl _ _ l) as [b|]; [|done]. destruct IH as [[H|H] Hq]; split; try done.
  - destruct (Hp b H) as [[->| ->] _]; [by left|right; by left].
  - right. by right.
Qed.

Lemma pick_keeps q d perms l :
  (∀ u, u ∈ l → u.1 `prefix_of` q → u.1 `prefix_of` d) → Forall (λ u, u.1 ≠ d) l →
  foldl (pick q) (Some (d, perms)) l = Some (d, perms).
Proof.
  induction l as [|u l IH]; intros Hmost Hne; [done|]. apply Forall_cons in Hne as [Hu Hne]. cbn [foldl].
  assert (pick q (Some (d, perms)) u = Some (d, perms)) as ->.
  { unfold pick. case_bool_decide as Hq; [|done]. cbn [fst].
    apply Hmost in Hq; [|by left]. destruct (Nat.ltb_spec (length u.1) (length d)) as [|Hl]; [done|].
    destruct Hu. by apply prefix_length_eq. }
  apply IH; [|done]. intros u' Hu'. apply Hmost. by right.
Qed.

Lemma kernel_unveil_law : unveil_law kernel_allows.
Proof.
  unfold kernel_allows. split.
  - intros l1 d perms l2 q m Hq Hmost Hne Hm. rewrite foldl_app. cbn [foldl].
    pose proof (pick_in q l1 None ltac:(done)) as Hb.
    assert (pick q (foldl (pick q) None l1) (d, perms) = Some (d, perms)) as ->.
    { unfold pick. rewrite bool_decide_true by done. destruct (foldl _ None l1) as [b|]; [|done].
      destruct Hb as [[|Hb] Hbq]; [done|]. cbn [fst].
      destruct (Nat.ltb_spec (length d) (length b.1)) as [Hlt|]; [|done].
      assert (b.1 `prefix_of` d) as H%prefix_length by (apply Hmost; [set_solver|done]). lia. }
    rewrite pick_keeps; [by apply bool_decide_true| |done]. intros u Hu. apply Hmost. set_solver.
  - intros l q m. pose proof (pick_in q l None ltac:(done)) as Hb.
    destruct (foldl _ _ l) as [u|]; [|done]. intros Hm%bool_decide_eq_true. destruct Hb as [[|Hu] Hq]; [done|].
    by exists u.
Qed.

(** The configuration without a file, in the directory of an installation. *)
Abbreviation www := [bs "usr"; bs "local"; bs "www"].


(** The directories have to be apart: where the configuration names one that comes later in
    the list for reading only, the pages of the manual can no longer be written. *)
Example static_dir_listed_later :
  let conf := set_static_dir (bs "/var/run") (conf_defaults 4) in
  kernel_allows (unveil_list www (sandbox_calls conf)) (resolve www (bs "/var/run/man/system/1/ls.html")) may_write = false.
Proof. vm_compute. reflexivity. Qed.
