(* ===== verification/Main.v ===== *)
(** * Start and end of the program (src/app_main.c)

    From the command line to the call of the server loop, and what [main] gives back after
    it.  The server in between is Server.v; the signals have no model. *)

From S2P Require Import Prelude ConnectionPool Conf Router Log Template Man ManRender Packages Networking Metrics FileCache MetricsCollect Sandbox.

(** ** Texts *)

Definition dump_line (name value : bytes) : bytes := bs "  " ++ name ++ bs ": " ++ value ++ [lf].

Definition conf_dump (conf : miniweb_conf) : bytes :=
  bs "=== miniweb active configuration ===" ++ [lf] ++
  dump_line (bs "port          ") (fmt_Z (port conf)) ++
  dump_line (bs "bind_addr     ") (bind_addr conf) ++
  dump_line (bs "threads       ") (fmt_Z (threads conf)) ++
  dump_line (bs "max_conns     ") (fmt_Z (max_conns conf)) ++
  dump_line (bs "conn_timeout  ") (fmt_Z (conn_timeout conf)) ++
  dump_line (bs "max_req_size  ") (fmt_Z (max_req_size conf)) ++
  dump_line (bs "mandoc_timeout") (fmt_Z (mandoc_timeout conf)) ++
  dump_line (bs "static_dir    ") (static_dir conf) ++
  dump_line (bs "templates_dir ") (templates_dir conf) ++
  dump_line (bs "autoindex     ") (fmt_Z (autoindex conf)) ++
  dump_line (bs "mandoc_path   ") (mandoc_path conf) ++
  dump_line (bs "trusted_proxy ") (trusted_proxy conf) ++
  dump_line (bs "verbose       ") (fmt_Z (verbose conf)) ++
  dump_line (bs "log_file      ") (match log_file conf with [] => bs "(stderr)" | f => f end) ++
  dump_line (bs "enable_views  ") (fmt_Z (enable_views conf)) ++
  dump_line (bs "enable_metrics") (fmt_Z (enable_metrics conf)) ++
  dump_line (bs "enable_networking") (fmt_Z (enable_networking conf)) ++
  dump_line (bs "enable_man    ") (fmt_Z (enable_man conf)) ++
  dump_line (bs "enable_packages") (fmt_Z (enable_packages conf)) ++
  bs "=====================================" ++ [lf].

Definition usage (prog : bytes) (conf : miniweb_conf) : bytes :=
  bs "Usage: " ++ prog ++ bs " [options]" ++ [lf] ++
  bs "  -f FILE   Config file (default: auto-detect)" ++ [lf] ++
  bs "  -p PORT   Port (default " ++ fmt_Z (port conf) ++ bs ")" ++ [lf] ++
  bs "  -b ADDR   Bind address (default " ++ bind_addr conf ++ bs ")" ++ [lf] ++
  bs "  -t NUM    Worker threads (default " ++ fmt_Z (threads conf) ++ bs ", max " ++
  fmt_Z MINIWEB_THREAD_POOL_SIZE ++ bs ")" ++ [lf] ++
  bs "  -c NUM    Max connections (default " ++ fmt_Z (max_conns conf) ++ bs ")" ++ [lf] ++
  bs "  -l FILE   Log file path (default: stderr)" ++ [lf] ++
  bs "  -v        Verbose" ++ [lf] ++
  bs "  -h        Help" ++ [lf].

(** ** Start *)

(** The variables the handlers read. *)
Record globals := {
  config_verbose : Z;
  config_static_dir : bytes;
  config_templates_dir : bytes;
  config_autoindex : Z
}.

Definition set_globals (conf : miniweb_conf) : globals :=
  {| config_verbose := verbose conf; config_static_dir := strlcpy CONF_STR_MAX (static_dir conf);
     config_templates_dir := strlcpy CONF_STR_MAX (templates_dir conf); config_autoindex := autoindex conf |}.

(** [main] has returned or exited, or is about to run the server, after the
    [calls] that restrict it. *)
Inductive main_result :=
| MainExit (code : Z) (log : log_state)
| MainRun (conf : miniweb_conf) (g : globals) (reg : registry) (templates : tstate) (calls : list sandbox_call)
    (log : log_state).

Definition truthy (n : Z) : bool := negb (n =? 0)%Z.

Section main.
Context (files : bytes → option bytes) (home : option bytes) (cores : Z).
Context (opens : bytes → option bytes) (ts : bytes).
Context (alloc : nat → bool) (clock : nat → Z) (dir : template_dir).
Context (openbsd : bool) (pledge_error : option bytes).

Definition main_log (conf : miniweb_conf) (log : log_state) : log_state :=
  let log := log_set_verbose (truthy (verbose conf)) log in
  let log := log_info ts (bs "MiniWeb starting on " ++ bind_addr conf ++ bs ":" ++ fmt_Z (port conf) ++ bs " (" ++
                          fmt_Z (threads conf) ++ bs " thread(s))") log in
  let log := log_info ts (bs "Static dir: " ++ static_dir conf ++ bs "  Templates dir: " ++ templates_dir conf) log in
  if truthy (verbose conf) then log_put LogStderr (conf_dump conf) log else log.

Definition main_start (opts : list cli_opt) : option main_result :=
  match parse_args files home cores opts with
  | None => None
  | Some (Exit code) => Some (MainExit code log_static)
  | Some (Ok conf) =>
      let g := set_globals conf in
      let '(rc, log) := log_init opens (Some (log_file conf)) (truthy (verbose conf)) log_static in
      if truthy rc then Some (MainExit 1 log)
      else
        let log := main_log conf log in
        let '(rc, templates) := template_cache_init alloc clock dir (config_templates_dir g) template_static in
        if truthy rc then Some (MainExit 1 (log_error ts (bs "template_cache_init failed") log))
        else
          let reg := init_routes (Some conf) empty_registry in
          let log := log_info ts (bs "Routes registered — listening") log in
          let '(calls, log) := miniweb_apply_openbsd_security openbsd pledge_error ts conf log in
          Some (MainRun conf g reg templates calls log)
  end.
End main.

(** ** End *)

Record modules := {
  md_man : man_state;
  md_net : net_state;
  md_met : met_state;
  md_pkg : pkg_state;
  md_files_ready : bool;
  md_files : list file_cache_shard;
  md_templates : tstate;
  md_log : log_state
}.

(** What [main] does after the server loop. *)
Definition main_end (ts : bytes) (m : modules) : modules :=
  {| md_man := (man_module_cleanup (md_man m)).2;
     md_net := (networking_module_cleanup (md_net m)).2;
     md_met := (metrics_module_cleanup (md_met m)).2;
     md_pkg := (packages_cache_cleanup (md_pkg m)).2;
     md_files_ready := md_files_ready m;
     md_files := http_handler_globals_cleanup (md_files_ready m) (md_files m);
     md_templates := (template_cache_cleanup (md_templates m)).2;
     md_log := log_close (log_info ts (bs "MiniWeb shutting down") (md_log m)) |}.

(** ** What a started program can rely on *)

Section templates.
Context (alloc : nat → bool) (clock : nat → Z) (dir : template_dir) (tdir : bytes).

Lemma added_template name path mtime s :
  (add_template_to_cache alloc dir name path mtime s).1 = 0%Z →
  template_cache (add_template_to_cache alloc dir name path mtime s).2 ≠ [].
Proof.
  unfold add_template_to_cache. run_st. destruct (read_file_content _ _ _ s) as [[content|] s1]; [|done].
  destruct (Template.malloc alloc s1) as [ok s2]. destruct ok; cbn [negb]; [|done].
  destruct (Template.strdup alloc name s2) as [[n|] s3]; [|done]. intros _. cbn. by destruct (template_cache s3).
Qed.

(** Templates that were loaded are there. *)
Lemma reload_loop_loads names loaded s :
  (loaded = true → template_cache s ≠ []) →
  (reload_loop alloc dir tdir names loaded s).1 = Some true →
  template_cache (reload_loop alloc dir tdir names loaded s).2 ≠ [].
Proof.
  revert loaded s. induction names as [|n names IH]; intros loaded s Hl; cbn [reload_loop].
  { cbn. intros [= ->]. by apply Hl. }
  destruct (_ || _); [by apply IH|]. destruct (PATH_MAX <=? _); [run_st; by destruct (template_cache_cleanup_locked s)|].
  destruct (dir_stat dir _) as [[regular mtime]|]; [|by apply IH]. destruct regular; cbn [negb]; [|by apply IH].
  run_st. set (path := _ ++ _). pose proof (added_template n path mtime s) as Ha.
  destruct (add_template_to_cache alloc dir n path mtime s) as [rc s1]. cbn [fst snd] in Ha.
  destruct (Z.eqb_spec rc 0) as [->|]; cbn [negb]; [apply IH; auto|]. by destruct (template_cache_cleanup_locked s1).
Qed.

Lemma init_loads s :
  (template_cache_init alloc clock dir tdir s).1 = 0%Z →
  template_cache (template_cache_init alloc clock dir tdir s).2 ≠ [].
Proof.
  unfold template_cache_init, template_cache_reload_locked. run_st.
  destruct (template_cache_cleanup_locked s) as [u s1]. destruct (dir_list dir) as [names|]; [|done].
  pose proof (reload_loop_loads names false s1 ltac:(done)) as Hr.
  destruct (reload_loop alloc dir tdir names false s1) as [[loaded|] s2]; cbn [fst snd] in Hr; [|done].
  unfold Template.time_null, set_last_refresh. run_st. cbn [fst snd]. destruct loaded; [|done]. intros _. by apply Hr.
Qed.
End templates.

(** A log that was opened goes where the path says. *)
Lemma log_init_target opens path verbose s :
  let r := log_init opens (Some path) verbose s in
  r.1 = 0%Z → lg_fp r.2 = Some (match path with [] => LogStderr | f => LogFile f end).
Proof. destruct path as [|c path]; [done|]. unfold log_init. by destruct (opens _). Qed.

Section start.
Context (files : bytes → option bytes) (home : option bytes) (cores : Z) (Hcores : (cores < 2 ^ 31)%Z).
Context (opens : bytes → option bytes) (ts : bytes).
Context (alloc : nat → bool) (clock : nat → Z) (dir : template_dir).
Context (openbsd : bool) (pledge_error : option bytes).

Lemma main_start_state opts :
  match main_start files home cores opens ts alloc clock dir openbsd pledge_error opts with
  | None => False
  | Some (MainExit code _) => code = 0%Z ∨ code = 1%Z
  | Some (MainRun conf g reg templates calls log) =>
      (1 ≤ threads conf ≤ MINIWEB_THREAD_POOL_SIZE)%Z ∧ (0 < max_conns conf ≤ Z.of_nat MINIWEB_MAX_CONNECTIONS)%Z ∧
      (0 < max_req_size conf ≤ Z.of_nat MINIWEB_REQUEST_BUFFER_SIZE)%Z ∧
      config_static_dir g = static_dir conf ∧ config_templates_dir g = templates_dir conf ∧
      reg = init_routes (Some conf) empty_registry ∧ template_cache templates ≠ [] ∧
      calls = (if openbsd then sandbox_calls conf else []) ∧
      lg_fp log = Some (match log_file conf with [] => LogStderr | f => LogFile f end) ∧
      lg_verbose log = truthy (verbose conf)
  end.
Proof.
  unfold main_start. pose proof (parse_args_limits files home cores opts Hcores) as Hargs.
  destruct (parse_args files home cores opts) as [[code|conf]|]; [done| |done].
  destruct Hargs as (Ht & Hc & Hr & _ & _ & _ & Hfit).
  assert (strlcpy CONF_STR_MAX (static_dir conf) = static_dir conf ∧
          strlcpy CONF_STR_MAX (templates_dir conf) = templates_dir conf) as [Hs Htd].
  { unfold conf_fits in Hfit. do 3 apply Forall_cons in Hfit as [? Hfit]. split; by apply strlcpy_id. }
  assert (∀ log, lg_fp (main_log ts conf log) = lg_fp log ∧ lg_verbose (main_log ts conf log) = truthy (verbose conf))
    as Hlog by (intros log; unfold main_log; by destruct (truthy (verbose conf))).
  pose proof (log_init_target opens (log_file conf) (truthy (verbose conf)) log_static) as Hfp.
  destruct (log_init _ _ _ _) as [rc log]. cbn [fst snd] in Hfp. destruct (truthy rc) eqn:Erc; [by right|].
  pose proof (init_loads alloc clock dir (config_templates_dir (set_globals conf)) template_static) as Hload.
  destruct (template_cache_init _ _ _ _ _) as [rc' templates]. cbn [fst snd] in Hload.
  destruct (truthy rc') eqn:Erc'; [by right|].
  assert (∀ n, truthy n = false → n = 0%Z) as Hz by (intros n; unfold truthy; by destruct (Z.eqb_spec n 0)).
  destruct (Hlog log) as [L1 L2]. apply Hz in Erc, Erc'. rewrite (Hfp Erc) in L1.
  pose proof (security_spec openbsd pledge_error ts conf
    (log_info ts (bs "Routes registered — listening") (main_log ts conf log))) as (Hcalls & Hfp' & Hv).
  destruct (miniweb_apply_openbsd_security _ _ _ _ _) as [calls log']. cbn [fst snd] in Hcalls, Hfp', Hv.
  do 6 (split; [done|]). split; [by apply Hload|]. split; [done|]. rewrite Hfp', Hv.
  cbn [log_info log_write log_put lg_fp lg_verbose]. rewrite L1, L2. by destruct (log_file conf).
Qed.
(** C27. The start always ends: the program exits with 0 or 1, or runs the server with limits the
    server can rely on, the directories of the configuration whole, the routes of the enabled
    modules, at least one template, on OpenBSD the sandbox around these directories, and the log
    where the configuration says. *)
Theorem main_start_spec opts :
  match main_start files home cores opens ts alloc clock dir openbsd pledge_error opts with
  | None => False
  | Some (MainExit code _) => code = 0%Z ∨ code = 1%Z
  | Some (MainRun conf g reg templates calls log) =>
      (1 ≤ threads conf ≤ MINIWEB_THREAD_POOL_SIZE)%Z ∧ (0 < max_conns conf ≤ Z.of_nat MINIWEB_MAX_CONNECTIONS)%Z ∧
      (0 < max_req_size conf ≤ Z.of_nat MINIWEB_REQUEST_BUFFER_SIZE)%Z ∧
      config_static_dir g = static_dir conf ∧ config_templates_dir g = templates_dir conf ∧
      reg = init_routes (Some conf) empty_registry ∧ template_cache templates ≠ [] ∧
      calls = (if openbsd then sandbox_calls conf else []) ∧
      lg_fp log = Some (match log_file conf with [] => LogStderr | f => LogFile f end) ∧
      lg_verbose log = truthy (verbose conf)
  end.
Proof. apply main_start_state. Qed.
End start.

(** The program of the repository's configuration, with one template. *)
Definition example_dir : template_dir :=
  {| dir_list := Some [bs "base.html"]; dir_stat := λ _, Some (true, 5%Z);
     dir_open := λ _, Some {| io_seek_end := true; io_tell := 2; io_seek_set := true; io_data := bs "ok";
                              io_error := false |} |}.

Lemma main_start_spec_witness :
  match main_start example_files None 4 (λ _, None) (bs "2023-11-14 22:13:20") (λ _, true) (λ _, 9%Z) example_dir
    true None [] with
  | Some (MainRun conf g reg templates calls log) =>
      threads conf = 32%Z ∧ config_static_dir g = static_dir conf ∧ template_cache templates ≠ [] ∧
      length calls = 22 ∧ lg_fp log = Some LogStderr
  | _ => False
  end.
Proof.
  pose proof (main_start_spec example_files None 4 ltac:(reflexivity) (λ _, None) (bs "2023-11-14 22:13:20") (λ _, true)
    (λ _, 9%Z) example_dir true None []) as H.
  assert (match main_start example_files None 4 (λ _, None) (bs "2023-11-14 22:13:20") (λ _, true) (λ _, 9%Z) example_dir
            true None [] with Some (MainRun conf _ _ _ _ _) => (threads conf, log_file conf) | _ => (0%Z, []) end = (32%Z, [])) as E
    by (vm_compute; reflexivity).
  destruct (main_start _ _ _ _ _ _ _ _ _ _ _) as [[|conf g reg templates calls log]|]; [discriminate E| |discriminate E].
  injection E as E1 E2. destruct H as (_ & _ & _ & Hs & _ & _ & Ht & -> & Hl & _). rewrite E2 in Hl. auto.
Defined.

(** [-h] prints the defaults before they are set. *)
Definition zero_conf : miniweb_conf := MiniwebConf 0 [] 0 0 0 0 0 [] [] 0 [] [] 0 [] 0 0 0 0 0.

Example usage_shows_no_defaults :
  is_prefix (bs "  -p PORT   Port (default 0)" ++ [lf] ++ bs "  -b ADDR   Bind address (default )")
    (drop 72 (usage (bs "miniweb") zero_conf)) = true.
Proof. vm_compute. reflexivity. Qed.

(** ** What the end gives back *)

(** No module holds a buffer. *)
Record released (m : modules) : Prop := {
  rel_man : Forall (Forall (λ s, ms_body s = None)) (mn_cache (md_man m));
  rel_net : nr_buf (ng_ring (md_net m)) = None;
  rel_met : mt_json (md_met m) = None ∧ mr_buf (mt_ring (md_met m)) = None;
  rel_pkg : pr_buf (pk_ring (md_pkg m)) = None;
  rel_files : Forall (λ sh, Forall (λ e, fe_data e = None) (fs_entries sh)) (md_files m);
  rel_templates : template_cache (md_templates m) = [];
  rel_log : lg_fp (md_log m) = None
}.

(** The caches that clean-ups leave alone are those that were never set up. *)
Record set_up (m : modules) : Prop := {
  su_man : mn_cache_initialized (md_man m) = false → Forall (Forall (λ s, ms_body s = None)) (mn_cache (md_man m));
  su_met : mt_ring_ready (md_met m) = false → mr_buf (mt_ring (md_met m)) = None;
  su_files : md_files_ready m = false → Forall (λ sh, Forall (λ e, fe_data e = None) (fs_entries sh)) (md_files m)
}.

Theorem main_end_releases ts m : set_up m → released (main_end ts m).
Proof.
  intros [H1 H2 H3]. destruct m as [man net met pkg fr files tpl log]. cbn in H1, H2, H3.
  split; cbn [main_end md_man md_net md_met md_pkg md_files md_templates md_log].
  - unfold man_module_cleanup, man_render_cache_cleanup. run_st. destruct (mn_cache_initialized man); [|by apply H1].
    cbn [snd ManRender.set_cache mn_cache]. apply Forall_fmap, Forall_true. intros shard.
    apply Forall_fmap, Forall_true. done.
  - unfold networking_module_cleanup. run_st. cbn [snd]. by destruct (nr_buf (ng_ring net)) eqn:E.
  - unfold metrics_module_cleanup. run_st. cbn [snd set_snapshot mt_ring_ready].
    destruct (mt_ring_ready met); cbn; [done|]. split; [done|by apply H2].
  - unfold packages_cache_cleanup, pkg_ring_free. run_st. by destruct (pr_buf (pk_ring pkg)) eqn:E.
  - unfold http_handler_globals_cleanup. destruct fr; [|by apply H3]. apply Forall_fmap, Forall_true. intros sh.
    cbn. apply Forall_fmap, Forall_true. done.
  - done.
  - done.
Qed.
