(* ===== verification/Site.v ===== *)
(** * The program's handlers behind the workers (src/router/route_table.c and the modules)

    The handlers the routes name, over the states of all modules, as the workers of Worker.v
    and Server.v run them.  They keep the contract of handlers, so that what Server.v and
    Session.v prove of any handlers holds of the program: the response objects are given
    back in every reachable state, and a client of a connection that stays open reads one
    response for each of its requests. *)

From S2P Require Import Prelude ConnectionPool Conf Router ResponsePool HttpResponse FileCache Files StaticAnswers.
From S2P Require Import WorkQueue Worker Server Session Template Packages Man ManRender ManHandlers Networking NetworkingHandlers.
From S2P Require Import MetricsCollect MetricsJson MetricsProcess Metrics MetricsRun MetricsHandlers Main.

(** ** The state and the environment *)

(** The state of the modules; the world is in [st_files]. *)
Record site := Site {
  st_files : hstate;
  st_templates : tstate;
  st_hot : list hot_view_cache_entry;
  st_man : man_state;
  st_pkg : pkg_state;
  st_net : net_state;
  st_met : met_state
}.

Definition set_files (h : hstate) (s : site) : site :=
  {| st_files := h; st_templates := st_templates s; st_hot := st_hot s; st_man := st_man s; st_pkg := st_pkg s;
     st_net := st_net s; st_met := st_met s |}.

#[export] Instance site_state : HandlerState site :=
  {| hworld s := hs_world (st_files s); set_hworld w s := set_files (set_hworld w (st_files s)) s;
     hworld_set _ _ := eq_refl |}.

(** What the system answers to the handlers. *)
Record site_env := {
  se_clock : nat → Z;
  se_fs : filesystem;
  se_template_alloc : nat → bool; se_template_clock : nat → Z; se_template_dir : template_dir;
  se_man_alloc : nat → bool; se_man_run : nat → bytes → list bytes → Z → Z → option bytes;
  se_readable : bytes → bool; se_readdir : bytes → option (list dirent);
  se_man_clock : nat → Z; se_sem : nat → bool; se_io : nat → bool; se_wr : nat → nat → nat;
  se_pkg_alloc : nat → bool; se_pkg_clock : nat → Z;
  se_pkg_run : nat → bytes → list bytes → Z → Z → option bytes; se_shell : nat → bytes → option bytes;
  se_net : net_env;
  se_met : metrics_env
}.

Section site.
Context (env : site_env) (g : globals) (k : kernel) (fuel : nat) (rconf : option miniweb_conf) (reg0 : registry).

Abbreviation reg := (init_routes rconf reg0).

(** ** The handlers *)

(** The end of a handler of a module: [put] stores the state of the module. *)
Definition module_reply {S} (keep : bool) (put : S → site → site) (s : site) (r : option (Z * world) * S)
    : handled site :=
  reply keep (put r.2 s) r.1.

Definition set_man (m : man_state) (s : site) : site :=
  {| st_files := st_files s; st_templates := st_templates s; st_hot := st_hot s; st_man := m; st_pkg := st_pkg s;
     st_net := st_net s; st_met := st_met s |}.
Definition set_pkg (p : pkg_state) (s : site) : site :=
  {| st_files := st_files s; st_templates := st_templates s; st_hot := st_hot s; st_man := st_man s; st_pkg := p;
     st_net := st_net s; st_met := st_met s |}.
Definition set_net (n : net_state) (s : site) : site :=
  {| st_files := st_files s; st_templates := st_templates s; st_hot := st_hot s; st_man := st_man s;
     st_pkg := st_pkg s; st_net := n; st_met := st_met s |}.
Definition set_met (m : met_state) (s : site) : site :=
  {| st_files := st_files s; st_templates := st_templates s; st_hot := st_hot s; st_man := st_man s;
     st_pkg := st_pkg s; st_net := st_net s; st_met := m |}.

(** A file handler on the state. *)
Definition files_reply (s : site) (r : hresult) : handled site :=
  match r with Some (rc, keep, h) => Some (rc, keep, set_files h s) | None => None end.

(** What a handler of the packages does; the process is gone after a crash. *)
Definition no_crash (r : option api_outcome) : option (Z * world) :=
  match r with Some (ApiDone rc w) => Some (rc, w) | _ => None end.

(** The handler of a route, as a worker calls it; [None] while a write is blocked, and when
    the process has died. *)
Definition site_handler (tid : Z) (h : route_handler) (req : http_request) (s : site) : handled site :=
  let w := hworld s in
  let now := se_clock env (w_time w) in
  let keep := req_keep_alive req in
  match h with
  | Hview_template =>
      match view_template_handler (se_template_alloc env) (se_template_clock env) (se_template_dir env)
              (config_templates_dir g) k fuel tid reg req now
              {| vs_world := w; vs_templates := st_templates s; vs_hot := st_hot s |} with
      | None => None
      | Some (rc, v) =>
          Some (rc, keep, {| st_files := set_hworld (vs_world v) (st_files s); st_templates := vs_templates v;
                             st_hot := vs_hot v; st_man := st_man s; st_pkg := st_pkg s; st_net := st_net s;
                             st_met := st_met s |})
      end
  | Hfavicon =>
      files_reply s (favicon_handler k fuel tid reg (se_fs env) now (config_static_dir g) req (st_files s))
  | Hstatic =>
      files_reply s (static_handler k fuel tid reg (se_fs env) now (config_static_dir g) (config_autoindex g) req
                       (st_files s))
  | Hmetrics => module_reply keep set_met s (metrics_handler (se_met env) k fuel tid reg req w (st_met s))
  | Hnetworking_api =>
      module_reply keep set_net s (networking_api_handler (se_net env) k fuel tid reg req w (st_net s))
  | Hman_render =>
      module_reply keep set_man s
        (man_render_handler (se_man_alloc env) (se_man_run env) (se_readable env) (se_man_clock env) (se_sem env)
           (config_static_dir g) (se_io env) (se_wr env) k fuel tid reg req w (st_man s))
  | Hman_api =>
      module_reply keep set_man s
        (man_api_handler (se_man_alloc env) (se_man_run env) (se_readable env) (se_readdir env) k fuel tid reg req w
           (st_man s))
  | Hpkg_api =>
      let '(r, p) := pkg_api_handler (se_pkg_alloc env) (se_pkg_clock env) (se_pkg_run env) (se_shell env)
                       k fuel tid reg req w (st_pkg s) in
      module_reply keep set_pkg s (no_crash r, p)
  end.

(** ** Every response object is given back *)

Lemma man_api_build_shard path json r : pool_shard_idx (man_api_build path json r) = pool_shard_idx r.
Proof. unfold man_api_build. cbn. by rewrite add_header_shard. Qed.

Lemma pkg_build_shard json r : pool_shard_idx (pkg_build json r) = pool_shard_idx r.
Proof. unfold pkg_build. cbn. by rewrite add_header_shard. Qed.

Lemma networking_build_shard json r : pool_shard_idx (networking_build_response json r) = pool_shard_idx r.
Proof. unfold networking_build_response. cbn. by rewrite add_header_shard. Qed.

Lemma metrics_build_shard json r : pool_shard_idx (metrics_response json r) = pool_shard_idx r.
Proof. unfold metrics_response. cbn. by rewrite !add_header_shard. Qed.

(** A reply that gives back its response objects. *)
Definition balanced (w : world) (r : option (Z * world)) : Prop :=
  ∀ rc w' live, store_wf live (w_store w) → r = Some (rc, w') → store_wf live (w_store w').

Lemma error_balanced tid req code msg w : balanced w (http_send_error k fuel tid reg req code msg w).
Proof. intros rc w' live. apply http_send_error_store. Qed.

Lemma respond_is_balanced tid req build w :
  (∀ r, pool_shard_idx (build r) = pool_shard_idx r) → balanced w (respond k fuel tid req build w).
Proof. intros Hb rc w' live. by apply respond_balanced. Qed.

(** An error page after the test that there is no memory for a response. *)
Lemma no_memory_balanced tid req code msg w resp st :
  http_response_create tid (k_calloc k (w_time w)) (w_store w) = (resp, st) → resp = None →
  balanced w (http_send_error k fuel tid reg req code msg
                {| w_store := st; w_time := S (w_time w); w_wire := w_wire w |}).
Proof.
  intros E -> rc w' live Hwf. pose proof (create_spec live (w_store w) tid (k_calloc k (w_time w)) Hwf) as Hc.
  rewrite E in Hc. apply http_send_error_store. apply Hc.
Qed.

Lemma man_render_balanced tid req w s :
  balanced w (man_render_handler (se_man_alloc env) (se_man_run env) (se_readable env) (se_man_clock env)
    (se_sem env) (config_static_dir g) (se_io env) (se_wr env) k fuel tid reg req w s).1.
Proof.
  unfold man_render_handler. destruct (man_route _) as [p|msg]; run_st; [|apply error_balanced].
  destruct (page_body _ _ _ _ _ _ _ _ _ _) as [[text|] s1]; cbn [fst];
    [apply respond_is_balanced, man_build_shard|apply error_balanced].
Qed.

Lemma man_api_balanced tid req w s :
  balanced w (man_api_handler (se_man_alloc env) (se_man_run env) (se_readable env) (se_readdir env)
    k fuel tid reg req w s).1.
Proof.
  unfold man_api_handler. destruct (strstr _ _); run_st; [|apply error_balanced].
  destruct (man_api_text _ _ _ _ _ _ _) as [[text|] s1]; [|apply error_balanced].
  destruct (http_response_create _ _ _) as [[p|] st] eqn:E; cbn [fst];
    [apply respond_is_balanced, man_api_build_shard|by eapply no_memory_balanced].
Qed.

Lemma networking_balanced tid req w s :
  balanced w (networking_api_handler (se_net env) k fuel tid reg req w s).1.
Proof.
  unfold networking_api_handler. run_st. destruct (networking_get_json _ s) as [[text|] s1]; [|apply error_balanced].
  destruct (http_response_create _ _ _) as [[p|] st] eqn:E; cbn [fst];
    [apply respond_is_balanced, networking_build_shard|by eapply no_memory_balanced].
Qed.

Lemma metrics_balanced tid req w s : balanced w (metrics_handler (se_met env) k fuel tid reg req w s).1.
Proof.
  unfold metrics_handler. run_st. destruct (get_system_metrics_json _ s) as [[text|] s1]; [|apply error_balanced].
  destruct (http_response_create _ _ _) as [[p|] st] eqn:E; cbn [fst];
    [apply respond_is_balanced, metrics_build_shard|by eapply no_memory_balanced].
Qed.

Lemma no_crash_done r : no_crash (api_done r) = r.
Proof. by destruct r as [[rc w]|]. Qed.

Lemma pkg_balanced tid req w s :
  balanced w (no_crash (pkg_api_handler (se_pkg_alloc env) (se_pkg_clock env) (se_pkg_run env) (se_shell env)
    k fuel tid reg req w s).1).
Proof.
  unfold pkg_api_handler. destruct (pkg_route _) as [r|[code msg]]; run_st; cbn [fst];
    [|rewrite no_crash_done; apply error_balanced].
  destruct (pkg_answer _ _ _ _ _ _) as [[json|] s1]; cbn [fst]; [|rewrite no_crash_done; apply error_balanced].
  unfold send_answer. destruct (http_response_create _ _ _).1; [|done]. rewrite no_crash_done.
  apply respond_is_balanced, pkg_build_shard.
Qed.

Lemma module_balanced {S} keep0 (put : S → site → site) s r rc keep s' live :
  balanced (hworld s) r.1 → store_wf live (w_store (hworld s)) →
  module_reply keep0 put s r = Some (rc, keep, s') → store_wf live (w_store (hworld s')).
Proof.
  intros Hb Hwf H. apply reply_store in H as (w & H & -> & _). by eapply Hb.
Qed.

(** ** The contract *)

Context (Hk : KernelLaws k) (Hfs : FsLaws (se_fs env)).

Lemma files_reply_inv s r rc keep s' live :
  (∀ rc keep h, r = Some (rc, keep, h) → answered live (st_files s) rc keep h) →
  files_reply s r = Some (rc, keep, s') →
  ∃ h, s' = set_files h s ∧ answered live (st_files s) rc keep h.
Proof. destruct r as [[[rc0 keep0] h]|]; [|done]. intros H [= <- <- <-]. exists h. eauto. Qed.

#[local] Hint Resolve man_render_balanced man_api_balanced networking_balanced metrics_balanced : site.

#[export] Instance site_laws : HandlerLaws (site_handler).
Proof.
  split. intros tid h req s rc keep s' live Hwf. destruct h; cbn [site_handler].
  - destruct (view_template_handler _ _ _ _ _ _ _ _ _ _ _) as [[rc0 v]|] eqn:E; [|done]. intros [= _ _ <-].
    eapply view_template_handler_sends in E; [|exact Hwf].
    destruct (view_content _ _ _ _ _ _ _ _ _) as [[a hot] t]. by destruct E as (_ & _ & ? & _).
  - intros (h & -> & Ha)%(files_reply_inv _ _ _ _ _ live); [apply Ha|]. by apply favicon_answers.
  - intros (h & -> & Ha)%(files_reply_inv _ _ _ _ _ live); [apply Ha|]. by apply static_answers.
  - apply module_balanced; auto with site.
  - apply module_balanced; auto with site.
  - apply module_balanced; auto with site.
  - apply module_balanced; auto with site.
  - pose proof (pkg_balanced tid req (hworld s) (st_pkg s)) as Hb.
    destruct (pkg_api_handler _ _ _ _ _ _ _ _ _ _ _) as [r p]. by apply module_balanced.
Qed.

(** The text of an answer whose length no buffer of the program bounds. *)
Definition site_text (h : route_handler) (req : http_request) (s : site) : option bytes :=
  let now := se_clock env (w_time (hworld s)) in
  match h with
  | Hview_template =>
      match (view_content (se_template_alloc env) (se_template_clock env) (se_template_dir env)
               (config_templates_dir g) (req_method req) (req_url req) now (st_hot s) (st_templates s)).1.1 with
      | ViewCached b | ViewRendered b => Some b
      | ViewError _ _ => None
      end
  | Hnetworking_api => (networking_get_json (se_net env) (st_net s)).1
  | Hman_render =>
      match man_route (req_url req) with
      | inl p => (page_body (se_man_alloc env) (se_man_run env) (se_readable env) (se_man_clock env) (se_sem env)
                    (config_static_dir g) (se_io env) (se_wr env) p (st_man s)).1
      | inr _ => None
      end
  | Hman_api =>
      match strstr (req_url req) (bs "/api/man") with
      | Some i => (man_api_text (se_man_alloc env) (se_man_run env) (se_readable env) (se_readdir env)
                     (req_url req) (drop (i + 8) (req_url req)) (st_man s)).1
      | None => None
      end
  | Hpkg_api =>
      match pkg_route (req_url req) with
      | inl r => (pkg_answer (se_pkg_alloc env) (se_pkg_clock env) (se_pkg_run env) (se_shell env) r (st_pkg s)).1
      | inr _ => None
      end
  | Hfavicon | Hstatic | Hmetrics => None
  end.

(** Its length has at most twenty digits, as every [size_t] has. *)
Definition site_fits (h : route_handler) (req : http_request) (s : site) : Prop :=
  ∀ text, site_text h req s = Some text → (Z.of_nat (length text) < 10 ^ 20)%Z.

Context (Hmenv : menv_ok (se_met env)) (freq : Z) (Hfreq : int32 freq).

Definition site_inv (s : site) : Prop :=
  cache_empty (hs_cache (st_files s)) ∧ ∃ cleaned, state_inv (se_met env) freq cleaned (st_met s).

(** A reply that delivers some body. *)
Definition delivered (live : resp_ptr → Prop) (w : world) (r : option (Z * world)) : Prop :=
  ∀ rc w', r = Some (rc, w') → ∃ b, delivers live b w rc w'.

Lemma module_framed {S} keep0 (put : S → site → site) s r rc keep s' live :
  delivered live (hworld s) r.1 → module_reply keep0 put s r = Some (rc, keep, s') →
  framed (hworld s) rc keep (hworld s').
Proof.
  intros Hd H. apply reply_store in H as (w & H & -> & _).
  destruct (Hd rc w H) as [b Hb]. by eapply delivers_framed.
Qed.

Section delivered.
Context (tid : Z) (req : http_request) (s : site) (live : resp_ptr → Prop).
Context (Hwf : store_wf live (w_store (hworld s))).

Lemma man_render_delivered :
  site_fits Hman_render req s →
  delivered live (hworld s)
    (man_render_handler (se_man_alloc env) (se_man_run env) (se_readable env) (se_man_clock env) (se_sem env)
       (config_static_dir g) (se_io env) (se_wr env) k fuel tid reg req (hworld s) (st_man s)).1.
Proof.
  intros Hfit rc w' H. destruct (man_render_handler _ _ _ _ _ _ _ _ _ _ _ _ _ _ _) as [r s'] eqn:E.
  cbn [fst] in H. subst r. eapply man_render_handler_answers in E; [|exact Hwf|].
  - destruct (man_route _) as [p|msg]; [destruct E as [_ E]|destruct E as [E _]; eauto].
    destruct (page_body _ _ _ _ _ _ _ _ _ _).1; eauto.
  - intros p text Hp Ht. apply Hfit. cbn [site_text]. by rewrite Hp.
Qed.

Lemma man_api_delivered :
  site_fits Hman_api req s →
  delivered live (hworld s)
    (man_api_handler (se_man_alloc env) (se_man_run env) (se_readable env) (se_readdir env) k fuel tid reg req
       (hworld s) (st_man s)).1.
Proof.
  intros Hfit rc w' H. destruct (man_api_handler _ _ _ _ _ _ _ _ _ _ _) as [r s'] eqn:E.
  cbn [fst] in H. subst r. eapply man_api_handler_answers in E; [|exact Hwf|].
  - destruct (strstr _ _) as [i|]; [destruct E as [_ E]|destruct E as [E _]; eauto].
    destruct (man_api_text _ _ _ _ _ _ _).1; [case_decide|]; eauto.
  - intros i text Hi Ht. apply Hfit. cbn [site_text]. by rewrite Hi.
Qed.

Lemma networking_delivered :
  site_fits Hnetworking_api req s →
  delivered live (hworld s) (networking_api_handler (se_net env) k fuel tid reg req (hworld s) (st_net s)).1.
Proof.
  intros Hfit rc w' H. destruct (networking_api_handler _ _ _ _ _ _ _ _) as [r s'] eqn:E.
  cbn [fst] in H. subst r. eapply networking_api_handler_answers in E as [_ E]; [|exact Hwf|exact Hfit].
  destruct (networking_get_json _ _).1; [case_decide|]; eauto.
Qed.

Lemma pkg_delivered :
  site_fits Hpkg_api req s →
  delivered live (hworld s)
    (no_crash (pkg_api_handler (se_pkg_alloc env) (se_pkg_clock env) (se_pkg_run env) (se_shell env) k fuel tid reg
       req (hworld s) (st_pkg s)).1).
Proof.
  intros Hfit rc w' H. destruct (pkg_api_handler _ _ _ _ _ _ _ _ _ _ _) as [[out|] s'] eqn:E; [|done].
  eapply pkg_api_handler_answers in E; [|exact Hwf|].
  - cbn [fst] in H. destruct (pkg_route _) as [r|[code msg]].
    + destruct (pkg_answer _ _ _ _ _ _).1; [case_decide; [by subst|]|];
        destruct E as (rc0 & w0 & -> & ?); injection H as <- <-; eauto.
    + destruct E as (rc0 & w0 & -> & ?). injection H as <- <-. eauto.
  - intros r json Hr Ht. apply Hfit. cbn [site_text]. by rewrite Hr.
Qed.

Lemma metrics_delivered cleaned :
  state_inv (se_met env) freq cleaned (st_met s) →
  let r := metrics_handler (se_met env) k fuel tid reg req (hworld s) (st_met s) in
  delivered live (hworld s) r.1 ∧ (r.1 ≠ None → state_inv (se_met env) freq cleaned r.2).
Proof.
  intros Hinv. cbv zeta. destruct (metrics_handler _ _ _ _ _ _ _ _) as [[[rc0 w0]|] s'] eqn:E; cbn [fst snd].
  2: { split; [by intros ???|done]. }
  eapply metrics_handler_sends in E; [|done..].
  destruct (get_system_metrics_json _ _) as [answer s1]. destruct E as (_ & Hinv' & _ & E).
  split; [|done]. intros rc w' [= <- <-]. destruct answer; [destruct E as [_ E]; case_decide|]; eauto.
Qed.
End delivered.

Lemma view_error_ok method url now hot t code msg hot' t' :
  view_content (se_template_alloc env) (se_template_clock env) (se_template_dir env) (config_templates_dir g)
    method url now hot t = (ViewError code msg, hot', t') →
  (0 ≤ code < 1000)%Z ∧ length msg ≤ 1024.
Proof.
  assert (∀ m : bytes, (length m <=? 64) = true → length m ≤ 1024) as Hm by (intros m H%Nat.leb_le; lia).
  unfold view_content. repeat case_match; intros E; try discriminate E;
    injection E as <- <- _ _; (split; [lia|by apply Hm]).
Qed.

Lemma view_framed tid req s rc keep s' live :
  store_wf live (w_store (hworld s)) → site_fits Hview_template req s →
  site_handler tid Hview_template req s = Some (rc, keep, s') → framed (hworld s) rc keep (hworld s').
Proof.
  intros Hwf Hfit. unfold site_fits in Hfit. cbn [site_text site_handler] in *.
  destruct (view_template_handler _ _ _ _ _ _ _ _ _ _ _) as [[rc0 v]|] eqn:E; [|done]. intros [= <- <- <-].
  eapply view_template_handler_sends in E; [|exact Hwf]. cbn [vs_hot vs_templates vs_world] in E.
  destruct (view_content _ _ _ _ _ _ _ _ _) as [[a hot] t] eqn:Ev. destruct E as (_ & _ & _ & E).
  cbn [fst] in Hfit. destruct a as [b|b|code msg].
  - eapply delivers_framed, E. by apply Hfit.
  - eapply delivers_framed, E. by apply Hfit.
  - destruct (view_error_ok _ _ _ _ _ _ _ _ _ Ev). eapply delivers_framed, error_delivers, E; [exact Hwf|done..].
Qed.

Lemma module_state {S} keep0 (put : S → site → site) s r rc keep s' :
  module_reply keep0 put s r = Some (rc, keep, s') → ∃ w, r.1 = Some (rc, w) ∧ s' = set_hworld w (put r.2 s).
Proof. unfold module_reply, reply. destruct r.1 as [[rc0 w]|]; [|done]. intros [= <- _ <-]. by exists w. Qed.

#[export] Instance site_answers : HandlerAnswers site_inv site_fits site_handler.
Proof.
  split; [done|..].
  - intros tid h req s rc keep s' live Hi Hwf. pose proof Hi as [Hc (cleaned & Hm)].
    destruct h; cbn [site_handler].
    + destruct (view_template_handler _ _ _ _ _ _ _ _ _ _ _) as [[rc0 v]|]; [|done]. by intros [= _ _ <-].
    + intros (h & -> & Ha)%(files_reply_inv _ _ _ _ _ live); [|by apply favicon_answers].
      split; [by apply Ha|by exists cleaned].
    + intros (h & -> & Ha)%(files_reply_inv _ _ _ _ _ live); [|by apply static_answers].
      split; [by apply Ha|by exists cleaned].
    + pose proof (metrics_delivered tid req s live Hwf cleaned Hm) as [_ Hkeep].
      intros (w & Hw & ->)%module_state. split; [done|]. exists cleaned. apply Hkeep. by rewrite Hw.
    + intros (w & _ & ->)%module_state. done.
    + intros (w & _ & ->)%module_state. done.
    + intros (w & _ & ->)%module_state. done.
    + destruct (pkg_api_handler _ _ _ _ _ _ _ _ _ _ _) as [r p]. intros (w & _ & ->)%module_state. done.
  - intros tid h req s rc keep s' live [Hc (cleaned & Hm)] Hwf Hfit.
    destruct h; [by eapply view_framed, Hfit|cbn [site_handler]..].
    + intros (h & -> & Ha)%(files_reply_inv _ _ _ _ _ live); [by apply Ha|by apply favicon_answers].
    + intros (h & -> & Ha)%(files_reply_inv _ _ _ _ _ live); [by apply Ha|by apply static_answers].
    + apply (module_framed _ _ _ _ _ _ _ live). by apply (metrics_delivered tid req s live Hwf cleaned).
    + apply (module_framed _ _ _ _ _ _ _ live). by apply networking_delivered.
    + apply (module_framed _ _ _ _ _ _ _ live). by apply man_render_delivered.
    + apply (module_framed _ _ _ _ _ _ _ live). by apply man_api_delivered.
    + pose proof (pkg_delivered tid req s live Hwf Hfit) as Hd.
      destruct (pkg_api_handler _ _ _ _ _ _ _ _ _ _ _) as [r p].
      by apply (module_framed _ _ _ _ _ _ _ live).
Qed.

(** ** From the start of the program *)

Definition site_start (templates : tstate) : site :=
  {| st_files := {| hs_world := {| w_store := initial_store; w_time := 0; w_wire := [] |};
                    hs_cache := file_cache_init_shards |};
     st_templates := templates; st_hot := initial_hot; st_man := man_static; st_pkg := pkg_static;
     st_net := net_static; st_met := met_static freq |}.

Lemma start_handlers_ok templates : handlers_ok site_inv (site_start templates).
Proof.
  split; [split; [apply init_cache_empty|]|apply initial_store_wf]. exists false. by apply static_inv.
Qed.
End site.


(** ** One client of the program *)

(** Without static files. *)
Definition no_files : filesystem :=
  {| fs_stat _ := None; fs_open _ := None; fs_readable _ := false; fs_readdir _ := None |}.

#[export] Instance no_files_laws : FsLaws no_files.
Proof. split; [done|]. intros p names H. discriminate H. Qed.

Definition demo_env : site_env :=
  {| se_clock _ := 9%Z; se_fs := no_files; se_template_alloc _ := true; se_template_clock _ := 9%Z;
     se_template_dir := example_dir; se_man_alloc _ := true; se_man_run := sample_run; se_readable _ := true;
     se_readdir _ := None; se_man_clock := Z.of_nat; se_sem _ := true; se_io _ := true; se_wr _ n := n;
     se_pkg_alloc _ := true; se_pkg_clock := Z.of_nat; se_pkg_run _ _ _ _ _ := Some (bs "vim-9.1");
     se_shell _ _ := None; se_net := sample_env true; se_met := sample_menv |}.

Definition demo_start : option main_result :=
  main_start example_files None 4 (λ _, None) (bs "2023-11-14 22:13:20") (λ _, true) (λ _, 9%Z) example_dir true None [].

Definition demo_conf : miniweb_conf :=
  match demo_start with Some (MainRun conf _ _ _ _ _) => conf | _ => zero_conf end.
Definition demo_globals : globals :=
  match demo_start with Some (MainRun _ g _ _ _ _) => g | _ => set_globals zero_conf end.
Definition demo_templates : tstate :=
  match demo_start with Some (MainRun _ _ _ t _ _) => t | _ => template_static end.

Abbreviation demo_handlers := (site_handler demo_env demo_globals eager_kernel 5 (Some demo_conf) empty_registry).
Abbreviation demo_reg := (init_routes (Some demo_conf) empty_registry).
Definition demo_init : sys (work_queue nat) site := sys_init 100 (site_start 2400 demo_templates).

(** The client connects ... *)
Definition demo_accepted : wstate site :=
  default (sv_w (sy_server demo_init))
    (accept_one 4 (λ _, 0%Z) eager_kernel 5 3 demo_reg demo_conf 5 zero_sockaddr 101 true (sv_w (sy_server demo_init))).

(** ... and asks for the packages. *)
Definition demo_recv (t n : nat) : recv_ret :=
  let text := bs "GET /api/packages/list HTTP/1.1" ++ crlf ++ crlf in
  if (t =? 0) && (length text <=? n) then RecvData text else RecvErr EAGAIN.

Definition demo_answered : wstate site :=
  default demo_accepted
    (worker_iteration demo_recv (λ _, true) (λ _, 102%Z) eager_kernel 5 3 demo_reg demo_conf demo_handlers 0 0 demo_accepted).

Lemma demo_started :
  ∃ calls log, demo_start = Some (MainRun demo_conf demo_globals demo_reg demo_templates calls log).
Proof.
  assert (match demo_start with Some (MainRun _ _ _ _ _ _) => true | _ => false end = true) as H
    by (vm_compute; reflexivity).
  pose proof (main_start_state example_files None 4 ltac:(reflexivity) (λ _, None) (bs "2023-11-14 22:13:20") (λ _, true)
    (λ _, 9%Z) example_dir true None []) as Hs. fold demo_start in Hs.
  unfold demo_conf, demo_globals, demo_templates. destruct demo_start as [[|conf g reg templates calls log]|]; [done| |done].
  destruct Hs as (_ & _ & _ & _ & _ & -> & _). by exists calls, log.
Qed.

Lemma demo_connected : ws_actions demo_accepted = [SetFlags 5 4; KEventAdd 5 0] ∧
  conn_fd (cp_pool (ws_pool demo_accepted) !!! 0) = 5%Z ∧ w_wire (hworld (ws_h demo_accepted)) = [].
Proof. split_and!; vm_compute; reflexivity. Qed.

Lemma demo_counted :
  ws_actions demo_answered = ws_actions demo_accepted ++ [KEventEnable 5 0] ∧
  conn_requests_served (cp_pool (ws_pool demo_accepted) !!! 0) = 0%Z ∧
  conn_requests_served (cp_pool (ws_pool demo_answered) !!! 0) = 1%Z.
Proof. split_and!; vm_compute; reflexivity. Qed.

Abbreviation demo_step :=
  (sys_step 4 (λ _, 0%Z) eager_kernel 5 demo_reg demo_conf demo_handlers).

Lemma demo_accepts :
  accept_one 4 (λ _, 0%Z) eager_kernel 5 3 demo_reg demo_conf 5 zero_sockaddr 101 true (sv_w (sy_server demo_init))
  = Some demo_accepted.
Proof.
  unfold demo_accepted. destruct (accept_one _ _ _ _ _ _ _ _ _ _ _ _) eqn:E; [done|].
  apply (f_equal (λ o, match o with Some _ => true | None => false end)) in E. vm_compute in E. discriminate E.
Qed.

Lemma demo_reached : ∃ s, rtc demo_step demo_init s ∧ sv_w (sy_server s) = demo_accepted.
Proof.
  set (acc := Accepted 5 zero_sockaddr 101 true).
  set (tn := {| tn_ret := KEvents [EvListen [acc]]; tn_now := 100; tn_sweep := 100; tn_swept := 100 |}).
  eexists. split.
  - eapply rtc_l; [apply (step_wait _ _ _ _ _ _ _ demo_init tn [EvListen [acc]]); [done|done|done|by repeat constructor]|].
    eapply rtc_l; [|apply rtc_refl].
    eapply (step_accepted _ _ _ _ _ _ _ _ 5 zero_sockaddr 101 true [] [] 3 demo_accepted); [reflexivity| |].
    + intros slot [_ Hc]. unfold cp_conn in Hc. simpl in Hc.
      rewrite list_lookup_total_alt, lookup_replicate_2 in Hc; [discriminate Hc|].
      pose proof MINIWEB_MAX_CONNECTIONS_val. lia.
    + exact demo_accepts.
  - reflexivity.
Qed.

Lemma demo_iteration :
  worker_iteration demo_recv (λ _, true) (λ _, 102%Z) eager_kernel 5 3 demo_reg demo_conf demo_handlers 0 0 demo_accepted
  = Some demo_answered.
Proof.
  unfold demo_answered. destruct (worker_iteration _ _ _ _ _ _ _ _ _ _ _ _) eqn:E; [done|].
  apply (f_equal (λ o, match o with Some _ => true | None => false end)) in E. vm_compute in E. discriminate E.
Qed.

Lemma demo_session :
  session eager_kernel 5 demo_conf (Some demo_conf) empty_registry demo_handlers (site_fits demo_env demo_globals) 0
    demo_accepted demo_answered.
Proof.
  destruct demo_connected as (_ & Hfd & _). destruct demo_counted as (Ha & _).
  eapply (session_turn _ _ _ _ _ _ _ _ _ _ _ demo_recv (λ _, true) (λ _, 102%Z) 3 0); [| | | |constructor].
  - intros t n d. unfold demo_recv. destruct (_ && _) eqn:E; [|discriminate]. intros [= <-].
    apply andb_true_iff in E as [_ E]. by apply Nat.leb_le.
  - intros rh req Hreq text Htext.
    assert (match iteration_request demo_conf (Some demo_conf) empty_registry demo_recv (λ _, 102%Z) 0 0 demo_accepted with
            | Some (rh, req) =>
                match site_text demo_env demo_globals rh req (ws_h demo_accepted) with
                | Some text => length text <=? 100 | None => true end
            | None => true end = true) as H by (vm_compute; reflexivity).
    rewrite Hreq, Htext in H. apply Nat.leb_le in H. lia.
  - exact demo_iteration.
  - rewrite Hfd. exact Ha.
Qed.


Example the_client_reads :
  client_reads 1 (w_wire (hworld (ws_h demo_answered))) = Some [qs "{'packages':['vim-9.1']}"].
Proof. vm_compute. reflexivity. Qed.
